(* ===== verification/_CoqProject ===== *)
-Q . S2P
Prelude.v
F64.v
F64Theory.v
F64Exact.v
Crypto.v
CryptoTheory.v
Models.v
Accounting.v
Instances.v
ModelsProps.v
Config.v
ConfigProps.v
Decimal.v
Canonical.v
Agreement.v
Text.v
Host.v
HostWindows.v
Inference.v
InferenceProps.v
Http.v
HttpProps.v
HostProps.v
LlamaServer.v
LlamaProps.v
Ledger.v
LedgerTheory.v
LedgerProps.v
LedgerFile.v
Binding.v
Validation.v
ValidationTheory.v
ValidationProps.v
Protocol.v
ProtocolTheory.v
ProtocolInv.v
ProtocolReorg.v
ProtocolSteps.v
ProtocolGrowth.v
Committee.v
ProtocolSync.v
ProtocolProps.v
Decode.v
Rewards.v
RewardsProps.v
Identity.v
IdentityProps.v
Network.v
NetworkProps.v
Gossip.v
Discovery.v
Transport.v
Coordinator.v
CoordinatorSteps.v
CoordinatorProps.v
CoordinatorDemo.v
Api.v
ApiProps.v
ApiDemo.v
Routes.v
Simulation.v
SimulationProps.v
SimulationDemo.v
Fanout.v
Console.v
TestsUnit.v
TestsInference.v
TestsConsensus.v
TestsNode.v
Main.v
