(* ===== verification/Prelude.v ===== *)
(** * exodus: a verification development

exodus is a peer-to-peer network that shares AI compute.  A node signs claims about the work
it did, gossips them, and seals them with its peers into the blocks of a ledger; the ledger
determines the rewards.  This library models the node and proves what makes it correct.

** The program and its models

All source paths are under [src/src/] of the repository.

- [crypto.rs] is [Crypto]: canonical (Python-compatible) JSON, hex, base32, hashing, signing,
  node ids.  SHA-256, Ed25519 and [ryu] are the fields of the class [Crypto], with the laws
  the program relies on in [CryptoLaws].  [CryptoTheory] has the codec lemmas.
- [models.rs] and [consensus/topics.rs] are [Models]: the structs as records, the enums as
  inductive types, the [Serialize] derives as functions to JSON values, block and proposal
  hashes, signature creation and verification.  The JSON text layer and the decoding of stored
  blocks are the class [Serde] with its round-trip laws; what the attributes on the structs ask of
  the [Deserialize] derives is the module [Derived] of [Decode].
- [accounting.rs] is [Accounting], on the binary64 arithmetic of [F64].
- [ledger.rs] is [Ledger]: the SQLite store as two tables with the constraints of the schema;
  [append] and [rollback] map a store to a store or an error, the reads are queries.  The
  abstract specification is a list of checkpoints, [valid_chain] and [extends]; [store_of]
  maps it to tables.  [LedgerFile] is the opening of a database file, step by step, with the
  error each step may end with and the migration of files of older versions.
- [consensus/validation.rs] is [Validation].
- [consensus/protocol.rs] is [Protocol]: the state record [ProtocolState], one function per
  handler on the pair of the protocol state and the store, and the entry points of
  [ConsensusProtocol], which return the messages they publish.  The mutex of the code makes
  each entry point atomic, so [ProtocolSteps] takes an execution to be a sequence of entry
  points: the relation [step], and [reachable] from the state [new] builds.
- [config.rs] is [Config]; [rewards.rs] is [Rewards]; [identity.rs] is [Identity];
  [network/local.rs], [network/tcp.rs] and [network/transport.rs] are [Network], with the
  background tasks (discovery, reconnection) in [Discovery].  [Gossip] puts the TCP transports
  of several nodes together: a network of connections whose write tasks and readers make one
  step at a time, in any order.  [Transport] is the trait the node is written against, as a
  class with the laws of both transports, and what [connect] and [disconnect] do with it.
- [gpu.rs] and [system.rs] are [Host]: the readers of [nvidia-smi] and [/proc], for Linux, over
  the class [HostOs] of what the files and commands hold; [HostWindows] has the Windows branch,
  over the class [Kernel32], and the one of other systems.  [Text] has the string functions.
- [inference.rs] is [Inference]: prompts, the run of the external program as the sequence of
  polls of its process with the joins of the threads that read its pipes, what is read off a
  model's name, estimates.
- [llama_server.rs] is [Http], the client on byte streams, and [LlamaServer], the life cycle of
  the server process; what sockets and processes answer is an argument.
- [coordinator.rs] is [Decode], the decoding of messages, and [Coordinator]: the whole state of
  a node and one function per method; the threads of the code are separate steps, and
  [CoordinatorSteps] takes an execution of a node ([node_run]) to be any sequence of them.
  [Fanout] is a distributed inference request between several nodes, start to end, as threads
  that take steps in any order.
- [api.rs] is [Agreement], the choice among the replies of several nodes, [Api], the
  handlers (a chat is split where it waits), and [Routes], the table of routes and the dispatch
  of a request to its handler; the matching of paths is the class [Router] with its laws.
- [simulation.rs] is [Simulation]: several coordinators over one transport, whose nested
  handler calls are executed in order.  [main.rs] is [Main], the commands in a
  monad on the data directory, which keeps what a panicking command has written, and [Console],
  what they print.
- The unit tests inside the source files are [TestsUnit], [TestsInference], [TestsConsensus] and
  [TestsNode]: each test is a Boolean function of the model under its own name, and every one
  of them is evaluated to true, so the model does what the authors check their code for.  Of
  [multi_node_simulations_converge] a smaller run is evaluated.

The components meet as in the code: [Protocol] calls [Validation] and [Ledger], [Validation]
reads [Ledger], [Ledger] calls [Accounting] and [Models], [Rewards] replays [Ledger];
[Coordinator] drives [Protocol], [Inference] and [LlamaServer], decodes what arrives with
[Decode] and is driven by [Api], [Simulation] and [Main]; what it publishes is carried by
[Network].  The classes [Crypto], [Serde], [Env] (clocks, hash-map iteration order, the [SUM]
of SQLite), [RewardEnv], [ProcessEnv], [Wire], [HostOs], [Runtime], [Unicode], [CharTables],
[JsonText], [PrettyText], [Kernel32], [Router] and [Decoders] are the interfaces to code that is not in the repository and to the
machine.  [Instances] and the demonstration modules instantiate them with executable functions
that satisfy the laws, so that every theorem with hypotheses is applied to a concrete input;
[SimulationDemo] runs a network of two nodes from key generation to equal ledgers.

** What is proved

- Ledger ([LedgerTheory], [LedgerProps]): [append] refines the abstract ledger; each error
  names a violated condition; what is written is read back; [rollback] leaves a valid prefix;
  the audit [verify_chain] decides exactly the stated conditions on arbitrary tables.
- Validation ([ValidationTheory], [ValidationProps]): exactly which proposals and checkpoints
  are accepted, and what is left to the ledger.
- Protocol ([ProtocolTheory], [ProtocolInv], [ProtocolReorg], [ProtocolSteps],
  [ProtocolGrowth], [ProtocolSync], [Committee], [ProtocolProps]): an invariant of every
  reachable state under arbitrary well-formed messages, from which follow the soundness of the
  ledger, the bounds of the queues, the authenticity of what is kept and published, and that
  views stay ahead of epochs; that the ledger only grows outside of reorganisations; how
  reorganisations end; that a node behind catches up; fair rotation of the sealer; the
  intersection of quorums.
- Files ([LedgerFile], [IdentityProps]): opening a ledger loses nothing, whichever step fails,
  and an old file becomes the same chain with the quorum column; the identity persists, and a
  write that stops halfway never yields another key.
- Models, rewards, configuration, network ([ModelsProps], [RewardsProps], [ConfigProps],
  [NetworkProps]): round trips of the codecs, rewards as a replay of the ledger, machine ranges
  and defaults of the configuration, transparent framing, duplicate suppression and delivery of
  frames.
- Gossip and subscriptions ([Gossip], [Transport]): in a connected network at rest, whatever the
  order of the transmissions, a message stops circulating after a bounded number of them and
  has then been delivered to every node exactly once; a node hears its topics, each with its
  handler, and only those, over either transport.
- Host ([HostProps]): the processor load is a percentage for counters that only grow, the memory
  report is consistent, and reports in the formats of the kernel and of [nvidia-smi] are read
  back.
- Canonical JSON ([Decimal], [Canonical], [Binding]): the printing of values is injective, so the
  signed bytes determine a claim with finite floats, and the hash of the head determines the
  proposals and signatures of the whole ledger unless SHA-256 collides on the hashed texts; both
  under the documented property of Ryu that its output reads back.
- Inference ([InferenceProps], [HttpProps], [LlamaProps]): how a completion ends, exactly when
  it waits for ever and when it succeeds; size and precision read off names; estimates pass the plausibility check; the HTTP
  client reads every framing of a body back; one server process at most, owned by the node.
- Whole nodes ([Decode], [CoordinatorProps], [Discovery]): messages survive the wire between the
  derives, and unknown fields are refused; a node is an execution of the protocol whatever arrives, so all invariants hold of it; the workers are
  bounded; requests cannot leave the models directory; completed work becomes a claim; one
  connection loop per discovered address; reconnection backs off.  [Fanout]: however the
  threads interleave, a distributed request is answered by every peer, once, and every permit is
  given back.
- Interface ([Agreement], [ApiProps], [Routes]): the table of routes is
  the documented one; reading requests
  change neither ledger nor files; which reply is chosen, and that rounding never
  decides a vote; each peer counts once; a chat always
  answers with a text; uploads are atomic; event streams leave no hooks behind; no call takes a
  node out of its executions or spoils its health report.
- Networks and commands ([SimulationProps], [Main]): agreement that the simulation reports is real;
  the random generator never gets stuck; a data directory stays one a node may start from unless
  its identity is torn, and [status] prints what it holds; the fixed-point notation is accurate ([Console]).
- Floating point ([F64Theory], [F64Exact]): bounds on the results of bounded computations;
  integers below [2^53] are exact, and a rounded quotient of such integers reaches one half exactly
  when the exact one does.
- Some theorems state what the code does where this differs from its comments or its
  evident intent: [audit_ignores_proposal_link], [one_key_fills_quorum],
  [failed_reorg_shortens_chain], [last_epoch_ends_chain], [plausibility_gaps],
  [infinite_credits_wrap_tier], [mismatched_identity_loads], [restart_reuses_sequence],
  [token_limit_panics], [infinite_timeout_panics], [held_pipe_outlasts_deadline], [wide_tag_misread], [adopts_by_suffix],
  [negative_timeout_panics], [flush_failure_ignored], [untimed_completion_refused],
  [known_announcements_starve], [anonymous_frames_circulate], [echoes_deafen_origin],
  [smi_failure_is_device], [process_rss_in_gigabytes], [cpu_usage_underflows],
  [negative_period_panics], the case of the limit zero in [ledger_answer_size] and the last
  part of [quorum_intersection].

** Conventions, bounds and fuel

Strings and byte vectors are lists of 8-bit characters ([string]), integers are [Z] with the
wrap-around of their width written out where it can occur, [f64] is the executable binary64
of the Standard Library.  Hash maps and sets are finite maps and sets; where the code depends
on their iteration order the order is a parameter, and where it sorts afterwards the result
is proved independent of it.  Loops that wait for the outside (a process, a socket) recurse on
the list of what they observe.  Fuel is used in a few loops and is always enough but for the
last: [drop_lowest] and [evict] get the size of the map they shrink, [b32_drain] the number of
bits, [read_loop] the length of the stream (each turn consumes five bytes or more),
[params_scan] the length of the name, [read_headers] and [read_chunks] one more than the length
of the stream.  [run_calls] of the simulation takes its fuel as an argument and reports when it
runs out, since nothing in the source bounds how long the messages of the nodes answer each
other; no property rests on it: the one on the report of a simulation holds of nodes in any
execution.  [settle] of [Fanout] picks one schedule for the examples; the theorem is about all.

** What is not modelled

The log output, the parsing of the command line, the matching of paths and the decoding of
requests by the web framework, the I/O errors of SQLite after a database is open, sockets and
timers (what they deliver is an argument or the choice of a step), memory shared between threads
below the granularity of the locks, the HTTP client of the end-to-end test, and the branch of
[default_data_dir] for Windows.  Next in the plan: the termination of the message exchange between
nodes, so that the fuel of the simulation can be bounded. *)

From stdpp Require Export base gmap strings list sets fin_maps pretty sorting.
From Stdlib Require Export ZArith.
From Stdlib Require Strings.String Strings.Ascii.
From Stdlib Require Structures.OrdersEx.
Export (notations) Strings.Ascii.
Export Strings.Ascii (ascii, Ascii, N_of_ascii, ascii_of_N, N_ascii_bounded, N_ascii_embedding, ascii_N_embedding).

#[global] Open Scope Z_scope.

(** ** Scope, automation databases *)

Declare Scope exodus_scope.
Delimit Scope exodus_scope with ex.
#[global] Open Scope exodus_scope.

Create HintDb exodus.
Create Rewrite HintDb exodus_rw.

(** ** Results

Rust's [Result<T, E>]. *)

Inductive result (A E : Type) : Type :=
| Ok (a : A)
| Err (e : E).
Arguments Ok {A E} _.
Arguments Err {A E} _.

Definition is_ok {A E} (r : result A E) : bool :=
  match r with Ok _ => true | Err _ => false end.

(** The [?] operator. *)
Definition rbind {A B E} (r : result A E) (k : A -> result B E) : result B E :=
  match r with Ok a => k a | Err e => Err e end.

Notation "x <-? r ;; k" := (rbind r (fun x => k))
  (at level 100, r at next level, right associativity) : exodus_scope.
Notation "' x <-? r ;; k" := (rbind r (fun x => k))
  (at level 20, x pattern, r at level 99, k at level 200, only parsing) : exodus_scope.

Lemma rbind_ok {A B E} (r : result A E) (k : A -> result B E) b :
  rbind r k = Ok b <-> exists a, r = Ok a /\ k a = Ok b.
Proof.
  destruct r; simpl; split; [eauto|intros (? & [= ->] & ?); done|done|intros (? & [=] & _)].
Qed.

#[export] Instance result_eq_dec {A E} `{EqDecision A, EqDecision E} : EqDecision (result A E).
Proof. solve_decision. Defined.

(** ** Tactics *)

(** Split the conditionals and matches of hypothesis [H], closing impossible branches. *)
Ltac inv_match H :=
  repeat (match type of H with
          | context [match ?x with _ => _ end] =>
              destruct x eqn:?; simplify_eq/=; try discriminate
          end).

(** Turn boolean tests in the context into propositions. *)
Ltac bool_prop :=
  repeat match goal with
  | H : (_ && _)%bool = true |- _ => apply andb_true_iff in H as [? ?]
  | H : (_ && _)%bool = false |- _ => apply andb_false_iff in H
  | H : (_ || _)%bool = true |- _ => apply orb_true_iff in H
  | H : (_ || _)%bool = false |- _ => apply orb_false_iff in H as [? ?]
  | H : negb _ = true |- _ => apply negb_true_iff in H
  | H : negb _ = false |- _ => apply negb_false_iff in H
  | H : (_ =? _)%Z = true |- _ => apply Z.eqb_eq in H
  | H : (_ =? _)%Z = false |- _ => apply Z.eqb_neq in H
  | H : (_ <? _)%Z = true |- _ => apply Z.ltb_lt in H
  | H : (_ <? _)%Z = false |- _ => apply Z.ltb_ge in H
  | H : (_ <=? _)%Z = true |- _ => apply Z.leb_le in H
  | H : (_ <=? _)%Z = false |- _ => apply Z.leb_gt in H
  | H : (_ =? _)%string = true |- _ => apply String.eqb_eq in H
  | H : (_ =? _)%string = false |- _ => apply String.eqb_neq in H
  | H : bool_decide _ = true |- _ => apply bool_decide_eq_true in H
  | H : bool_decide _ = false |- _ => apply bool_decide_eq_false in H
  end.

(** ** Machine integers *)

Definition i64_min : Z := - 2 ^ 63.
Definition i64_max : Z := 2 ^ 63 - 1.
Definition in_i64 (z : Z) : bool := (i64_min <=? z) && (z <=? i64_max).
Definition in_u64 (z : Z) : bool := (0 <=? z) && (z <? 2 ^ 64).

(** Two's complement wrap-around, the arithmetic of the release build. *)
Definition wrap_i64 (z : Z) : Z := (z + 2 ^ 63) mod 2 ^ 64 - 2 ^ 63.
Definition wrap_u64 (z : Z) : Z := z mod 2 ^ 64.
Definition wrap_u32 (z : Z) : Z := z mod 2 ^ 32.

(** [Vec::len] and [HashMap::len] as a [usize]. *)
Definition usize_len {A} (l : list A) : Z := wrap_u64 (Z.of_nat (length l)).

Lemma wrap_u64_range z : in_u64 (wrap_u64 z) = true.
Proof.
  unfold in_u64, wrap_u64. pose proof (Z.mod_pos_bound z (2 ^ 64) ltac:(lia)). lia.
Qed.

Lemma wrap_u64_le z : 0 <= z -> wrap_u64 z <= z.
Proof. intros. apply Z.mod_le; lia. Qed.

Lemma in_i64_spec z : in_i64 z = true <-> i64_min <= z <= i64_max.
Proof. unfold in_i64. rewrite andb_true_iff, !Z.leb_le. done. Qed.

Lemma wrap_i64_id z : in_i64 z = true -> wrap_i64 z = z.
Proof.
  rewrite in_i64_spec. unfold wrap_i64, i64_min, i64_max. intros.
  rewrite Z.mod_small by lia. lia.
Qed.

Lemma wrap_i64_range z : in_i64 (wrap_i64 z) = true.
Proof.
  rewrite in_i64_spec. unfold wrap_i64, i64_min, i64_max.
  pose proof (Z.mod_pos_bound (z + 2 ^ 63) (2 ^ 64) ltac:(lia)). lia.
Qed.

(** ** Bytes and strings

A Rust [String] and a [Vec<u8>] are both a sequence of bytes: they are modelled by
[string], a list of 8-bit [ascii] characters, so that [as_bytes] is the identity.
Comparison of Rust strings is byte-wise lexicographic, as [String.compare]. *)

Abbreviation bytes := string (only parsing).

Definition byte_val (a : ascii) : Z := Z.of_N (N_of_ascii a).
Definition byte_of (z : Z) : ascii := ascii_of_N (Z.to_N (z mod 256)).

Lemma byte_val_range a : 0 <= byte_val a < 256.
Proof. unfold byte_val. pose proof (N_ascii_bounded a). lia. Qed.

Lemma byte_of_val a : byte_of (byte_val a) = a.
Proof.
  unfold byte_of. rewrite Z.mod_small by apply byte_val_range.
  unfold byte_val. rewrite N2Z.id. apply ascii_N_embedding.
Qed.

Lemma byte_val_of z : 0 <= z < 256 -> byte_val (byte_of z) = z.
Proof.
  intros. unfold byte_of, byte_val. rewrite Z.mod_small by lia.
  rewrite N_ascii_embedding by lia. lia.
Qed.

Lemma byte_val_inj a b : byte_val a = byte_val b -> a = b.
Proof. intros H. rewrite <- (byte_of_val a), <- (byte_of_val b). by rewrite H. Qed.

Definition str_len (s : string) : Z := Z.of_nat (String.length s).

(** The byte value of a character in the code, as [b'0']. *)
Notation "'ch' c" := (byte_val c%char) (at level 9, c at level 9) : exodus_scope.

Lemma string_app_nil_l s : ("" ++ s)%string = s.
Proof. reflexivity. Qed.

Lemma string_app_cons a s t : (String a s ++ t)%string = String a (s ++ t)%string.
Proof. reflexivity. Qed.

#[export] Hint Rewrite string_app_nil_l string_app_cons : exodus_rw.

Lemma string_app_nil_r s : (s ++ "")%string = s.
Proof. induction s; autorewrite with exodus_rw; congruence. Qed.

Lemma string_app_assoc s1 s2 s3 : ((s1 ++ s2) ++ s3)%string = (s1 ++ (s2 ++ s3))%string.
Proof. induction s1; autorewrite with exodus_rw; congruence. Qed.

Lemma string_app_inj_l s t u : (s ++ t = s ++ u)%string -> t = u.
Proof. induction s; autorewrite with exodus_rw; [done|]. intros [= ?]. auto. Qed.

(** Equal concatenations with first parts of one length split. *)
Lemma string_app_inj_len s1 s2 t1 t2 :
  String.length s1 = String.length s2 ->
  (s1 ++ t1 = s2 ++ t2)%string -> s1 = s2 /\ t1 = t2.
Proof.
  revert s2. induction s1 as [|a s1 IH]; intros [|b s2]; simpl; try lia; [done|].
  autorewrite with exodus_rw.
  intros Hl [= -> Heq]. destruct (IH s2 ltac:(lia) Heq) as [-> ->]. done.
Qed.

Lemma string_length_app s t :
  String.length (s ++ t) = (String.length s + String.length t)%nat.
Proof. induction s; autorewrite with exodus_rw; simpl; lia. Qed.

(** ** String order *)

Definition string_le (a b : string) : bool := String.leb a b.
Definition string_lt (a b : string) : bool := String.ltb a b.

Lemma string_compare_refl s : String.compare s s = Eq.
Proof.
  pose proof (String.compare_antisym s s). destruct (String.compare s s); done.
Qed.

Lemma string_le_refl s : string_le s s = true.
Proof. unfold string_le, String.leb. by rewrite string_compare_refl. Qed.

Lemma string_lt_irrefl s : string_lt s s = false.
Proof. unfold string_lt, String.ltb. by rewrite string_compare_refl. Qed.

Lemma string_le_total a b : string_le a b = true \/ string_le b a = true.
Proof. apply String.leb_total. Qed.

Lemma string_le_antisym a b : string_le a b = true -> string_le b a = true -> a = b.
Proof. apply String.leb_antisym. Qed.

Lemma string_lt_trans a b c :
  string_lt a b = true -> string_lt b c = true -> string_lt a c = true.
Proof.
  unfold string_lt, String.ltb. intros H1 H2.
  destruct (String.compare a b) eqn:E1; try done.
  destruct (String.compare b c) eqn:E2; try done.
  pose proof (StrictOrder_Transitive (R := OrdersEx.String_as_OT.lt) a b c E1 E2) as E3.
  change (String.compare a c = Lt) in E3. by rewrite E3.
Qed.

Lemma string_le_lt_eq a b : string_le a b = true <-> string_lt a b = true \/ a = b.
Proof.
  unfold string_le, string_lt, String.leb, String.ltb. split.
  - destruct (String.compare a b) eqn:E; auto. right. by apply String.compare_eq_iff.
  - intros [H| ->]; [by destruct (String.compare a b)|by rewrite string_compare_refl].
Qed.

Lemma string_le_trans a b c :
  string_le a b = true -> string_le b c = true -> string_le a c = true.
Proof.
  rewrite !string_le_lt_eq. intros [H1| ->] [H2| ->]; eauto using string_lt_trans.
Qed.

Lemma string_lt_le_false a b : string_lt a b = negb (string_le b a).
Proof.
  unfold string_lt, string_le, String.ltb, String.leb.
  rewrite (String.compare_antisym b a). by destruct (String.compare a b).
Qed.

(** ** Sorting

Rust's [sort], [sort_by] and [sort_by_key] are stable sorts; [sort_by le] is a stable
insertion sort for the order test [le] ("not greater"). *)

Section Sort.
Context {A : Type} (le : A -> A -> bool).

Fixpoint insert_by (x : A) (l : list A) : list A :=
  match l with
  | [] => [x]
  | y :: l' => if le x y then x :: y :: l' else y :: insert_by x l'
  end.

Definition sort_by (l : list A) : list A := foldr insert_by [] l.

Lemma insert_by_perm x l : insert_by x l ≡ₚ x :: l.
Proof.
  induction l as [|y l IH]; simpl; [done|]. destruct (le x y); [done|].
  rewrite IH. apply Permutation_swap.
Qed.

Lemma sort_by_perm l : sort_by l ≡ₚ l.
Proof. induction l as [|x l IH]; simpl; [done|]. by rewrite insert_by_perm, IH. Qed.

Lemma elem_of_sort_by x l : x ∈ sort_by l <-> x ∈ l.
Proof. by rewrite sort_by_perm. Qed.

Lemma length_sort_by l : length (sort_by l) = length l.
Proof. by rewrite sort_by_perm. Qed.

Lemma NoDup_sort_by l : NoDup (sort_by l) <-> NoDup l.
Proof. by rewrite sort_by_perm. Qed.

Hypothesis le_total : forall x y, le x y = true \/ le y x = true.
Hypothesis le_trans : forall x y z, le x y = true -> le y z = true -> le x z = true.

Lemma insert_by_sorted x l :
  StronglySorted (fun a b => le a b = true) l ->
  StronglySorted (fun a b => le a b = true) (insert_by x l).
Proof using le_total le_trans.
  induction 1 as [|y l Hs IH Hall]; simpl; [by repeat constructor|].
  destruct (le x y) eqn:E.
  - constructor; [by constructor|]. constructor; [done|].
    eapply Forall_impl; [exact Hall|]. eauto.
  - constructor; [done|]. rewrite insert_by_perm. constructor; [|done].
    destruct (le_total x y); congruence.
Qed.

Lemma sort_by_sorted l : StronglySorted (fun a b => le a b = true) (sort_by l).
Proof using le_total le_trans. induction l; simpl; [constructor|by apply insert_by_sorted]. Qed.
End Sort.

Lemma insert_by_head {A} (le : A -> A -> bool) x l :
  Forall (fun y => le x y = true) l -> insert_by le x l = x :: l.
Proof. destruct 1 as [|y l H]; simpl; [done|by rewrite H]. Qed.

Lemma sort_by_id {A} (le : A -> A -> bool) l :
  StronglySorted (fun a b => le a b = true) l -> sort_by le l = l.
Proof.
  induction 1 as [|x l Hs IH Hall]; simpl; [done|]. rewrite IH. by apply insert_by_head.
Qed.

(** Sorting by an antisymmetric order does not depend on the order of the input: this is
why iterating a hash map before sorting is deterministic. *)
Lemma sort_by_unique {A} (le : A -> A -> bool) l1 l2 :
  (forall x y, le x y = true \/ le y x = true) ->
  (forall x y z, le x y = true -> le y z = true -> le x z = true) ->
  (forall x y, x ∈ l1 -> y ∈ l1 -> le x y = true -> le y x = true -> x = y) ->
  l1 ≡ₚ l2 -> sort_by le l1 = sort_by le l2.
Proof.
  intros Ht Htr Ha Hp.
  pose proof (sort_by_sorted le Ht Htr l1) as S1.
  pose proof (sort_by_sorted le Ht Htr l2) as S2.
  assert (Hp' : sort_by le l1 ≡ₚ sort_by le l2) by by rewrite !sort_by_perm.
  assert (Ha' : forall x y, x ∈ sort_by le l1 -> y ∈ sort_by le l1 ->
             le x y = true -> le y x = true -> x = y)
    by (intros x y; rewrite !elem_of_sort_by; apply Ha).
  clear Hp Ha. revert S1 S2 Hp' Ha'. generalize (sort_by le l1) (sort_by le l2).
  intros l l'. revert l'. induction l as [|x l IH]; intros l' S1 S2 Hp Ha.
  { by apply Permutation_nil_l in Hp as ->. }
  destruct l' as [|y l']; [by apply Permutation_nil_r in Hp|].
  inversion S1 as [|? ? S1' F1]; inversion S2 as [|? ? S2' F2]; subst.
  rewrite Forall_forall in F1, F2.
  assert (x = y) as ->.
  { assert (x ∈ y :: l') as Hx by (rewrite <- Hp; left).
    assert (y ∈ x :: l) as Hy by (rewrite Hp; left).
    apply elem_of_cons in Hx as [->|Hx]; [done|].
    apply elem_of_cons in Hy as [->|Hy]; [done|].
    apply Ha; [left|by right|by apply F1|by apply F2]. }
  f_equal. apply IH; auto.
  - by apply Permutation_cons_inv in Hp.
  - intros a b ??. apply Ha; by right.
Qed.

Definition sort_strings : list string -> list string := sort_by string_le.

Lemma sort_strings_sorted l :
  StronglySorted (fun a b => string_le a b = true) (sort_strings l).
Proof. apply sort_by_sorted; [apply string_le_total|apply string_le_trans]. Qed.

(** ** Ranges and association lists *)

(** The values of [lo ..= hi]. *)
Definition zrange (lo hi : Z) : list Z := seqZ lo (hi - lo + 1).

Lemma elem_of_zrange x lo hi : x ∈ zrange lo hi <-> lo <= x <= hi.
Proof. unfold zrange. rewrite elem_of_seqZ. lia. Qed.

(** The value bound to a key in an association list. *)
Fixpoint assoc {V} (k : string) (l : list (string * V)) : option V :=
  match l with
  | [] => None
  | (k', v) :: l' => if String.eqb k k' then Some v else assoc k l'
  end.

(** First element that passes a test. *)
Fixpoint find_first {A} (p : A -> bool) (l : list A) : option A :=
  match l with
  | [] => None
  | x :: l' => if p x then Some x else find_first p l'
  end.

Lemma find_first_Some {A} (p : A -> bool) l x :
  find_first p l = Some x -> x ∈ l /\ p x = true.
Proof.
  induction l as [|y l IH]; simpl; [done|]. destruct (p y) eqn:E.
  - intros [= ->]. split; [left|done].
  - intros H. destruct (IH H). split; [by right|done].
Qed.

Lemma find_first_None {A} (p : A -> bool) l :
  find_first p l = None <-> forall x, x ∈ l -> p x = false.
Proof.
  induction l as [|y l IH]; simpl.
  - split; [intros _ x Hx; by apply elem_of_nil in Hx|done].
  - destruct (p y) eqn:E.
    + split; [done|]. intros H. specialize (H y ltac:(left)). congruence.
    + rewrite IH. split.
      * intros H x [->|Hx]%elem_of_cons; auto.
      * intros H x Hx. apply H. by right.
Qed.

(** ** Filters and duplicate-free lists *)

Lemma filter_all {A} (P : A -> Prop) `{!forall x, Decision (P x)} (l : list A) :
  Forall P l -> filter P l = l.
Proof.
  induction 1 as [|x l Hx Hl IH]; [done|]. rewrite filter_cons_True by done. by f_equal.
Qed.

Lemma filter_none {A} (P : A -> Prop) `{!forall x, Decision (P x)} (l : list A) :
  Forall (fun x => ~ P x) l -> filter P l = [].
Proof. induction 1 as [|x l Hx Hl IH]; [done|]. by rewrite filter_cons_False. Qed.

Lemma NoDup_snoc {A} (l : list A) x : NoDup (l ++ [x]) <-> NoDup l /\ x ∉ l.
Proof.
  rewrite NoDup_app. split.
  - intros (? & Hd & _). split; [done|]. intros Hx. apply (Hd x Hx). left.
  - intros [? Hx]. split; [done|]. split; [|apply NoDup_singleton].
    by intros y Hy ->%list_elem_of_singleton.
Qed.

Lemma NoDup_app_cons_r {A} (l : list A) x k :
  NoDup (l ++ x :: k) <-> (x ∉ l) /\ NoDup ((l ++ [x]) ++ k).
Proof.
  rewrite <- app_assoc. simpl. split; [|by intros [_ ?]].
  intros Hn. split; [|done]. apply NoDup_app in Hn as (_ & Hd & _).
  intros Hx. apply (Hd x Hx). left.
Qed.

Lemma NoDup_fmap_app_l {A B} (f : A -> B) l k : NoDup (f <$> l ++ k) -> NoDup (f <$> l).
Proof. rewrite fmap_app. by intros [? _]%NoDup_app. Qed.

Lemma NoDup_fmap_snoc {A B} (f : A -> B) l x :
  NoDup (f <$> l ++ [x]) <-> NoDup (f <$> l) /\ f x ∉ (f <$> l).
Proof. rewrite fmap_app. apply NoDup_snoc. Qed.

Lemma bind_ext_elem {A B} (f g : A -> list B) l :
  (forall x, x ∈ l -> f x = g x) -> l ≫= f = l ≫= g.
Proof.
  induction l as [|x l IH]; intros Hfg; [done|]. cbn. rewrite (Hfg x) by left.
  f_equal. apply IH. intros y Hy. apply Hfg. by right.
Qed.
