(* ===== verification/F64.v ===== *)
(** * IEEE 754 binary64 arithmetic

Rust's [f64]: the executable specification of binary floating point of the Standard
Library ([SpecFloat]) at precision 53 and maximal exponent 1024, with the comparison,
conversion and rounding operations the program uses.  The library functions [powf],
[log2] and the shortest-decimal printer are not here: their results are not specified
bit by bit, and they are parameters of the components that call them. *)

From S2P Require Import Prelude.
From Stdlib Require Import Floats.SpecFloat.

Abbreviation f64 := spec_float.

Definition f64_prec : Z := 53.
Definition f64_emax : Z := 1024.

(** [z as f64] for an integer [z], rounded to nearest even. *)
Definition f64_of_Z (z : Z) : f64 := binary_normalize f64_prec f64_emax z 0 false.

Definition f64_add : f64 -> f64 -> f64 := SFadd f64_prec f64_emax.
Definition f64_sub : f64 -> f64 -> f64 := SFsub f64_prec f64_emax.
Definition f64_mul : f64 -> f64 -> f64 := SFmul f64_prec f64_emax.
Definition f64_div : f64 -> f64 -> f64 := SFdiv f64_prec f64_emax.
Definition f64_abs : f64 -> f64 := SFabs.

Definition f64_eq : f64 -> f64 -> bool := SFeqb.
Definition f64_lt : f64 -> f64 -> bool := SFltb.
Definition f64_le : f64 -> f64 -> bool := SFleb.
Definition f64_gt (a b : f64) : bool := f64_lt b a.
Definition f64_ge (a b : f64) : bool := f64_le b a.

(** A decimal literal [num / den] with both parts exactly representable: the correctly
rounded quotient is the nearest double of the literal. *)
Definition f64_lit (num den : Z) : f64 := f64_div (f64_of_Z num) (f64_of_Z den).

Definition f64_0 : f64 := S754_zero false.
Definition f64_1 : f64 := Eval vm_compute in f64_of_Z 1.

Definition is_nan (x : f64) : bool := match x with S754_nan => true | _ => false end.
Definition is_infinite (x : f64) : bool :=
  match x with S754_infinity _ => true | _ => false end.
Definition is_finite (x : f64) : bool :=
  match x with S754_zero _ | S754_finite _ _ _ => true | _ => false end.
Definition is_sign_negative (x : f64) : bool :=
  match x with
  | S754_zero s | S754_infinity s | S754_finite s _ _ => s
  | S754_nan => false
  end.

(** [f64::min] and [f64::max]: a NaN argument yields the other one. *)
Definition f64_min (a b : f64) : f64 :=
  if is_nan a then b else if is_nan b then a else if f64_le a b then a else b.
Definition f64_max (a b : f64) : f64 :=
  if is_nan a then b else if is_nan b then a else if f64_ge a b then a else b.

(** Rounding of the magnitude [m * 2^e] to an integer. *)
Definition round_mag (ties : Z -> Z) (m : positive) (e : Z) : Z :=
  if 0 <=? e then Z.pos m * 2 ^ e
  else
    let d := 2 ^ (- e) in
    let q := Z.pos m / d in
    let r := Z.pos m mod d in
    if 2 * r <? d then q else if d <? 2 * r then q + 1 else ties q.

Definition round_with (ties : Z -> Z) (x : f64) : f64 :=
  match x with
  | S754_finite s m e =>
      if 0 <=? e then x
      else match round_mag ties m e with
           | 0 => S754_zero s
           | q => binary_normalize f64_prec f64_emax (cond_Zopp s q) 0 s
           end
  | _ => x
  end.

(** [f64::round_ties_even] and [f64::round] (halves away from zero). *)
Definition round_ties_even : f64 -> f64 :=
  round_with (fun q => if Z.even q then q else q + 1).
Definition f64_round : f64 -> f64 := round_with (fun q => q + 1).

(** The truncated integer value of a finite float. *)
Definition f64_trunc (x : f64) : Z :=
  match x with
  | S754_finite s m e =>
      cond_Zopp s (if 0 <=? e then Z.pos m * 2 ^ e else Z.pos m / 2 ^ (- e))
  | _ => 0
  end.

(** [x as i64]: truncation, saturating, NaN to zero. *)
Definition f64_to_i64 (x : f64) : Z :=
  match x with
  | S754_infinity s => if s then i64_min else i64_max
  | _ => Z.max i64_min (Z.min i64_max (f64_trunc x))
  end.

(** Sum of a slice, as [Iterator::sum]. *)
Definition f64_sum (l : list f64) : f64 := foldl f64_add f64_0 l.

#[export] Instance f64_eq_dec : EqDecision f64.
Proof. solve_decision. Defined.

Lemma f64_lt_nan_l x : f64_lt S754_nan x = false.
Proof. done. Qed.

Lemma f64_lt_nan_r x : f64_lt x S754_nan = false.
Proof. by destruct x. Qed.

Lemma f64_to_i64_range x : in_i64 (f64_to_i64 x) = true.
Proof.
  apply in_i64_spec. unfold f64_to_i64.
  assert (i64_min <= i64_max) by (unfold i64_min, i64_max; lia).
  destruct x as [| [] | |]; lia.
Qed.

#[export] Hint Rewrite f64_lt_nan_l f64_lt_nan_r : exodus_rw.

(** Float operations are opaque to [simpl]. *)
#[global] Arguments is_nan : simpl never.
#[global] Arguments is_finite : simpl never.
#[global] Arguments is_infinite : simpl never.
#[global] Arguments f64_add : simpl never.
#[global] Arguments f64_sub : simpl never.
#[global] Arguments f64_mul : simpl never.
#[global] Arguments f64_div : simpl never.
#[global] Arguments f64_of_Z : simpl never.
#[global] Arguments f64_lit : simpl never.
#[global] Arguments f64_eq : simpl never.
#[global] Arguments f64_lt : simpl never.
#[global] Arguments f64_le : simpl never.
#[global] Arguments f64_gt : simpl never.
#[global] Arguments f64_ge : simpl never.
#[global] Arguments round_ties_even : simpl never.
