(* ===== verification/F64Theory.v ===== *)
(** * Magnitudes of binary64 numbers

[within B x]: [x] is finite and less than [2^B] in absolute value.  Sums, products and quotients
of such numbers are within bounds of their own, so results of bounded computations are finite. *)

From S2P Require Import Prelude F64.
From Stdlib Require Import Floats.SpecFloat.

Definition within (B : Z) (x : f64) : Prop :=
  match x with
  | S754_zero _ => True
  | S754_finite _ m e => Zdigits2 (Z.pos m) + e <= B
  | _ => False
  end.

Lemma within_finite B x : within B x -> is_finite x = true.
Proof. by destruct x. Qed.

Lemma within_le B B' x : within B x -> B <= B' -> within B' x.
Proof. destruct x; cbn -[Zdigits2]; [done..|lia]. Qed.

(** ** Digits *)

Lemma digits2_log2 p : Z.pos (digits2_pos p) = Z.log2 (Z.pos p) + 1.
Proof.
  induction p as [p IH|p IH|]; cbn [digits2_pos]; [..|done]; rewrite Pos2Z.inj_succ, IH.
  - rewrite (Pos2Z.inj_xI p), Z.log2_succ_double by lia. lia.
  - rewrite (Pos2Z.inj_xO p), Z.log2_double by lia. lia.
Qed.

Lemma digits2_le m k : 0 <= m < 2 ^ k -> 0 <= k -> Zdigits2 m <= k.
Proof.
  intros [H0 H1] Hk. destruct m as [|p|p]; [done| |lia]. cbn [Zdigits2]. rewrite digits2_log2.
  assert (Z.log2 (Z.pos p) < k) by (apply Z.log2_lt_pow2; lia). lia.
Qed.

Lemma digits2_bound m : 0 <= m -> m < 2 ^ Zdigits2 m.
Proof.
  intros H0. destruct m as [|p|p]; [done| |lia]. cbn [Zdigits2]. rewrite digits2_log2.
  pose proof (Z.log2_spec (Z.pos p) ltac:(lia)). rewrite Z.add_1_r. lia.
Qed.

Lemma digits2_nonneg m : 0 <= Zdigits2 m.
Proof. by destruct m. Qed.

Lemma digits2_pos_1 p : 1 <= Zdigits2 (Z.pos p).
Proof. cbn [Zdigits2]. lia. Qed.

(** A number below [2^B], cut at the exponent [e]. *)
Lemma digits2_at m e B : 0 < m -> Zdigits2 m + e <= B -> m < 2 ^ (B - e) /\ 0 <= B - e.
Proof.
  intros Hm Hd. pose proof (digits2_bound m ltac:(lia)). pose proof (digits2_nonneg m).
  split; [|lia]. apply Z.lt_le_trans with (2 ^ Zdigits2 m); [done|]. apply Z.pow_le_mono_r; lia.
Qed.

(** ** Shifts *)

Lemma shr_1_div r : 0 <= shr_m r -> shr_m (shr_1 r) = shr_m r / 2.
Proof.
  destruct r as [[|[p|p|]|p] b s]; cbn; intros H0; try done; try lia.
  - rewrite (Pos2Z.inj_xI p). apply Z.div_unique with 1; lia.
  - rewrite (Pos2Z.inj_xO p). apply Z.div_unique with 0; lia.
Qed.

Lemma iter_shr_1 p r : 0 <= shr_m r -> shr_m (iter_pos shr_1 p r) = shr_m r / 2 ^ Z.pos p.
Proof.
  revert r. induction p as [p IH|p IH|]; intros r H0; cbn [iter_pos].
  - assert (H1 : 0 <= shr_m (shr_1 r)) by (rewrite shr_1_div by done; by apply Z.div_pos).
    assert (H2 : 0 <= shr_m (iter_pos shr_1 p (shr_1 r)))
      by (rewrite IH by done; apply Z.div_pos; [done|apply Z.pow_pos_nonneg; lia]).
    rewrite IH, IH, shr_1_div by done.
    rewrite !Z.div_div by (try apply Z.pow_nonzero; try apply Z.mul_pos_pos; try apply Z.pow_pos_nonneg; lia).
    f_equal. rewrite (Pos2Z.inj_xI p), Z.pow_add_r, Z.pow_1_r by lia.
    replace (2 * Z.pos p) with (Z.pos p + Z.pos p) by lia. rewrite Z.pow_add_r by lia. lia.
  - assert (H2 : 0 <= shr_m (iter_pos shr_1 p r))
      by (rewrite IH by done; apply Z.div_pos; [done|apply Z.pow_pos_nonneg; lia]).
    rewrite IH, IH by done. rewrite Z.div_div by (try apply Z.pow_nonzero; try apply Z.pow_pos_nonneg; lia).
    f_equal. rewrite (Pos2Z.inj_xO p). replace (2 * Z.pos p) with (Z.pos p + Z.pos p) by lia.
    by rewrite Z.pow_add_r by lia.
  - by apply shr_1_div.
Qed.

Lemma shr_spec r e n r' e' :
  0 <= shr_m r -> shr r e n = (r', e') -> shr_m r' = shr_m r / 2 ^ Z.max 0 n /\ e' = e + Z.max 0 n.
Proof.
  intros H0. destruct n as [|p|p]; cbn [shr]; intros [= <- <-].
  - change (Z.max 0 0) with 0. rewrite Z.pow_0_r, Z.div_1_r. lia.
  - rewrite iter_shr_1 by done. rewrite Z.max_r by lia. done.
  - rewrite Z.max_l by lia. rewrite Z.pow_0_r, Z.div_1_r. lia.
Qed.

Lemma shr_record_m m l : shr_m (shr_record_of_loc m l) = m.
Proof. by destruct l as [|[]]. Qed.

Lemma fexp_eq k : fexp f64_prec f64_emax k = Z.max (k - 53) (-1074).
Proof. done. Qed.

(** Dropping digits: what is left is bounded by the number of digits left. *)
Lemma div_pow_bound m d n : 0 <= m < 2 ^ d -> 0 <= d -> 0 <= n -> 0 <= m / 2 ^ n < 2 ^ Z.max 0 (d - n).
Proof.
  intros [H0 H1] Hd Hn. split; [apply Z.div_pos; [done|by apply Z.pow_pos_nonneg]|].
  apply Z.div_lt_upper_bound; [by apply Z.pow_pos_nonneg|]. rewrite <- Z.pow_add_r by lia.
  apply Z.lt_le_trans with (2 ^ d); [done|]. apply Z.pow_le_mono_r; lia.
Qed.

Lemma round_even_bound m l : m <= round_nearest_even m l <= m + 1.
Proof. destruct l as [|[]]; cbn; try destruct (Z.even m); lia. Qed.

(** ** Rounding *)

Lemma within_round s m e l B :
  0 <= m -> Zdigits2 m + e <= B -> -1074 <= B <= 900 ->
  within (B + 1) (binary_round_aux f64_prec f64_emax s m e l).
Proof.
  intros Hm Hd HB. unfold binary_round_aux, shr_fexp. rewrite fexp_eq.
  pose proof (digits2_nonneg m) as Hdn. pose proof (digits2_bound m Hm) as Hmb.
  set (d := Zdigits2 m) in *. set (n := Z.max (d + e - 53) (-1074) - e).
  destruct (shr (shr_record_of_loc m l) e n) as [r1 e1] eqn:E1.
  apply shr_spec in E1 as [Em1 He1]; [|by rewrite shr_record_m]. rewrite shr_record_m in Em1.
  pose proof (div_pow_bound m d (Z.max 0 n) ltac:(lia) Hdn ltac:(lia)) as Hb1. rewrite <- Em1 in Hb1.
  pose proof (round_even_bound (shr_m r1) (loc_of_shr_record r1)) as Hr.
  set (m2 := round_nearest_even _ _) in *. rewrite fexp_eq.
  assert (Hd2 : Zdigits2 m2 + e1 <= B + 1).
  { assert (Hp : Zdigits2 m2 <= Z.max 0 (d - Z.max 0 n) + 1).
    { apply digits2_le; [|lia]. rewrite Z.pow_add_r, Z.pow_1_r by lia. lia. }
    lia. }
  pose proof (digits2_bound m2 ltac:(lia)) as Hm2. pose proof (digits2_nonneg m2) as Hd2n.
  set (d2 := Zdigits2 m2) in *. set (n2 := Z.max (d2 + e1 - 53) (-1074) - e1).
  destruct (shr (shr_record_of_loc m2 loc_Exact) e1 n2) as [r3 e3] eqn:E3.
  apply shr_spec in E3 as [Em3 He3]; [|cbn; lia]. cbn [shr_record_of_loc shr_m] in Em3.
  pose proof (div_pow_bound m2 d2 (Z.max 0 n2) ltac:(lia) Hd2n ltac:(lia)) as Hb3. rewrite <- Em3 in Hb3.
  destruct (shr_m r3) as [|p|p]; [done| |lia].
  assert (Hgt : 0 < d2 - Z.max 0 n2).
  { destruct (Z.le_gt_cases (d2 - Z.max 0 n2) 0) as [Hle|]; [|done].
    rewrite Z.max_l in Hb3 by done. rewrite Z.pow_0_r in Hb3. lia. }
  pose proof (digits2_le (Z.pos p) (d2 - Z.max 0 n2)) as Hp. rewrite Z.max_r in Hb3 by lia.
  specialize (Hp ltac:(lia) ltac:(lia)). pose proof (digits2_pos_1 p) as Hp1.
  change (f64_emax - f64_prec) with 971. rewrite (proj2 (Z.leb_le e3 971)) by lia.
  unfold within. lia.
Qed.

Lemma iter_xO m k : Z.pos (Pos.iter xO m k) = Z.pos m * 2 ^ Z.pos k.
Proof.
  revert m. induction k as [|k IH] using Pos.peano_ind; intros m; [cbn; lia|].
  rewrite Pos.iter_succ, Pos2Z.inj_succ, Z.pow_succ_r by lia. rewrite (Pos2Z.inj_xO), IH. lia.
Qed.

Lemma shl_align_spec m e e' mz ez :
  shl_align m e e' = (mz, ez) -> Z.pos mz = Z.pos m * 2 ^ Z.max 0 (e - e') /\ ez = e - Z.max 0 (e - e').
Proof.
  unfold shl_align. destruct (e' - e) as [|p|p] eqn:E; intros [= <- <-].
  - replace (e - e') with 0 by lia. cbn [Z.max]. rewrite Z.pow_0_r. lia.
  - rewrite Z.max_l by lia. rewrite Z.pow_0_r. lia.
  - rewrite iter_xO. replace (e - e') with (Z.pos p) by lia. rewrite Z.max_r by lia. lia.
Qed.

Lemma digits2_mul_pow m k : 0 <= k -> Zdigits2 (Z.pos m * 2 ^ k) = Zdigits2 (Z.pos m) + k.
Proof.
  intros Hk. assert (Hp : 0 < Z.pos m * 2 ^ k) by (apply Z.mul_pos_pos; [lia|by apply Z.pow_pos_nonneg]).
  destruct (Z.pos m * 2 ^ k) as [|q|q] eqn:E; [lia| |lia]. cbn [Zdigits2]. rewrite !digits2_log2, <- E.
  rewrite Z.log2_mul_pow2 by lia. lia.
Qed.

Lemma within_normalize m e z B :
  Zdigits2 m + e <= B -> -1074 <= B <= 900 -> within (B + 1) (binary_normalize f64_prec f64_emax m e z).
Proof.
  intros Hd HB.
  assert (Hround : forall s p, Zdigits2 (Z.pos p) + e <= B -> within (B + 1) (binary_round f64_prec f64_emax s p e)).
  { intros s p Hp. unfold binary_round. destruct (shl_align _ _ _) as [mz ez] eqn:E.
    apply shl_align_spec in E as [Em ->]. apply within_round; [lia| |done].
    rewrite Em, digits2_mul_pow by lia. lia. }
  destruct m as [|p|p]; [done|by apply Hround..].
Qed.

(** ** Operations *)

Lemma within_of_Z z k : Z.abs z < 2 ^ k -> 0 <= k <= 900 -> within (k + 1) (f64_of_Z z).
Proof.
  intros Hz Hk. apply within_normalize; [|lia]. rewrite Z.add_0_r.
  transitivity (Zdigits2 (Z.abs z)); [by destruct z|]. apply digits2_le; lia.
Qed.

Lemma within_mul x y A B :
  within A x -> within B y -> -1074 <= A + B <= 900 -> within (A + B + 1) (f64_mul x y).
Proof.
  intros Hx Hy HB. destruct x as [| | |sx mx ex], y as [| | |sy my ey]; try done.
  unfold f64_mul, SFmul. apply within_round; [lia| |done]. cbn [within] in Hx, Hy.
  pose proof (digits2_bound (Z.pos mx) ltac:(lia)). pose proof (digits2_bound (Z.pos my) ltac:(lia)).
  pose proof (digits2_pos_1 mx). pose proof (digits2_pos_1 my).
  assert (Zdigits2 (Z.pos (mx * my)) <= Zdigits2 (Z.pos mx) + Zdigits2 (Z.pos my)); [|lia].
  apply digits2_le; [|lia]. rewrite Pos2Z.inj_mul, Z.pow_add_r by lia. nia.
Qed.

Lemma within_add x y B : within B x -> within B y -> -1074 <= B <= 899 -> within (B + 2) (f64_add x y).
Proof.
  intros Hx Hy HB. destruct x as [sx| | |sx mx ex], y as [sy| | |sy my ey]; try done.
  - by destruct sx, sy.
  - change (within (B + 2) (S754_finite sy my ey)). apply within_le with B; [done|lia].
  - change (within (B + 2) (S754_finite sx mx ex)). apply within_le with B; [done|lia].
  - unfold f64_add, SFadd. cbv zeta. cbn [within] in Hx, Hy. set (ez := Z.min ex ey).
    replace (B + 2) with (B + 1 + 1) by lia. apply within_normalize; [|lia].
    destruct (shl_align mx ex ez) as [m1 e1] eqn:E1, (shl_align my ey ez) as [m2 e2] eqn:E2. cbn [fst].
    apply shl_align_spec in E1 as [E1 _], E2 as [E2 _].
    assert (H1 : Z.pos m1 < 2 ^ (B - ez) /\ 0 <= B - ez).
    { apply digits2_at; [lia|]. rewrite E1, digits2_mul_pow by lia. lia. }
    assert (H2 : Z.pos m2 < 2 ^ (B - ez) /\ 0 <= B - ez).
    { apply digits2_at; [lia|]. rewrite E2, digits2_mul_pow by lia. lia. }
    set (m := cond_Zopp sx (Z.pos m1) + cond_Zopp sy (Z.pos m2)). assert (Hm : Z.abs m < 2 ^ (B - ez + 1)).
    { rewrite Z.pow_add_r, Z.pow_1_r by lia. unfold m. destruct sx, sy; cbn [cond_Zopp]; lia. }
    assert (Hd : Zdigits2 m <= B - ez + 1); [|lia].
    transitivity (Zdigits2 (Z.abs m)); [by destruct m|]. apply digits2_le; lia.
Qed.

(** Division by a number whose mantissa is an integer multiple of [2^e]. *)
Lemma within_div x sy my ey B :
  within B x -> -1074 <= B - ey <= 900 -> within (B - ey + 1) (f64_div x (S754_finite sy my ey)).
Proof.
  intros Hx HB. destruct x as [| | |sx mx ex]; try done. cbn [within] in Hx.
  unfold f64_div, SFdiv, SFdiv_core_binary. cbv zeta.
  set (e' := Z.min _ _). set (s := ex - ey - e').
  assert (Hs : 0 <= s) by (unfold s, e'; lia).
  set (m' := match s with Z0 => _ | _ => _ end).
  assert (Hm' : m' = Z.pos mx * 2 ^ s).
  { unfold m'. destruct s as [|p|p]; [lia| |lia]. by rewrite Z.shiftl_mul_pow2 by lia. }
  pose proof (Z.div_mod m' (Z.pos my) ltac:(lia)) as Hdm. unfold Z.div, Z.modulo in Hdm.
  destruct (Z.div_eucl m' (Z.pos my)) as [q r] eqn:Eq.
  assert (Hq : q = m' / Z.pos my) by (unfold Z.div; by rewrite Eq).
  assert (Hm0 : 0 < m') by (rewrite Hm'; apply Z.mul_pos_pos; [lia|by apply Z.pow_pos_nonneg]).
  assert (Hq0 : 0 <= q) by (rewrite Hq; apply Z.div_pos; lia).
  assert (Hqm : q <= m') by (rewrite Hq; apply Z.div_le_upper_bound; nia).
  apply within_round; [done| |done].
  assert (Hd : Zdigits2 q <= Zdigits2 m').
  { apply digits2_le; [|apply digits2_nonneg]. pose proof (digits2_bound m' ltac:(lia)). lia. }
  rewrite Hm', digits2_mul_pow in Hd by done. unfold s in Hd. lia.
Qed.
