(* ===== verification/F64Exact.v ===== *)
(** * Exact binary64 arithmetic

Integers below [2^53] are represented exactly, and so are their sums and doubles; and whether
the quotient of two of them is at least one half does not suffer from rounding.  This is what
the comparison of similarities relies on. *)

From S2P Require Import Prelude F64 F64Theory.
From Stdlib Require Import Floats.SpecFloat.

(** ** Exact shifts *)

Lemma shr_1_exact a : 0 <= a -> shr_1 (Build_shr_record (2 * a) false false) = Build_shr_record a false false.
Proof. intros Ha. by destruct a as [|p|p]. Qed.

Lemma iter_shr_exact p a :
  0 <= a -> iter_pos shr_1 p (Build_shr_record (a * 2 ^ Z.pos p) false false) = Build_shr_record a false false.
Proof.
  revert a. induction p as [p IH|p IH|]; intros a Ha; cbn [iter_pos].
  - assert (E : a * 2 ^ Z.pos p~1 = 2 * (a * 2 ^ Z.pos p * 2 ^ Z.pos p)).
    { rewrite (Pos2Z.inj_xI p), Z.pow_add_r, Z.pow_1_r by lia.
      replace (2 * Z.pos p) with (Z.pos p + Z.pos p) by lia. rewrite Z.pow_add_r by lia. lia. }
    assert (0 < 2 ^ Z.pos p) by (apply Z.pow_pos_nonneg; lia).
    rewrite E, shr_1_exact, IH, IH by nia. done.
  - assert (E : a * 2 ^ Z.pos p~0 = a * 2 ^ Z.pos p * 2 ^ Z.pos p).
    { rewrite (Pos2Z.inj_xO p). replace (2 * Z.pos p) with (Z.pos p + Z.pos p) by lia.
      rewrite Z.pow_add_r by lia. lia. }
    assert (0 < 2 ^ Z.pos p) by (apply Z.pow_pos_nonneg; lia).
    rewrite E, IH, IH by nia. done.
  - rewrite Z.pow_1_r, Z.mul_comm. by apply shr_1_exact.
Qed.

Lemma shr_exact a k e :
  0 <= a -> 0 <= k -> shr (Build_shr_record (a * 2 ^ k) false false) e k = (Build_shr_record a false false, e + k).
Proof.
  intros Ha Hk. destruct k as [|p|p]; [|by cbn [shr]; rewrite iter_shr_exact|lia].
  cbn [shr]. by rewrite Z.pow_0_r, Z.mul_1_r, Z.add_0_r.
Qed.

Lemma shr_nonpos r e n : n <= 0 -> shr r e n = (r, e).
Proof. by destruct n. Qed.

(** Rounding a number whose dropped digits are zeros. *)
Lemma round_exact s p k e :
  0 <= k -> k = Z.max 0 (fexp f64_prec f64_emax (Zdigits2 (Z.pos p) + k + e) - e) -> e + k <= 971 ->
  binary_round_aux f64_prec f64_emax s (Z.pos p * 2 ^ k) e loc_Exact = S754_finite s p (e + k).
Proof.
  intros Hk Ek He. unfold binary_round_aux, shr_fexp. cbn [shr_record_of_loc].
  rewrite digits2_mul_pow by done.
  assert (E1 : shr (Build_shr_record (Z.pos p * 2 ^ k) false false) e
                 (fexp f64_prec f64_emax (Zdigits2 (Z.pos p) + k + e) - e) =
               (Build_shr_record (Z.pos p) false false, e + k)).
  { set (n := _ - e) in *. destruct (Z.le_gt_cases n 0).
    - replace k with 0 by lia. rewrite shr_nonpos by done. by rewrite Z.pow_0_r, Z.mul_1_r, Z.add_0_r.
    - replace n with k by lia. by apply shr_exact. }
  rewrite E1. cbn [shr_m loc_of_shr_record round_nearest_even]. rewrite shr_nonpos.
  - cbn [shr_m]. change (f64_emax - f64_prec) with 971. by rewrite (proj2 (Z.leb_le (e + k) 971)) by lia.
  - replace (Zdigits2 (Z.pos p) + (e + k)) with (Zdigits2 (Z.pos p) + k + e) by lia. lia.
Qed.

(** ** Small integers *)

(** The float of a positive integer: its mantissa has 53 digits. *)
Definition mantissa (z : Z) : positive := Z.to_pos (z * 2 ^ (53 - Zdigits2 z)).
Definition exact (z : Z) : f64 := S754_finite false (mantissa z) (Zdigits2 z - 53).

Lemma small_digits z : 0 < z < 2 ^ 53 -> 1 <= Zdigits2 z <= 53.
Proof. intros Hz. split; [destruct z; [lia|apply digits2_pos_1|lia]|]. apply digits2_le; lia. Qed.

Lemma mantissa_eq z : 0 < z < 2 ^ 53 -> Z.pos (mantissa z) = z * 2 ^ (53 - Zdigits2 z).
Proof.
  intros Hz. pose proof (small_digits z Hz). apply Z2Pos.id.
  apply Z.mul_pos_pos; [lia|apply Z.pow_pos_nonneg; lia].
Qed.

Lemma mantissa_digits z : 0 < z < 2 ^ 53 -> Zdigits2 (Z.pos (mantissa z)) = 53.
Proof.
  intros Hz. rewrite mantissa_eq by done. pose proof (small_digits z Hz). destruct z as [|p|p]; [lia| |lia].
  rewrite digits2_mul_pow by lia. lia.
Qed.

Lemma digits2_lower m : 0 < m -> 2 ^ (Zdigits2 m - 1) <= m.
Proof.
  intros Hm. destruct m as [|p|p]; [lia| |lia]. cbn [Zdigits2]. rewrite digits2_log2.
  replace (Z.log2 (Z.pos p) + 1 - 1) with (Z.log2 (Z.pos p)) by lia. apply Z.log2_spec. lia.
Qed.

Lemma mantissa_range z : 0 < z < 2 ^ 53 -> 2 ^ 52 <= Z.pos (mantissa z) < 2 ^ 53.
Proof.
  intros Hz. pose proof (mantissa_digits z Hz) as Hd.
  pose proof (digits2_lower (Z.pos (mantissa z)) ltac:(lia)) as Hl.
  pose proof (digits2_bound (Z.pos (mantissa z)) ltac:(lia)) as Hu. rewrite Hd in Hl, Hu. done.
Qed.

(** Whatever exponent an integer is written with, normalising gives its float. *)
Lemma normalize_exact z k b :
  0 < z < 2 ^ 53 -> 0 <= k <= 900 -> binary_normalize f64_prec f64_emax (z * 2 ^ k) (- k) b = exact z.
Proof.
  intros Hz Hk. pose proof (small_digits z Hz) as Hd. pose proof (mantissa_eq z Hz) as Hm.
  pose proof (mantissa_digits z Hz) as Hmd.
  assert (Hp : 0 < z * 2 ^ k) by (apply Z.mul_pos_pos; [lia|apply Z.pow_pos_nonneg; lia]).
  destruct (z * 2 ^ k) as [|p|p] eqn:Ep; [lia| |lia]. cbn [binary_normalize]. unfold binary_round.
  assert (Hpd : Zdigits2 (Z.pos p) = Zdigits2 z + k).
  { rewrite <- Ep. destruct z as [|q|q]; [lia| |lia]. by rewrite digits2_mul_pow by lia. }
  change (Z.pos (digits2_pos p)) with (Zdigits2 (Z.pos p)). rewrite Hpd, fexp_eq.
  replace (Z.max _ (-1074)) with (Zdigits2 z - 53) by lia.
  destruct (shl_align p (- k) (Zdigits2 z - 53)) as [mz ez] eqn:E. apply shl_align_spec in E as [Emz Eez].
  unfold exact. destruct (Z.le_gt_cases (53 - Zdigits2 z) k) as [Hle|Hgt].
  - (* digits are dropped *)
    rewrite Z.max_l in Emz, Eez by lia. rewrite Z.pow_0_r, Z.mul_1_r in Emz.
    assert (Emz' : Z.pos mz = Z.pos (mantissa z) * 2 ^ (k - (53 - Zdigits2 z))).
    { rewrite Emz, <- Ep, Hm, <- Z.mul_assoc, <- Z.pow_add_r by lia. do 2 f_equal. lia. }
    rewrite Emz', Eez, round_exact; [f_equal; lia|lia| |lia].
    rewrite Hmd, fexp_eq. lia.
  - (* zeros are added *)
    assert (Emz' : Z.pos mz = Z.pos (mantissa z) * 2 ^ 0).
    { rewrite Emz, <- Ep, Hm, <- !Z.mul_assoc, <- !Z.pow_add_r by lia. do 2 f_equal. lia. }
    rewrite Emz', round_exact; [f_equal; lia|lia| |lia]. rewrite Hmd, fexp_eq. lia.
Qed.

Lemma of_Z_exact z : 0 < z < 2 ^ 53 -> f64_of_Z z = exact z.
Proof.
  intros Hz. pose proof (normalize_exact z 0 false Hz ltac:(lia)) as E.
  by rewrite Z.pow_0_r, Z.mul_1_r in E.
Qed.

(** Sums of small integers are exact. *)
Lemma add_exact a b : 0 < a -> 0 < b -> a + b < 2 ^ 53 -> f64_add (exact a) (exact b) = exact (a + b).
Proof.
  intros Ha Hb Hab. assert (Ha' : 0 < a < 2 ^ 53) by lia. assert (Hb' : 0 < b < 2 ^ 53) by lia.
  pose proof (small_digits a Ha') as Hda. pose proof (small_digits b Hb') as Hdb.
  transitivity (f64_add (S754_finite false (mantissa a) (Zdigits2 a - 53))
    (S754_finite false (mantissa b) (Zdigits2 b - 53))); [done|]. unfold f64_add, SFadd. cbv zeta.
  set (ez := Z.min (Zdigits2 a - 53) (Zdigits2 b - 53)).
  assert (Hal : forall z, 0 < z < 2 ^ 53 -> ez <= Zdigits2 z - 53 ->
    Z.pos (shl_align (mantissa z) (Zdigits2 z - 53) ez).1 = z * 2 ^ (- ez)).
  { intros z Hz Hez. destruct (shl_align _ _ _) as [m e] eqn:E. apply shl_align_spec in E as [Em _]. cbn [fst].
    pose proof (small_digits z Hz). rewrite Em, mantissa_eq by done.
    rewrite <- Z.mul_assoc, <- Z.pow_add_r by lia. do 2 f_equal. lia. }
  rewrite !Hal by (done || lia). cbn [cond_Zopp]. rewrite <- Z.mul_add_distr_r.
  replace ez with (- - ez) at 2 by lia. apply normalize_exact; lia.
Qed.

(** So are doubles. *)
Lemma double_exact c : 0 < c -> 2 * c < 2 ^ 53 -> f64_mul (f64_of_Z 2) (exact c) = exact (2 * c).
Proof.
  intros Hc H2c. assert (Hc' : 0 < c < 2 ^ 53) by lia. pose proof (small_digits c Hc') as Hd.
  pose proof (mantissa_digits c Hc') as Hmd.
  change (f64_of_Z 2) with (S754_finite false 4503599627370496 (-51)). unfold exact at 1, f64_mul, SFmul.
  cbn [xorb]. replace (Z.pos (4503599627370496 * mantissa c)) with (Z.pos (mantissa c) * 2 ^ 52) by lia.
  rewrite round_exact; [|lia|rewrite Hmd, fexp_eq; lia|lia].
  assert (Hd2 : Zdigits2 (2 * c) = Zdigits2 c + 1).
  { destruct c as [|p|p]; [lia| |lia]. rewrite Z.mul_comm. by apply (digits2_mul_pow p 1). }
  pose proof (small_digits (2 * c) ltac:(lia)) as Hdd. rewrite Hd2 in Hdd.
  unfold exact. rewrite Hd2. f_equal; [|lia]. apply Pos2Z.inj. rewrite !mantissa_eq by lia. rewrite Hd2.
  replace (53 - Zdigits2 c) with (1 + (53 - (Zdigits2 c + 1))) by lia. rewrite Z.pow_add_r, Z.pow_1_r by lia. ring.
Qed.

(** ** Quotients and one half *)

Definition one_half : f64 := f64_lit 1 2.

Lemma ge_half m e : 2 ^ 52 <= Z.pos m -> f64_ge (S754_finite false m e) one_half = (-53 <=? e).
Proof.
  intros Hm. change one_half with (S754_finite false 4503599627370496 (-53)).
  unfold f64_ge, f64_le, SFleb, SFcompare. destruct (Z.compare_spec (-53) e) as [E|E|E].
  - rewrite (proj2 (Z.leb_le (-53) e)) by lia.
    change (Pos.compare_cont Eq 4503599627370496 m) with (Pos.compare 4503599627370496 m).
    destruct (Pos.compare_spec 4503599627370496 m) as [_|_|Hgt]; [reflexivity|reflexivity|].
    exfalso. change (2 ^ 52) with (Z.pos 4503599627370496) in Hm. exact (proj1 (Pos.le_nlt _ _) Hm Hgt).
  - rewrite (proj2 (Z.leb_le (-53) e)) by lia. reflexivity.
  - rewrite (proj2 (Z.leb_gt (-53) e)) by lia. reflexivity.
Qed.

(** Rounding a number of at least 53 digits: the digits kept, plus one when it is rounded up, which
it is not when the digits dropped are zeros; a carry over all digits moves the exponent. *)
Lemma round_digits q e l n :
  Zdigits2 q = 53 + n -> 0 <= n -> 0 < q -> -1000 <= e -> e + n <= 900 ->
  exists m2, q / 2 ^ n <= m2 <= q / 2 ^ n + 1 /\ 2 ^ 52 <= m2 <= 2 ^ 53 /\
    (l = loc_Exact -> q = q / 2 ^ n * 2 ^ n -> m2 = q / 2 ^ n) /\
    binary_round_aux f64_prec f64_emax false q e l =
    if m2 =? 2 ^ 53 then S754_finite false 4503599627370496 (e + n + 1)
    else S754_finite false (Z.to_pos m2) (e + n).
Proof.
  intros Hd Hn Hq He He2. unfold binary_round_aux, shr_fexp. rewrite Hd, fexp_eq.
  replace (Z.max _ (-1074) - e) with n by lia.
  destruct (shr (shr_record_of_loc q l) e n) as [r1 e1] eqn:E1. pose proof E1 as Esh.
  apply shr_spec in E1 as [Em1 ->]; [|rewrite shr_record_m; lia]. rewrite shr_record_m, Z.max_r in * by done.
  pose proof (digits2_lower q Hq) as Hlo. pose proof (digits2_bound q ltac:(lia)) as Hhi. rewrite Hd in Hlo, Hhi.
  assert (H2n : 0 < 2 ^ n) by (by apply Z.pow_pos_nonneg).
  assert (Hm1 : 2 ^ 52 <= shr_m r1 < 2 ^ 53).
  { rewrite Em1. split; [apply Z.div_le_lower_bound|apply Z.div_lt_upper_bound]; try lia.
    - rewrite <- Z.pow_add_r by lia. replace (n + 52) with (53 + n - 1) by lia. done.
    - rewrite <- Z.pow_add_r by lia. replace (n + 53) with (53 + n) by lia. done. }
  pose proof (round_even_bound (shr_m r1) (loc_of_shr_record r1)) as Hr.
  exists (round_nearest_even (shr_m r1) (loc_of_shr_record r1)). rewrite <- Em1.
  split; [done|]. split; [lia|]. split.
  { intros -> Hex. rewrite Hex in Esh. cbn [shr_record_of_loc] in Esh. rewrite shr_exact in Esh by lia.
    injection Esh as <-. done. }
  set (m2 := round_nearest_even _ _) in *. rewrite fexp_eq. cbn [shr_record_of_loc].
  change (f64_emax - f64_prec) with 971. destruct (Z.eqb_spec m2 (2 ^ 53)) as [E2|E2].
  - rewrite E2. change (Zdigits2 (2 ^ 53)) with 54.
    replace (Z.max (54 + (e + n) - 53) (-1074) - (e + n)) with 1 by lia.
    change (2 ^ 53) with (2 ^ 52 * 2 ^ 1). rewrite shr_exact by lia. cbn [shr_m].
    change (2 ^ 52) with (Z.pos 4503599627370496). by rewrite (proj2 (Z.leb_le _ 971)) by lia.
  - assert (Hd2 : Zdigits2 m2 = 53).
    { apply Z.le_antisymm; [apply digits2_le; lia|]. pose proof (digits2_bound m2 ltac:(lia)) as Hb.
      destruct (Z.le_gt_cases 53 (Zdigits2 m2)) as [|Hlt]; [done|].
      assert (2 ^ Zdigits2 m2 <= 2 ^ 52) by (apply Z.pow_le_mono_r; lia). lia. }
    rewrite Hd2. rewrite shr_nonpos by lia. cbn [shr_m].
    destruct m2 as [|p|p] eqn:Em; [lia| |lia]. by rewrite (proj2 (Z.leb_le _ 971)) by lia.
Qed.

(** Rounding a quotient of 53 or 54 digits: the exponent is that of the last digit kept, or one
more when the rounding carries over. *)
Lemma round_quotient q e l n :
  Zdigits2 q = 53 + n -> 0 <= n -> 0 < q -> -1000 <= e -> e + n <= 900 ->
  exists m e2, binary_round_aux f64_prec f64_emax false q e l = S754_finite false m e2 /\
    2 ^ 52 <= Z.pos m < 2 ^ 53 /\ (e2 = e + n \/ e2 = e + n + 1 /\ 2 ^ 53 <= q / 2 ^ n + 1).
Proof.
  intros Hd Hn Hq He He2. destruct (round_digits q e l n Hd Hn Hq He He2) as (m2 & Hm & Hr & _ & ->).
  destruct (Z.eqb_spec m2 (2 ^ 53)) as [E|E].
  - eexists _, _. split; [reflexivity|]. split; [lia|]. right. lia.
  - eexists _, _. split; [reflexivity|]. rewrite Z2Pos.id by lia. split; [lia|by left].
Qed.

(** Comparing the integers through their mantissas. *)
Lemma half_by_mantissas a b :
  0 < a < 2 ^ 53 -> 0 < b < 2 ^ 53 ->
  let k := Zdigits2 a - Zdigits2 b in
  b <= 2 * a <-> 0 <= k \/ k = -1 /\ Z.pos (mantissa b) <= Z.pos (mantissa a).
Proof.
  intros Ha Hb k. pose proof (small_digits a Ha) as Hda. pose proof (small_digits b Hb) as Hdb.
  pose proof (digits2_lower a ltac:(lia)) as Hla. pose proof (digits2_bound b ltac:(lia)) as Hub.
  rewrite !mantissa_eq by done. destruct (Z.le_gt_cases 0 k) as [Hk|Hk].
  - split; [by left|]. intros _. assert (2 ^ Zdigits2 b <= 2 * 2 ^ (Zdigits2 a - 1)); [|lia].
    rewrite <- Z.pow_succ_r by lia. apply Z.pow_le_mono_r; lia.
  - destruct (Z.eq_dec k (-1)) as [Ek|Ek].
    + replace (53 - Zdigits2 a) with (1 + (53 - Zdigits2 b)) by lia. rewrite Z.pow_add_r, Z.pow_1_r by lia.
      assert (0 < 2 ^ (53 - Zdigits2 b)) by (apply Z.pow_pos_nonneg; lia).
      split; [intros Hle; right; split; [done|nia]|]. intros [|[_ Hle]]; [lia|nia].
    + split; [|lia]. intros Hle. exfalso.
      pose proof (digits2_bound a ltac:(lia)) as Hua. pose proof (digits2_lower b ltac:(lia)) as Hlb.
      assert (2 * 2 ^ Zdigits2 a <= 2 ^ (Zdigits2 b - 1)); [|lia].
      rewrite <- Z.pow_succ_r by lia. apply Z.pow_le_mono_r; lia.
Qed.

(** With four digits to spare the quotient stays clear of the next power of two. *)
Lemma mantissa_spare a : 0 < a < 2 ^ 53 -> Zdigits2 a <= 51 -> Z.pos (mantissa a) <= 2 ^ 53 - 4.
Proof.
  intros Ha Hd. pose proof (mantissa_range a Ha) as Hr. pose proof (small_digits a Ha).
  rewrite mantissa_eq in * by done. replace (53 - Zdigits2 a) with (2 + (51 - Zdigits2 a)) in * by lia.
  rewrite Z.pow_add_r in * by lia. change (2 ^ 2) with 4 in *.
  set (x := a * (4 * 2 ^ (51 - Zdigits2 a))) in *.
  assert (Hx : x = 4 * (a * 2 ^ (51 - Zdigits2 a))) by (unfold x; ring).
  set (y := a * 2 ^ (51 - Zdigits2 a)) in *. change (2 ^ 53) with (4 * 2 ^ 51) in *. lia.
Qed.

(** Comparing a quotient of small integers with one half is exact. *)
Lemma div_ge_half a b :
  0 < a < 2 ^ 53 -> 0 < b < 2 ^ 53 -> f64_ge (f64_div (exact a) (exact b)) one_half = (b <=? 2 * a).
Proof.
  intros Ha Hb. pose proof (small_digits a Ha) as Hda. pose proof (small_digits b Hb) as Hdb.
  pose proof (mantissa_range a Ha) as Hma. pose proof (mantissa_range b Hb) as Hmb.
  pose proof (half_by_mantissas a b Ha Hb) as Hcmp. pose proof (mantissa_spare a Ha) as Hsp.
  unfold f64_div, SFdiv, exact, SFdiv_core_binary. cbv zeta in *. cbn [xorb].
  rewrite !mantissa_digits, fexp_eq by done. set (k := Zdigits2 a - Zdigits2 b) in *.
  replace (Zdigits2 a - 53 - (Zdigits2 b - 53)) with k by lia.
  replace (Z.min _ k) with (k - 53) by lia. replace (k - (k - 53)) with 53 by lia.
  cbv iota. rewrite Z.shiftl_mul_pow2 by lia.
  pose proof (Z.div_mod (Z.pos (mantissa a) * 2 ^ 53) (Z.pos (mantissa b)) ltac:(lia)) as Hdm.
  pose proof (Z.mod_pos_bound (Z.pos (mantissa a) * 2 ^ 53) (Z.pos (mantissa b)) ltac:(lia)) as Hrem.
  unfold Z.div, Z.modulo in Hdm, Hrem. destruct (Z.div_eucl _ _) as [q r].
  revert Hma Hmb Hdm Hrem Hcmp Hsp. generalize (Z.pos (mantissa a)) (Z.pos (mantissa b)).
  intros ma mb Hma Hmb Hdm Hrem Hcmp Hsp.
  assert (Hq : 2 ^ 52 <= q < 2 ^ 54) by (split; nia).
  assert (Hsplit : (q < 2 ^ 53 /\ ma < mb) \/ (2 ^ 53 <= q /\ mb <= ma)).
  { destruct (Z.lt_ge_cases ma mb); [left|right]; split; nia. }
  apply eq_true_iff_eq. rewrite Z.leb_le, Hcmp.
  destruct Hsplit as [[Hq53 Hlt]|[Hq53 Hle]].
  - assert (Hdq : Zdigits2 q = 53 + 0).
    { apply Z.le_antisymm; [apply digits2_le; lia|]. pose proof (digits2_bound q ltac:(lia)) as Hbq.
      destruct (Z.le_gt_cases 53 (Zdigits2 q)) as [|Hd']; [lia|].
      assert (2 ^ Zdigits2 q <= 2 ^ 52) by (apply Z.pow_le_mono_r; lia). lia. }
    destruct (round_quotient q (k - 53) (new_location mb r) 0 Hdq) as (m & e2 & -> & [Hm _] & He2); [lia..|].
    rewrite ge_half, Z.leb_le by done. destruct He2 as [->|[_ Hc]]; [lia|].
    rewrite Z.pow_0_r, Z.div_1_r in Hc. exfalso. nia.
  - assert (Hdq : Zdigits2 q = 53 + 1).
    { apply Z.le_antisymm; [apply digits2_le; lia|]. pose proof (digits2_bound q ltac:(lia)) as Hbq.
      destruct (Z.le_gt_cases 54 (Zdigits2 q)) as [|Hd']; [lia|].
      assert (2 ^ Zdigits2 q <= 2 ^ 53) by (apply Z.pow_le_mono_r; lia). lia. }
    destruct (round_quotient q (k - 53) (new_location mb r) 1 Hdq) as (m & e2 & -> & [Hm _] & He2); [lia..|].
    rewrite ge_half, Z.leb_le by done. destruct He2 as [->|[-> Hc]]; [lia|].
    destruct (Z.le_gt_cases (-1) k); [lia|]. exfalso. rewrite Z.pow_1_r in Hc.
    assert (2 ^ 54 - 2 <= q) by (pose proof (Z.mul_div_le q 2); lia).
    specialize (Hsp ltac:(lia)). nia.
Qed.

(** ** Rounding does not pass a bound *)

Lemma finite_le m e M E :
  f64_le (S754_finite false m e) (S754_finite false M E) = true <-> e < E \/ e = E /\ Z.pos m <= Z.pos M.
Proof.
  unfold f64_le, SFleb, SFcompare. destruct (Z.compare_spec e E) as [Heq|Hlt|Hgt]; [|split; [lia|done]|split; [done|lia]].
  change (Pos.compare_cont Eq m M) with (Pos.compare m M).
  destruct (Pos.compare_spec m M) as [->|Hc|Hc]; (split; [|try done; lia]); intros; try done; lia.
Qed.

(** A number of at least 53 digits that is at most [M * 2^E] is rounded to at most that. *)
Lemma round_le q e l n M E :
  Zdigits2 q = 53 + n -> 0 <= n -> 0 < q -> -1000 <= e -> e + n <= 900 ->
  2 ^ 52 <= Z.pos M < 2 ^ 53 -> e <= E ->
  q < Z.pos M * 2 ^ (E - e) \/ q = Z.pos M * 2 ^ (E - e) /\ l = loc_Exact ->
  f64_le (binary_round_aux f64_prec f64_emax false q e l) (S754_finite false M E) = true.
Proof.
  intros Hd Hn Hq He He2 HM HeE Hle. destruct (round_digits q e l n Hd Hn Hq He He2) as (m2 & Hm & Hr & Hex & ->).
  assert (H2n : 0 < 2 ^ n) by (by apply Z.pow_pos_nonneg).
  pose proof (digits2_lower q Hq) as Hlo. rewrite Hd in Hlo.
  destruct (Z.lt_trichotomy (e + n) E) as [Hlt|[Heq|Hgt]].
  - destruct (m2 =? 2 ^ 53); apply finite_le; lia.
  - replace (E - e) with n in Hle by lia.
    assert (Hm2 : m2 <= Z.pos M).
    { destruct Hle as [Hlt|[-> ->]].
      - assert (q / 2 ^ n < Z.pos M); [apply Z.div_lt_upper_bound|]; lia.
      - rewrite Z.div_mul in Hex by lia. rewrite (Hex eq_refl); lia. }
    rewrite (proj2 (Z.eqb_neq m2 (2 ^ 53))) by lia. apply finite_le. rewrite Z2Pos.id; lia.
  - exfalso. assert (HT : Z.pos M * 2 ^ (E - e) < 2 ^ (53 + n - 1)); [|lia].
    apply Z.lt_le_trans with (2 ^ 53 * 2 ^ (E - e)).
    + apply Z.mul_lt_mono_pos_r; [apply Z.pow_pos_nonneg; lia|lia].
    + rewrite <- Z.pow_add_r by lia. apply Z.pow_le_mono_r; lia.
Qed.

Lemma digits2_exactly q k : 2 ^ (k - 1) <= q < 2 ^ k -> 1 <= k -> Zdigits2 q = k.
Proof.
  intros [Hlo Hhi] Hk. assert (Hq : 0 < q) by (pose proof (Z.pow_pos_nonneg 2 (k - 1)); lia).
  apply Z.le_antisymm; [apply digits2_le; lia|]. pose proof (digits2_bound q ltac:(lia)) as Hb.
  destruct (Z.le_gt_cases k (Zdigits2 q)) as [|Hlt]; [done|].
  assert (2 ^ Zdigits2 q <= 2 ^ (k - 1)) by (apply Z.pow_le_mono_r; lia). lia.
Qed.

(** ** Shares and percentages *)

(** A share of small integers is a number between zero and one. *)
Lemma share_range a b :
  0 < a <= b -> b < 2 ^ 53 ->
  exists m e, f64_div (exact a) (exact b) = S754_finite false m e /\ 2 ^ 52 <= Z.pos m < 2 ^ 53 /\
    -200 <= e /\ (e < -52 \/ e = -52 /\ Z.pos m <= 2 ^ 52).
Proof.
  intros Hab Hb. assert (Ha' : 0 < a < 2 ^ 53) by lia. assert (Hb' : 0 < b < 2 ^ 53) by lia.
  pose proof (small_digits a Ha') as Hda. pose proof (small_digits b Hb') as Hdb.
  pose proof (mantissa_range a Ha') as Hma. pose proof (mantissa_range b Hb') as Hmb.
  pose proof (mantissa_eq a Ha') as Ema. pose proof (mantissa_eq b Hb') as Emb.
  unfold f64_div, SFdiv, exact, SFdiv_core_binary. cbv zeta. cbn [xorb].
  rewrite !mantissa_digits, fexp_eq by done. set (k := Zdigits2 a - Zdigits2 b) in *.
  replace (Zdigits2 a - 53 - (Zdigits2 b - 53)) with k by lia.
  replace (Z.min _ k) with (k - 53) by lia. replace (k - (k - 53)) with 53 by lia.
  cbv iota. rewrite Z.shiftl_mul_pow2 by lia.
  pose proof (Z.div_mod (Z.pos (mantissa a) * 2 ^ 53) (Z.pos (mantissa b)) ltac:(lia)) as Hdm.
  pose proof (Z.mod_pos_bound (Z.pos (mantissa a) * 2 ^ 53) (Z.pos (mantissa b)) ltac:(lia)) as Hrem.
  unfold Z.div, Z.modulo in Hdm, Hrem. destruct (Z.div_eucl _ _) as [q r].
  assert (Hk : -52 <= k <= 0).
  { pose proof (digits2_bound b ltac:(lia)). pose proof (digits2_le a (Zdigits2 b) ltac:(lia) ltac:(lia)). lia. }
  assert (Hle : Z.pos (mantissa a) * 2 ^ 53 <= Z.pos (mantissa b) * 2 ^ (53 - k)).
  { rewrite Ema, Emb, <- !Z.mul_assoc, <- !Z.pow_add_r by lia.
    replace (53 - Zdigits2 b + (53 - k)) with (53 - Zdigits2 a + 53) by lia.
    apply Z.mul_le_mono_nonneg_r; [apply Z.pow_nonneg|]; lia. }
  clear Ema Emb. revert Hma Hmb Hdm Hrem Hle. generalize (Z.pos (mantissa a)) (Z.pos (mantissa b)).
  intros ma mb Hma Hmb Hdm Hrem Hle. assert (Hq : 2 ^ 52 <= q < 2 ^ 54) by (split; nia).
  assert (Hn : exists n, 0 <= n <= 1 /\ Zdigits2 q = 53 + n).
  { destruct (Z.lt_ge_cases q (2 ^ 53)); [exists 0|exists 1]; (split; [lia|]); apply digits2_exactly; lia. }
  destruct Hn as (n & Hn & Hdq).
  destruct (round_quotient q (k - 53) (new_location mb r) n Hdq) as (m & e2 & E & Hm & He2); [lia..|].
  pose proof (round_le q (k - 53) (new_location mb r) n 4503599627370496 (-52) Hdq) as Hrl.
  rewrite E in Hrl |- *. rewrite finite_le in Hrl. exists m, e2. split; [done|]. split; [done|].
  split; [lia|]. apply Hrl; try lia. replace (-52 - (k - 53)) with (1 - k) by lia.
  change (Z.pos 4503599627370496) with (2 ^ 52). rewrite <- Z.pow_add_r by lia.
  replace (52 + (1 - k)) with (53 - k) by lia.
  destruct (Z.lt_trichotomy q (2 ^ (53 - k))) as [?|[Eq|Hgt]]; [by left| |nia].
  right. split; [done|]. assert (r = 0) as -> by nia. unfold new_location, new_location_even, new_location_odd.
  by destruct (Z.even mb).
Qed.

(** [a / b * 100.0] for integers [a <= b]. *)
Definition percentage (a b : Z) : f64 := f64_mul (f64_div (f64_of_Z a) (f64_of_Z b)) (f64_of_Z 100).

(** A percentage of small integers is between zero and one hundred, rounding included. *)
Lemma percentage_range a b :
  0 <= a <= b -> 0 < b < 2 ^ 53 ->
  f64_ge (percentage a b) f64_0 = true /\ f64_le (percentage a b) (f64_of_Z 100) = true.
Proof.
  intros Ha Hb. unfold percentage. rewrite (of_Z_exact b) by lia.
  destruct (Z.eq_dec a 0) as [->|Ha0].
  { change (f64_of_Z 0) with (S754_zero false). unfold exact. cbn. by vm_compute. }
  rewrite (of_Z_exact a) by lia. destruct (share_range a b) as (m & e & -> & Hm & He & Hle); [lia..|].
  change (f64_of_Z 100) with (S754_finite false 7036874417766400 (-46)).
  unfold f64_mul, SFmul. cbn [xorb]. rewrite Pos2Z.inj_mul.
  set (M := Z.pos 7036874417766400). assert (HM : M = 7036874417766400) by done.
  assert (Hn : exists n, 52 <= n <= 53 /\ Zdigits2 (Z.pos m * M) = 53 + n).
  { destruct (Z.lt_ge_cases (Z.pos m * M) (2 ^ 105)); [exists 52|exists 53]; (split; [lia|]); apply digits2_exactly; nia. }
  destruct Hn as (n & Hn & Hd). split.
  - destruct (round_quotient (Z.pos m * M) (e + -46) loc_Exact n Hd) as (m' & e' & -> & _); [lia..|]. done.
  - apply (round_le _ _ _ n); try lia. replace (-46 - (e + -46)) with (- e) by lia. fold M.
    assert (Hp : Z.pos m <= 2 ^ (- e)).
    { destruct Hle as [Hlt|[-> ?]]; [|lia]. assert (2 ^ 53 <= 2 ^ (- e)) by (apply Z.pow_le_mono_r; lia). lia. }
    destruct (Z.eq_dec (Z.pos m) (2 ^ (- e))) as [->|]; [right; split; [ring|done]|left; nia].
Qed.
