(* ===== verification/Crypto.v ===== *)
(** * Cryptographic primitives and canonical JSON ([src/crypto.rs])

Definitions: the JSON value type, the canonical (Python-compatible) printer, hex and
base32 codecs, hashing, signing and node-id derivation.  SHA-256, Ed25519 and the
shortest-decimal printer come from the crates [sha2], [ed25519-dalek] and [ryu]: they are
the fields of the class [Crypto], and what the program relies on is the class
[CryptoLaws]. *)

From S2P Require Import Prelude F64.
From Stdlib Require Import Floats.SpecFloat.

(** ** Third-party primitives *)

Class Crypto := {
  (** [Sha256::new().update(x).finalize()] *)
  sha256 : bytes -> bytes;
  (** [SigningKey::from_bytes(seed).sign(msg).to_bytes()] *)
  ed25519_sign : bytes -> bytes -> bytes;
  (** [SigningKey::from_bytes(seed).verifying_key().to_bytes()] *)
  ed25519_public : bytes -> bytes;
  (** [VerifyingKey::from_bytes(pk)] succeeds and [pk.verify(msg, sig)] is [Ok] *)
  ed25519_verify : bytes -> bytes -> bytes -> bool;
  (** [ryu::Buffer::format_finite] *)
  ryu_format_finite : f64 -> string;
}.

Class CryptoLaws `{Crypto} := {
  sha256_length x : String.length (sha256 x) = 32%nat;
  ed25519_sign_length sk m : String.length (ed25519_sign sk m) = 64%nat;
  ed25519_public_length sk : String.length (ed25519_public sk) = 32%nat;
  ed25519_correct sk m :
    String.length sk = 32%nat ->
    ed25519_verify (ed25519_public sk) m (ed25519_sign sk m) = true;
}.

(** ** JSON values ([serde_json::Value], objects in key order) *)

Inductive Number : Type :=
| PosInt (n : Z)
| NegInt (n : Z)
| Float (f : f64).

Inductive Value : Type :=
| VNull
| VBool (b : bool)
| VNumber (n : Number)
| VString (s : string)
| VArray (items : list Value)
| VObject (fields : list (string * Value)).

Definition as_i64 (n : Number) : option Z :=
  match n with
  | PosInt z => if z <=? i64_max then Some z else None
  | NegInt z => Some z
  | Float _ => None
  end.
Definition as_u64 (n : Number) : option Z :=
  match n with PosInt z => Some z | _ => None end.
Definition as_f64 (n : Number) : option f64 :=
  match n with
  | PosInt z | NegInt z => Some (f64_of_Z z)
  | Float f => Some f
  end.

(** ** UTF-8: the characters of a string *)

Fixpoint chars (s : string) : list Z :=
  match s with
  | EmptyString => []
  | String a s1 =>
      let b := byte_val a in
      if b <? 0x80 then b :: chars s1
      else if b <? 0xe0 then
        match s1 with
        | String a1 s2 =>
            Z.lor (Z.shiftl (Z.land b 0x1f) 6) (Z.land (byte_val a1) 0x3f) :: chars s2
        | EmptyString => []
        end
      else if b <? 0xf0 then
        match s1 with
        | String a1 (String a2 s3) =>
            Z.lor (Z.shiftl (Z.land b 0x0f) 12)
              (Z.lor (Z.shiftl (Z.land (byte_val a1) 0x3f) 6) (Z.land (byte_val a2) 0x3f))
            :: chars s3
        | _ => []
        end
      else
        match s1 with
        | String a1 (String a2 (String a3 s4)) =>
            Z.lor (Z.shiftl (Z.land b 0x07) 18)
              (Z.lor (Z.shiftl (Z.land (byte_val a1) 0x3f) 12)
                (Z.lor (Z.shiftl (Z.land (byte_val a2) 0x3f) 6) (Z.land (byte_val a3) 0x3f)))
            :: chars s4
        | _ => []
        end
  end.

(** The UTF-8 bytes of one character. *)
Definition utf8_char (c : Z) : string :=
  if c <? 0x80 then String (byte_of c) ""
  else if c <? 0x800 then
    String (byte_of (Z.lor 0xc0 (Z.shiftr c 6)))
      (String (byte_of (Z.lor 0x80 (Z.land c 0x3f))) "")
  else if c <? 0x10000 then
    String (byte_of (Z.lor 0xe0 (Z.shiftr c 12)))
      (String (byte_of (Z.lor 0x80 (Z.land (Z.shiftr c 6) 0x3f)))
        (String (byte_of (Z.lor 0x80 (Z.land c 0x3f))) ""))
  else
    String (byte_of (Z.lor 0xf0 (Z.shiftr c 18)))
      (String (byte_of (Z.lor 0x80 (Z.land (Z.shiftr c 12) 0x3f)))
        (String (byte_of (Z.lor 0x80 (Z.land (Z.shiftr c 6) 0x3f)))
          (String (byte_of (Z.lor 0x80 (Z.land c 0x3f))) ""))).

Fixpoint utf8_encode (l : list Z) : string :=
  match l with [] => "" | c :: l' => utf8_char c +:+ utf8_encode l' end.

(** A Unicode scalar value: a code point that is not a surrogate. *)
Definition is_scalar (c : Z) : bool :=
  (0 <=? c) && (c <=? 0x10ffff) && negb ((0xd800 <=? c) && (c <=? 0xdfff)).

(** Rust strings are valid UTF-8. *)
Definition valid_str (s : string) : bool :=
  forallb is_scalar (chars s) && String.eqb (utf8_encode (chars s)) s.

(** ** Hex ([hex], [hex_decode], [nib]) *)

Definition hex_digit (d : Z) : ascii :=
  if d <? 10 then byte_of (ch "0" + d) else byte_of (ch "a" + (d - 10)).

(** One byte as [{:02x}]. *)
Definition hex_byte (a : ascii) : string :=
  String (hex_digit (byte_val a / 16)) (String (hex_digit (byte_val a mod 16)) "").

Fixpoint hex (data : bytes) : string :=
  match data with
  | EmptyString => ""
  | String b data' => hex_byte b +:+ hex data'
  end.

Definition nib (a : ascii) : option Z :=
  let b := byte_val a in
  if (ch "0" <=? b) && (b <=? ch "9") then Some (b - ch "0")
  else if (ch "a" <=? b) && (b <=? ch "f") then Some (b - ch "a" + 10)
  else if (ch "A" <=? b) && (b <=? ch "F") then Some (b - ch "A" + 10)
  else None.

(** The loop of [hex_decode] over the byte pairs of an even-length string. *)
Fixpoint hex_pairs (s : string) : option bytes :=
  match s with
  | String a (String b s') =>
      match nib a with
      | None => None
      | Some hi =>
          match nib b with
          | None => None
          | Some lo =>
              match hex_pairs s' with
              | None => None
              | Some out => Some (String (byte_of (Z.lor (Z.shiftl hi 4) lo)) out)
              end
          end
      end
  | _ => Some ""
  end.

Definition hex_decode (s : string) : option bytes :=
  if str_len s mod 2 =? 0 then hex_pairs s else None.

(** ** String escaping ([write_escaped]) *)

(** [{:04x}] of a code unit below 0x10000. *)
Definition hex4 (u : Z) : string :=
  String (hex_digit (u / 4096))
    (String (hex_digit (u / 256 mod 16))
      (String (hex_digit (u / 16 mod 16))
        (String (hex_digit (u mod 16)) ""))).

Definition quote_char : ascii := "034"%char.
Definition backslash : ascii := "092"%char.

Definition escape_u (u : Z) : string := String backslash (String "u"%char (hex4 u)).

Definition escape_char (c : Z) : string :=
  if c =? 0x22 then String backslash (String quote_char "")
  else if c =? 0x5c then String backslash (String backslash "")
  else if c =? 0x08 then String backslash "b"
  else if c =? 0x0c then String backslash "f"
  else if c =? 0x0a then String backslash "n"
  else if c =? 0x0d then String backslash "r"
  else if c =? 0x09 then String backslash "t"
  else if c <? 0x20 then escape_u c
  else if c <? 0x80 then String (byte_of c) ""
  else if c <=? 0xffff then escape_u c
  else
    let cp := c - 0x10000 in
    let hi := 0xd800 + Z.shiftr cp 10 in
    let lo := 0xdc00 + Z.land cp 0x3ff in
    escape_u hi +:+ escape_u lo.

Fixpoint escape_chars (l : list Z) : string :=
  match l with [] => "" | c :: l' => escape_char c +:+ escape_chars l' end.

Definition write_escaped (s : string) : string :=
  String quote_char (escape_chars (chars s) +:+ String quote_char "").

(** ** Python float rendering ([py_float]) *)

(** The parts of a string around the first occurrence of a character. *)
Fixpoint split_at_char (c : ascii) (s : string) : option (string * string) :=
  match s with
  | EmptyString => None
  | String a s' =>
      if Ascii.eqb a c then Some ("", s')
      else match split_at_char c s' with
           | Some (l, r) => Some (String a l, r)
           | None => None
           end
  end.

Definition is_digit (a : ascii) : bool := (ch "0" <=? byte_val a) && (byte_val a <=? ch "9").

Fixpoint all_digits (s : string) : bool :=
  match s with
  | EmptyString => true
  | String a s' => is_digit a && all_digits s'
  end.

Fixpoint digits_val (acc : Z) (s : string) : Z :=
  match s with
  | EmptyString => acc
  | String a s' => digits_val (10 * acc + (byte_val a - ch "0")) s'
  end.

(** [str::parse] at a signed integer type with the given range. *)
Definition parse_int (lo hi : Z) (s : string) : option Z :=
  let signed (neg : bool) (d : string) :=
    if (negb (String.eqb d "")) && all_digits d then
      let z := if neg then - digits_val 0 d else digits_val 0 d in
      if (lo <=? z) && (z <=? hi) then Some z else None
    else None in
  match s with
  | String a d =>
      if Ascii.eqb a "-" then signed true d
      else if Ascii.eqb a "+" then signed false d
      else signed false s
  | EmptyString => None
  end.

Definition parse_i32 : string -> option Z := parse_int (- 2 ^ 31) (2 ^ 31 - 1).

(** Position of the first character that is not ['0']; zero when there is none. *)
Fixpoint first_nonzero (s : string) : option Z :=
  match s with
  | EmptyString => None
  | String a s' =>
      if Ascii.eqb a "0" then Z.succ <$> first_nonzero s' else Some 0
  end.

Fixpoint trim_start_zeros (s : string) : string :=
  match s with
  | String a s' => if Ascii.eqb a "0" then trim_start_zeros s' else s
  | EmptyString => ""
  end.
Fixpoint trim_end_zeros (s : string) : string :=
  match s with
  | EmptyString => ""
  | String a s' =>
      match trim_end_zeros s' with
      | EmptyString => if Ascii.eqb a "0" then "" else String a ""
      | t => String a t
      end
  end.
(** [trim_matches('0')] *)
Definition trim_zeros (s : string) : string := trim_end_zeros (trim_start_zeros s).

Fixpoint zeros (n : nat) : string :=
  match n with O => "" | S n' => String "0"%char (zeros n') end.

(** The first half of [py_float]: sign, significant digits and decimal exponent of the
leading digit of a decimal text. *)
Definition decimal_parts (s : string) : bool * string * Z :=
  let '(neg, rest) :=
    match s with
    | String a r => if Ascii.eqb a "-" then (true, r) else (false, s)
    | EmptyString => (false, s)
    end in
  let '(mantissa, sci_exp) :=
    match split_at_char "e" rest with
    | Some (m, e) => (m, parse_i32 e)
    | None => (rest, None)
    end in
  let '(ip, fp) :=
    match split_at_char "." mantissa with
    | Some (i, f) => (i, f)
    | None => (mantissa, "")
    end in
  let combined := ip +:+ fp in
  let dec_pt := str_len ip in
  let first := default 0 (first_nonzero combined) in
  let lead_exp := dec_pt - 1 - first + default 0 sci_exp in
  let sig := trim_zeros combined in
  (neg, if String.eqb sig "" then "0" else sig, lead_exp).

(** [{:02}] of a non-negative integer. *)
Definition pad2 (n : Z) : string := (if n <? 10 then "0" else "") +:+ pretty n.

(** The second half of [py_float]: Python's notation rules. *)
Definition render_decimal (neg : bool) (sig : string) (lead_exp : Z) : string :=
  let sign_s := if neg then "-" else "" in
  let sig_len := str_len sig in
  if (16 <=? lead_exp) || (lead_exp <? -4) then
    let mantissa :=
      if sig_len =? 1 then sig
      else String.substring 0 1 sig +:+ "." +:+ String.substring 1 (String.length sig - 1) sig in
    let esign := if lead_exp <? 0 then "-" else "+" in
    sign_s +:+ mantissa +:+ "e" +:+ esign +:+ pad2 (Z.abs lead_exp)
  else if lead_exp <? 0 then
    sign_s +:+ "0." +:+ zeros (Z.to_nat (- lead_exp - 1)) +:+ sig
  else
    let int_digits := lead_exp + 1 in
    if sig_len <=? int_digits then
      sign_s +:+ sig +:+ zeros (Z.to_nat (int_digits - sig_len)) +:+ ".0"
    else
      sign_s +:+ String.substring 0 (Z.to_nat int_digits) sig +:+ "." +:+
        String.substring (Z.to_nat int_digits) (String.length sig - Z.to_nat int_digits) sig.

Section WithCrypto.
Context `{Crypto}.

Definition py_float (v : f64) : string :=
  if f64_eq v f64_0 then (if is_sign_negative v then "-0.0" else "0.0")
  else if is_nan v then "NaN"
  else if is_infinite v then (if is_sign_negative v then "-Infinity" else "Infinity")
  else let '(neg, sig, lead_exp) := decimal_parts (ryu_format_finite v) in
       render_decimal neg sig lead_exp.

(** ** Canonical JSON ([write_value], [canonical_json], [canonical_bytes]) *)

Definition write_number (n : Number) : string :=
  match as_i64 n with
  | Some i => pretty i
  | None =>
      match as_u64 n with
      | Some u => pretty u
      | None =>
          match as_f64 n with
          | Some f => py_float f
          | None => ""
          end
      end
  end.

Definition key_le {A} (p q : string * A) : bool := string_le p.1 q.1.

Fixpoint write_value (v : Value) : string :=
  match v with
  | VNull => "null"
  | VBool true => "true"
  | VBool false => "false"
  | VNumber n => write_number n
  | VString s => write_escaped s
  | VArray items => "[" +:+ String.concat "," (map write_value items) +:+ "]"
  | VObject fields =>
      "{" +:+
      String.concat ","
        (map (fun p => write_escaped p.1 +:+ ":" +:+ p.2)
           (sort_by key_le (map (fun p => (p.1, write_value p.2)) fields)))
      +:+ "}"
  end.

Definition canonical_json (v : Value) : string := write_value v.
Definition canonical_bytes (v : Value) : bytes := canonical_json v.

(** ** Hashes *)

Definition sha256_hex (v : Value) : string := hex (sha256 (canonical_bytes v)).
Definition sha256_bytes_hex (data : bytes) : string := hex (sha256 data).

(** ** Signatures.  Slicing a private key shorter than 32 bytes panics in the code; the
identities of [identity.rs] always hold 32 bytes. *)

Definition sign (message private_key : bytes) : bytes :=
  ed25519_sign (String.substring 0 32 private_key) message.

Definition verify (message signature public_key : bytes) : bool :=
  if negb (str_len public_key =? 32) then false
  else if negb (str_len signature =? 64) then false
  else ed25519_verify public_key message signature.

Definition public_key_from_private (private_key : bytes) : bytes :=
  ed25519_public (String.substring 0 32 private_key).

(** ** Base32 and node ids *)

Definition B32 : string := "ABCDEFGHIJKLMNOPQRSTUVWXYZ234567".

Definition b32_char (idx : Z) : ascii :=
  default "?"%char (String.get (Z.to_nat idx) B32).

(** The inner [while bits >= 5] loop; each turn consumes five bits. *)
Fixpoint b32_drain (fuel : nat) (buffer bits : Z) : string * Z :=
  match fuel with
  | O => ("", bits)
  | S fuel' =>
      if 5 <=? bits then
        let bits' := bits - 5 in
        let idx := Z.land (Z.shiftr buffer bits') 0x1f in
        let '(out, rest) := b32_drain fuel' buffer bits' in
        (String (b32_char idx) out, rest)
      else ("", bits)
  end.

(** The outer loop over the bytes, and the final partial group.  The buffer is a [u64]. *)
Fixpoint b32_loop (data : bytes) (buffer bits : Z) : string :=
  match data with
  | String b data' =>
      let buffer' := Z.lor (wrap_u64 (Z.shiftl buffer 8)) (byte_val b) in
      let '(out, bits') := b32_drain (Z.to_nat (bits + 8)) buffer' (bits + 8) in
      out +:+ b32_loop data' buffer' bits'
  | EmptyString =>
      if 0 <? bits then
        String (b32_char (Z.land (wrap_u64 (Z.shiftl buffer (5 - bits))) 0x1f)) ""
      else ""
  end.

Definition base32_nopad (data : bytes) : string := b32_loop data 0 0.

Definition ascii_lower (a : ascii) : ascii :=
  if (ch "A" <=? byte_val a) && (byte_val a <=? ch "Z") then byte_of (byte_val a + 32) else a.

Fixpoint to_lowercase (s : string) : string :=
  match s with EmptyString => "" | String a s' => String (ascii_lower a) (to_lowercase s') end.

Definition node_id_from_public_key (public_key : bytes) : string :=
  "exd" +:+ to_lowercase (base32_nopad (String.substring 0 16 (sha256 public_key))).

End WithCrypto.

(** The rendering examples of the repository's unit tests, on ryu's decimal texts. *)
Definition py_text (s : string) : string :=
  let '(neg, sig, lead_exp) := decimal_parts s in render_decimal neg sig lead_exp.

Example py_float_tests :
  map py_text ["1.0"; "-2.0"; "0.5"; "0.01"; "100.0"; "0.0001"; "1e-5"; "1e16"; "1e15";
               "2.5e-7"; "1.5e30"; "3360000000000.0"; "123.456"; "0.00015"] =
  ["1.0"; "-2.0"; "0.5"; "0.01"; "100.0"; "0.0001"; "1e-05"; "1e+16"; "1000000000000000.0";
   "2.5e-07"; "1.5e+30"; "3360000000000.0"; "123.456"; "0.00015"].
Proof. vm_compute. reflexivity. Qed.

Example base32_test : base32_nopad "foobar" = "MZXW6YTBOI".
Proof. vm_compute. reflexivity. Qed.
