(* ===== verification/CryptoTheory.v ===== *)
(** * Theory of the codecs

Round trips of hex, ASCII strings as valid Rust strings, the shape of hashes, node ids and
signatures. *)

From S2P Require Import Prelude F64 Crypto.

(** ** ASCII strings *)

Fixpoint all_ascii (s : string) : bool :=
  match s with
  | EmptyString => true
  | String a s' => (byte_val a <? 128) && all_ascii s'
  end.

Lemma all_ascii_app s t : all_ascii (s +:+ t) = all_ascii s && all_ascii t.
Proof.
  induction s as [|a s IH]; [done|]. autorewrite with exodus_rw. cbn [all_ascii].
  by rewrite IH, andb_assoc.
Qed.

(** The bytes of a string. *)
Fixpoint byte_vals (s : string) : list Z :=
  match s with EmptyString => [] | String a s' => byte_val a :: byte_vals s' end.

Lemma chars_ascii s : all_ascii s = true -> chars s = byte_vals s.
Proof.
  induction s as [|a s IH]; [done|]. cbn [all_ascii chars byte_vals].
  intros [Ha Hs]%andb_true_iff. rewrite Ha. by rewrite IH.
Qed.

Lemma utf8_encode_ascii s : all_ascii s = true -> utf8_encode (byte_vals s) = s.
Proof.
  induction s as [|a s IH]; [done|]. cbn [all_ascii utf8_encode byte_vals].
  intros [Ha Hs]%andb_true_iff. unfold utf8_char. rewrite Ha, IH by done.
  rewrite byte_of_val. reflexivity.
Qed.

Lemma valid_str_ascii s : all_ascii s = true -> valid_str s = true.
Proof.
  intros Hs. unfold valid_str. rewrite chars_ascii, utf8_encode_ascii by done.
  rewrite String.eqb_refl, andb_true_r. clear -Hs.
  induction s as [|a s IH]; [done|]. cbn [byte_vals forallb all_ascii] in *.
  apply andb_true_iff in Hs as [Ha Hs]. rewrite IH by done. rewrite andb_true_r.
  unfold is_scalar. pose proof (byte_val_range a). apply Z.ltb_lt in Ha.
  repeat match goal with |- context [(?a <=? ?b)%Z] => destruct (Z.leb_spec a b); try lia end; done.
Qed.

(** ** Character classes *)

Fixpoint all_chars (p : ascii -> bool) (s : string) : bool :=
  match s with EmptyString => true | String a s' => p a && all_chars p s' end.

Lemma all_chars_app p s t : all_chars p (s +:+ t) = all_chars p s && all_chars p t.
Proof.
  induction s as [|a s IH]; [done|]. autorewrite with exodus_rw. cbn [all_chars].
  by rewrite IH, andb_assoc.
Qed.

Lemma all_chars_impl p q s :
  (forall a, p a = true -> q a = true) -> all_chars p s = true -> all_chars q s = true.
Proof.
  intros Hpq. induction s as [|a s IH]; [done|]. simpl. rewrite !andb_true_iff. naive_solver.
Qed.

(** ** Hex *)

Lemma hex_digit_byte d : 0 <= d < 16 ->
  byte_val (hex_digit d) = if d <? 10 then 48 + d else 87 + d.
Proof.
  intros Hd. unfold hex_digit. destruct (d <? 10) eqn:E; rewrite byte_val_of.
  all: try (change (ch "0") with 48); try (change (ch "a") with 97); lia.
Qed.

Lemma nib_hex_digit d : 0 <= d < 16 -> nib (hex_digit d) = Some d.
Proof.
  intros Hd. unfold nib. rewrite hex_digit_byte by done.
  change (ch "0") with 48. change (ch "9") with 57. change (ch "a") with 97.
  change (ch "f") with 102.
  destruct (Z.ltb_spec d 10).
  - rewrite (proj2 (Z.leb_le 48 (48 + d))), (proj2 (Z.leb_le (48 + d) 57)) by lia. simpl. f_equal. lia.
  - rewrite (proj2 (Z.leb_gt (87 + d) 57)) by lia. rewrite andb_false_r.
    rewrite (proj2 (Z.leb_le 97 (87 + d))), (proj2 (Z.leb_le (87 + d) 102)) by lia. simpl. f_equal. lia.
Qed.

(** The 256 byte values, case by case. *)
Ltac all_bytes a := destruct a as [[] [] [] [] [] [] [] []]; vm_compute; reflexivity.

Lemma nibbles_byte a : byte_of (Z.lor (Z.shiftl (byte_val a / 16) 4) (byte_val a mod 16)) = a.
Proof. all_bytes a. Qed.

Lemma hex_byte_ascii a : all_ascii (hex_byte a) = true.
Proof. all_bytes a. Qed.

Lemma hex_ascii s : all_ascii (hex s) = true.
Proof. induction s as [|a s IH]; [done|]. cbn [hex]. by rewrite all_ascii_app, hex_byte_ascii. Qed.

Lemma hex_length s : String.length (hex s) = (2 * String.length s)%nat.
Proof.
  induction s as [|a s IH]; [done|]. cbn [hex]. rewrite string_length_app, IH. simpl. lia.
Qed.

Lemma hex_pairs_hex s : hex_pairs (hex s) = Some s.
Proof.
  induction s as [|a s IH]; [done|]. cbn [hex]. unfold hex_byte at 1.
  autorewrite with exodus_rw. cbn [hex_pairs].
  pose proof (byte_val_range a). rewrite !nib_hex_digit.
  - by rewrite IH, nibbles_byte.
  - apply Z.mod_pos_bound. lia.
  - split; [apply Z.div_pos; lia|]. apply Z.div_lt_upper_bound; lia.
Qed.

Lemma hex_decode_hex s : hex_decode (hex s) = Some s.
Proof.
  unfold hex_decode, str_len. rewrite hex_length, Nat2Z.inj_mul, Z.mul_comm, Z.mod_mul by done.
  apply hex_pairs_hex.
Qed.

Lemma hex_valid s : valid_str (hex s) = true.
Proof. apply valid_str_ascii, hex_ascii. Qed.

Lemma substring_all s : String.substring 0 (String.length s) s = s.
Proof. induction s as [|a s IH]; [done|]. simpl. by rewrite IH. Qed.

Lemma substring_app_l s t : String.substring 0 (String.length s) (s +:+ t) = s.
Proof. induction s as [|a s IH]; [by destruct t|]. autorewrite with exodus_rw. cbn. by rewrite IH. Qed.

Lemma substring_app_r s t :
  String.substring (String.length s) (String.length t) (s +:+ t) = t.
Proof. induction s as [|a s IH]; [apply substring_all|]. autorewrite with exodus_rw. exact IH. Qed.

#[export] Hint Resolve hex_valid : exodus.

(** ** Signatures *)

Section Signatures.
Context `{CL : CryptoLaws}.

Lemma public_key_length sk : String.length (public_key_from_private sk) = 32%nat.
Proof. apply ed25519_public_length. Qed.

Lemma sign_length m sk : String.length (sign m sk) = 64%nat.
Proof. apply ed25519_sign_length. Qed.

(** A signature made with a 32-byte key verifies under its public key. *)
Lemma sign_verify m sk :
  String.length sk = 32%nat -> verify m (sign m sk) (public_key_from_private sk) = true.
Proof.
  intros Hl. unfold verify, str_len. rewrite public_key_length, sign_length.
  change (ed25519_verify (public_key_from_private sk) m (sign m sk) = true).
  assert (E : String.substring 0 32 sk = sk) by (rewrite <- Hl; apply substring_all).
  unfold public_key_from_private, sign. rewrite E. by apply ed25519_correct.
Qed.

Lemma sha256_hex_valid v : valid_str (sha256_hex v) = true.
Proof. apply hex_valid. Qed.
Lemma sha256_bytes_hex_valid v : valid_str (sha256_bytes_hex v) = true.
Proof. apply hex_valid. Qed.
End Signatures.
