(* ===== verification/Models.v ===== *)
(** * Protocol data models ([src/models.rs])

Enums with their string forms, claims, proposals, checkpoints and wire messages as
records, their JSON values (the [Serialize] derives: one object per struct, in key
order), the hashes built on them, and signature creation and verification.  The JSON text
layer and the [Deserialize] derives belong to [serde] and [serde_json]: they are the
fields of the class [Serde], with their round-trip laws in [SerdeLaws]. *)

From S2P Require Import Prelude F64 Crypto.

(** ** Enums *)

Inductive WorkType := TextGeneration | Embedding | ImageGeneration | AudioGeneration | Generic.
Inductive Precision := Fp32 | Fp16 | Bf16 | Fp8 | Int8 | Int4 | Int2.
Inductive DeviceTier := Cpu | GpuApple | GpuNvidia | GpuAmd | Tpu | Other.

#[export] Instance WorkType_eq_dec : EqDecision WorkType.
Proof. solve_decision. Defined.
#[export] Instance Precision_eq_dec : EqDecision Precision.
Proof. solve_decision. Defined.
#[export] Instance DeviceTier_eq_dec : EqDecision DeviceTier.
Proof. solve_decision. Defined.

Definition WorkType_from_str (s : string) : result WorkType string :=
  if String.eqb s "text_generation" then Ok TextGeneration
  else if String.eqb s "embedding" then Ok Embedding
  else if String.eqb s "image_generation" then Ok ImageGeneration
  else if String.eqb s "audio_generation" then Ok AudioGeneration
  else if String.eqb s "generic" then Ok Generic
  else Err ("invalid work_type " +:+ s).

Definition Precision_from_str (s : string) : result Precision string :=
  if String.eqb s "fp32" then Ok Fp32
  else if String.eqb s "fp16" then Ok Fp16
  else if String.eqb s "bf16" then Ok Bf16
  else if String.eqb s "fp8" then Ok Fp8
  else if String.eqb s "int8" then Ok Int8
  else if String.eqb s "int4" then Ok Int4
  else if String.eqb s "int2" then Ok Int2
  else Err ("invalid precision " +:+ s).

Definition DeviceTier_from_str (s : string) : result DeviceTier string :=
  if String.eqb s "cpu" then Ok Cpu
  else if String.eqb s "gpu_apple" then Ok GpuApple
  else if String.eqb s "gpu_nvidia" then Ok GpuNvidia
  else if String.eqb s "gpu_amd" then Ok GpuAmd
  else if String.eqb s "tpu" then Ok Tpu
  else if String.eqb s "other" then Ok Other
  else Err ("invalid device_tier " +:+ s).

Definition Precision_factor (p : Precision) : f64 :=
  match p with
  | Fp32 => f64_of_Z 2
  | Fp16 | Bf16 => f64_of_Z 1
  | Fp8 | Int8 => f64_lit 6 10
  | Int4 => f64_lit 35 100
  | Int2 => f64_lit 2 10
  end.

Definition Precision_name (p : Precision) : string :=
  match p with
  | Fp32 => "fp32" | Fp16 => "fp16" | Bf16 => "bf16" | Fp8 => "fp8"
  | Int8 => "int8" | Int4 => "int4" | Int2 => "int2"
  end.

(** The [rename_all = "snake_case"] names of the serialised variants. *)
Definition WorkType_ser (w : WorkType) : string :=
  match w with
  | TextGeneration => "text_generation" | Embedding => "embedding"
  | ImageGeneration => "image_generation" | AudioGeneration => "audio_generation"
  | Generic => "generic"
  end.
Definition DeviceTier_ser (d : DeviceTier) : string :=
  match d with
  | Cpu => "cpu" | GpuApple => "gpu_apple" | GpuNvidia => "gpu_nvidia"
  | GpuAmd => "gpu_amd" | Tpu => "tpu" | Other => "other"
  end.

(** ** Structs *)

Record ContributionClaim := mkClaim {
  claim_id : string;
  claim_node_id : string;
  claim_seq : Z;
  work_type : WorkType;
  model_id : string;
  params_b : f64;
  precision : Precision;
  prompt_tokens : Z;
  completion_tokens : Z;
  compute_seconds : f64;
  flops_estimate : f64;
  device_tier : DeviceTier;
  started_at : string;
  ended_at : string;
  last_seen_checkpoint_height : Z;
  last_seen_checkpoint_hash : string;
}.

Record SignedContribution := mkSigned {
  sc_claim : ContributionClaim;
  sc_public_key_hex : string;
  sc_signature_hex : string;
}.

Record CheckpointProposal := mkProposal {
  prop_epoch : Z;
  prop_height : Z;
  prop_prev_hash : string;
  prop_sealed_by : string;
  prop_claims : list SignedContribution;
  prop_created_at : string;
}.

Record QuorumSignature := mkQuorumSignature {
  qs_node_id : string;
  qs_public_key_hex : string;
  qs_signature_hex : string;
}.

Record Checkpoint := mkCheckpoint {
  cp_proposal : CheckpointProposal;
  cp_signatures : list QuorumSignature;
  cp_quorum : Z;
}.

Definition cp_height (c : Checkpoint) : Z := prop_height (cp_proposal c).
Definition cp_epoch (c : Checkpoint) : Z := prop_epoch (cp_proposal c).

#[export] Instance ContributionClaim_eq_dec : EqDecision ContributionClaim.
Proof. solve_decision. Defined.
#[export] Instance SignedContribution_eq_dec : EqDecision SignedContribution.
Proof. solve_decision. Defined.
#[export] Instance CheckpointProposal_eq_dec : EqDecision CheckpointProposal.
Proof. solve_decision. Defined.
#[export] Instance QuorumSignature_eq_dec : EqDecision QuorumSignature.
Proof. solve_decision. Defined.
#[export] Instance Checkpoint_eq_dec : EqDecision Checkpoint.
Proof. solve_decision. Defined.

(** [i64] addition of [total_tokens]. *)
Definition total_tokens (c : ContributionClaim) : Z :=
  wrap_i64 (prompt_tokens c + completion_tokens c).

Definition GENESIS_SEALER : string := "genesis".
Definition GENESIS_TIMESTAMP : string := "1970-01-01T00:00:00+00:00".
Definition GENESIS_PREV_HASH : string :=
  "0000000000000000000000000000000000000000000000000000000000000000".

Definition genesis_checkpoint : Checkpoint :=
  mkCheckpoint (mkProposal 0 0 GENESIS_PREV_HASH GENESIS_SEALER [] GENESIS_TIMESTAMP) [] 0.

Definition make_claim (claim_id node_id : string) (seq : Z) (model_id : string)
  (params_b : f64) (precision : Precision) (prompt_tokens completion_tokens : Z)
  (compute_seconds flops_estimate : f64) (device_tier : DeviceTier)
  (started_at ended_at : string) (last_height : Z) (last_hash : string) :
  ContributionClaim :=
  mkClaim claim_id node_id seq TextGeneration model_id params_b precision prompt_tokens
    completion_tokens compute_seconds flops_estimate device_tier started_at ended_at
    last_height last_hash.

(** [round_f64]: [10f64.powi(ndigits)] is exact for the digits the program uses. *)
Definition round_f64 (x : f64) (ndigits : Z) : f64 :=
  if negb (is_finite x) then x
  else if ndigits =? 0 then round_ties_even x
  else
    let factor := f64_of_Z (10 ^ ndigits) in
    f64_div (round_ties_even (f64_mul x factor)) factor.

(** ** JSON values of the structs *)

(** [BTreeMap::insert], the object type of [serde_json]. *)
Fixpoint btree_insert {V} (k : string) (v : V) (m : list (string * V)) : list (string * V) :=
  match m with
  | [] => [(k, v)]
  | (k', v') :: m' =>
      match String.compare k k' with
      | Lt => (k, v) :: m
      | Eq => (k, v) :: m'
      | Gt => (k', v') :: btree_insert k v m'
      end
  end.

Definition json_object (fields : list (string * Value)) : Value :=
  VObject (foldl (fun m p => btree_insert p.1 p.2 m) [] fields).

Definition json_int (z : Z) : Value := VNumber (if z <? 0 then NegInt z else PosInt z).
(** A non-finite float has no JSON number and serialises to [null]. *)
Definition json_f64 (f : f64) : Value := if is_finite f then VNumber (Float f) else VNull.

(** [value.get(key)] and [as_str] of [serde_json]. *)
Definition json_get (key : string) (v : Value) : option Value :=
  match v with VObject fields => assoc key fields | _ => None end.
Definition as_str (v : Value) : option string :=
  match v with VString s => Some s | _ => None end.

(** [value[key]] and [value[i]]: a missing member is [Null]. *)
Definition json_index (key : string) (v : Value) : Value := default VNull (json_get key v).
Definition json_at (i : nat) (v : Value) : Value :=
  match v with VArray l => default VNull (l !! i) | _ => VNull end.

Definition claim_to_value (c : ContributionClaim) : Value :=
  json_object [
    ("claim_id", VString (claim_id c));
    ("node_id", VString (claim_node_id c));
    ("seq", json_int (claim_seq c));
    ("work_type", VString (WorkType_ser (work_type c)));
    ("model_id", VString (model_id c));
    ("params_b", json_f64 (params_b c));
    ("precision", VString (Precision_name (precision c)));
    ("prompt_tokens", json_int (prompt_tokens c));
    ("completion_tokens", json_int (completion_tokens c));
    ("compute_seconds", json_f64 (compute_seconds c));
    ("flops_estimate", json_f64 (flops_estimate c));
    ("device_tier", VString (DeviceTier_ser (device_tier c)));
    ("started_at", VString (started_at c));
    ("ended_at", VString (ended_at c));
    ("last_seen_checkpoint_height", json_int (last_seen_checkpoint_height c));
    ("last_seen_checkpoint_hash", VString (last_seen_checkpoint_hash c))].

Definition signed_to_value (s : SignedContribution) : Value :=
  json_object [
    ("claim", claim_to_value (sc_claim s));
    ("public_key_hex", VString (sc_public_key_hex s));
    ("signature_hex", VString (sc_signature_hex s))].

Definition proposal_to_value (p : CheckpointProposal) : Value :=
  json_object [
    ("epoch", json_int (prop_epoch p));
    ("height", json_int (prop_height p));
    ("prev_hash", VString (prop_prev_hash p));
    ("sealed_by", VString (prop_sealed_by p));
    ("claims", VArray (map signed_to_value (prop_claims p)));
    ("created_at", VString (prop_created_at p))].

Definition signature_to_value (s : QuorumSignature) : Value :=
  json_object [
    ("node_id", VString (qs_node_id s));
    ("public_key_hex", VString (qs_public_key_hex s));
    ("signature_hex", VString (qs_signature_hex s))].

Definition signatures_value (sigs : list QuorumSignature) : Value :=
  VArray (map signature_to_value sigs).

Definition checkpoint_to_value (c : Checkpoint) : Value :=
  json_object [
    ("proposal", proposal_to_value (cp_proposal c));
    ("signatures", signatures_value (cp_signatures c));
    ("quorum", json_int (cp_quorum c))].

(** ** Wire messages *)

Record ContributionGossip := mkGossip { cg_signed : SignedContribution }.
Record ProposalMessage := mkProposalMessage { pm_proposal : CheckpointProposal }.
Record SignatureShare := mkShare {
  ss_proposal_hash : string;
  ss_height : Z;
  ss_epoch : Z;
  ss_node_id : string;
  ss_public_key_hex : string;
  ss_signature_hex : string;
}.
Record CommitMessage := mkCommitMessage { cm_checkpoint : Checkpoint }.
Record Heartbeat := mkHeartbeat {
  hb_node_id : string;
  hb_height : Z;
  hb_block_hash : string;
  hb_epoch : Z;
  hb_sealed_by : string;
  hb_quorum_weight : Z;
}.
Record SyncRequest := mkSyncRequest { sq_node_id : string; sq_from_height : Z }.
Record SyncResponse := mkSyncResponse { sp_node_id : string; sp_blocks : list Checkpoint }.
Record ForkAlert := mkForkAlert {
  fa_node_id : string;
  fa_height : Z;
  fa_observed_hash_a : string;
  fa_observed_hash_b : string;
}.

Inductive Message :=
| MContributionGossip (m : ContributionGossip)
| MProposalMessage (m : ProposalMessage)
| MSignatureShare (m : SignatureShare)
| MCommitMessage (m : CommitMessage)
| MHeartbeat (m : Heartbeat)
| MSyncRequest (m : SyncRequest)
| MSyncResponse (m : SyncResponse)
| MForkAlert (m : ForkAlert).

Definition share_to_value (s : SignatureShare) : Value :=
  json_object [
    ("proposal_hash", VString (ss_proposal_hash s));
    ("height", json_int (ss_height s));
    ("epoch", json_int (ss_epoch s));
    ("node_id", VString (ss_node_id s));
    ("public_key_hex", VString (ss_public_key_hex s));
    ("signature_hex", VString (ss_signature_hex s))].

Definition heartbeat_to_value (h : Heartbeat) : Value :=
  json_object [
    ("node_id", VString (hb_node_id h));
    ("height", json_int (hb_height h));
    ("block_hash", VString (hb_block_hash h));
    ("epoch", json_int (hb_epoch h));
    ("sealed_by", VString (hb_sealed_by h));
    ("quorum_weight", json_int (hb_quorum_weight h))].

Definition fork_alert_to_value (a : ForkAlert) : Value :=
  json_object [
    ("node_id", VString (fa_node_id a));
    ("height", json_int (fa_height a));
    ("observed_hash_a", VString (fa_observed_hash_a a));
    ("observed_hash_b", VString (fa_observed_hash_b a))].

(** [Message::to_value] *)
Definition message_to_value (m : Message) : Value :=
  match m with
  | MContributionGossip g => json_object [("signed", signed_to_value (cg_signed g))]
  | MProposalMessage p => json_object [("proposal", proposal_to_value (pm_proposal p))]
  | MSignatureShare s => share_to_value s
  | MCommitMessage c => json_object [("checkpoint", checkpoint_to_value (cm_checkpoint c))]
  | MHeartbeat h => heartbeat_to_value h
  | MSyncRequest r =>
      json_object [("node_id", VString (sq_node_id r));
                   ("from_height", json_int (sq_from_height r))]
  | MSyncResponse r =>
      json_object [("node_id", VString (sp_node_id r));
                   ("blocks", VArray (map checkpoint_to_value (sp_blocks r)))]
  | MForkAlert a => fork_alert_to_value a
  end.

(** ** Topics ([src/consensus/topics.rs]) *)

Definition CLAIMS : string := "exodus/claims".
Definition PROPOSALS : string := "exodus/proposals".
Definition SIGNATURES : string := "exodus/signatures".
Definition COMMITS : string := "exodus/commits".
Definition HEARTBEATS : string := "exodus/heartbeats".
Definition SYNC : string := "exodus/sync".
Definition FORKS : string := "exodus/forks".
Definition INFER_REQUESTS : string := "exodus/infer/requests".
Definition INFER_RESPONSES : string := "exodus/infer/responses".
Definition HEALTH : string := "exodus/health".
Definition ALL_TOPICS : list string :=
  [CLAIMS; PROPOSALS; SIGNATURES; COMMITS; HEARTBEATS; SYNC; FORKS].

(** ** Hashes and signatures *)

Section Hashing.
Context `{Crypto}.

Definition payload_bytes (c : ContributionClaim) : bytes := canonical_bytes (claim_to_value c).

(** [SignedContribution::verify] *)
Definition signed_verify (s : SignedContribution) : bool :=
  match hex_decode (sc_public_key_hex s) with
  | None => false
  | Some public_key =>
      match hex_decode (sc_signature_hex s) with
      | None => false
      | Some signature =>
          if negb (String.eqb (node_id_from_public_key public_key) (claim_node_id (sc_claim s)))
          then false
          else verify (payload_bytes (sc_claim s)) signature public_key
      end
  end.

(** [SignedContribution::create] *)
Definition signed_create (claim : ContributionClaim) (private_key : bytes) : SignedContribution :=
  let public_key := public_key_from_private private_key in
  let signature := sign (payload_bytes claim) private_key in
  mkSigned claim (hex public_key) (hex signature).

Definition proposal_hash (p : CheckpointProposal) : string := sha256_hex (proposal_to_value p).

Definition block_hash (c : Checkpoint) : string :=
  sha256_bytes_hex
    (proposal_hash (cp_proposal c) +:+ canonical_bytes (signatures_value (cp_signatures c))).

(** [SignatureShare::verify] *)
Definition share_verify (s : SignatureShare) : bool :=
  match hex_decode (ss_public_key_hex s) with
  | None => false
  | Some public_key =>
      match hex_decode (ss_signature_hex s) with
      | None => false
      | Some signature => verify (ss_proposal_hash s) signature public_key
      end
  end.

End Hashing.

(** ** Well-formed values: what the Rust types guarantee and JSON can carry *)

Fixpoint strictly_sorted_keys {V} (m : list (string * V)) : bool :=
  match m with
  | (k, _) :: ((k', _) :: _) as m' => string_lt k k' && strictly_sorted_keys m'
  | _ => true
  end.

Fixpoint wf_value (v : Value) : bool :=
  match v with
  | VNull | VBool _ => true
  | VNumber (PosInt z) => in_u64 z
  | VNumber (NegInt z) => (z <? 0) && in_i64 z
  | VNumber (Float f) => is_finite f
  | VString s => valid_str s
  | VArray items => forallb wf_value items
  | VObject fields =>
      strictly_sorted_keys fields &&
      forallb (fun p => valid_str p.1 && wf_value p.2) fields
  end.

Definition wf_claim (c : ContributionClaim) : bool :=
  in_i64 (claim_seq c) && in_i64 (prompt_tokens c) && in_i64 (completion_tokens c) &&
  in_i64 (last_seen_checkpoint_height c) &&
  is_finite (params_b c) && is_finite (compute_seconds c) && is_finite (flops_estimate c) &&
  forallb valid_str [claim_id c; claim_node_id c; model_id c; started_at c; ended_at c;
                     last_seen_checkpoint_hash c].

Definition wf_signed (s : SignedContribution) : bool :=
  wf_claim (sc_claim s) && forallb valid_str [sc_public_key_hex s; sc_signature_hex s].

Definition wf_proposal (p : CheckpointProposal) : bool :=
  in_i64 (prop_epoch p) && in_i64 (prop_height p) &&
  forallb valid_str [prop_prev_hash p; prop_sealed_by p; prop_created_at p] &&
  forallb wf_signed (prop_claims p).

Definition wf_signature (s : QuorumSignature) : bool :=
  forallb valid_str [qs_node_id s; qs_public_key_hex s; qs_signature_hex s].

Definition wf_checkpoint (c : Checkpoint) : bool :=
  wf_proposal (cp_proposal c) && forallb wf_signature (cp_signatures c) &&
  in_u64 (cp_quorum c).

(** ** [serde_json] text and the [Deserialize] derives *)

Class Serde := {
  (** JSON text, as kept in a SQLite [TEXT] cell *)
  jtext : Type;
  json_to_string : Value -> jtext;
  json_from_str : jtext -> option Value;
  checkpoint_from_value : Value -> option Checkpoint;
}.

Class SerdeLaws `{Serde} := {
  json_text_roundtrip v : wf_value v = true -> json_from_str (json_to_string v) = Some v;
  checkpoint_value_roundtrip c :
    wf_checkpoint c = true -> checkpoint_from_value (checkpoint_to_value c) = Some c;
}.

(** ** Well-formedness of the JSON values *)

Lemma btree_insert_sorted {V} k (v : V) m :
  strictly_sorted_keys m = true -> strictly_sorted_keys (btree_insert k v m) = true.
Proof.
  induction m as [|[k1 v1] m IH]; simpl; [done|].
  intros Hs. destruct (String.compare k k1) eqn:E.
  - apply String.compare_eq_iff in E as <-. by destruct m as [|[k2 v2] m].
  - assert (Hlt : string_lt k k1 = true) by (unfold string_lt, String.ltb; by rewrite E).
    simpl. by rewrite Hlt.
  - assert (Hlt : string_lt k1 k = true).
    { unfold string_lt, String.ltb. by rewrite String.compare_antisym, E. }
    destruct m as [|[k2 v2] m]; simpl in *; [by rewrite Hlt|].
    apply andb_true_iff in Hs as [H12 Hs]. specialize (IH Hs).
    destruct (String.compare k k2) eqn:E2; simpl in *.
    + rewrite Hlt. done.
    + rewrite Hlt. done.
    + by rewrite H12.
Qed.

Lemma forallb_btree_insert {V} (p : string * V -> bool) k v m :
  p (k, v) = true -> forallb p m = true -> forallb p (btree_insert k v m) = true.
Proof.
  intros Hp. induction m as [|[k1 v1] m IH]; simpl; [by rewrite Hp|].
  intros [H1 H2]%andb_true_iff. destruct (String.compare k k1); simpl.
  - by rewrite Hp, H2.
  - by rewrite Hp, H1, H2.
  - by rewrite H1, IH.
Qed.

Lemma wf_json_object fields :
  forallb (fun p => valid_str p.1 && wf_value p.2) fields = true ->
  wf_value (json_object fields) = true.
Proof.
  intros Hf. simpl. apply andb_true_iff.
  assert (Hgen : forall m, strictly_sorted_keys m = true ->
            forallb (fun p => valid_str p.1 && wf_value p.2) m = true ->
            let m' := foldl (fun m p => btree_insert p.1 p.2 m) m fields in
            strictly_sorted_keys m' = true /\
            forallb (fun p => valid_str p.1 && wf_value p.2) m' = true).
  { induction fields as [|[k v] fields IH]; intros m Hs Hm; [done|].
    simpl in Hf. apply andb_true_iff in Hf as [Hkv Hf]. simpl. apply IH; [done| |].
    - by apply btree_insert_sorted.
    - by apply forallb_btree_insert. }
  by apply (Hgen []).
Qed.

Lemma wf_json_int z : in_i64 z = true -> wf_value (json_int z) = true.
Proof.
  intros Hz. unfold json_int. destruct (z <? 0) eqn:E; simpl.
  - by rewrite E, Hz.
  - unfold in_u64. apply in_i64_spec in Hz. unfold i64_max in Hz. bool_prop. lia.
Qed.

Lemma wf_json_nat z : in_u64 z = true -> wf_value (json_int z) = true.
Proof.
  intros Hz. unfold json_int. destruct (z <? 0) eqn:E; simpl; [|done].
  unfold in_u64 in Hz. lia.
Qed.

Lemma wf_json_f64 f : wf_value (json_f64 f) = true.
Proof. unfold json_f64. by destruct (is_finite f) eqn:E. Qed.

Lemma valid_WorkType_ser w : valid_str (WorkType_ser w) = true.
Proof. by destruct w; vm_compute. Qed.
Lemma valid_Precision_name p : valid_str (Precision_name p) = true.
Proof. by destruct p; vm_compute. Qed.
Lemma valid_DeviceTier_ser d : valid_str (DeviceTier_ser d) = true.
Proof. by destruct d; vm_compute. Qed.

#[export] Hint Resolve wf_json_int wf_json_nat wf_json_f64 valid_WorkType_ser
  valid_Precision_name valid_DeviceTier_ser : exodus.

Lemma wf_VString s : valid_str s = true -> wf_value (VString s) = true.
Proof. done. Qed.

(** Well-formedness of an object literal, field by field. *)
Ltac wf_field :=
  lazymatch goal with
  | |- valid_str (String _ _) = true => vm_compute; reflexivity
  | |- wf_value (VString _) = true => apply wf_VString; wf_field
  | |- valid_str _ = true => first [eassumption | auto with exodus nocore]
  | |- wf_value (json_int _) = true =>
      first [apply wf_json_int; eassumption | apply wf_json_nat; eassumption]
  | |- wf_value (json_f64 _) = true => apply wf_json_f64
  | |- true = true => reflexivity
  | |- _ => idtac
  end.

Ltac wf_object :=
  apply wf_json_object; cbn [forallb fst snd];
  rewrite !andb_true_iff; split_and?; wf_field.

Lemma wf_claim_value c : wf_claim c = true -> wf_value (claim_to_value c) = true.
Proof. intros Hwf. unfold wf_claim in Hwf. cbn [forallb] in Hwf. bool_prop. unfold claim_to_value. wf_object. Qed.

Lemma wf_signed_value s : wf_signed s = true -> wf_value (signed_to_value s) = true.
Proof.
  intros Hwf. unfold wf_signed in Hwf. cbn [forallb] in Hwf. bool_prop. unfold signed_to_value. wf_object.
  by apply wf_claim_value.
Qed.

Lemma wf_proposal_value p : wf_proposal p = true -> wf_value (proposal_to_value p) = true.
Proof.
  intros Hwf. unfold wf_proposal in Hwf. cbn [forallb] in Hwf. bool_prop. unfold proposal_to_value. wf_object.
  simpl. rewrite forallb_forall in *. setoid_rewrite in_map_iff.
  intros v (s & <- & Hs). auto using wf_signed_value.
Qed.

Lemma wf_signatures_value l :
  forallb wf_signature l = true -> wf_value (signatures_value l) = true.
Proof.
  unfold signatures_value. simpl. rewrite !forallb_forall. setoid_rewrite in_map_iff.
  intros H v (s & <- & Hs). specialize (H s Hs). unfold wf_signature in H. simpl in H.
  bool_prop. unfold signature_to_value. wf_object.
Qed.

(** The values and the hashes are opaque to [simpl] in what follows. *)
#[global] Arguments claim_to_value : simpl never.
#[global] Arguments signed_to_value : simpl never.
#[global] Arguments proposal_to_value : simpl never.
#[global] Arguments signature_to_value : simpl never.
#[global] Arguments signatures_value : simpl never.
#[global] Arguments checkpoint_to_value : simpl never.
#[global] Arguments json_object : simpl never.
#[global] Arguments proposal_hash : simpl never.
#[global] Arguments block_hash : simpl never.
#[global] Arguments signed_verify : simpl never.
#[global] Arguments share_verify : simpl never.
#[global] Arguments genesis_checkpoint : simpl never.
#[global] Arguments wf_checkpoint : simpl never.
#[global] Arguments wf_proposal : simpl never.
#[global] Arguments wf_signed : simpl never.
#[global] Arguments wf_claim : simpl never.
