(* ===== verification/Accounting.v ===== *)
(** * Compute-unit accounting ([src/accounting.rs])

FLOPS plausibility and compute units of a claim, in binary64 arithmetic. *)

From S2P Require Import Prelude F64 Crypto Models.
From Stdlib Require Import Floats.SpecFloat.

Definition FLOPS_PER_CU : f64 := f64_of_Z (10 ^ 12).
Definition GENERATION_WEIGHT : f64 := f64_of_Z 2.
Definition STANDBY_CU_PER_TIER_SECOND : f64 := f64_lit 1 (10 ^ 6).
Definition STANDBY_CAP_RATIO : f64 := f64_lit 25 100.

Definition device_tier_time_weight (tier : DeviceTier) : f64 :=
  match tier with
  | Cpu => f64_of_Z 1
  | GpuApple | GpuNvidia => f64_of_Z 8
  | GpuAmd => f64_of_Z 7
  | Tpu => f64_of_Z 10
  | Other => f64_of_Z 4
  end.

Definition device_tier_flops_per_second (tier : DeviceTier) : f64 :=
  match tier with
  | Cpu => f64_of_Z (2 * 10 ^ 11)
  | GpuApple => f64_of_Z (10 ^ 14)
  | GpuNvidia => f64_of_Z (2 * 10 ^ 14)
  | GpuAmd => f64_of_Z (12 * 10 ^ 13)
  | Tpu => f64_of_Z (4 * 10 ^ 14)
  | Other => f64_of_Z (10 ^ 12)
  end.

(** [2.0 * params_b * 1e9 * tokens * factor], associated to the left. *)
Definition work_flops (params_b tokens factor : f64) : f64 :=
  f64_mul (f64_mul (f64_mul (f64_mul (f64_of_Z 2) params_b) (f64_of_Z (10 ^ 9))) tokens) factor.

Definition weighted_tokens (prompt completion : Z) : f64 :=
  f64_add (f64_of_Z prompt) (f64_mul (f64_of_Z completion) GENERATION_WEIGHT).

Definition expected_flops (claim : ContributionClaim) : f64 :=
  work_flops (params_b claim)
    (weighted_tokens (prompt_tokens claim) (completion_tokens claim))
    (Precision_factor (precision claim)).

Definition flops_is_plausible (claim : ContributionClaim) (tolerance : f64) : bool :=
  let expected := expected_flops claim in
  if f64_le (flops_estimate claim) f64_0 then false
  else if f64_eq expected f64_0 then false
  else
    let deviation := f64_div (f64_abs (f64_sub (flops_estimate claim) expected)) expected in
    if f64_gt deviation tolerance then false
    else if f64_gt (compute_seconds claim) f64_0 then
      let achieved := f64_div (flops_estimate claim) (compute_seconds claim) in
      let device_cap := device_tier_flops_per_second (device_tier claim) in
      if f64_gt achieved (f64_mul device_cap (f64_add f64_1 tolerance)) then false else true
    else true.

Definition compute_units (claim : ContributionClaim) : f64 :=
  let tokens := weighted_tokens (prompt_tokens claim) (completion_tokens claim) in
  let inference :=
    f64_div (work_flops (params_b claim) tokens (Precision_factor (precision claim)))
      FLOPS_PER_CU in
  let standby_raw :=
    f64_mul (f64_mul (compute_seconds claim) (device_tier_time_weight (device_tier claim)))
      STANDBY_CU_PER_TIER_SECOND in
  let standby := f64_min standby_raw (f64_mul inference STANDBY_CAP_RATIO) in
  round_f64 (f64_add inference standby) 9.

#[global] Arguments compute_units : simpl never.
#[global] Arguments flops_is_plausible : simpl never.
#[global] Arguments weighted_tokens : simpl never.
#[global] Arguments expected_flops : simpl never.
