(* ===== verification/Instances.v ===== *)
(** * Concrete instances of the third-party interfaces

Executable stand-ins for the parameters [Crypto] and [Serde], used only to evaluate the
definitions on concrete inputs: the laws the development assumes of the real crates are
proved of them, so the laws are consistent.  The digest is a polynomial hash of 32 bytes,
a signature is a keyed digest, JSON text is the value itself, and the decoder follows the
[Deserialize] derives of [models.rs]. *)

From S2P Require Import Prelude F64 Crypto Models Accounting.
From Stdlib Require Import Floats.SpecFloat.

Module Toy.

(** [n] big-endian bytes of an integer. *)
Fixpoint be_bytes (n : nat) (z : Z) (acc : bytes) : bytes :=
  match n with
  | O => acc
  | S n' => be_bytes n' (z / 256) (String (byte_of z) acc)
  end.

Fixpoint poly (s : bytes) (h : Z) : Z :=
  match s with
  | EmptyString => h
  | String a s' => poly s' (Z.land (h * 16777619 + byte_val a + 1) 4294967295)
  end.

Definition digest (s : bytes) : bytes :=
  let d := be_bytes 4 (poly s 2166136261) "" in
  d +:+ d +:+ d +:+ d +:+ d +:+ d +:+ d +:+ d.

Definition public (sk : bytes) : bytes :=
  if str_len sk =? 32 then sk else digest sk.

Definition tag (pk m : bytes) : bytes := digest (pk +:+ m) +:+ digest (m +:+ pk).

(** The exact decimal expansion of a finite float. *)
Definition digits (z : Z) : string := pretty z.

Fixpoint reduced (m : positive) (e : Z) : positive * Z :=
  match m with xO m' => if e <? 0 then reduced m' (e + 1) else (m, e) | _ => (m, e) end.

Definition exact_decimal (f : f64) : string :=
  match f with
  | S754_finite s m e =>
      let '(m, e) := reduced m e in
      (if s then "-" else "") +:+
      (if 0 <=? e then digits (Z.shiftl (Zpos m) e) +:+ ".0"
       else
         let k := Z.to_nat (- e) in
         let d := digits (Zpos m * 5 ^ (- e)) in
         let padded := zeros (S k - String.length d) +:+ d in
         let ip := (String.length padded - k)%nat in
         String.substring 0 ip padded +:+ "." +:+ String.substring ip k padded)
  | _ => "0.0"
  end.

Definition crypto_inst : Crypto := {|
  sha256 := digest;
  ed25519_public := public;
  ed25519_sign := fun sk m => tag (public sk) m;
  ed25519_verify := fun pk m s => String.eqb s (tag pk m);
  ryu_format_finite := exact_decimal;
|}.

(** ** Decoding *)

Definition field (k : string) (v : Value) : option Value :=
  match v with VObject fields => assoc k fields | _ => None end.
Definition as_str (v : Value) : option string :=
  match v with VString s => Some s | _ => None end.
Definition as_int (v : Value) : option Z :=
  match v with VNumber (PosInt z) | VNumber (NegInt z) => Some z | _ => None end.
Definition as_float (v : Value) : option f64 :=
  match v with VNumber n => as_f64 n | _ => None end.
Definition as_array (v : Value) : option (list Value) :=
  match v with VArray l => Some l | _ => None end.
Definition ok {A E} (r : result A E) : option A := match r with Ok a => Some a | Err _ => None end.

Definition str_field (k : string) (v : Value) : option string := field k v ≫= as_str.
Definition int_field (k : string) (v : Value) : option Z := field k v ≫= as_int.
Definition float_field (k : string) (v : Value) : option f64 := field k v ≫= as_float.

Fixpoint all_of {A} (dec : Value -> option A) (l : list Value) : option (list A) :=
  match l with
  | [] => Some []
  | v :: l' => a ← dec v; rest ← all_of dec l'; Some (a :: rest)
  end.
Definition array_field {A} (dec : Value -> option A) (k : string) (v : Value) : option (list A) :=
  (field k v ≫= as_array) ≫= all_of dec.

Definition claim_of (v : Value) : option ContributionClaim :=
  claim_id ← str_field "claim_id" v;
  node_id ← str_field "node_id" v;
  seq ← int_field "seq" v;
  wt ← str_field "work_type" v ≫= (fun s => ok (WorkType_from_str s));
  model ← str_field "model_id" v;
  params ← float_field "params_b" v;
  prec ← str_field "precision" v ≫= (fun s => ok (Precision_from_str s));
  pt ← int_field "prompt_tokens" v;
  ct ← int_field "completion_tokens" v;
  secs ← float_field "compute_seconds" v;
  flops ← float_field "flops_estimate" v;
  tier ← str_field "device_tier" v ≫= (fun s => ok (DeviceTier_from_str s));
  t0 ← str_field "started_at" v;
  t1 ← str_field "ended_at" v;
  lh ← int_field "last_seen_checkpoint_height" v;
  lhash ← str_field "last_seen_checkpoint_hash" v;
  Some (mkClaim claim_id node_id seq wt model params prec pt ct secs flops tier t0 t1 lh lhash).

Definition signed_of (v : Value) : option SignedContribution :=
  c ← field "claim" v ≫= claim_of;
  pk ← str_field "public_key_hex" v;
  sg ← str_field "signature_hex" v;
  Some (mkSigned c pk sg).

Definition proposal_of (v : Value) : option CheckpointProposal :=
  epoch ← int_field "epoch" v;
  height ← int_field "height" v;
  prev ← str_field "prev_hash" v;
  sealer ← str_field "sealed_by" v;
  claims ← array_field signed_of "claims" v;
  created ← str_field "created_at" v;
  Some (mkProposal epoch height prev sealer claims created).

Definition signature_of (v : Value) : option QuorumSignature :=
  node ← str_field "node_id" v;
  pk ← str_field "public_key_hex" v;
  sg ← str_field "signature_hex" v;
  Some (mkQuorumSignature node pk sg).

Definition checkpoint_of (v : Value) : option Checkpoint :=
  p ← field "proposal" v ≫= proposal_of;
  sigs ← array_field signature_of "signatures" v;
  q ← int_field "quorum" v;
  Some (mkCheckpoint p sigs q).

Definition serde_inst : Serde := {|
  jtext := Value;
  json_to_string := fun v => v;
  json_from_str := Some;
  checkpoint_from_value := checkpoint_of;
|}.

End Toy.

(** ** The laws *)

Lemma be_bytes_length n z acc :
  String.length (Toy.be_bytes n z acc) = (n + String.length acc)%nat.
Proof. revert z acc. induction n as [|n IH]; intros z acc; simpl; [done|]. rewrite IH. simpl. lia. Qed.

Lemma digest_length s : String.length (Toy.digest s) = 32%nat.
Proof. unfold Toy.digest. cbv zeta. by rewrite !string_length_app, be_bytes_length. Qed.

Lemma toy_crypto_laws : @CryptoLaws Toy.crypto_inst.
Proof.
  split.
  - intros x. apply digest_length.
  - intros sk m. cbn [ed25519_sign Toy.crypto_inst]. unfold Toy.tag.
    by rewrite string_length_app, !digest_length.
  - intros sk. cbn [ed25519_public Toy.crypto_inst]. unfold Toy.public, str_len.
    destruct (Z.eqb_spec (Z.of_nat (String.length sk)) 32); [lia|apply digest_length].
  - intros sk m Hl. apply String.eqb_refl.
Qed.

Lemma ok_WorkType w : Toy.ok (WorkType_from_str (WorkType_ser w)) = Some w.
Proof. by destruct w. Qed.
Lemma ok_Precision p : Toy.ok (Precision_from_str (Precision_name p)) = Some p.
Proof. by destruct p. Qed.
Lemma ok_DeviceTier d : Toy.ok (DeviceTier_from_str (DeviceTier_ser d)) = Some d.
Proof. by destruct d. Qed.

Lemma as_int_json z : Toy.as_int (json_int z) = Some z.
Proof. unfold json_int. by destruct (z <? 0). Qed.
Lemma as_float_json f : is_finite f = true -> Toy.as_float (json_f64 f) = Some f.
Proof. unfold json_f64. by intros ->. Qed.

(** Reduce the lookups of a decoder in an object literal. *)
Ltac decode_fields :=
  cbv [Toy.str_field Toy.int_field Toy.float_field Toy.field json_object foldl fst snd
       btree_insert String.compare Ascii.compare Ascii.N_of_ascii Ascii.N_of_digits N.compare
       Pos.compare Pos.compare_cont N.add N.mul Pos.add Pos.mul Pos.succ N.double N.succ_double
       assoc String.eqb Ascii.eqb Bool.eqb mbind option_bind Toy.as_str Toy.as_array];
  rewrite ?as_int_json; cbn [mbind option_bind].

Lemma claim_of_value c : wf_claim c = true -> Toy.claim_of (claim_to_value c) = Some c.
Proof.
  intros Hw. unfold wf_claim in Hw. bool_prop. unfold Toy.claim_of, claim_to_value.
  decode_fields. rewrite ok_WorkType, ok_Precision, ok_DeviceTier, !as_float_json by done.
  by destruct c.
Qed.

Lemma all_of_map {A} (dec : Value -> option A) (enc : A -> Value) (wf : A -> bool) l :
  (forall a, wf a = true -> dec (enc a) = Some a) -> forallb wf l = true ->
  Toy.all_of dec (map enc l) = Some l.
Proof.
  intros Hd. induction l as [|a l IH]; simpl; [done|]. intros [Ha Hl]%andb_true_iff.
  by rewrite Hd, IH.
Qed.

Lemma signed_of_value s : wf_signed s = true -> Toy.signed_of (signed_to_value s) = Some s.
Proof.
  intros Hw. unfold wf_signed in Hw. bool_prop. unfold Toy.signed_of, signed_to_value.
  decode_fields. rewrite claim_of_value by done. by destruct s.
Qed.

Lemma signature_of_value s : Toy.signature_of (signature_to_value s) = Some s.
Proof. unfold Toy.signature_of, signature_to_value. decode_fields. by destruct s. Qed.

Lemma proposal_of_value p : wf_proposal p = true -> Toy.proposal_of (proposal_to_value p) = Some p.
Proof.
  intros Hw. unfold wf_proposal in Hw. bool_prop.
  unfold Toy.proposal_of, proposal_to_value, Toy.array_field.
  decode_fields. rewrite (all_of_map _ _ wf_signed) by auto using signed_of_value. by destruct p.
Qed.

Lemma checkpoint_of_value c :
  wf_checkpoint c = true -> Toy.checkpoint_of (checkpoint_to_value c) = Some c.
Proof.
  intros Hw. unfold wf_checkpoint in Hw. bool_prop.
  unfold Toy.checkpoint_of, checkpoint_to_value, Toy.array_field, signatures_value.
  decode_fields. rewrite proposal_of_value by done. cbn.
  rewrite (all_of_map _ _ wf_signature) by auto using signature_of_value. by destruct c.
Qed.

Lemma toy_serde_laws : @SerdeLaws Toy.serde_inst.
Proof. split; [done|apply checkpoint_of_value]. Qed.

(** ** A concrete node, claim and block *)

Module Demo.
#[local] Existing Instance Toy.crypto_inst.

Definition seed : bytes := "an ed25519 seed of 32 bytes ....".
Definition seed2 : bytes := "another ed25519 seed of 32 bytes".
Definition node : string :=
  Eval vm_compute in node_id_from_public_key (public_key_from_private seed).
Definition node2 : string :=
  Eval vm_compute in node_id_from_public_key (public_key_from_private seed2).

Definition flops : f64 :=
  Eval vm_compute in expected_flops
    (make_claim "" "" 0 "" (f64_of_Z 3) Int4 512 128 f64_0 f64_0 GpuNvidia "" "" 0 "").

Definition claim (id : string) (node : string) (seq : Z) : ContributionClaim :=
  make_claim id node seq "llama-3b.gguf" (f64_of_Z 3) Int4 512 128 (f64_lit 25 2)
    flops GpuNvidia "2026-08-05T00:00:00+00:00" "2026-08-05T00:00:12+00:00" 0 "".

Definition signed (id : string) (seq : Z) : SignedContribution :=
  signed_create (claim id node seq) seed.

(** The quorum signature of a key holder on a proposal. *)
Definition endorse (seed : bytes) (p : CheckpointProposal) : QuorumSignature :=
  let pk := public_key_from_private seed in
  mkQuorumSignature (node_id_from_public_key pk) (hex pk) (hex (sign (proposal_hash p) seed)).

Definition proposal1 : CheckpointProposal :=
  Eval vm_compute in
    mkProposal 1 1 (block_hash genesis_checkpoint) node [signed "c1" 1; signed "c2" 2]
      "2026-08-05T00:01:00+00:00".

Definition block1 : Checkpoint :=
  Eval vm_compute in mkCheckpoint proposal1 [endorse seed proposal1] 1.
End Demo.
