(* ===== verification/ModelsProps.v ===== *)
(** * Properties of identities, encodings and claims

Hex and base32, node ids, signed claims, the string forms of the enums, and the plausibility
rule. *)

From Stdlib Require Import Floats.SpecFloat.
From S2P Require Import Prelude F64 Crypto CryptoTheory Models Accounting Instances.

(** ** Hex *)

Lemma nib_spec a d : nib a = Some d -> 0 <= d < 16 /\ hex_digit d = ascii_lower a.
Proof.
  assert (Hb : match nib a with
               | Some d => (0 <=? d) && (d <? 16) && Ascii.eqb (hex_digit d) (ascii_lower a)
               | None => true
               end = true) by all_bytes a.
  intros E. rewrite E in Hb. bool_prop. split; [lia|]. by apply Ascii.eqb_eq.
Qed.

Lemma byte_of_nibbles hi lo :
  0 <= hi < 16 -> 0 <= lo < 16 ->
  let b := byte_val (byte_of (Z.lor (Z.shiftl hi 4) lo)) in b / 16 = hi /\ b mod 16 = lo.
Proof.
  intros Hh Hl.
  assert (Hall : forallb (fun hi => forallb (fun lo =>
      let b := byte_val (byte_of (Z.lor (Z.shiftl hi 4) lo)) in (b / 16 =? hi) && (b mod 16 =? lo))
      (zrange 0 15)) (zrange 0 15) = true) by (vm_compute; reflexivity).
  rewrite forallb_forall in Hall. specialize (Hall hi).
  rewrite <- list_elem_of_In, elem_of_zrange, forallb_forall in Hall. specialize (Hall ltac:(lia) lo).
  rewrite <- list_elem_of_In, elem_of_zrange in Hall. specialize (Hall ltac:(lia)). cbv zeta in *.
  bool_prop. done.
Qed.

Lemma hex_pairs_lower n s b :
  (String.length s <= n)%nat -> Z.of_nat (String.length s) mod 2 = 0 ->
  hex_pairs s = Some b -> hex b = to_lowercase s.
Proof.
  revert s b. induction n as [|n IH]; intros [|a1 [|a2 s]] b; cbn [String.length]; try lia.
  1,2: by intros _ _ [= <-].
  - intros _ Hm. exfalso. revert Hm. vm_compute. discriminate.
  - intros Hl Hm. cbn [hex_pairs]. destruct (nib a1) as [hi|] eqn:E1; [|done].
    destruct (nib a2) as [lo|] eqn:E2; [|done]. destruct (hex_pairs s) as [out|] eqn:E; [|done].
    intros [= <-]. apply nib_spec in E1 as [Hhi E1]. apply nib_spec in E2 as [Hlo E2].
    destruct (byte_of_nibbles hi lo Hhi Hlo) as [B1 B2].
    cbn [hex to_lowercase]. unfold hex_byte. rewrite B1, B2, E1, E2. autorewrite with exodus_rw.
    rewrite (IH s out); [done|lia| |done].
    rewrite !Nat2Z.inj_succ in Hm. replace (Z.succ (Z.succ _)) with (Z.of_nat (String.length s) + 1 * 2) in Hm by lia.
    by rewrite Z.mod_add in Hm.
Qed.

(** hex encoding and decoding are inverse: every byte string decodes from its encoding, and
whatever decodes is the encoding of the result up to the case of its letters. *)
Theorem hex_roundtrip :
  (forall b, hex_decode (hex b) = Some b) /\
  (forall s b, hex_decode s = Some b -> hex b = to_lowercase s).
Proof.
  split; [apply hex_decode_hex|]. intros s b. unfold hex_decode, str_len.
  destruct (Z.eqb_spec (Z.of_nat (String.length s) mod 2) 0) as [E|]; [|done].
  by apply (hex_pairs_lower (String.length s)).
Qed.

(** ** Base32 and node ids *)

Lemma b32_drain_spec fuel buffer bits :
  0 <= bits -> (Z.to_nat bits <= fuel)%nat ->
  let '(out, rest) := b32_drain fuel buffer bits in
  str_len out = bits / 5 /\ rest = bits mod 5.
Proof.
  revert bits. induction fuel as [|fuel IH]; intros bits Hb Hf; cbn [b32_drain].
  { assert (bits = 0) as -> by lia. done. }
  destruct (Z.leb_spec 5 bits).
  - specialize (IH (bits - 5) ltac:(lia) ltac:(lia)).
    destruct (b32_drain fuel buffer (bits - 5)) as [out rest]. destruct IH as [E1 E2].
    unfold str_len in *. cbn [String.length]. rewrite Nat2Z.inj_succ, E1, E2.
    pose proof (Z.div_mod bits 5 ltac:(lia)). pose proof (Z.mod_pos_bound bits 5 ltac:(lia)).
    pose proof (Z.div_mod (bits - 5) 5 ltac:(lia)).
    pose proof (Z.mod_pos_bound (bits - 5) 5 ltac:(lia)). lia.
  - rewrite Z.div_small, Z.mod_small by lia. done.
Qed.

(** The length of the encoding: a character per five bits, the last group padded. *)
Lemma b32_loop_length data buffer bits :
  0 <= bits < 5 -> str_len (b32_loop data buffer bits) = (bits + 8 * str_len data + 4) / 5.
Proof.
  revert buffer bits. induction data as [|a data IH]; intros buffer bits Hb; cbn [b32_loop].
  - unfold str_len. cbn [String.length]. destruct (Z.ltb_spec 0 bits); cbn [String.length].
    + apply (Z.div_unique _ _ _ (bits - 1)); lia.
    + apply (Z.div_unique _ _ _ (bits + 4)); lia.
  - set (buffer' := Z.lor _ _).
    pose proof (b32_drain_spec (Z.to_nat (bits + 8)) buffer' (bits + 8) ltac:(lia) ltac:(lia)) as Hd.
    destruct (b32_drain _ buffer' (bits + 8)) as [out rest]. destruct Hd as [E1 ->].
    unfold str_len in *. rewrite string_length_app, Nat2Z.inj_add, E1.
    rewrite IH by (apply Z.mod_pos_bound; lia). cbn [String.length].
    replace (bits + 8 * Z.of_nat (S (String.length data)) + 4)
      with ((bits + 8) mod 5 + 8 * Z.of_nat (String.length data) + 4 + (bits + 8) / 5 * 5)
      by (pose proof (Z.div_mod (bits + 8) 5 ltac:(lia)); lia).
    rewrite Z.div_add by lia. lia.
Qed.

(** The characters of a node id after its prefix. *)
Definition b32_lower (a : ascii) : bool :=
  ((ch "a" <=? byte_val a) && (byte_val a <=? ch "z")) ||
  ((ch "2" <=? byte_val a) && (byte_val a <=? ch "7")).

Definition b32_upper (a : ascii) : bool := b32_lower (ascii_lower a).

Lemma b32_char_ok x : b32_upper (b32_char (Z.land x 0x1f)) = true.
Proof.
  change 0x1f with (Z.ones 5). rewrite Z.land_ones by lia.
  pose proof (Z.mod_pos_bound x (2 ^ 5) ltac:(lia)) as Hr. revert Hr. generalize (x mod 2 ^ 5). intros y Hy.
  assert (Hall : forallb (fun y => b32_upper (b32_char y)) (zrange 0 31) = true)
    by (vm_compute; reflexivity).
  rewrite forallb_forall in Hall. apply Hall. rewrite <- list_elem_of_In, elem_of_zrange. lia.
Qed.

Lemma b32_drain_ok fuel buffer bits : all_chars b32_upper (b32_drain fuel buffer bits).1 = true.
Proof.
  revert bits. induction fuel as [|fuel IH]; intros bits; cbn [b32_drain]; [done|].
  destruct (5 <=? bits); [|done]. specialize (IH (bits - 5)).
  destruct (b32_drain fuel buffer (bits - 5)) as [out rest]. cbn [fst all_chars] in *.
  by rewrite b32_char_ok.
Qed.

Lemma b32_loop_ok data buffer bits : all_chars b32_upper (b32_loop data buffer bits) = true.
Proof.
  revert buffer bits. induction data as [|a data IH]; intros buffer bits; cbn [b32_loop].
  - destruct (0 <? bits); [|done]. cbn [all_chars]. by rewrite b32_char_ok.
  - set (buffer' := Z.lor _ _). pose proof (b32_drain_ok (Z.to_nat (bits + 8)) buffer' (bits + 8)) as Hd.
    destruct (b32_drain _ buffer' (bits + 8)) as [out rest]. cbn [fst] in Hd.
    by rewrite all_chars_app, Hd, IH.
Qed.

Lemma to_lowercase_chars s : all_chars b32_lower (to_lowercase s) = all_chars b32_upper s.
Proof. induction s as [|a s IH]; [done|]. cbn [to_lowercase all_chars]. by rewrite IH. Qed.

Lemma to_lowercase_length s : str_len (to_lowercase s) = str_len s.
Proof. unfold str_len. f_equal. induction s as [|a s IH]; [done|]. cbn. by rewrite IH. Qed.

Lemma substring_length n s : (n <= String.length s)%nat -> String.length (String.substring 0 n s) = n.
Proof.
  revert n. induction s as [|a s IH]; intros [|n] Hn; cbn [String.length String.substring] in *;
    try lia. by rewrite IH by lia.
Qed.

Section NodeIds.
Context `{CL : CryptoLaws}.

(** A node id is always the prefix [exd] and 26 characters of the lower-case base32
alphabet, whatever the public key. *)
Theorem node_id_shape pk :
  exists body, node_id_from_public_key pk = "exd" +:+ body /\ str_len body = 26 /\
    all_chars b32_lower body = true.
Proof.
  eexists. split; [reflexivity|]. split.
  - rewrite to_lowercase_length. unfold base32_nopad. rewrite b32_loop_length by lia.
    unfold str_len. rewrite substring_length by (rewrite sha256_length; lia). done.
  - rewrite to_lowercase_chars. apply b32_loop_ok.
Qed.

Lemma signed_create_spec claim sk :
  String.length sk = 32%nat ->
  signed_verify (signed_create claim sk) =
  String.eqb (node_id_from_public_key (public_key_from_private sk)) (claim_node_id claim).
Proof.
  intros Hsk. unfold signed_verify, signed_create. cbn. rewrite !hex_decode_hex.
  destruct (String.eqb _ _); cbn [negb]; [|done]. by apply sign_verify.
Qed.

(** a claim signed with a 32-byte key verifies exactly when it names the node id of that
key: a node can claim work for itself and for nobody else. *)
Theorem signed_claim_verifies claim sk :
  String.length sk = 32%nat ->
  signed_verify (signed_create claim sk) =
  String.eqb (node_id_from_public_key (public_key_from_private sk)) (claim_node_id claim).
Proof. apply signed_create_spec. Qed.
End NodeIds.

(** ** Enums *)

(** The string forms of the three enums round-trip: parsing accepts exactly the serialised
names, and gives back the variant they name. *)
Theorem enum_names_roundtrip :
  (forall s w, WorkType_from_str s = Ok w <-> s = WorkType_ser w) /\
  (forall s p, Precision_from_str s = Ok p <-> s = Precision_name p) /\
  (forall s d, DeviceTier_from_str s = Ok d <-> s = DeviceTier_ser d).
Proof.
  split_and!; intros s x.
  - split; [|intros ->; by destruct x].
    unfold WorkType_from_str. intros E. inv_match E; bool_prop; by subst.
  - split; [|intros ->; by destruct x].
    unfold Precision_from_str. intros E. inv_match E; bool_prop; by subst.
  - split; [|intros ->; by destruct x].
    unfold DeviceTier_from_str. intros E. inv_match E; bool_prop; by subst.
Qed.

(** ** Accounting *)

(** A claim of one estimated FLOP in no time for a model of the given size. *)
Definition cheap_claim (size : f64) (tokens : Z) : ContributionClaim :=
  make_claim "id" "exda" 1 "m" size Int4 tokens 0 f64_0 f64_1 GpuApple "t0" "t1" 0 "".

(** what the plausibility rule lets through.  Once the expected FLOPS overflow, every
positive finite estimate passes (the deviation is NaN), and a claim of one token and one FLOP
is worth infinitely many compute units; with no token the units are NaN; and with negative
token counts every deviation is negative, so the claim passes and is worth negative units. *)
Theorem plausibility_gaps :
  (forall c tol, expected_flops c = S754_infinity false -> is_finite (flops_estimate c) = true ->
     f64_gt (flops_estimate c) f64_0 = true -> f64_gt (compute_seconds c) f64_0 = false ->
     flops_is_plausible c tol = true) /\
  (let size := f64_of_Z (10 ^ 300) in
   flops_is_plausible (cheap_claim size 1) (f64_lit 1 2) = true /\
   compute_units (cheap_claim size 1) = S754_infinity false /\
   flops_is_plausible (cheap_claim size 0) (f64_lit 1 2) = true /\
   is_nan (compute_units (cheap_claim size 0)) = true) /\
  (let c := cheap_claim f64_1 (-100) in
   flops_is_plausible c (f64_lit 1 2) = true /\ f64_lt (compute_units c) f64_0 = true).
Proof.
  split; [|split; split_and!; vm_compute; reflexivity].
  intros c tol He Hf Hp Hs. unfold flops_is_plausible. rewrite He, Hs.
  destruct (flops_estimate c) as [[]| | |[] m e]; try done. by destruct tol.
Qed.

Module ModelsDemo.
#[local] Existing Instance Toy.crypto_inst.

Lemma signed_claim_verifies_witness :
  signed_verify (signed_create (Demo.claim "c1" Demo.node 1) Demo.seed) = true.
Proof.
  rewrite (signed_claim_verifies (CL := toy_crypto_laws) (Demo.claim "c1" Demo.node 1) Demo.seed eq_refl).
  vm_compute. reflexivity.
Defined.

Lemma node_id_shape_witness :
  exists body, Demo.node = "exd" +:+ body /\ str_len body = 26 /\ all_chars b32_lower body = true.
Proof.
  exact (node_id_shape (CL := toy_crypto_laws) (public_key_from_private Demo.seed)).
Defined.
End ModelsDemo.
