(* ===== verification/Config.v ===== *)
(** * Configuration ([src/config.rs])

The settings of a node and how they are read from the environment.  Paths are strings with
the join of Unix paths.  The process environment and the shortest-decimal printer of [f64]
are the fields of the class [ProcessEnv]. *)

From S2P Require Import Prelude F64 Crypto.
From Stdlib Require Import Floats.SpecFloat.

Record ExodusConfig := mkConfig {
  data_dir : string;
  node_name : string;
  model_dir : option string;
  gpu_layers : option Z;
  llama_bin : string;
  inference : bool;
  max_tokens : Z;
  inference_timeout_seconds : f64;
  max_concurrent_inference : Z;
  distributed_inference : bool;
  distributed_timeout_seconds : f64;
  inference_backend : string;
  llama_server_bin : string;
  llama_server_host : string;
  llama_server_port : Z;
  llama_server_parallel : Z;
  epoch_seconds : f64;
  election_timeout_seconds : f64;
  byzantine : bool;
  max_faulty : option Z;
  claim_dedup_window : Z;
  active_peer_window : Z;
  heartbeat_seconds : f64;
  sync_request_interval_seconds : f64;
  node_host : string;
  node_port : Z;
  peers_cfg : list string;
  discover : bool;
  api_host : string;
  api_port : Z;
  flops_tolerance : f64;
  credits_per_cu : f64;
  reward_diminishing : f64;
  credit_halflife_seconds : f64;
  free_quota_seconds : f64;
  seconds_per_credit : f64;
  max_priority_levels : Z;
}.

(** [peer_stale_after]: four heartbeat intervals, at least fifteen seconds. *)
Definition peer_stale_after (c : ExodusConfig) : f64 :=
  let cadence := f64_min (heartbeat_seconds c) (epoch_seconds c) in
  f64_max (f64_mul cadence (f64_of_Z 4)) (f64_of_Z 15).

(** ** Text: [str::trim], [str::split], [str::parse::<f64>] *)

(** The characters with the Unicode property [White_Space]. *)
Definition is_whitespace (c : Z) : bool :=
  ((9 <=? c) && (c <=? 13)) || (c =? 32) || (c =? 0x85) || (c =? 0xa0) || (c =? 0x1680) ||
  ((0x2000 <=? c) && (c <=? 0x200a)) || (c =? 0x2028) || (c =? 0x2029) || (c =? 0x202f) ||
  (c =? 0x205f) || (c =? 0x3000).

Fixpoint skip_whitespace (l : list Z) : list Z :=
  match l with
  | c :: l' => if is_whitespace c then skip_whitespace l' else l
  | [] => []
  end.

Definition trim_chars (l : list Z) : list Z :=
  rev (skip_whitespace (rev (skip_whitespace l))).

Definition trim (s : string) : string := utf8_encode (trim_chars (chars s)).

(** The parts between the occurrences of an ASCII character, [s.split(c)]. *)
Fixpoint split_on (c : ascii) (s : string) : list string :=
  match s with
  | EmptyString => [""]
  | String a s' =>
      if Ascii.eqb a c then "" :: split_on c s'
      else match split_on c s' with
           | p :: ps => String a p :: ps
           | [] => [String a ""]
           end
  end.

Definition parse_i64 : string -> option Z := parse_int i64_min i64_max.

(** The double nearest to [m * 10^k]; the bounds only avoid powers of ten that cannot matter. *)
Definition scale10 (neg : bool) (m k : Z) : f64 :=
  match m with
  | Z.pos p =>
      let magnitude := str_len (pretty m) + k in
      if 400 <? magnitude then S754_infinity neg
      else if magnitude <? -400 then S754_zero neg
      else if 0 <=? k then
        binary_normalize f64_prec f64_emax (cond_Zopp neg (m * 10 ^ k)) 0 neg
      else SFdiv f64_prec f64_emax (S754_finite neg p 0)
             (S754_finite false (Z.to_pos (10 ^ (- k))) 0)
  | _ => S754_zero neg
  end.

(** An unsigned decimal number in lower case: digits, point, digits, exponent. *)
Definition parse_decimal (neg : bool) (s : string) : option f64 :=
  let '(mantissa, exponent) :=
    match split_at_char "e" s with
    | Some (m, e) =>
        (m, match e with
            | String a d =>
                let digits := if Ascii.eqb a "-" || Ascii.eqb a "+" then d else e in
                if negb (String.eqb digits "") && all_digits digits
                then Some (if Ascii.eqb a "-" then - digits_val 0 digits else digits_val 0 digits)
                else None
            | EmptyString => None
            end)
    | None => (s, Some 0)
    end in
  let '(ip, fp) :=
    match split_at_char "." mantissa with
    | Some (i, f) => (i, f)
    | None => (mantissa, "")
    end in
  match exponent with
  | Some e =>
      if negb (String.eqb (ip +:+ fp) "") && all_digits (ip +:+ fp)
      then Some (scale10 neg (digits_val 0 (ip +:+ fp)) (e - str_len fp))
      else None
  | None => None
  end.

(** [str::parse::<f64>] *)
Definition parse_f64 (s : string) : option f64 :=
  let unsigned (neg : bool) (t : string) :=
    if String.eqb t "inf" || String.eqb t "infinity" then Some (S754_infinity neg)
    else if String.eqb t "nan" then Some S754_nan
    else parse_decimal neg t in
  match to_lowercase s with
  | String a t as l =>
      if Ascii.eqb a "-" then unsigned true t
      else if Ascii.eqb a "+" then unsigned false t
      else unsigned false l
  | EmptyString => None
  end.

(** ** Paths *)

Fixpoint ends_with_slash (p : string) : bool :=
  match p with
  | EmptyString => false
  | String a EmptyString => Ascii.eqb a "/"
  | String _ p' => ends_with_slash p'
  end.

(** [PathBuf::join] *)
Definition path_join (p q : string) : string :=
  match q with
  | String a _ =>
      if Ascii.eqb a "/" then q
      else if String.eqb p "" then q
      else if ends_with_slash p then p +:+ q
      else p +:+ "/" +:+ q
  | EmptyString => if String.eqb p "" || ends_with_slash p then p else p +:+ "/"
  end.

Definition identity_path (c : ExodusConfig) : string := path_join (data_dir c) "identity.key".
Definition ledger_path (c : ExodusConfig) : string := path_join (data_dir c) "ledger.sqlite3".
Definition models_dir (c : ExodusConfig) : string :=
  match model_dir c with Some d => d | None => path_join (data_dir c) "models" end.

(** ** The environment *)

Class ProcessEnv := {
  (** [std::env::var]: [None] when the variable is unset or not Unicode *)
  env_var : string -> option string;
  (** [f64::to_string] *)
  f64_to_string : f64 -> string;
}.

Section FromEnv.
Context `{ProcessEnv}.

Definition env_str (name dflt : string) : string := default dflt (env_var ("EXODUS_" +:+ name)).

Definition env_int (name : string) (dflt : Z) : Z :=
  default dflt (parse_i64 (env_str name (pretty dflt))).

Definition env_float (name : string) (dflt : f64) : f64 :=
  default dflt (parse_f64 (env_str name (f64_to_string dflt))).

(** Lowercasing is that of ASCII: no other character lowercases into the four words. *)
Definition env_bool (name : string) (dflt : bool) : bool :=
  let v := to_lowercase (trim (env_str name (if dflt then "true" else "false"))) in
  existsb (String.eqb v) ["1"; "true"; "yes"; "on"].

Definition env_int_optional (name : string) : option Z :=
  let v := trim (env_str name "") in
  if String.eqb v "" then None else parse_i64 v.

Definition env_list (name : string) (dflt : list string) : list string :=
  let v := trim (env_str name "") in
  if String.eqb v "" then dflt
  else filter (fun p => String.eqb p "" = false) (map trim (split_on "," v)).

(** The branch of every system but Windows. *)
Definition default_data_dir : string :=
  let base := default "~/.local/share" (env_var "XDG_DATA_HOME") in
  match base with
  | String t (String sl rest) =>
      if Ascii.eqb t "~" && Ascii.eqb sl "/" then
        let home := default "/" (env_var "HOME") in
        path_join (path_join home rest) "exodus"
      else path_join base "exodus"
  | _ => path_join base "exodus"
  end.

(** [i64 as u16] *)
Definition as_u16 (z : Z) : Z := z mod 2 ^ 16.

Definition config_from_env : ExodusConfig :=
  let dir := default default_data_dir (env_var "EXODUS_DATA_DIR") in
  let models :=
    match env_var "EXODUS_MODEL_DIR" with
    | Some s => if String.eqb (trim s) "" then None else Some s
    | None => None
    end in
  let max_concurrent := wrap_u64 (env_int "MAX_CONCURRENT_INFERENCE" 1) in
  {| data_dir := dir;
     node_name := env_str "NODE_NAME" "exodus-node";
     model_dir := models;
     gpu_layers := env_int_optional "GPU_LAYERS";
     llama_bin := env_str "LLAMA_BIN" "llama-cli";
     inference := env_bool "INFERENCE" true;
     max_tokens := env_int "MAX_TOKENS" 256;
     inference_timeout_seconds := env_float "INFERENCE_TIMEOUT_SECONDS" (f64_of_Z 300);
     max_concurrent_inference := max_concurrent;
     distributed_inference := env_bool "DISTRIBUTED_INFERENCE" true;
     distributed_timeout_seconds := env_float "DISTRIBUTED_TIMEOUT_SECONDS" (f64_of_Z 60);
     inference_backend := env_str "INFERENCE_BACKEND" "server";
     llama_server_bin := env_str "LLAMA_SERVER_BIN" "/opt/llama.cpp/llama-server";
     llama_server_host := env_str "LLAMA_SERVER_HOST" "127.0.0.1";
     llama_server_port := as_u16 (env_int "LLAMA_SERVER_PORT" 52516);
     llama_server_parallel :=
       wrap_u64 (Z.max (env_int "LLAMA_SERVER_PARALLEL" (wrap_i64 max_concurrent)) 1);
     epoch_seconds := env_float "EPOCH_SECONDS" (f64_of_Z 30);
     election_timeout_seconds := env_float "ELECTION_TIMEOUT_SECONDS" (f64_of_Z 90);
     byzantine := env_bool "BYZANTINE" true;
     max_faulty := None;
     claim_dedup_window := env_int "CLAIM_DEDUP_WINDOW" 256;
     active_peer_window := env_int "ACTIVE_PEER_WINDOW" 5;
     heartbeat_seconds := env_float "HEARTBEAT_SECONDS" (f64_of_Z 10);
     sync_request_interval_seconds := env_float "SYNC_REQUEST_INTERVAL_SECONDS" (f64_of_Z 5);
     node_host := env_str "NODE_HOST" "0.0.0.0";
     node_port := as_u16 (env_int "NODE_PORT" 52514);
     peers_cfg := env_list "PEERS" [];
     discover := env_bool "DISCOVER" true;
     api_host := env_str "API_HOST" "127.0.0.1";
     api_port := as_u16 (env_int "API_PORT" 52515);
     flops_tolerance := env_float "FLOPS_TOLERANCE" (f64_lit 1 2);
     credits_per_cu := env_float "CREDITS_PER_CU" (f64_lit 1 100);
     reward_diminishing := env_float "REWARD_DIMINISHING" (f64_lit 85 100);
     credit_halflife_seconds :=
       env_float "CREDIT_HALFLIFE_SECONDS" (f64_mul (f64_mul (f64_of_Z 30) (f64_of_Z 24)) (f64_of_Z 3600));
     free_quota_seconds := env_float "FREE_QUOTA_SECONDS" (f64_of_Z 300);
     seconds_per_credit := env_float "SECONDS_PER_CREDIT" (f64_of_Z 60);
     max_priority_levels := env_int "MAX_PRIORITY_LEVELS" 5 |}.

End FromEnv.

(** The configuration of an empty environment with the given data directory. *)
Definition default_config (dir : string) : ExodusConfig :=
  mkConfig dir "exodus-node" None None "llama-cli" true 256 (f64_of_Z 300) 1 true (f64_of_Z 60)
    "server" "/opt/llama.cpp/llama-server" "127.0.0.1" 52516 1 (f64_of_Z 30) (f64_of_Z 90)
    true None 256 5 (f64_of_Z 10) (f64_of_Z 5) "0.0.0.0" 52514 [] true "127.0.0.1" 52515
    (f64_lit 1 2) (f64_lit 1 100) (f64_lit 85 100) (f64_of_Z 2592000) (f64_of_Z 300)
    (f64_of_Z 60) 5.

Example parse_f64_tests :
  map parse_f64 ["0.01"; "0.85"; ".5"; "5."; "+1E2"; "-2592000"; "2.5e-1"; "inf"; "1e999"; "5e-324";
                 "."; ""; "1e"; "e5"; "1.2.3"; " 1"] =
  [Some (f64_lit 1 100); Some (f64_lit 85 100); Some (f64_lit 1 2); Some (f64_of_Z 5);
   Some (f64_of_Z 100); Some (f64_of_Z (-2592000)); Some (f64_lit 1 4);
   Some (S754_infinity false); Some (S754_infinity false); Some (S754_finite false 1 (-1074));
   None; None; None; None; None; None].
Proof. vm_compute. reflexivity. Qed.

Example trim_tests :
  map trim ["  a b "; ""; "   "; "x"] = ["a b"; ""; ""; "x"] /\
  split_on "," "a,,b" = ["a"; ""; "b"].
Proof. vm_compute. done. Qed.
