(* ===== verification/ConfigProps.v ===== *)
(** * Configuration: theorems

Every environment gives a configuration whose fields fit their machine types, and an empty
environment gives the documented defaults. *)

From S2P Require Import Prelude F64 Crypto Config.
From Stdlib Require Import Floats.SpecFloat.

(** ** Integers, splitting and trimming *)

Lemma split_on_nonempty c s : split_on c s <> [].
Proof. destruct s as [|a s]; [done|]. simpl. destruct (Ascii.eqb a c); [done|]. by destruct (split_on c s). Qed.

Lemma parse_int_range lo hi s z : parse_int lo hi s = Some z -> lo <= z <= hi.
Proof.
  unfold parse_int. intros Hp. destruct s as [|a d]; [done|]. inv_match Hp; bool_prop; lia.
Qed.

Lemma skip_whitespace_idem l : skip_whitespace (skip_whitespace l) = skip_whitespace l.
Proof. induction l as [|c l IH]; simpl; [done|]. destruct (is_whitespace c) eqn:E; simpl; [done|by rewrite E]. Qed.

Lemma skip_whitespace_suffix l : exists k, l = k ++ skip_whitespace l.
Proof.
  induction l as [|c l [k IH]]; simpl; [by exists []|].
  destruct (is_whitespace c); [|by exists []]. exists (c :: k). simpl. congruence.
Qed.

(** A list without leading white space keeps this when its end is cut. *)
Lemma skip_whitespace_prefix l k :
  skip_whitespace (l ++ k) = l ++ k -> skip_whitespace l = l.
Proof.
  destruct l as [|c l]; simpl; [done|]. destruct (is_whitespace c); [|done].
  intros E. destruct (skip_whitespace_suffix (l ++ k)) as [j Hj].
  apply (f_equal length) in Hj. rewrite E in Hj.
  rewrite (length_app j) in Hj. simpl in Hj. lia.
Qed.

Lemma trim_chars_idem l : trim_chars (trim_chars l) = trim_chars l.
Proof.
  unfold trim_chars. set (m := skip_whitespace l).
  assert (Hm : skip_whitespace m = m) by apply skip_whitespace_idem.
  destruct (skip_whitespace_suffix (rev m)) as [k Hk].
  assert (Hp : m = rev (skip_whitespace (rev m)) ++ rev k).
  { rewrite <- (rev_involutive m) at 1. rewrite Hk at 1. apply rev_app_distr. }
  rewrite (skip_whitespace_prefix (rev (skip_whitespace (rev m))) (rev k)) by by rewrite <- Hp.
  rewrite rev_involutive, skip_whitespace_idem. done.
Qed.

Section ConfigProperties.
Context `{ProcessEnv}.

Lemma env_int_range name d : in_i64 d = true -> in_i64 (env_int name d) = true.
Proof.
  intros Hd. unfold env_int, parse_i64. destruct (parse_int _ _ _) eqn:E; [|done].
  apply in_i64_spec. by eapply parse_int_range.
Qed.

Lemma env_list_trimmed name p :
  p ∈ env_list name [] -> p <> "" /\ exists l, p = utf8_encode l /\ trim_chars l = l.
Proof.
  unfold env_list. destruct (String.eqb (trim _) ""); [intros []%elem_of_nil|].
  intros [Hp (q & <- & _)%list_elem_of_In%in_map_iff]%list_elem_of_filter.
  split; [by apply String.eqb_neq|]. unfold trim. eexists. split; [done|]. apply trim_chars_idem.
Qed.

(** whatever the environment holds, the configuration fits the machine types of its
fields: ports are 16-bit, the thread counts 64-bit and at least one server slot, the integer
settings [i64]; and the peer list has no empty and no untrimmed entry. *)
Theorem config_fields_in_range :
  let c := config_from_env in
  Forall (fun port => 0 <= port < 2 ^ 16) [llama_server_port c; node_port c; api_port c] /\
  in_u64 (max_concurrent_inference c) = true /\
  1 <= llama_server_parallel c < 2 ^ 63 /\
  Forall (fun z => in_i64 z = true)
    [max_tokens c; claim_dedup_window c; active_peer_window c; max_priority_levels c] /\
  (forall g, gpu_layers c = Some g -> in_i64 g = true) /\
  (forall p, p ∈ peers_cfg c -> p <> "" /\ exists l, p = utf8_encode l /\ trim_chars l = l).
Proof.
  cbn [llama_server_port node_port api_port max_concurrent_inference llama_server_parallel max_tokens
       claim_dedup_window active_peer_window max_priority_levels gpu_layers peers_cfg config_from_env].
  assert (Hport : forall z, 0 <= as_u16 z < 2 ^ 16) by (intros; apply Z.mod_pos_bound; lia).
  split_and!.
  - repeat constructor; apply Hport.
  - apply wrap_u64_range.
  - set (n := env_int "LLAMA_SERVER_PARALLEL" _).
    assert (Hn : in_i64 n = true) by apply env_int_range, wrap_i64_range.
    apply in_i64_spec in Hn. unfold i64_max in Hn.
    unfold wrap_u64. rewrite Z.mod_small; lia.
  - unfold wrap_u64. set (n := env_int "LLAMA_SERVER_PARALLEL" _).
    assert (Hn : in_i64 n = true) by apply env_int_range, wrap_i64_range.
    apply in_i64_spec in Hn. unfold i64_max in Hn. rewrite Z.mod_small; lia.
  - repeat constructor; apply env_int_range; reflexivity.
  - intros g. unfold env_int_optional. destruct (String.eqb _ ""); [done|].
    intros Hg%parse_int_range. by apply in_i64_spec.
  - apply env_list_trimmed.
Qed.

(** The floating-point defaults of [config_from_env]. *)
Definition default_floats : list f64 :=
  [f64_of_Z 300; f64_of_Z 60; f64_of_Z 30; f64_of_Z 90; f64_of_Z 10; f64_of_Z 5; f64_lit 1 2;
   f64_lit 1 100; f64_lit 85 100; f64_of_Z 2592000].

(** with nothing set but the home directory, [config_from_env] is the documented default
configuration, in [.local/share/exodus] under the home directory; printing and re-parsing the
defaults, which the code does on the way, changes none of them. *)
Theorem config_defaults home :
  env_var "HOME" = Some home -> (forall k, k <> "HOME" -> env_var k = None) ->
  Forall (fun d => parse_f64 (f64_to_string d) = Some d) default_floats ->
  config_from_env = default_config (path_join (path_join home ".local/share") "exodus").
Proof.
  intros Hh He Hf. rewrite Forall_forall in Hf.
  assert (Hfl : forall name d, d ∈ default_floats -> env_float name d = d).
  { intros name d Hd. unfold env_float, env_str. rewrite He by done. simpl. by rewrite Hf. }
  assert (Hs : forall name d, env_str name d = d) by (intros; unfold env_str; by rewrite He by done).
  unfold config_from_env, default_config, default_data_dir.
  rewrite Hh, (He "XDG_DATA_HOME"), (He "EXODUS_DATA_DIR"), (He "EXODUS_MODEL_DIR") by done.
  assert (E : f64_mul (f64_mul (f64_of_Z 30) (f64_of_Z 24)) (f64_of_Z 3600) = f64_of_Z 2592000)
    by (vm_compute; reflexivity).
  rewrite E, !Hfl by (apply list_elem_of_In; simpl; tauto).
  unfold env_int, env_bool, env_int_optional, env_list. rewrite !Hs.
  f_equal; vm_compute; reflexivity.
Qed.
End ConfigProperties.

Module ConfigDemo.

(** The decimal texts of the defaults. *)
Definition texts : list (string * f64) :=
  (fun t => (t, default f64_0 (parse_f64 t))) <$>
    ["300"; "60"; "30"; "90"; "10"; "5"; "0.5"; "0.01"; "0.85"; "2592000"].

Definition env_inst : ProcessEnv := {|
  env_var k := if String.eqb k "HOME" then Some "/home/ada" else None;
  f64_to_string x := default "" (fst <$> find_first (fun p => bool_decide (p.2 = x)) texts);
|}.
#[local] Existing Instance env_inst.

Lemma config_defaults_witness :
  data_dir config_from_env = "/home/ada/.local/share/exodus" /\ node_port config_from_env = 52514.
Proof.
  assert (E : config_from_env = default_config (path_join (path_join "/home/ada" ".local/share") "exodus")).
  { apply (config_defaults "/home/ada").
    - reflexivity.
    - intros k Hk. simpl. by rewrite (proj2 (String.eqb_neq k "HOME") Hk).
    - repeat constructor. }
  rewrite E. split; reflexivity.
Defined.

Definition bad_port_env : ProcessEnv := {|
  env_var k := if String.eqb k "EXODUS_NODE_PORT" then Some "65616" else None;
  f64_to_string x := "";
|}.

(** A port above the 16-bit range is not refused: it wraps. *)
Example out_of_range_port_wraps : node_port (@config_from_env bad_port_env) = 80.
Proof. vm_compute. reflexivity. Qed.
End ConfigDemo.
