(* ===== verification/Decimal.v ===== *)
(** * Decimal texts of numbers

The rendering of [py_float] loses nothing: the sign, the significant digits and the exponent
of a decimal text are recovered from the rendered text.  With a printer of shortest decimals
that is faithful at a float, the rendered text determines the float. *)

From S2P Require Import Prelude F64 Crypto CryptoTheory Config.
From Stdlib Require Import Floats.SpecFloat.

(** ** Splitting strings *)

Definition no_char (c : ascii) : string -> bool := all_chars (fun a => negb (Ascii.eqb a c)).

Lemma no_char_app c s t : no_char c (s +:+ t) = no_char c s && no_char c t.
Proof. apply all_chars_app. Qed.

Lemma split_at_char_app c l r :
  no_char c l = true -> split_at_char c (l +:+ String c r) = Some (l, r).
Proof.
  unfold no_char. induction l as [|a l IH]; autorewrite with exodus_rw; cbn.
  - by rewrite Ascii.eqb_refl.
  - intros [Ha Hl]%andb_true_iff. apply negb_true_iff in Ha. by rewrite Ha, IH.
Qed.

Lemma split_at_char_none c s : no_char c s = true -> split_at_char c s = None.
Proof.
  unfold no_char. induction s as [|a s IH]; cbn; [done|].
  intros [Ha Hl]%andb_true_iff. apply negb_true_iff in Ha. by rewrite Ha, IH.
Qed.

Lemma substring_split n s :
  (n <= String.length s)%nat ->
  String.substring 0 n s +:+ String.substring n (String.length s - n) s = s.
Proof.
  revert n. induction s as [|a s IH]; intros [|n] Hn; cbn [String.length] in *; try lia; cbn.
  - done.
  - f_equal. by rewrite substring_all.
  - autorewrite with exodus_rw. by rewrite IH by lia.
Qed.

Lemma substring_take_length n s :
  (n <= String.length s)%nat -> String.length (String.substring 0 n s) = n.
Proof.
  revert n. induction s as [|a s IH]; intros [|n] Hn; cbn [String.length String.substring] in *;
    try lia. by rewrite IH by lia.
Qed.

(** ** Digits and zeros *)

Lemma all_digits_app s t : all_digits (s +:+ t) = all_digits s && all_digits t.
Proof.
  induction s as [|a s IH]; autorewrite with exodus_rw; cbn [all_digits]; [done|].
  by rewrite IH, andb_assoc.
Qed.

Lemma all_digits_zeros n : all_digits (zeros n) = true.
Proof. induction n; [done|]. exact IHn. Qed.

Lemma zeros_length n : String.length (zeros n) = n.
Proof. induction n; cbn; congruence. Qed.

Lemma digits_no_char c s : is_digit c = false -> all_digits s = true -> no_char c s = true.
Proof.
  intros Hc. unfold no_char. induction s as [|a s IH]; cbn; [done|].
  intros [Ha Hs]%andb_true_iff. rewrite IH by done. rewrite andb_true_r. apply negb_true_iff.
  apply Ascii.eqb_neq. intros ->. congruence.
Qed.

(** Significant digits: not empty, no zero at either end. *)
Definition sig_digits (s : string) : bool :=
  negb (String.eqb s "") && all_digits s && String.eqb (trim_zeros s) s.

Lemma sig_digits_cons s : sig_digits s = true -> exists a t, s = String a t /\ Ascii.eqb a "0" = false.
Proof.
  unfold sig_digits. intros Hs. bool_prop. destruct s as [|a t]; [done|]. exists a, t. split; [done|].
  destruct (Ascii.eqb a "0") eqn:E; [|done]. exfalso.
  assert (Hl : forall u, (String.length (trim_start_zeros u) <= String.length u)%nat).
  { clear. induction u as [|b u IH]; cbn; [lia|]. destruct (Ascii.eqb b "0"); cbn; lia. }
  assert (Hr : forall u, (String.length (trim_end_zeros u) <= String.length u)%nat).
  { clear. induction u as [|b u IH]; cbn; [lia|].
    destruct (trim_end_zeros u); [destruct (Ascii.eqb b "0")|]; cbn in *; lia. }
  match goal with H : trim_zeros _ = _ |- _ => apply (f_equal String.length) in H; rename H into Ht end.
  unfold trim_zeros in Ht. cbn [trim_start_zeros] in Ht. rewrite E in Ht. cbn in Ht.
  specialize (Hl t). specialize (Hr (trim_start_zeros t)). lia.
Qed.

Lemma trim_start_zeros_app n s : trim_start_zeros (zeros n +:+ s) = trim_start_zeros s.
Proof. induction n; [done|]. exact IHn. Qed.

Lemma trim_end_zeros_zeros n : trim_end_zeros (zeros n) = "".
Proof. induction n; cbn; [done|]. by rewrite IHn. Qed.

Lemma trim_end_zeros_app n s : trim_end_zeros (s +:+ zeros n) = trim_end_zeros s.
Proof.
  induction s as [|a s IH]; autorewrite with exodus_rw; [apply trim_end_zeros_zeros|].
  cbn [trim_end_zeros]. by rewrite IH.
Qed.

(** Zeros around significant digits are trimmed. *)
Lemma trim_zeros_around n m s :
  sig_digits s = true -> trim_zeros (zeros n +:+ s +:+ zeros m) = s.
Proof.
  intros Hs. destruct (sig_digits_cons _ Hs) as (a & t & -> & Ha).
  unfold sig_digits in Hs. bool_prop. unfold trim_zeros in *.
  rewrite trim_start_zeros_app. autorewrite with exodus_rw. cbn [trim_start_zeros] in *.
  rewrite Ha in *. rewrite <- (string_app_cons a). rewrite trim_end_zeros_app. done.
Qed.

Lemma first_nonzero_zeros n s :
  sig_digits s = true -> forall m, first_nonzero (zeros n +:+ s +:+ zeros m) = Some (Z.of_nat n).
Proof.
  intros Hs m. destruct (sig_digits_cons _ Hs) as (a & t & -> & Ha).
  induction n as [|n IH].
  - autorewrite with exodus_rw. cbn [zeros first_nonzero]. autorewrite with exodus_rw.
    cbn [first_nonzero]. by rewrite Ha.
  - cbn [zeros]. rewrite string_app_cons. cbn [first_nonzero]. rewrite IH. cbn. f_equal. lia.
Qed.

(** ** The parts of a rendered text *)

Definition sign_text (neg : bool) : string := if neg then "-" else "".
Definition exp_sign (e : Z) : string := if e <? 0 then "-" else "+".

(** The parts of an unsigned text. *)
Definition unsigned_parts (s : string) : string * Z :=
  let '(mantissa, sci_exp) :=
    match split_at_char "e" s with
    | Some (m, e) => (m, parse_i32 e)
    | None => (s, None)
    end in
  let '(ip, fp) :=
    match split_at_char "." mantissa with
    | Some (i, f) => (i, f)
    | None => (mantissa, "")
    end in
  let sig := trim_zeros (ip +:+ fp) in
  (if String.eqb sig "" then "0" else sig,
   str_len ip - 1 - default 0 (first_nonzero (ip +:+ fp)) + default 0 sci_exp).

Lemma decimal_parts_sign neg a s :
  Ascii.eqb a "-" = false ->
  decimal_parts (sign_text neg +:+ String a s) =
  let '(sig, e) := unsigned_parts (String a s) in (neg, sig, e).
Proof.
  intros Ha. unfold decimal_parts, unsigned_parts, sign_text. destruct neg; autorewrite with exodus_rw.
  - change (Ascii.eqb "-" "-") with true. cbv iota.
    destruct (split_at_char "e" (String a s)) as [[m e]|].
    + by destruct (split_at_char "." m) as [[i f]|].
    + by destruct (split_at_char "." (String a s)) as [[i f]|].
  - rewrite Ha. destruct (split_at_char "e" (String a s)) as [[m e]|].
    + by destruct (split_at_char "." m) as [[i f]|].
    + by destruct (split_at_char "." (String a s)) as [[i f]|].
Qed.

(** ** The three notations *)

Lemma sig_digits_facts sig : sig_digits sig = true ->
  all_digits sig = true /\ trim_zeros sig = sig /\ (1 <= String.length sig)%nat /\ String.eqb sig "" = false.
Proof.
  intros Hs. destruct (sig_digits_cons _ Hs) as (a & t & E & _). unfold sig_digits in Hs. bool_prop.
  split_and!; try done. - subst. cbn. lia. - by apply String.eqb_neq.
Qed.

(** Positional notation: zeros, digits and zeros with a point among them. *)
Lemma positional_parts ip fp sig n m :
  sig_digits sig = true -> all_digits ip = true -> all_digits fp = true ->
  ip +:+ fp = zeros n +:+ sig +:+ zeros m ->
  unsigned_parts (ip +:+ "." +:+ fp) = (sig, str_len ip - 1 - Z.of_nat n).
Proof.
  intros Hs Hi Hf E. destruct (sig_digits_facts _ Hs) as (_ & _ & _ & He). unfold unsigned_parts.
  rewrite split_at_char_none.
  2:{ rewrite !no_char_app. by rewrite (digits_no_char "e" ip), (digits_no_char "e" fp). }
  change ("." +:+ fp) with (String "." fp). rewrite split_at_char_app by by apply digits_no_char.
  rewrite E, trim_zeros_around, first_nonzero_zeros, He by done. cbn. f_equal. lia.
Qed.

Lemma exponent_texts :
  forallb (fun e => bool_decide (parse_i32 (exp_sign e +:+ pad2 (Z.abs e)) = Some e))
    (zrange (-1000) 1000) = true.
Proof. vm_compute. reflexivity. Qed.

Lemma exponent_text e : -1000 <= e <= 1000 ->
  parse_i32 (exp_sign e +:+ pad2 (Z.abs e)) = Some e.
Proof.
  intros He. pose proof exponent_texts as Ha. rewrite forallb_forall in Ha.
  specialize (Ha e). rewrite bool_decide_eq_true in Ha. apply Ha.
  by apply list_elem_of_In, elem_of_zrange.
Qed.

(** Scientific notation: a digit, a point when more follow, and the exponent. *)
Lemma scientific_parts sig e text :
  sig_digits sig = true -> parse_i32 text = Some e ->
  unsigned_parts ((if str_len sig =? 1 then sig
                   else String.substring 0 1 sig +:+ "." +:+
                        String.substring 1 (String.length sig - 1) sig) +:+ "e" +:+ text) = (sig, e).
Proof.
  intros Hs Ht. destruct (sig_digits_facts _ Hs) as (Hd & Htr & Hl & He).
  pose proof (substring_split 1 sig Hl) as Hsp. pose proof (substring_take_length 1 sig Hl) as H1.
  assert (Hf : first_nonzero sig = Some 0).
  { pose proof (first_nonzero_zeros 0 sig Hs 0) as E. cbn [zeros] in E.
    rewrite string_app_nil_r, string_app_nil_l in E. exact E. }
  set (a := String.substring 0 1 sig) in *. set (b := String.substring 1 _ sig) in *.
  assert (Hab : all_digits a = true /\ all_digits b = true).
  { rewrite <- Hsp, all_digits_app in Hd. by apply andb_true_iff in Hd. }
  unfold unsigned_parts. change ("e" +:+ text) with (String "e" text).
  destruct (str_len sig =? 1) eqn:E1; rewrite split_at_char_app.
  - rewrite split_at_char_none by by apply digits_no_char. rewrite string_app_nil_r, Htr, He, Hf, Ht.
    cbn. f_equal. bool_prop. lia.
  - by apply digits_no_char.
  - change ("." +:+ b) with (String "." b). rewrite split_at_char_app.
    2:{ apply digits_no_char; [done|apply Hab]. }
    rewrite Hsp, Htr, He, Hf, Ht. unfold str_len. by rewrite H1.
  - rewrite !no_char_app. destruct Hab as [Ha Hb].
    by rewrite (digits_no_char "e" a eq_refl Ha), (digits_no_char "e" b eq_refl Hb).
Qed.

(** ** The round trip *)

(** The exponents of a double are far inside these bounds. *)
Definition wf_parts (p : bool * string * Z) : bool :=
  let '(_, sig, e) := p in sig_digits sig && (-1000 <=? e) && (e <=? 1000).

Lemma is_digit_minus a : is_digit a = true -> Ascii.eqb a "-" = false.
Proof. intros Ha. apply Ascii.eqb_neq. intros ->. vm_compute in Ha. done. Qed.

(** A non-empty text that starts with a digit, under a sign. *)
Lemma signed_parts neg s sig e :
  (exists a t, s = String a t /\ is_digit a = true) -> unsigned_parts s = (sig, e) ->
  decimal_parts (sign_text neg +:+ s) = (neg, sig, e).
Proof.
  intros (a & t & -> & Ha) Hu. rewrite decimal_parts_sign by by apply is_digit_minus. by rewrite Hu.
Qed.

Lemma sig_first sig : sig_digits sig = true -> exists a t, sig = String a t /\ is_digit a = true.
Proof.
  intros Hs. destruct (sig_digits_facts _ Hs) as (Hd & _ & Hl & _).
  destruct sig as [|a t]; [cbn in Hl; lia|]. exists a, t. split; [done|].
  cbn in Hd. by apply andb_true_iff in Hd as [? _].
Qed.

Lemma first_app s t a u : s = String a u -> exists u', s +:+ t = String a u'.
Proof. intros ->. autorewrite with exodus_rw. eauto. Qed.

Theorem decimal_roundtrip neg sig e :
  wf_parts (neg, sig, e) = true -> decimal_parts (render_decimal neg sig e) = (neg, sig, e).
Proof.
  unfold wf_parts. intros Hw. bool_prop.
  match goal with H : sig_digits sig = true |- _ => rename H into Hs end.
  destruct (sig_digits_facts _ Hs) as (Hd & Htr & Hl & He).
  destruct (sig_first _ Hs) as (a & t & Ea & Ha).
  unfold render_decimal. fold (sign_text neg).
  destruct ((16 <=? e) || (e <? -4)) eqn:Esci.
  - fold (exp_sign e). apply signed_parts; [|apply scientific_parts; [done|by apply exponent_text]].
    destruct (str_len sig =? 1).
    + destruct (first_app sig ("e" +:+ exp_sign e +:+ pad2 (Z.abs e)) a t Ea) as [u' ->]. eauto.
    + rewrite Ea. cbn [String.substring]. autorewrite with exodus_rw. eauto.
  - apply orb_false_iff in Esci as [E1 E2]. bool_prop. destruct (e <? 0) eqn:Eneg; bool_prop.
    + apply signed_parts; [exists "0"%char; eexists; split; [reflexivity|done]|].
      change ("0." +:+ zeros (Z.to_nat (- e - 1)) +:+ sig) with
        ("0" +:+ "." +:+ (zeros (Z.to_nat (- e - 1)) +:+ sig)).
      rewrite (positional_parts "0" (zeros (Z.to_nat (- e - 1)) +:+ sig) sig (S (Z.to_nat (- e - 1))) 0).
      * f_equal. change (str_len "0") with 1. lia.
      * done.
      * done.
      * by rewrite all_digits_app, all_digits_zeros.
      * cbn [zeros]. by rewrite string_app_nil_r, string_app_cons.
    + set (k := e + 1 - str_len sig). destruct (str_len sig <=? e + 1) eqn:El; bool_prop.
      * apply signed_parts.
        { destruct (first_app sig (zeros (Z.to_nat k) +:+ ".0") a t Ea) as [u' ->]. eauto. }
        rewrite <- string_app_assoc. change ".0" with ("." +:+ "0").
        rewrite (positional_parts (sig +:+ zeros (Z.to_nat k)) "0" sig 0 (Z.to_nat k + 1)); try done.
        -- f_equal. unfold str_len in *. rewrite string_length_app, zeros_length. lia.
        -- by rewrite all_digits_app, all_digits_zeros, andb_true_r.
        -- cbn [zeros]. rewrite string_app_nil_l, string_app_assoc. f_equal.
           clear. induction (Z.to_nat k) as [|n IH]; [done|]. cbn. by rewrite string_app_cons, IH.
      * unfold str_len in El. assert (Hn : (Z.to_nat (e + 1) <= String.length sig)%nat) by lia.
        pose proof (substring_split _ _ Hn) as Hsp. pose proof (substring_take_length _ _ Hn) as Hlen.
        set (l := String.substring 0 (Z.to_nat (e + 1)) sig) in *.
        set (r := String.substring (Z.to_nat (e + 1)) _ sig) in *.
        assert (Hlr : all_digits l = true /\ all_digits r = true).
        { rewrite <- Hsp, all_digits_app in Hd. by apply andb_true_iff in Hd. }
        apply signed_parts.
        { unfold l. rewrite Ea. destruct (Z.to_nat (e + 1)) eqn:Ek; [lia|]. cbn [String.substring].
          autorewrite with exodus_rw. eauto. }
        rewrite (positional_parts l r sig 0 0); [|done|apply Hlr..|].
        -- f_equal. unfold str_len. rewrite Hlen. lia.
        -- cbn [zeros]. by rewrite string_app_nil_r, string_app_nil_l.
Qed.

(** ** Character sets of number texts *)

Definition int_char (a : ascii) : bool := is_digit a || Ascii.eqb a "-".
Definition num_char (a : ascii) : bool :=
  int_char a || Ascii.eqb a "+" || Ascii.eqb a "." || Ascii.eqb a "e".

Lemma int_num_char a : int_char a = true -> num_char a = true.
Proof. unfold num_char. by intros ->. Qed.

Lemma all_digits_int s : all_digits s = true -> all_chars int_char s = true.
Proof.
  induction s as [|a s IH]; cbn; [done|]. intros [Ha Hs]%andb_true_iff.
  rewrite IH by done. unfold int_char. by rewrite Ha.
Qed.

Lemma all_digits_num s : all_digits s = true -> all_chars num_char s = true.
Proof. intros Hs. eapply all_chars_impl; [apply int_num_char|by apply all_digits_int]. Qed.

Lemma pretty_N_go_digits x s : all_digits s = true -> all_digits (pretty_N_go x s) = true.
Proof.
  revert s. induction (N.lt_wf_0 x) as [x _ IH]. intros s Hs.
  destruct (decide (0 < x)%N) as [Hx|Hx].
  - rewrite pretty_N_go_step by done. apply IH; [by apply N.div_lt|].
    cbn [all_digits]. rewrite Hs, andb_true_r.
    assert (Hm : (x `mod` 10 < 10)%N) by (apply N.mod_lt; done). revert Hm.
    generalize (x `mod` 10)%N. intros y Hy.
    assert (Hall : forallb (fun y => is_digit (pretty_N_char (Z.to_N y))) (zrange 0 9) = true)
      by (vm_compute; reflexivity).
    rewrite forallb_forall in Hall. specialize (Hall (Z.of_N y)). rewrite N2Z.id in Hall. apply Hall.
    apply list_elem_of_In, elem_of_zrange. lia.
  - assert (x = 0%N) as -> by lia. by rewrite pretty_N_go_0.
Qed.

Lemma pretty_N_digits (x : N) : all_digits (pretty x) = true.
Proof.
  unfold pretty, pretty_N. destruct (decide (x = 0%N)); [done|]. by apply pretty_N_go_digits.
Qed.

Lemma pretty_N_go_nonempty x s : s <> "" -> pretty_N_go x s <> "".
Proof.
  revert s. induction (N.lt_wf_0 x) as [x _ IH]. intros s Hs.
  destruct (decide (0 < x)%N) as [Hx|Hx].
  - rewrite pretty_N_go_step by done. apply IH; [by apply N.div_lt|done].
  - assert (x = 0%N) as -> by lia. by rewrite pretty_N_go_0.
Qed.

Lemma pretty_Z_nonempty (z : Z) : pretty z <> "".
Proof.
  destruct z as [|p|p]; [done| |done].
  change (pretty (N.pos p) <> ""). unfold pretty, pretty_N. destruct (decide _); [done|].
  rewrite pretty_N_go_step by lia. by apply pretty_N_go_nonempty.
Qed.

Lemma pretty_Z_chars (z : Z) : all_chars int_char (pretty z) = true.
Proof.
  destruct z as [|p|p]; [done| |].
  - apply all_digits_int. exact (pretty_N_digits (N.pos p)).
  - change (all_chars int_char (String "-" (pretty (N.pos p))) = true). cbn [all_chars].
    by rewrite (all_digits_int _ (pretty_N_digits _)).
Qed.

Lemma exponent_chars :
  forallb (fun e => all_chars num_char (exp_sign e +:+ pad2 (Z.abs e))) (zrange (-1000) 1000) = true.
Proof. vm_compute. reflexivity. Qed.

Lemma exponent_num_chars e : -1000 <= e <= 1000 ->
  all_chars num_char (exp_sign e +:+ pad2 (Z.abs e)) = true.
Proof.
  intros He. pose proof exponent_chars as Ha. rewrite forallb_forall in Ha. apply Ha.
  by apply list_elem_of_In, elem_of_zrange.
Qed.

Lemma sign_text_num neg : all_chars num_char (sign_text neg) = true.
Proof. by destruct neg. Qed.

Lemma all_digits_substring n m s : all_digits s = true -> all_digits (String.substring n m s) = true.
Proof.
  revert n m. induction s as [|a s IH]; intros [|n] [|m]; cbn; try done.
  - intros [Ha Hs]%andb_true_iff. by rewrite Ha, IH.
  - intros [Ha Hs]%andb_true_iff. by apply IH.
  - intros [Ha Hs]%andb_true_iff. by apply IH.
Qed.

(** A rendered float is made of number characters, and has a point or an exponent. *)
Lemma render_decimal_chars neg sig e :
  wf_parts (neg, sig, e) = true ->
  all_chars num_char (render_decimal neg sig e) = true /\
  all_chars int_char (render_decimal neg sig e) = false.
Proof.
  unfold wf_parts. intros Hw. bool_prop.
  assert (Hd : all_digits sig = true) by (by eapply sig_digits_facts).
  pose proof (exponent_num_chars e ltac:(lia)) as He.
  assert (Hp : all_chars int_char "." = false) by reflexivity.
  assert (Hx : all_chars int_char "e" = false) by reflexivity.
  assert (Hz : forall n, all_chars num_char (zeros n) = true)
    by (intros; apply all_digits_num, all_digits_zeros).
  assert (Hs : forall n m, all_chars num_char (String.substring n m sig) = true)
    by (intros; by apply all_digits_num, all_digits_substring).
  unfold render_decimal. fold (sign_text neg). fold (exp_sign e).
  split; repeat case_match; rewrite ?all_chars_app, ?Hp, ?Hx, ?andb_false_r; try done;
    rewrite ?all_chars_app in He; rewrite ?He, ?sign_text_num, ?Hz, ?Hs, ?(all_digits_num sig Hd);
    try reflexivity.
  all: try (apply andb_true_iff in He as [He1 He2]; by rewrite He1, He2).
Qed.

(** ** Floats *)

Definition f64_of_parts (p : bool * string * Z) : f64 :=
  let '(neg, sig, e) := p in scale10 neg (digits_val 0 sig) (e - (str_len sig - 1)).

Section Floats.
Context `{Crypto}.

(** The printer of shortest decimals is faithful at a float: it prints significant digits and
an exponent that denote the float. *)
Definition ryu_faithful (f : f64) : bool :=
  f64_eq f f64_0 ||
  (wf_parts (decimal_parts (ryu_format_finite f)) &&
   bool_decide (f64_of_parts (decimal_parts (ryu_format_finite f)) = f)).

Lemma f64_eq_zero f : f64_eq f f64_0 = true <-> exists s, f = S754_zero s.
Proof.
  split; [|by intros [[] ->]]. unfold f64_eq, f64_0. destruct f as [s|[]| |[] m e]; try done. eauto.
Qed.

(** The text of a finite float, by its parts. *)
Lemma py_float_text f :
  is_finite f = true -> ryu_faithful f = true ->
  (exists s, f = S754_zero s /\ py_float f = (if s then "-0.0" else "0.0")%string) \/
  (exists neg sig e, wf_parts (neg, sig, e) = true /\ f64_of_parts (neg, sig, e) = f /\
     py_float f = render_decimal neg sig e).
Proof.
  intros Hf Hr. unfold ryu_faithful in Hr. unfold py_float.
  destruct (f64_eq f f64_0) eqn:E.
  - left. apply f64_eq_zero in E as [s ->]. exists s. split; [done|]. by destruct s.
  - right. cbn [orb] in Hr. apply andb_true_iff in Hr as [Hw Hp%bool_decide_eq_true].
    replace (is_nan f) with false by by destruct f.
    replace (is_infinite f) with false by by destruct f.
    destruct (decimal_parts (ryu_format_finite f)) as [[neg sig] e]. eauto 6.
Qed.

Lemma py_float_chars f :
  is_finite f = true -> ryu_faithful f = true ->
  all_chars num_char (py_float f) = true /\ all_chars int_char (py_float f) = false.
Proof.
  intros Hf Hr. destruct (py_float_text f Hf Hr) as [(s & _ & ->)|(neg & sig & e & Hw & _ & ->)].
  - by destruct s.
  - by apply render_decimal_chars.
Qed.

(** The parts of the text of a finite float. *)
Lemma py_float_parts f :
  is_finite f = true -> ryu_faithful f = true ->
  (exists s, f = S754_zero s /\ decimal_parts (py_float f) = (s, "0", 0)) \/
  (wf_parts (decimal_parts (py_float f)) = true /\ f64_of_parts (decimal_parts (py_float f)) = f).
Proof.
  intros Hf Hr. destruct (py_float_text f Hf Hr) as [(s & -> & ->)|(neg & sig & e & Hw & Hp & ->)].
  - left. exists s. split; [done|]. by destruct s.
  - right. by rewrite decimal_roundtrip.
Qed.

Lemma py_float_inj f g :
  is_finite f = true -> is_finite g = true -> ryu_faithful f = true -> ryu_faithful g = true ->
  py_float f = py_float g -> f = g.
Proof.
  intros Hf Hg Rf Rg E.
  destruct (py_float_parts f Hf Rf) as [(s & -> & Pf)|[Wf Pf]],
    (py_float_parts g Hg Rg) as [(s' & -> & Pg)|[Wg Pg]]; rewrite E in *.
  - congruence.
  - rewrite Pf in Wg. done.
  - rewrite Pg in Wf. done.
  - congruence.
Qed.
End Floats.
