(* ===== verification/Canonical.v ===== *)
(** * Canonical JSON is unambiguous

The canonical text of a JSON value determines the value: no two different well-formed values
have the same canonical bytes.  This is what makes hashes and signatures over canonical
bytes bind the content they are taken of. *)

From S2P Require Import Prelude F64 Crypto CryptoTheory Models Config Decimal.
From Stdlib Require Import Floats.SpecFloat.

(** ** Escaped strings *)

Definition hex_val (a b c d : ascii) : option Z :=
  match nib a, nib b, nib c, nib d with
  | Some w, Some x, Some y, Some z => Some (4096 * w + 256 * x + 16 * y + z)
  | _, _, _, _ => None
  end.

(** Reads a [\u] escape of four digits after the backslash and the letter. *)
Definition unescape_u (s : string) : option (Z * string) :=
  match s with
  | String a (String b (String c (String d r))) =>
      match hex_val a b c d with Some u => Some (u, r) | None => None end
  | _ => None
  end.

(** Reads one escaped character. *)
Definition unescape (s : string) : option (Z * string) :=
  match s with
  | String a s' =>
      if Ascii.eqb a quote_char then None
      else if negb (Ascii.eqb a backslash) then Some (byte_val a, s')
      else match s' with
           | String b r =>
               if Ascii.eqb b quote_char then Some (0x22, r)
               else if Ascii.eqb b backslash then Some (0x5c, r)
               else if Ascii.eqb b "b" then Some (0x08, r)
               else if Ascii.eqb b "f" then Some (0x0c, r)
               else if Ascii.eqb b "n" then Some (0x0a, r)
               else if Ascii.eqb b "r" then Some (0x0d, r)
               else if Ascii.eqb b "t" then Some (0x09, r)
               else match unescape_u r with
                    | Some (u, r') =>
                        if (0xd800 <=? u) && (u <=? 0xdbff) then
                          match r' with
                          | String _ (String _ r'') =>
                              match unescape_u r'' with
                              | Some (lo, r''') =>
                                  Some (0x10000 + Z.shiftl (u - 0xd800) 10 + (lo - 0xdc00), r''')
                              | None => None
                              end
                          | _ => None
                          end
                        else Some (u, r')
                    | None => None
                    end
           | EmptyString => None
           end
  | EmptyString => None
  end.

Lemma unescape_u_hex4 u r : 0 <= u < 0x10000 -> unescape_u (hex4 u +:+ r) = Some (u, r).
Proof.
  intros Hu. unfold hex4. autorewrite with exodus_rw. cbn [unescape_u]. unfold hex_val.
  assert (Hd : forall x, 0 <= x -> nib (hex_digit (x mod 16)) = Some (x mod 16))
    by (intros; apply nib_hex_digit, Z.mod_pos_bound; lia).
  rewrite (nib_hex_digit (u / 4096)).
  2:{ split; [apply Z.div_pos; lia|apply Z.div_lt_upper_bound; lia]. }
  rewrite !Hd by (try apply Z.div_pos; lia).
  do 2 f_equal. pose proof (Z.div_mod u 16 ltac:(lia)).
  assert (E2 : u / 256 = u / 16 / 16) by (rewrite Z.div_div by lia; done).
  assert (E3 : u / 4096 = u / 16 / 16 / 16) by (rewrite !Z.div_div by lia; done).
  pose proof (Z.div_mod (u / 16) 16 ltac:(lia)). pose proof (Z.div_mod (u / 16 / 16) 16 ltac:(lia)).
  rewrite E2, E3. lia.
Qed.

Lemma escape_u_app u r : escape_u u +:+ r = String backslash (String "u" (hex4 u +:+ r)).
Proof. reflexivity. Qed.

Lemma ascii_eqb_val a b : Ascii.eqb a b = (byte_val a =? byte_val b).
Proof.
  destruct (Ascii.eqb_spec a b) as [->|Hn]; [by rewrite Z.eqb_refl|].
  symmetry. apply Z.eqb_neq. intros E. by apply byte_val_inj in E.
Qed.

Lemma unescape_plain c r :
  0x20 <= c < 0x80 -> c <> 0x22 -> c <> 0x5c ->
  unescape (String (byte_of c) r) = Some (c, r).
Proof.
  intros Hc H1 H2. cbn [unescape]. rewrite !ascii_eqb_val, byte_val_of by lia.
  change (byte_val quote_char) with 0x22. change (byte_val backslash) with 0x5c.
  by rewrite (proj2 (Z.eqb_neq c 0x22)), (proj2 (Z.eqb_neq c 0x5c)).
Qed.

(** A [\u] escape that is not the first half of a surrogate pair. *)
Lemma unescape_bmp c r :
  0 <= c < 0x10000 -> (0xd800 <=? c) && (c <=? 0xdbff) = false ->
  unescape (escape_u c +:+ r) = Some (c, r).
Proof.
  intros Hc Hs. rewrite escape_u_app. unfold unescape. rewrite unescape_u_hex4, Hs by done. reflexivity.
Qed.

Lemma unescape_escape c r : is_scalar c = true -> unescape (escape_char c +:+ r) = Some (c, r).
Proof.
  intros Hc. unfold is_scalar in Hc. bool_prop. unfold escape_char.
  repeat match goal with |- context [if ?b =? ?k then _ else _] =>
    destruct (Z.eqb_spec b k); [subst; reflexivity|] end.
  destruct (Z.ltb_spec c 0x20).
  { apply unescape_bmp; [lia|]. apply andb_false_iff. left. apply Z.leb_gt. lia. }
  destruct (Z.ltb_spec c 0x80); [apply unescape_plain; lia|].
  destruct (Z.leb_spec c 0xffff).
  { apply unescape_bmp; [lia|]. apply andb_false_iff.
    destruct (Z.leb_spec 0xd800 c); [|by left]. right. apply Z.leb_gt.
    destruct H0 as [H0|H0]; bool_prop; lia. }
  set (cp := c - 0x10000).
  assert (Hs : Z.shiftr cp 10 = cp / 1024) by (rewrite Z.shiftr_div_pow2 by lia; done).
  assert (Hl : Z.land cp 0x3ff = cp mod 1024) by (change 0x3ff with (Z.ones 10); by rewrite Z.land_ones by lia).
  rewrite Hs, Hl. pose proof (Z.mod_pos_bound cp 1024 ltac:(lia)).
  assert (0 <= cp / 1024 < 1024) by (split; [apply Z.div_pos; lia|apply Z.div_lt_upper_bound; lia]).
  rewrite string_app_assoc, escape_u_app. unfold unescape.
  rewrite unescape_u_hex4 by lia. rewrite escape_u_app.
  replace ((0xd800 <=? 0xd800 + cp / 1024) && (0xd800 + cp / 1024 <=? 0xdbff)) with true
    by (symmetry; apply andb_true_iff; rewrite !Z.leb_le; lia).
  rewrite unescape_u_hex4 by lia. cbn -[Z.shiftl Z.add Z.sub Z.div Z.modulo].
  do 2 f_equal. rewrite Z.shiftl_mul_pow2 by lia.
  pose proof (Z.div_mod cp 1024 ltac:(lia)). unfold cp in *. lia.
Qed.

Lemma escape_chars_inj l1 l2 r1 r2 :
  forallb is_scalar l1 = true -> forallb is_scalar l2 = true ->
  escape_chars l1 +:+ String quote_char r1 = escape_chars l2 +:+ String quote_char r2 ->
  l1 = l2 /\ r1 = r2.
Proof.
  revert l2. induction l1 as [|c1 l1 IH]; intros [|c2 l2]; cbn [forallb escape_chars].
  - intros _ _ E. autorewrite with exodus_rw in E. by injection E.
  - intros _ [H2 _]%andb_true_iff E. rewrite string_app_assoc in E.
    pose proof (unescape_escape c2 (escape_chars l2 +:+ String quote_char r2) H2) as U.
    rewrite <- E in U. autorewrite with exodus_rw in U. done.
  - intros [H1 _]%andb_true_iff _ E. rewrite string_app_assoc in E.
    pose proof (unescape_escape c1 (escape_chars l1 +:+ String quote_char r1) H1) as U.
    rewrite E in U. autorewrite with exodus_rw in U. done.
  - intros [H1 Hl1]%andb_true_iff [H2 Hl2]%andb_true_iff E. rewrite !string_app_assoc in E.
    pose proof (unescape_escape c1 (escape_chars l1 +:+ String quote_char r1) H1) as U1.
    pose proof (unescape_escape c2 (escape_chars l2 +:+ String quote_char r2) H2) as U2.
    rewrite E, U2 in U1. injection U1 as -> E'. symmetry in E'.
    destruct (IH l2 Hl1 Hl2 E') as [-> ->]. done.
Qed.

Lemma write_escaped_inj s1 s2 r1 r2 :
  valid_str s1 = true -> valid_str s2 = true ->
  write_escaped s1 +:+ r1 = write_escaped s2 +:+ r2 -> s1 = s2 /\ r1 = r2.
Proof.
  unfold valid_str, write_escaped. intros H1 H2. bool_prop. autorewrite with exodus_rw.
  intros [= E]. rewrite !string_app_assoc in E. autorewrite with exodus_rw in E.
  destruct (escape_chars_inj (chars s1) (chars s2) r1 r2) as [Ec ->]; [done..|].
  split; [|done]. congruence.
Qed.

(** ** Texts in context *)

(** The first character of a text, if any, passes a test. *)
Definition starts (p : ascii -> bool) (s : string) : bool :=
  match s with EmptyString => false | String a _ => p a end.

(** What may follow a value: nothing, or a character that ends it. *)
Definition delimited (r : string) : bool :=
  match r with
  | EmptyString => true
  | String a _ => Ascii.eqb a "," || Ascii.eqb a "]" || Ascii.eqb a "}"
  end.

Lemma delimited_not_num a r : delimited (String a r) = true -> num_char a = false.
Proof.
  cbn. intros Hd. rewrite !orb_true_iff, !Ascii.eqb_eq in Hd. destruct Hd as [[-> | ->]| ->]; reflexivity.
Qed.

(** Number texts in a delimited context split uniquely. *)
Lemma num_text_split s1 s2 r1 r2 :
  all_chars num_char s1 = true -> all_chars num_char s2 = true ->
  delimited r1 = true -> delimited r2 = true ->
  s1 +:+ r1 = s2 +:+ r2 -> s1 = s2 /\ r1 = r2.
Proof.
  revert s2. induction s1 as [|a s1 IH]; intros [|b s2]; cbn [all_chars]; autorewrite with exodus_rw.
  - done.
  - intros _ [Hb _]%andb_true_iff D1 _ ->. apply delimited_not_num in D1. congruence.
  - intros [Ha _]%andb_true_iff _ _ D2 <-. apply delimited_not_num in D2. congruence.
  - intros [_ H1]%andb_true_iff [_ H2]%andb_true_iff D1 D2 [= -> E].
    by destruct (IH s2 H1 H2 D1 D2 E) as [-> ->].
Qed.

Section Numbers.
Context `{Crypto}.

Definition wf_number (n : Number) : bool :=
  match n with
  | PosInt z => in_u64 z
  | NegInt z => (z <? 0) && in_i64 z
  | Float f => is_finite f && ryu_faithful f
  end.

Lemma write_number_int n :
  match n with
  | PosInt z | NegInt z => write_number n = pretty z
  | Float f => write_number n = py_float f
  end.
Proof.
  unfold write_number. destruct n as [z|z|f]; cbn; [|done..]. by destruct (z <=? i64_max).
Qed.

Lemma write_number_chars n : wf_number n = true -> all_chars num_char (write_number n) = true.
Proof.
  intros Hn. pose proof (write_number_int n) as E. destruct n as [z|z|f]; rewrite E.
  1,2: eapply all_chars_impl; [apply int_num_char|apply pretty_Z_chars].
  cbn in Hn. apply andb_true_iff in Hn as [Hf Hr]. by apply py_float_chars.
Qed.

Lemma int_not_float (z : Z) f : is_finite f = true -> ryu_faithful f = true -> pretty z <> py_float f.
Proof.
  intros Hf Hr E. destruct (py_float_chars f Hf Hr) as [_ Hc].
  rewrite <- E, pretty_Z_chars in Hc. done.
Qed.

Lemma write_number_inj n1 n2 :
  wf_number n1 = true -> wf_number n2 = true -> write_number n1 = write_number n2 -> n1 = n2.
Proof.
  intros H1 H2 E. pose proof (write_number_int n1) as E1. pose proof (write_number_int n2) as E2.
  destruct n1 as [z1|z1|f1], n2 as [z2|z2|f2]; rewrite E1, E2 in E; cbn in H1, H2.
  all: try (apply (inj pretty) in E; subst).
  - done.
  - exfalso. unfold in_u64 in H1. bool_prop. lia.
  - exfalso. bool_prop. by eapply int_not_float in E.
  - exfalso. unfold in_u64 in H2. bool_prop. lia.
  - done.
  - exfalso. bool_prop. by eapply int_not_float in E.
  - exfalso. bool_prop. symmetry in E. by eapply int_not_float in E.
  - exfalso. bool_prop. symmetry in E. by eapply int_not_float in E.
  - bool_prop. f_equal. by apply py_float_inj.
Qed.

Lemma write_number_first n : wf_number n = true -> starts num_char (write_number n) = true.
Proof.
  intros Hn. pose proof (write_number_chars n Hn) as Hc.
  destruct (write_number n) as [|a s] eqn:E.
  - exfalso. pose proof (write_number_int n) as En. rewrite E in En.
    destruct n as [z|z|f]; [by apply (pretty_Z_nonempty z)..|].
    cbn in Hn. apply andb_true_iff in Hn as [Hf Hr].
    destruct (py_float_chars f Hf Hr) as [_ Hx]. by rewrite <- En in Hx.
  - cbn in *. by apply andb_true_iff in Hc as [? _].
Qed.
End Numbers.

(** ** Values *)

Section Values.
Context `{Crypto}.

(** Every float of a value is printed faithfully by the decimal printer. *)
Fixpoint floats_faithful (v : Value) : bool :=
  match v with
  | VNumber (Float f) => ryu_faithful f
  | VArray items => forallb floats_faithful items
  | VObject fields => forallb (fun p => floats_faithful p.2) fields
  | _ => true
  end.

(** Induction over values with the members of arrays and objects. *)
Lemma Value_members_ind (P : Value -> Prop) :
  P VNull -> (forall b, P (VBool b)) -> (forall n, P (VNumber n)) -> (forall s, P (VString s)) ->
  (forall l, Forall P l -> P (VArray l)) ->
  (forall m, Forall (fun p => P p.2) m -> P (VObject m)) ->
  forall v, P v.
Proof.
  intros Hn Hb Hnum Hs Ha Ho. fix IH 1. intros [|b|n|s|l|m].
  - exact Hn.
  - exact (Hb b).
  - exact (Hnum n).
  - exact (Hs s).
  - apply Ha. induction l as [|v l IHl]; constructor; [apply IH|exact IHl].
  - apply Ho. induction m as [|p m IHm]; constructor; [apply IH|exact IHm].
Qed.

(** The constructor a text's first character announces. *)
Definition char_kind (a : ascii) : nat :=
  if Ascii.eqb a "n" then 0 else if Ascii.eqb a "t" then 1 else if Ascii.eqb a "f" then 2
  else if num_char a then 3 else if Ascii.eqb a quote_char then 4
  else if Ascii.eqb a "[" then 5 else if Ascii.eqb a "{" then 6 else 7.

Definition value_kind (v : Value) : nat :=
  match v with
  | VNull => 0 | VBool true => 1 | VBool false => 2 | VNumber _ => 3
  | VString _ => 4 | VArray _ => 5 | VObject _ => 6
  end.

Definition printable (v : Value) : bool := wf_value v && floats_faithful v.

Lemma printable_number n : printable (VNumber n) = wf_number n.
Proof. unfold printable. destruct n; cbn; by rewrite ?andb_true_r. Qed.

Lemma num_char_kind a : num_char a = true -> char_kind a = 3%nat.
Proof.
  unfold char_kind. intros Hn.
  destruct (Ascii.eqb_spec a "n"); [by subst|].
  destruct (Ascii.eqb_spec a "t"); [by subst|].
  destruct (Ascii.eqb_spec a "f"); [by subst|]. by rewrite Hn.
Qed.

Lemma write_value_kind v :
  printable v = true -> exists a s, write_value v = String a s /\ char_kind a = value_kind v.
Proof.
  destruct v as [|[]|n|s|l|m]; intros Hp; cbn [write_value].
  4:{ rewrite printable_number in Hp. pose proof (write_number_first n Hp) as Hf.
      destruct (write_number n) as [|a s]; [done|]. exists a, s. split; [done|].
      by apply num_char_kind. }
  all: by eexists _, _.
Qed.
End Values.

(** ** Comma-separated members *)

Section Members.
Context {A : Type} (w : A -> string) (ok : A -> bool).

(** A member's text splits off uniquely, whatever delimiter follows it. *)
Definition splits (a : A) : Prop :=
  forall b r1 r2, ok b = true -> delimited r1 = true -> delimited r2 = true ->
  w a +:+ r1 = w b +:+ r2 -> a = b /\ r1 = r2.

Lemma concat_cons_app (s r : string) (l : list string) :
  String.concat "," (s :: l) +:+ r =
  s +:+ match l with [] => r | _ => String "," (String.concat "," l +:+ r) end.
Proof.
  destruct l as [|t l]; [done|].
  change (String.concat "," (s :: t :: l)) with (s +:+ "," +:+ String.concat "," (t :: l)).
  by rewrite !string_app_assoc.
Qed.

Lemma members_inj (close : ascii) (l1 l2 : list A) (r1 r2 : string) :
  Ascii.eqb close "," = false -> delimited (String close "") = true ->
  (forall a, ok a = true -> starts (fun x => negb (Ascii.eqb x close)) (w a) = true) ->
  Forall splits l1 -> forallb ok l1 = true -> forallb ok l2 = true ->
  String.concat "," (map w l1) +:+ String close r1 = String.concat "," (map w l2) +:+ String close r2 ->
  l1 = l2 /\ r1 = r2.
Proof.
  intros Hc Hd Hst Hs. revert l2. induction Hs as [|a l1 Ha Hs IH]; intros l2 H1 H2 E.
  - destruct l2 as [|b l2]; [by injection E|]. exfalso. cbn [map forallb] in *.
    apply andb_true_iff in H2 as [Hb _]. apply Hst in Hb. rewrite concat_cons_app in E.
    destruct (w b) as [|x s]; [done|]. injection E as <- _. cbn in Hb. by rewrite Ascii.eqb_refl in Hb.
  - cbn [map forallb] in *. apply andb_true_iff in H1 as [Hoka Hok1]. rewrite concat_cons_app in E.
    destruct l2 as [|b l2]; cbn [map forallb] in *.
    + exfalso. apply Hst in Hoka. destruct (w a) as [|x s]; [done|].
      injection E as -> _. cbn in Hoka. by rewrite Ascii.eqb_refl in Hoka.
    + apply andb_true_iff in H2 as [Hokb Hok2]. rewrite concat_cons_app in E.
      assert (Hdel : forall r (l : list A), delimited
        match map w l with [] => String close r | _ => String "," (String.concat "," (map w l) +:+ String close r) end = true)
        by (by intros r []).
      destruct (Ha b _ _ Hokb (Hdel r1 l1) (Hdel r2 l2) E) as [-> E'].
      destruct l1 as [|x l1], l2 as [|y l2]; cbn [map] in E'.
      * by injection E' as ->.
      * injection E' as Ex _. by rewrite Ex in Hc.
      * injection E' as Ex _. by rewrite <- Ex in Hc.
      * injection E' as E'. destruct (IH (y :: l2) Hok1 Hok2 E') as [-> ->]. done.
Qed.
End Members.

(** ** The canonical text determines the value *)

Lemma strictly_sorted_key_le {V} (m : list (string * V)) :
  strictly_sorted_keys m = true -> StronglySorted (fun a b => key_le a b = true) m.
Proof.
  intros Hs. apply Sorted_StronglySorted.
  { intros a b c. unfold key_le. apply string_le_trans. }
  induction m as [|[k v] m IH]; [constructor|]. destruct m as [|[k2 v2] m].
  - repeat constructor.
  - cbn in Hs. apply andb_true_iff in Hs as [Hlt Hs]. constructor; [by apply IH|].
    constructor. unfold key_le. apply string_le_lt_eq. by left.
Qed.

Lemma strictly_sorted_map {V W} (f : V -> W) (m : list (string * V)) :
  strictly_sorted_keys (map (fun p => (p.1, f p.2)) m) = strictly_sorted_keys m.
Proof.
  induction m as [|[k v] m IH]; [done|]. destruct m as [|[k2 v2] m]; [done|].
  cbn in *. by rewrite IH.
Qed.

Section Unambiguous.
Context `{Crypto}.

Definition write_member (p : string * Value) : string :=
  write_escaped p.1 +:+ ":" +:+ write_value p.2.

Definition member_ok (p : string * Value) : bool := valid_str p.1 && printable p.2.

(** A well-formed object is written in the order of its fields. *)
Lemma write_object m :
  strictly_sorted_keys m = true ->
  write_value (VObject m) = "{" +:+ String.concat "," (map write_member m) +:+ "}".
Proof.
  intros Hs. cbn [write_value]. rewrite sort_by_id, map_map; [done|].
  apply strictly_sorted_key_le. by rewrite strictly_sorted_map.
Qed.

Lemma printable_array l : printable (VArray l) = forallb printable l.
Proof.
  unfold printable. cbn. induction l as [|v l IH]; [done|]. cbn. rewrite <- IH.
  destruct (wf_value v), (floats_faithful v), (forallb wf_value l); cbn; rewrite ?andb_false_r; done.
Qed.

Lemma printable_object m :
  printable (VObject m) = strictly_sorted_keys m && forallb member_ok m.
Proof.
  unfold printable. cbn. rewrite <- andb_assoc. f_equal.
  induction m as [|[k v] m IH]; [done|]. cbn. rewrite <- IH. unfold member_ok, printable. cbn.
  destruct (valid_str k), (wf_value v), (floats_faithful v),
    (forallb (fun p => valid_str p.1 && wf_value p.2) m); cbn; rewrite ?andb_false_r; done.
Qed.

Lemma write_value_starts a v :
  printable v = true -> char_kind a = 7%nat ->
  starts (fun x => negb (Ascii.eqb x a)) (write_value v) = true.
Proof.
  intros Hp Ha. destruct (write_value_kind v Hp) as (x & s & -> & Hk). cbn.
  destruct (Ascii.eqb_spec x a) as [->|]; [|done]. exfalso.
  rewrite Ha in Hk. by destruct v as [|[]| | | |].
Qed.

Lemma member_splits p :
  splits write_value printable p.2 -> member_ok p = true -> splits write_member member_ok p.
Proof.
  intros Hv Hp q r1 r2 Hq D1 D2 E. unfold member_ok in *. bool_prop.
  unfold write_member in E. rewrite !string_app_assoc in E.
  apply write_escaped_inj in E as [Ek E]; [|done..].
  autorewrite with exodus_rw in E. injection E as E.
  destruct (Hv q.2 r1 r2) as [Ev ->]; [done..|].
  destruct p, q; cbn in *; by subst.
Qed.

(** The text of a value splits off uniquely before any delimiter. *)
Lemma write_value_splits v : printable v = true -> splits write_value printable v.
Proof.
  induction v as [|b|n|s|l IH|m IH] using Value_members_ind; intros Hv v' r1 r2 Hv' D1 D2 E.
  all: destruct (write_value_kind _ Hv) as (a & s1 & Ea & Ka).
  all: destruct (write_value_kind _ Hv') as (a' & s1' & Ea' & Ka').
  all: assert (Hk : a = a') by (rewrite Ea, Ea' in E; by injection E).
  all: rewrite Hk, Ka' in Ka; clear Ea Ea' Hk a a' Ka' s1 s1'.
  all: destruct v' as [|[]|n'|s'|l'|m']; try destruct b; try discriminate Ka; clear Ka.
  1-3: cbn [write_value] in E; autorewrite with exodus_rw in E; injection E as E; done.
  - rewrite printable_number in *. cbn [write_value] in E.
    destruct (num_text_split _ _ r1 r2 (write_number_chars n Hv) (write_number_chars n' Hv') D1 D2 E)
      as [En ->].
    split; [|done]. f_equal. by apply write_number_inj.
  - unfold printable in *. cbn in Hv, Hv'. bool_prop. cbn [write_value] in E.
    apply write_escaped_inj in E as [-> ->]; done.
  - rewrite printable_array in *. cbn [write_value] in E. rewrite !string_app_assoc in E.
    autorewrite with exodus_rw in E. injection E as E.
    apply (members_inj write_value printable) in E as [-> ->]; try done.
    + intros x Hx. by apply write_value_starts.
    + rewrite forallb_forall in Hv. rewrite Forall_forall in *. intros x Hx. apply IH; [done|].
      apply Hv. by apply list_elem_of_In.
  - rewrite printable_object in *. bool_prop. rewrite !write_object in E by done.
    rewrite !string_app_assoc in E. autorewrite with exodus_rw in E. injection E as E.
    apply (members_inj write_member member_ok) in E as [-> ->]; try done.
    rewrite Forall_forall in *. intros p Hp.
    match goal with Hm : forallb member_ok m = true |- _ => rewrite forallb_forall in Hm;
      specialize (Hm p (proj1 (list_elem_of_In _ _) Hp)) end.
    apply member_splits; [|done]. apply IH; [done|]. unfold member_ok in *. by bool_prop.
Qed.

Lemma canonical_json_inj v1 v2 :
  printable v1 = true -> printable v2 = true -> canonical_json v1 = canonical_json v2 -> v1 = v2.
Proof.
  intros H1 H2 E. unfold canonical_json in E.
  destruct (write_value_splits v1 H1 v2 "" "" H2) as [? _]; [done..| |done]. by rewrite E.
Qed.
End Unambiguous.
