(* ===== verification/Agreement.v ===== *)
(** * Choosing among the replies of several nodes ([src/api.rs])

A chat runs on this node and on its peers at once; the reply that most of the others agree
with is returned.  Two replies agree when the Dice coefficient of the sets of their character
pairs is at least one half.  The theorems say which reply is chosen. *)

From S2P Require Import Prelude F64 F64Theory F64Exact Crypto Config.
From Stdlib Require Import Floats.SpecFloat.

(** The part of the Unicode tables [char::is_alphanumeric] uses beyond ASCII. *)
Class CharTables := { alnum_nonascii : Z -> bool }.

Section Similarity.
Context `{CharTables}.

Definition is_alphanumeric (c : Z) : bool :=
  if c <? 128 then
    ((48 <=? c) && (c <=? 57)) || ((65 <=? c) && (c <=? 90)) || ((97 <=? c) && (c <=? 122))
  else alnum_nonascii c.

Definition to_ascii_lowercase (c : Z) : Z := if (65 <=? c) && (c <=? 90) then c + 32 else c.

Definition normalized_chars (s : string) : list Z :=
  map to_ascii_lowercase (filter (fun c => is_alphanumeric c = true) (chars s)).

(** [windows(2)], collected into a set. *)
Definition bigrams (l : list Z) : gset (Z * Z) := list_to_set (zip l (tail l)).

Definition dice_similarity (a b : string) : f64 :=
  if String.eqb a b then f64_1
  else
    let ca := normalized_chars a in
    let cb := normalized_chars b in
    if (length ca <? 2)%nat || (length cb <? 2)%nat then
      if bool_decide (ca = cb) then f64_1 else f64_0
    else
      let ga := bigrams ca in
      let gb := bigrams cb in
      let common := f64_of_Z (Z.of_nat (size (ga ∩ gb))) in
      f64_div (f64_mul (f64_of_Z 2) common)
        (f64_add (f64_of_Z (Z.of_nat (size ga))) (f64_of_Z (Z.of_nat (size gb)))).

(** ** The choice *)

Definition not_blank (reply : string) : bool := negb (String.eqb (trim reply) "").

Definition candidates (local : option string) (peers : list (string * string)) :
  list (string * string) :=
  match local with
  | Some l => if not_blank l then [("local", l)] else []
  | None => []
  end ++ filter (fun p => not_blank p.2 = true) peers.

Definition text_at (l : list (string * string)) (i : nat) : string :=
  default "" (snd <$> (l !! i)).

(** The matrix of similarities, with ones on the diagonal. *)
Definition similarities (l : list (string * string)) : list (list f64) :=
  map (fun i => map (fun j =>
         if (i =? j)%nat then f64_1 else dice_similarity (text_at l i) (text_at l j))
       (seq 0 (length l))) (seq 0 (length l)).

Definition sim_at (m : list (list f64)) (i j : nat) : f64 :=
  default S754_nan ((m !! i) ≫= (fun row => row !! j)).

Definition half : f64 := f64_lit 1 2.

Definition votes_of (m : list (list f64)) (n i : nat) : nat :=
  (1 + length (filter (fun j => j <> i /\ f64_ge (sim_at m i j) half = true) (seq 0 n)))%nat.

Definition reply_length (reply : string) : nat := length (chars reply).

(** One round of the loop; the state is the best index, its votes and its length. *)
Definition better_choice (l : list (string * string)) (m : list (list f64))
  (best : nat * nat * nat) (i : nat) : nat * nat * nat :=
  let '(_, best_votes, best_len) := best in
  let votes := votes_of m (length l) i in
  let len := reply_length (text_at l i) in
  if (best_votes <? votes)%nat || ((votes =? best_votes)%nat && (best_len <? len)%nat)
  then (i, votes, len) else best.

Definition pick_agreed_reply (local : option string) (peers : list (string * string)) :
  string * string * nat :=
  let l := candidates local peers in
  match l with
  | [] => ("", "", 0%nat)
  | [(node, reply)] => (node, reply, 1%nat)
  | _ =>
      let '(i, votes, _) :=
        foldl (better_choice l (similarities l)) (0%nat, 0%nat, 0%nat) (seq 0 (length l)) in
      (default "" (fst <$> (l !! i)), text_at l i, votes)
  end.

(** ** Similarity *)

Lemma f64_add_comm x y : f64_add x y = f64_add y x.
Proof.
  unfold f64_add, SFadd. destruct x as [[]|[]| |sx mx ex], y as [[]|[]| |sy my ey]; try done.
  rewrite (Z.min_comm ey ex), Z.add_comm. done.
Qed.

Lemma dice_refl a : dice_similarity a a = f64_1.
Proof. unfold dice_similarity. by rewrite String.eqb_refl. Qed.

Lemma dice_sym a b : dice_similarity a b = dice_similarity b a.
Proof.
  unfold dice_similarity. rewrite (String.eqb_sym b a), orb_comm. destruct (String.eqb a b); [done|].
  destruct (_ || _).
  - by rewrite (bool_decide_ext (normalized_chars a = normalized_chars b) (normalized_chars b = normalized_chars a)).
  - cbv zeta. by rewrite f64_add_comm, (comm_L (∩) (bigrams (normalized_chars a))).
Qed.

(** Two replies agree. *)
Definition agree (a b : string) : bool := f64_ge (dice_similarity a b) half.

Lemma agree_refl a : agree a a = true.
Proof. unfold agree. rewrite dice_refl. by vm_compute. Qed.

Lemma agree_sym a b : agree a b = agree b a.
Proof. unfold agree. by rewrite dice_sym. Qed.

(** ** The exact criterion *)

(** Agreement without floating point: the same text, or texts too short for pairs with the same
letters, or at least a quarter of the pairs of both, taken together, in common. *)
Definition shares_half (a b : string) : bool :=
  let ca := normalized_chars a in
  let cb := normalized_chars b in
  String.eqb a b ||
  (if (length ca <? 2)%nat || (length cb <? 2)%nat then bool_decide (ca = cb)
   else (size (bigrams ca) + size (bigrams cb) <=? 4 * size (bigrams ca ∩ bigrams cb))%nat).

Lemma bigrams_size l : (size (bigrams l) <= length l)%nat.
Proof.
  transitivity (length (zip l (tail l))); [|rewrite length_zip_with; lia].
  unfold bigrams. generalize (zip l (tail l)). intros k.
  induction k as [|x k IH]; cbn [list_to_set length]; [by rewrite size_empty|].
  rewrite size_union_alt, size_singleton.
  assert ((size (list_to_set k ∖ {[x]} : gset (Z * Z)) <= size (list_to_set k : gset (Z * Z)))%nat)
    by (apply subseteq_size; set_solver). lia.
Qed.

Lemma bigrams_nonempty l : (2 <= length l)%nat -> (0 < size (bigrams l))%nat.
Proof.
  destruct l as [|x [|y l]]; cbn [length]; [lia..|]. intros _. unfold bigrams. cbn [tail zip_with list_to_set].
  assert (size ({[(x, y)]} ∪ (list_to_set (zip (y :: l) l) : gset (Z * Z))) <> 0%nat); [|cbn in *; lia].
  apply size_non_empty_iff. set_solver.
Qed.

Lemma normalized_length s : (length (normalized_chars s) <= length (chars s))%nat.
Proof. unfold normalized_chars. rewrite length_map. apply length_filter. Qed.

(** C33: the vote of the floating-point similarity is the exact one: for texts of fewer than
[2^52] characters together, the computed Dice coefficient is at least one half exactly when
twice the common pairs are at least half of all pairs, so rounding never decides a vote. *)
Theorem agreement_exact a b :
  Z.of_nat (length (chars a) + length (chars b)) < 2 ^ 52 -> agree a b = shares_half a b.
Proof.
  intros Hlen. unfold agree, dice_similarity, shares_half. cbv zeta.
  destruct (String.eqb a b); [by vm_compute|]. cbn [orb].
  pose proof (normalized_length a) as Hna. pose proof (normalized_length b) as Hnb.
  set (ca := normalized_chars a) in *. set (cb := normalized_chars b) in *.
  destruct ((length ca <? 2)%nat || (length cb <? 2)%nat) eqn:Es.
  { case_bool_decide; by vm_compute. }
  apply orb_false_iff in Es as [Ea%Nat.ltb_ge Eb%Nat.ltb_ge].
  pose proof (bigrams_size ca). pose proof (bigrams_size cb).
  pose proof (bigrams_nonempty ca Ea). pose proof (bigrams_nonempty cb Eb).
  assert (Hc : (size (bigrams ca ∩ bigrams cb) <= size (bigrams ca))%nat) by (apply subseteq_size; set_solver).
  revert Hc. generalize (size (bigrams ca ∩ bigrams cb)). intros c Hc.
  set (na := size (bigrams ca)) in *. set (nb := size (bigrams cb)) in *.
  rewrite (of_Z_exact (Z.of_nat na)), (of_Z_exact (Z.of_nat nb)), add_exact by lia.
  destruct (decide (c = 0%nat)) as [->|Hne].
  - replace (na + nb <=? 4 * 0)%nat with false by (symmetry; apply Nat.leb_gt; lia). done.
  - rewrite (of_Z_exact (Z.of_nat c)), double_exact by lia. change half with one_half. rewrite div_ge_half by lia.
    apply eq_true_iff_eq. rewrite Z.leb_le, Nat.leb_le. lia.
Qed.

(** ** The chosen reply *)

(** The support of a candidate, defined on its own: the number of candidates that agree with
it, itself included. *)
Definition support (l : list (string * string)) (reply : string) : nat :=
  length (filter (fun p => agree reply p.2 = true) l).

Lemma sim_at_spec l i j :
  (i < length l)%nat -> (j < length l)%nat ->
  sim_at (similarities l) i j = if (i =? j)%nat then f64_1 else dice_similarity (text_at l i) (text_at l j).
Proof.
  intros Hi Hj. unfold sim_at, similarities.
  rewrite list_lookup_fmap, lookup_seq_lt by done. cbn.
  rewrite list_lookup_fmap, lookup_seq_lt by done. done.
Qed.

(** Counting indices is counting elements. *)
Lemma length_filter_seq {A} (P : A -> Prop) `{!forall x, Decision (P x)} (l : list A) (Q : nat -> Prop)
  `{!forall i, Decision (Q i)} k :
  (forall i x, l !! i = Some x -> (Q (k + i)%nat <-> P x)) ->
  length (filter Q (seq k (length l))) = length (filter P l).
Proof.
  revert k. induction l as [|x l IH]; intros k HPQ; cbn [length seq]; [done|].
  specialize (IH (S k)). pose proof (HPQ 0%nat x eq_refl) as Hx. rewrite Nat.add_0_r in Hx.
  assert (Hl : length (filter Q (seq (S k) (length l))) = length (filter P l)).
  { apply IH. intros i y Hy. replace (S k + i)%nat with (k + S i)%nat by lia. by apply HPQ. }
  rewrite !filter_cons. destruct (decide (Q k)), (decide (P x)); cbn [length]; try tauto; by rewrite Hl.
Qed.

Lemma length_filter_but {A} `{EqDecision A} (Q : A -> Prop) `{!forall i, Decision (Q i)} l i :
  NoDup l -> i ∈ l -> Q i ->
  (1 + length (filter (fun j => j <> i /\ Q j) l))%nat = length (filter Q l).
Proof.
  intros Hnd Hi HQ. change (length (i :: filter (fun j => j <> i /\ Q j) l) = length (filter Q l)).
  apply Permutation_length, NoDup_Permutation.
  - constructor; [rewrite list_elem_of_filter; tauto|by apply NoDup_filter].
  - by apply NoDup_filter.
  - intros x. rewrite elem_of_cons, !list_elem_of_filter. destruct (decide (x = i)) as [->|]; tauto.
Qed.

Lemma text_at_lookup l i node reply : l !! i = Some (node, reply) -> text_at l i = reply.
Proof. unfold text_at. by intros ->. Qed.

(** The votes of the loop are the support of the candidate. *)
Lemma votes_support l i node reply :
  l !! i = Some (node, reply) ->
  votes_of (similarities l) (length l) i = support l reply.
Proof.
  intros Hi. pose proof (lookup_lt_Some _ _ _ Hi) as Hlt. unfold votes_of.
  assert (Hd : f64_ge (sim_at (similarities l) i i) half = true).
  { rewrite sim_at_spec, Nat.eqb_refl by done. by vm_compute. }
  rewrite (length_filter_but (fun j => f64_ge (sim_at (similarities l) i j) half = true));
    [|apply NoDup_seq|rewrite elem_of_seq; lia|done].
  apply length_filter_seq. intros j [node' reply'] Hj. cbn.
  pose proof (lookup_lt_Some _ _ _ Hj). rewrite sim_at_spec by done.
  rewrite (text_at_lookup _ _ _ _ Hi), (text_at_lookup _ _ _ _ Hj).
  destruct (Nat.eqb_spec i j) as [->|_]; [|done]. simplify_eq.
  change (f64_ge f64_1 half = true <-> agree reply reply = true). by rewrite agree_refl.
Qed.

(** [i] is preferred to [j]: more votes, then a longer text, then the earlier candidate. *)
Definition preferred (l : list (string * string)) (i j : nat) : Prop :=
  let v k := support l (text_at l k) in
  let n k := reply_length (text_at l k) in
  (v j < v i \/ v j = v i /\ (n j < n i \/ n j = n i /\ i <= j))%nat.

Lemma support_pos l i node reply : l !! i = Some (node, reply) -> (0 < support l reply)%nat.
Proof.
  intros Hi. unfold support. apply list_elem_of_lookup_2 in Hi.
  destruct (filter _ l) as [|x k] eqn:E; [|cbn; lia].
  assert (Hin : (node, reply) ∈ filter (fun p => agree reply p.2 = true) l)
    by (rewrite list_elem_of_filter; by rewrite agree_refl).
  rewrite E in Hin. by apply elem_of_nil in Hin.
Qed.

(** The loop finds the preferred candidate. *)
Lemma best_choice_spec l k best :
  (0 < k <= length l)%nat ->
  foldl (better_choice l (similarities l)) (0%nat, 0%nat, 0%nat) (seq 0 k) = best ->
  exists i, (i < k)%nat /\ best = (i, support l (text_at l i), reply_length (text_at l i)) /\
    forall j, (j < k)%nat -> preferred l i j.
Proof.
  revert best. induction k as [|k IH]; intros best Hk E; [lia|].
  rewrite seq_S, foldl_snoc in E. cbn [Nat.add] in E.
  assert (Hkk : exists node reply, l !! k = Some (node, reply)).
  { destruct (lookup_lt_is_Some_2 l k) as [[node reply] ?]; [lia|]. eauto. }
  destruct Hkk as (node & reply & Hlk). pose proof (text_at_lookup _ _ _ _ Hlk) as Ht.
  pose proof (votes_support _ _ _ _ Hlk) as Hv. pose proof (support_pos _ _ _ _ Hlk) as Hp.
  destruct (decide (k = 0%nat)) as [->|Hne].
  - cbn [seq foldl] in E. unfold better_choice in E. rewrite Hv, Ht in E.
    rewrite (proj2 (Nat.ltb_lt _ _)) in E by done. cbn in E. subst best.
    exists 0%nat. rewrite Ht. split_and!; [lia|done|].
    intros j Hj. replace j with 0%nat by lia. unfold preferred. lia.
  - destruct (IH _ ltac:(lia) eq_refl) as (i & Hi & Eb & Hbest). rewrite Eb in E.
    unfold better_choice in E. rewrite Hv, Ht in E.
    destruct ((_ <? _)%nat || _) eqn:Ec; subst best.
    + exists k. rewrite Ht. split_and!; [lia|done|]. intros j Hj.
      destruct (decide (j = k)) as [->|]; [unfold preferred; lia|].
      specialize (Hbest j ltac:(lia)). unfold preferred in *. rewrite Ht.
      apply orb_true_iff in Ec as [Ec%Nat.ltb_lt|[Ec1%Nat.eqb_eq Ec2%Nat.ltb_lt]%andb_true_iff]; cbv zeta in *; lia.
    + exists i. split_and!; [lia|done|]. intros j Hj.
      destruct (decide (j = k)) as [->|]; [|apply Hbest; lia].
      unfold preferred. rewrite Ht. apply orb_false_iff in Ec as [E1 E2].
      apply Nat.ltb_ge in E1. apply andb_false_iff in E2 as [E2|E2];
        [apply Nat.eqb_neq in E2|apply Nat.ltb_ge in E2]; lia.
Qed.

Lemma agreed_choice local peers node reply votes :
  pick_agreed_reply local peers = (node, reply, votes) ->
  let l := candidates local peers in
  (l = [] /\ node = "" /\ reply = "" /\ votes = 0%nat) \/
  (exists i, l !! i = Some (node, reply) /\ votes = support l reply /\ (0 < votes)%nat /\
     forall j, (j < length l)%nat -> preferred l i j).
Proof.
  unfold pick_agreed_reply. cbv zeta. intros E. destruct (candidates local peers) as [|[node0 reply0] l].
  { injection E as <- <- <-. by left. }
  right. destruct l as [|p l].
  - injection E as <- <- <-. exists 0%nat.
    assert (Es : support [(node0, reply0)] reply0 = 1%nat).
    { unfold support. rewrite filter_cons_True; [done|apply agree_refl]. }
    rewrite Es. split_and!; [done|done|lia|]. intros j Hj. cbn in Hj. replace j with 0%nat by lia.
    unfold preferred. lia.
  - set (cs := (node0, reply0) :: p :: l) in *.
    destruct (foldl _ _ _) as [[i v] len] eqn:Ef.
    apply best_choice_spec in Ef as (i' & Hi & [= <- -> ->] & Hbest); [|cbn; lia].
    destruct (lookup_lt_is_Some_2 cs i Hi) as [[n0 r0] Hl].
    rewrite Hl, (text_at_lookup _ _ _ _ Hl) in E. cbn [fmap option_fmap option_map default from_option fst] in E. injection E as <- <- <-.
    exists i. split_and!; try done. by apply (support_pos _ i n0).
Qed.

(** the chosen reply: nothing when no node gave a text; otherwise the text of a candidate
(the local reply first, then the peers in the order of their answers, blank ones left out) with
the number of candidates that agree with it, where no other candidate has more support, none of
equal support is longer, and of those that tie in both it is the first, so the local one when
it is among them. *)
Theorem agreed_reply_preferred local peers node reply votes :
  pick_agreed_reply local peers = (node, reply, votes) ->
  let l := candidates local peers in
  (l = [] /\ node = "" /\ reply = "" /\ votes = 0%nat) \/
  (exists i, l !! i = Some (node, reply) /\ votes = support l reply /\ (0 < votes)%nat /\
     forall j, (j < length l)%nat -> preferred l i j).
Proof. apply agreed_choice. Qed.
End Similarity.

Module AgreementDemo.
#[local] Instance ascii_only : CharTables := {| alnum_nonascii := fun _ => false |}.

Lemma agreed_reply_preferred_witness :
  exists i, candidates (Some "no idea") [("b", "The sky is blue."); ("c", "the sky is blue")] !! i =
      Some ("b", "The sky is blue.") /\
    support (candidates (Some "no idea") [("b", "The sky is blue."); ("c", "the sky is blue")])
      "The sky is blue." = 2%nat.
Proof.
  destruct (agreed_reply_preferred (Some "no idea") [("b", "The sky is blue."); ("c", "the sky is blue")]
    "b" "The sky is blue." 2 ltac:(vm_compute; reflexivity)) as [(_ & [=] & _)|(i & Hi & Hv & _)].
  exists i. split; [exact Hi|]. symmetry. exact Hv.
Defined.

(** Differing case and punctuation do not matter; a different sentence does. *)
Lemma agreement_exact_witness :
  agree "The sky is blue." "the sky is blue" = true /\ agree "the sky is blue" "grass grows" = false.
Proof.
  rewrite (agreement_exact "The sky is blue." "the sky is blue" ltac:(vm_compute; reflexivity)),
    (agreement_exact "the sky is blue" "grass grows" ltac:(vm_compute; reflexivity)).
  split; vm_compute; reflexivity.
Defined.
End AgreementDemo.
