(* ===== verification/Text.v ===== *)
(** * Text of the standard library

What the host probes, the inference runtime and the HTTP layers use of Rust's [str]: lines,
words, prefixes and suffixes, substring search, lowercasing, integer parsing and the joins of
formatted messages.  A [str] is its UTF-8 bytes ([Prelude]); the operations that look at
characters decode them with [chars]. *)

From S2P Require Import Prelude F64 Crypto CryptoTheory Config.

Definition newline : ascii := "010"%char.
Definition carriage_return : ascii := "013"%char.
Definition crlf : string := String carriage_return (String newline "").

(** ** Lines *)

(** A line without the carriage return that precedes its newline. *)
Fixpoint strip_cr (s : string) : string :=
  match s with
  | EmptyString => ""
  | String a EmptyString => if Ascii.eqb a carriage_return then "" else s
  | String a s' => String a (strip_cr s')
  end.

(** The last part is not ended by a newline: it is a line of its own unless it is empty. *)
Fixpoint lines_of (parts : list string) : list string :=
  match parts with
  | [] => []
  | [p] => if String.eqb p "" then [] else [p]
  | p :: parts' => strip_cr p :: lines_of parts'
  end.

(** [str::lines] *)
Definition str_lines (s : string) : list string := lines_of (split_on newline s).

(** ** Words *)

(** The maximal runs of characters that are not white space; [cur] is the current run. *)
Fixpoint words_of (cur : list Z) (l : list Z) : list (list Z) :=
  match l with
  | [] => match cur with [] => [] | _ => [rev cur] end
  | c :: l' =>
      if is_whitespace c then
        match cur with [] => words_of [] l' | _ => rev cur :: words_of [] l' end
      else words_of (c :: cur) l'
  end.

(** [str::split_whitespace] *)
Definition split_whitespace (s : string) : list string := utf8_encode <$> words_of [] (chars s).

(** ** Prefixes, suffixes, substrings *)

(** [str::strip_prefix] *)
Fixpoint strip_prefix (p s : string) : option string :=
  match p, s with
  | EmptyString, _ => Some s
  | String a p', String b s' => if Ascii.eqb a b then strip_prefix p' s' else None
  | String _ _, EmptyString => None
  end.

Definition starts_with (p s : string) : bool := if strip_prefix p s is Some _ then true else false.

(** [str::contains] at a string *)
Fixpoint str_contains (p s : string) : bool :=
  starts_with p s || match s with EmptyString => false | String _ s' => str_contains p s' end.

(** [str::ends_with] *)
Fixpoint ends_with (p s : string) : bool :=
  String.eqb p s || match s with EmptyString => false | String _ s' => ends_with p s' end.

(** [str::trim_start_matches] at an ASCII character *)
Fixpoint trim_start_char (c : ascii) (s : string) : string :=
  match s with
  | String a s' => if Ascii.eqb a c then trim_start_char c s' else s
  | EmptyString => ""
  end.

(** [str::split_once] at an ASCII character *)
Definition split_once (c : ascii) (s : string) : option (string * string) := split_at_char c s.

(** The first and the last [n] characters. *)
Definition first_n_chars (n : nat) (s : string) : string := utf8_encode (take n (chars s)).
Definition last_n_chars (n : nat) (s : string) : string := utf8_encode (rev (take n (rev (chars s)))).

(** ** Case *)

(** The lowercase mapping of the characters beyond ASCII comes from the Unicode tables. *)
Class Unicode := { lower_nonascii : Z -> list Z }.

Definition lower_char `{Unicode} (c : Z) : list Z :=
  if (65 <=? c) && (c <=? 90) then [c + 32] else if c <? 0x80 then [c] else lower_nonascii c.

(** [str::to_lowercase]; the rule for a final sigma chooses between two letters beyond ASCII
and is part of the tables. *)
Definition lower_chars `{Unicode} (s : string) : list Z := chars s ≫= lower_char.
Definition str_lowercase `{Unicode} (s : string) : string := utf8_encode (lower_chars s).

(** ** Numbers *)

(** [str::parse] at an unsigned type with the given maximum: no minus sign is accepted. *)
Definition parse_uint (hi : Z) (s : string) : option Z :=
  let unsigned (d : string) :=
    if negb (String.eqb d "") && all_digits d then
      let z := digits_val 0 d in if z <=? hi then Some z else None
    else None in
  match s with
  | String a d => if Ascii.eqb a "+" then unsigned d else unsigned s
  | EmptyString => None
  end.

Definition u64_max : Z := 2 ^ 64 - 1.
Definition parse_u64 : string -> option Z := parse_uint u64_max.
Definition parse_u16 : string -> option Z := parse_uint (2 ^ 16 - 1).

Example text_tests :
  let nl := String newline "" in
  str_lines ("a" +:+ crlf +:+ nl +:+ "b") = ["a"; ""; "b"] /\
  str_lines ("a" +:+ nl) = ["a"] /\ str_lines "" = [] /\
  split_whitespace "  cpu  1 2 " = ["cpu"; "1"; "2"] /\
  map parse_u64 ["12"; "+7"; "-0"; ""; "+"; "1x"] = [Some 12; Some 7; None; None; None; None] /\
  str_contains "4-bit" "x-4-bit" = true /\ ends_with "bar" "foobar" = true /\
  last_n_chars 3 "abcdef" = "def".
Proof. vm_compute. done. Qed.

(** ** Lemmas *)

Lemma digits_val_nonneg s acc : all_digits s = true -> 0 <= acc -> 0 <= digits_val acc s.
Proof.
  revert acc. induction s as [|a s IH]; cbn; [done|]. intros acc [Ha Hs]%andb_true_iff Hacc.
  apply IH; [done|]. unfold is_digit in Ha. bool_prop. lia.
Qed.

Lemma parse_uint_range hi s z : parse_uint hi s = Some z -> 0 <= z <= hi.
Proof.
  unfold parse_uint. intros Hp. inv_match Hp; bool_prop; (split; [|lia]);
    apply digits_val_nonneg; try assumption; try lia.
  match goal with Hd : is_digit _ = true |- _ => unfold is_digit in Hd end. bool_prop. lia.
Qed.

Lemma strip_prefix_app p s : strip_prefix p (p +:+ s) = Some s.
Proof. induction p as [|a p IH]; autorewrite with exodus_rw; cbn; [done|]. by rewrite Ascii.eqb_refl. Qed.

Lemma strip_prefix_Some p s r : strip_prefix p s = Some r -> s = p +:+ r.
Proof.
  revert s. induction p as [|a p IH]; intros s Hs; autorewrite with exodus_rw.
  - cbn in Hs. by destruct s; injection Hs.
  - destruct s as [|b s]; [done|]. cbn in Hs.
    destruct (Ascii.eqb_spec a b) as [->|]; [|done]. by rewrite (IH _ Hs).
Qed.

Lemma ends_with_spec p s : ends_with p s = true <-> exists q, s = q +:+ p.
Proof.
  split.
  - induction s as [|a s IH]; cbn.
    + rewrite orb_false_r. intros ->%String.eqb_eq. by exists "".
    + intros [->%String.eqb_eq|H]%orb_true_iff; [by exists ""|].
      destruct (IH H) as [q ->]. exists (String a q). by autorewrite with exodus_rw.
  - intros [q ->]. induction q as [|a q IH]; autorewrite with exodus_rw.
    + destruct p; cbn; [done|]. by rewrite Ascii.eqb_refl, String.eqb_refl.
    + cbn. rewrite IH. apply orb_true_r.
Qed.
