(* ===== verification/Host.v ===== *)
(** * The host: GPU detection and resource metrics ([src/gpu.rs], [src/system.rs])

What a node learns of the machine it runs on: the devices [nvidia-smi] reports and the
counters of [/proc] (the Linux branch of [system.rs]; the others are in their own file).  The programs and files themselves are
the fields of the class [HostOs]. *)

From S2P Require Import Prelude F64 Crypto Models Config Text.

Class HostOs := {
  (** [Command::new("nvidia-smi").args(..).output()]: its standard output read as UTF-8 with
      replacement, [None] when the program cannot be started *)
  nvidia_smi : list string -> option string;
  (** [std::fs::read_to_string] *)
  read_to_string : string -> option string;
  (** [Path::exists] and [Path::is_file] *)
  path_exists : string -> bool;
  path_is_file : string -> bool;
  (** [std::thread::available_parallelism] *)
  available_parallelism : option Z;
}.

(** ** GPU ([gpu.rs]) *)

Record GpuDevice := mkGpuDevice { gd_name : string; gd_memory_total_mb : Z }.
Record GpuProcess := mkGpuProcess { gp_pid : Z; gp_memory_used_mb : Z }.
Record GpuInfo := mkGpuInfo {
  gpu_available : bool;
  gpu_driver : option string;
  gpu_devices : list GpuDevice;
}.
Definition default_gpu : GpuInfo := mkGpuInfo false None [].

#[export] Instance GpuDevice_eq_dec : EqDecision GpuDevice.
Proof. solve_decision. Defined.
#[export] Instance GpuInfo_eq_dec : EqDecision GpuInfo.
Proof. solve_decision. Defined.

Definition gpu_tier (g : GpuInfo) : DeviceTier := if gpu_available g then GpuNvidia else Cpu.

(** The name under which the tier serialises. *)
Definition tier_string (g : GpuInfo) : string := DeviceTier_ser (gpu_tier g).

(** An [Option] in JSON. *)
Definition json_option {A} (enc : A -> Value) (o : option A) : Value :=
  match o with Some a => enc a | None => VNull end.

Definition gpu_to_value (g : GpuInfo) : Value :=
  json_object [
    ("available", VBool (gpu_available g));
    ("gpu_supported", VBool (gpu_available g));
    ("tier", VString (tier_string g));
    ("driver", json_option VString (gpu_driver g));
    ("devices", VArray (map (fun d => json_object [
       ("name", VString (gd_name d));
       ("memory_total_mb", json_int (gd_memory_total_mb d))]) (gpu_devices g)))].

Section Gpu.
Context `{HostOs} `{ProcessEnv}.

(** The [n]-th comma-separated field of a line. *)
Definition csv_field (n : nat) (line : string) : option string := split_on "," line !! n.

Definition usage_field (o : option string) : Z := default 0 (parse_u64 (trim (default "0" o))).

Definition query_gpu_usage : list Z * list Z :=
  match nvidia_smi ["--query-gpu=memory.used,utilization.gpu"; "--format=csv,noheader,nounits"] with
  | None => ([], [])
  | Some text =>
      (map (fun line => usage_field (csv_field 0 line)) (str_lines text),
       map (fun line => usage_field (csv_field 1 line)) (str_lines text))
  end.

Definition query_gpu_processes : list GpuProcess :=
  match nvidia_smi ["--query-compute-apps=pid,used_memory"; "--format=csv,noheader,nounits"] with
  | None => []
  | Some text =>
      map (fun line =>
             mkGpuProcess (default 0 ((trim <$> csv_field 0 line) ≫= parse_u64))
               (default 0 ((trim <$> csv_field 1 line) ≫= parse_u64)))
        (str_lines text)
  end.

Definition live_usage (info : GpuInfo) : Value :=
  if negb (gpu_available info) then
    json_object [("available", VBool false); ("devices", VArray []); ("processes", VArray [])]
  else
    let '(used, utilization) := query_gpu_usage in
    let processes := query_gpu_processes in
    json_object [
      ("available", VBool true);
      ("devices", VArray (map (fun p => json_object [
         ("name", VString (gd_name p.1));
         ("memory_total_mb", json_int (gd_memory_total_mb p.1));
         ("memory_used_mb", json_int p.2.1);
         ("utilization_percent", json_int p.2.2)])
        (zip (gpu_devices info) (zip used utilization))));
      ("processes", VArray (map (fun p => json_object [
         ("pid", json_int (gp_pid p)); ("memory_used_mb", json_int (gp_memory_used_mb p))])
        processes))].

(** One line of the device report. *)
Definition detect_line (info : GpuInfo) (line : string) : GpuInfo :=
  let field n := trim (default "" (csv_field n line)) in
  let name := field 0%nat in
  let mem := field 1%nat in
  let driver := field 2%nat in
  if String.eqb name "" then info
  else
    mkGpuInfo (gpu_available info)
      (match gpu_driver info with
       | None => if String.eqb driver "" then None else Some driver
       | Some d => Some d
       end)
      (gpu_devices info ++ [mkGpuDevice name (default 0 (parse_u64 mem))]).

Definition detect_nvidia_smi : option GpuInfo :=
  match nvidia_smi ["--query-gpu=name,memory.total,driver_version"; "--format=csv,noheader,nounits"] with
  | None => None
  | Some text =>
      let info := foldl detect_line default_gpu (str_lines text) in
      Some (match gpu_devices info with
            | [] => info
            | _ => mkGpuInfo true (gpu_driver info) (gpu_devices info)
            end)
  end.

Definition gpu_visible_in_container : bool :=
  let visible := trim (default "" (env_var "NVIDIA_VISIBLE_DEVICES")) in
  if negb (String.eqb visible "") && negb (String.eqb visible "void") &&
     negb (String.eqb visible "none")
  then true
  else path_exists "/dev/nvidiactl" || path_exists "/dev/nvidia0".

(** The container hints and the explicit request, tried in this order. *)
Definition detect_hints (layers : option Z) : GpuInfo :=
  if gpu_visible_in_container then mkGpuInfo true None []
  else if 0 <? default 0 layers then mkGpuInfo true None []
  else default_gpu.

Definition detect (layers : option Z) : GpuInfo :=
  match detect_nvidia_smi with
  | Some info => if gpu_available info then info else detect_hints layers
  | None => detect_hints layers
  end.
End Gpu.

(** ** System metrics ([system.rs], Linux) *)

(** [CpuSampler]: the (total, idle) jiffies of the last sample. *)
Definition CpuSampler : Type := option (Z * Z).
Definition new_sampler : CpuSampler := None.

Section System.
Context `{HostOs}.

(** The loop over the counters of the first line: running totals, [i] the index. *)
Fixpoint sum_jiffies (i : nat) (total idle : Z) (fields : list string) : option (Z * Z) :=
  match fields with
  | [] => Some (total, idle)
  | f :: fields' =>
      match parse_u64 f with
      | None => None
      | Some v =>
          sum_jiffies (S i) (wrap_u64 (total + v))
            (if (i =? 3)%nat || (i =? 4)%nat then wrap_u64 (idle + v) else idle) fields'
      end
  end.

Definition read_cpu_jiffies : option (Z * Z) :=
  match read_to_string "/proc/stat" with
  | None => None
  | Some text =>
      match str_lines text with
      | [] => None
      | line :: _ => sum_jiffies 0 0 0 (drop 1 (split_whitespace line))
      end
  end.

(** The usage between two samples. *)
Definition usage_between (prev now : Z * Z) : f64 :=
  let '(total_prev, idle_prev) := prev in
  let '(total_now, idle_now) := now in
  if (total_prev <=? total_now) && (idle_prev <=? idle_now) then
    let total_d := total_now - total_prev in
    let idle_d := idle_now - idle_prev in
    if total_d =? 0 then f64_0
    else f64_mul (f64_div (f64_of_Z (wrap_u64 (total_d - idle_d))) (f64_of_Z total_d)) (f64_of_Z 100)
  else f64_0.

(** [CpuSampler::percent], given the counters the platform reads. *)
Definition sample (now : option (Z * Z)) (s : CpuSampler) : f64 * CpuSampler :=
  match now with
  | None => (f64_0, s)
  | Some now =>
      (match s with Some prev => usage_between prev now | None => f64_0 end, Some now)
  end.

Definition percent (s : CpuSampler) : f64 * CpuSampler := sample read_cpu_jiffies s.

Fixpoint meminfo_line (key : string) (ls : list string) : option Z :=
  match ls with
  | [] => None
  | line :: ls' =>
      match strip_prefix key line with
      | Some rest =>
          parse_u64 (default "" (split_on " " (trim (trim_start_char ":" (trim rest))) !! 0%nat))
      | None => meminfo_line key ls'
      end
  end.

Definition meminfo_kb (key : string) : option Z :=
  match read_to_string "/proc/meminfo" with
  | None => None
  | Some text => meminfo_line key (str_lines text)
  end.

Definition process_rss_kb : Z :=
  match read_to_string "/proc/self/statm" with
  | None => 0
  | Some text =>
      match split_whitespace text !! 1%nat ≫= parse_u64 with
      | Some r => wrap_u64 (r * 4096) / 1024
      | None => 0
      end
  end.

Definition process_rss_mb : Z := process_rss_kb / 1024.

Definition mem_stats : Z * option Z :=
  let total := default 0 (meminfo_kb "MemTotal") / 1024 in
  let avail := meminfo_kb "MemAvailable" in
  (total, (fun a => Z.max (total - a / 1024) 0) <$> avail).

(** [memory], given the resident megabytes of the process and the memory statistics. *)
Definition memory_report (rss_mb : Z) (stats : Z * option Z) : Value :=
  let process_rss := rss_mb / 1024 in
  let '(total, used) := stats in
  json_object [
    ("total_mb", json_int total);
    ("used_mb", json_option json_int used);
    ("percent", json_option (fun u =>
       json_f64 (if 0 <? total then f64_mul (f64_div (f64_of_Z u) (f64_of_Z total)) (f64_of_Z 100)
                 else f64_0)) used);
    ("process_rss_mb", json_int process_rss)].

Definition memory : Value := memory_report process_rss_mb mem_stats.

Definition cpu_cores : Z := default 0 available_parallelism.
End System.
