(* ===== verification/HostWindows.v ===== *)
(** * The host on other systems ([src/system.rs])

The Windows branch of the resource metrics, over the calls of [kernel32], and the branch for
systems that are neither Linux nor Windows.  A call fills the buffer it is given and returns a
status, zero for failure; the calls are the fields of the class [Kernel32].  The integers have the
widths of the structs of the source ([usize] is 64 bits wide). *)

From S2P Require Import Prelude F64 Crypto Models Config Text Host.

(** [repr(C)] structs. *)
Record FileTime := mkFileTime { ft_low : Z; ft_high : Z }.
Definition default_file_time : FileTime := mkFileTime 0 0.

Definition as_u64 (t : FileTime) : Z := Z.lor (Z.shiftl (ft_high t) 32) (ft_low t).

Record MemoryStatusEx := mkMemoryStatusEx {
  dw_length : Z;
  dw_memory_load : Z;
  ull_total_phys : Z;
  ull_avail_phys : Z;
  ull_total_page_file : Z;
  ull_avail_page_file : Z;
  ull_total_virtual : Z;
  ull_avail_virtual : Z;
  ull_avail_extended_virtual : Z;
}.

(** [size_of]: two [u32] and seven [u64]. *)
Definition size_of_memory_status : Z := 2 * 4 + 7 * 8.

Record ProcessMemoryCounters := mkProcessMemoryCounters {
  cb : Z;
  page_fault_count : Z;
  peak_working_set_size : Z;
  working_set_size : Z;
  quota_peak_paged_pool_usage : Z;
  quota_paged_pool_usage : Z;
  quota_peak_non_paged_pool_usage : Z;
  quota_non_paged_pool_usage : Z;
  pagefile_usage : Z;
  peak_pagefile_usage : Z;
}.

(** [size_of]: two [u32] and eight [usize]. *)
Definition size_of_process_counters : Z := 2 * 4 + 8 * 8.

Class Kernel32 := {
  GlobalMemoryStatusEx : MemoryStatusEx -> Z * MemoryStatusEx;
  (** the buffers for idle, kernel and user time *)
  GetSystemTimes : FileTime * FileTime * FileTime -> Z * (FileTime * FileTime * FileTime);
  (** for the handle of the current process; the last argument is the size of the buffer *)
  K32GetProcessMemoryInfo : ProcessMemoryCounters -> Z -> Z * ProcessMemoryCounters;
}.

Module Win.
Section Win.
Context `{Kernel32}.

(** (total, available) physical memory in megabytes *)
Definition win_memory_mb : option (Z * Z) :=
  let '(ok, ms) := GlobalMemoryStatusEx (mkMemoryStatusEx size_of_memory_status 0 0 0 0 0 0 0 0) in
  if ok =? 0 then None
  else Some (ull_total_phys ms / 1024 / 1024, ull_avail_phys ms / 1024 / 1024).

(** (total, idle) units of 100 ns *)
Definition cpu_jiffies : option (Z * Z) :=
  let '(ok, (idle, kernel, user)) :=
    GetSystemTimes (default_file_time, default_file_time, default_file_time) in
  if ok =? 0 then None
  else Some (wrap_u64 (as_u64 kernel + as_u64 user), as_u64 idle).

Definition win_process_rss_kb : Z :=
  let '(ok, counters) :=
    K32GetProcessMemoryInfo (mkProcessMemoryCounters size_of_process_counters 0 0 0 0 0 0 0 0 0)
      size_of_process_counters in
  if ok =? 0 then 0 else working_set_size counters / 1024.

Definition win_mem_stats : Z * option Z :=
  match win_memory_mb with
  | Some (total, avail) => (total, Some (Z.max (total - avail) 0))
  | None => (0, None)
  end.
End Win.
End Win.

(** Neither Linux nor Windows. *)
Module Other.
Definition other_mem_stats : Z * option Z := (0, None).
Definition other_cpu_jiffies : option (Z * Z) := None.
Definition other_process_rss_kb : Z := 0.
End Other.

(** ** The three systems *)

Inductive Platform := OnLinux | OnWindows | Elsewhere.

Section Platforms.
Context `{HostOs} `{Kernel32}.

Definition mem_stats_on (p : Platform) : Z * option Z :=
  match p with OnLinux => mem_stats | OnWindows => Win.win_mem_stats | Elsewhere => Other.other_mem_stats end.

Definition cpu_jiffies_on (p : Platform) : option (Z * Z) :=
  match p with OnLinux => read_cpu_jiffies | OnWindows => Win.cpu_jiffies | Elsewhere => Other.other_cpu_jiffies end.

Definition process_rss_kb_on (p : Platform) : Z :=
  match p with
  | OnLinux => process_rss_kb
  | OnWindows => Win.win_process_rss_kb
  | Elsewhere => Other.other_process_rss_kb
  end.

Definition percent_on (p : Platform) (s : CpuSampler) : f64 * CpuSampler := sample (cpu_jiffies_on p) s.
Definition memory_on (p : Platform) : Value := memory_report (process_rss_kb_on p / 1024) (mem_stats_on p).
End Platforms.
