(* ===== verification/Inference.v ===== *)
(** * Inference by subprocess ([src/inference.rs])

Prompts, the run of [llama-cli] for one completion, and what is read off a model's file name.
The subprocess is the parameter [spawn]: what it writes, what each [try_wait] reports, and whether
its pipes are ever closed by all who hold them.  The polling loop follows the reports one by one,
and every way out of it joins the threads that read the pipes. *)

From S2P Require Import Prelude F64 Crypto Models Accounting Config Text Host.
From Stdlib Require Import Floats.SpecFloat.

(** How a call that may panic, or still be waiting for its environment, ends. *)
Inductive outcome (A : Type) : Type :=
| Done (a : A)
| Panics
| Waiting.
Arguments Done {A} _.
Arguments Panics {A}.
Arguments Waiting {A}.

(** ** Prompts *)

Record ChatTurn := mkTurn { turn_role : string; turn_content : string }.

Definition role_name (role : string) : string :=
  if String.eqb role "system" then "System"
  else if String.eqb role "assistant" then "Assistant"
  else "User".

Definition turn_text (m : ChatTurn) : string :=
  role_name (turn_role m) +:+ ": " +:+ trim (turn_content m) +:+ String newline "".

Fixpoint prompt_turns (messages : list ChatTurn) : string :=
  match messages with [] => "" | m :: ms => turn_text m +:+ prompt_turns ms end.

Definition build_prompt (messages : list ChatTurn) : string :=
  prompt_turns messages +:+ "Assistant:".

Definition clean (text : string) : string :=
  let out := trim text in
  match strip_prefix "Assistant:" out with Some rest => trim rest | None => out end.

(** ** Subprocesses *)

(** [Duration::from_secs_f64] in nanoseconds; it panics on a negative, infinite or too large
number of seconds. *)
Definition duration_ns (secs : f64) : option Z :=
  match secs with
  | S754_zero _ => Some 0
  | S754_finite false m e =>
      let ns := round_mag (fun q => if Z.even q then q else q + 1) (m * 1000000000)%positive e in
      if ns <? 2 ^ 64 * 10 ^ 9 then Some ns else None
  | _ => None
  end.

Record CommandLine := mkCommand { cmd_program : string; cmd_args : list string }.

(** What [Child::try_wait] reports; a running child comes with the time since the start. *)
Inductive Poll :=
| Exited (success : bool) (status : string)
| Running (elapsed_ns : Z)
| WaitError (e : string).

(** A started child: the monotonic clock when its deadline is set, the reports of the successive
polls, whether its output pipes come to their end (every process that holds a write end exits:
the child itself and whatever the child started), and its output read as UTF-8 with
replacement. *)
Record Child := mkChild {
  child_started_ns : Z;
  child_polls : list Poll;
  child_eof : bool;
  child_stdout : string;
  child_stderr : string;
}.

Class Runtime := {
  (** [Command::spawn] *)
  spawn : CommandLine -> result Child string;
}.

Section Complete.
Context `{HostOs} `{ProcessEnv} `{Runtime}.

Definition binary_exists (bin : string) : bool :=
  if str_contains "/" bin || str_contains (String backslash "") bin then path_is_file bin
  else existsb (fun dir => path_is_file (path_join dir bin))
         (split_on ":" (default "" (env_var "PATH"))).

(** The arguments of the completion command. *)
Definition complete_command (config : ExodusConfig) (gpu : GpuInfo) (model_path : string)
  (messages : list ChatTurn) : CommandLine :=
  let layers := default (if gpu_available gpu then 99 else 0) (gpu_layers config) in
  mkCommand (llama_bin config)
    ["-m"; model_path; "-p"; build_prompt messages; "-n"; pretty (max_tokens config);
     "--n-gpu-layers"; pretty layers; "--temp"; "0.6"; "--no-display-prompt"; "-no-cnv"; "-st"].

Definition timeout_message (config : ExodusConfig) (model_path stderr : string) : string :=
  let tail := last_n_chars 300 (trim stderr) in
  "inference timed out after " +:+ f64_to_string (inference_timeout_seconds config) +:+
  "s and was killed (" +:+ llama_bin config +:+ ", model " +:+ model_path +:+ ")" +:+
  (if String.eqb (trim tail) "" then "" else "; llama-cli stderr tail: " +:+ trim tail).

(** The seconds of a Unix [Instant] are an [i64]; [Instant::now() + timeout] panics past them. *)
Definition instant_fits (ns : Z) : bool := ns <? 2 ^ 63 * 10 ^ 9.

(** The joins of the two drainers, on every way out of the loop: they wait for the end of the pipes,
also when the child has been killed. *)
Definition join_drainers {A} (child : Child) (r : A) : outcome A :=
  if child_eof child then Done r else Waiting.

(** The polling loop: [Done (Ok tt)] when the child has exited successfully. *)
Fixpoint wait_child (config : ExodusConfig) (model_path : string) (timeout : Z)
  (child : Child) (polls : list Poll) : outcome (result unit string) :=
  match polls with
  | [] => Waiting
  | Exited success status :: _ =>
      join_drainers child
        (if success then Ok tt
         else Err (llama_bin config +:+ " exited with " +:+ status +:+ ": " +:+ trim (child_stderr child)))
  | Running elapsed :: polls' =>
      if timeout <=? elapsed then
        join_drainers child (Err (timeout_message config model_path (child_stderr child)))
      else wait_child config model_path timeout child polls'
  | WaitError e :: _ => join_drainers child (Err ("waiting on " +:+ llama_bin config +:+ ": " +:+ e))
  end.

Definition no_output_message (config : ExodusConfig) (model_path stderr : string) : string :=
  llama_bin config +:+ " produced no output for " +:+ model_path +:+
  " (check the model's chat template / context size); stderr tail: " +:+
  last_n_chars 300 (trim stderr).

Definition complete (config : ExodusConfig) (gpu : GpuInfo) (model_path : string)
  (messages : list ChatTurn) : outcome (result string string) :=
  let bin := llama_bin config in
  if negb (binary_exists bin) then
    Done (Err ("inference runtime '" +:+ bin +:+ "' not found on PATH (checked model " +:+
               model_path +:+ "; set EXODUS_LLAMA_BIN)"))
  else if negb (path_is_file model_path) then
    Done (Err ("model file not found: " +:+ model_path))
  else
    match duration_ns (f64_max (inference_timeout_seconds config) f64_1) with
    | None => Panics
    | Some timeout =>
        match spawn (complete_command config gpu model_path messages) with
        | Err e => Done (Err ("failed to start " +:+ bin +:+ ": " +:+ e))
        | Ok child =>
            if negb (instant_fits (child_started_ns child + timeout)) then Panics
            else
            match wait_child config model_path timeout child (child_polls child) with
            | Panics => Panics
            | Waiting => Waiting
            | Done (Err e) => Done (Err e)
            | Done (Ok _) =>
                let cleaned := clean (child_stdout child) in
                if String.eqb cleaned "" then
                  Done (Err (no_output_message config model_path (child_stderr child)))
                else Done (Ok cleaned)
            end
        end
    end.
End Complete.

(** ** What a model's name says *)

Definition is_digit_char (c : Z) : bool := (48 <=? c) && (c <=? 57).

Fixpoint span_digits (l : list Z) : list Z * list Z :=
  match l with
  | c :: l' =>
      if is_digit_char c then let '(d, r) := span_digits l' in (c :: d, r) else ([], l)
  | [] => ([], [])
  end.

(** Digits, and a point with further digits when a point follows. *)
Definition span_number (l : list Z) : list Z * list Z :=
  let '(d, r) := span_digits l in
  match r with
  | c :: r' =>
      if c =? 46 then let '(d', r'') := span_digits r' in (d ++ c :: d', r'') else (d, r)
  | [] => (d, r)
  end.

Fixpoint skip_spaces (l : list Z) : list Z :=
  match l with c :: l' => if c =? 32 then skip_spaces l' else l | [] => [] end.

(** A [b] that does not begin [bit]. *)
Definition billions_mark (l : list Z) : bool :=
  match l with
  | 98 :: 105 :: 116 :: _ => false
  | 98 :: _ => true
  | _ => false
  end.

(** The main loop; each turn consumes a character or a whole number. *)
Fixpoint params_scan (fuel : nat) (best : option f64) (l : list Z) : option f64 :=
  match fuel, l with
  | O, _ | _, [] => best
  | S fuel', c :: l' =>
      if is_digit_char c then
        let '(num, r) := span_number l in
        let best' :=
          if billions_mark (skip_spaces r) then
            match parse_f64 (utf8_encode num) with Some v => Some v | None => best end
          else best in
        params_scan fuel' best' r
      else params_scan fuel' best l'
  end.

Section Names.
Context `{Unicode}.

Definition model_params_b (model : string) : option f64 :=
  let l := lower_chars model in params_scan (length l) None l.

Definition model_precision (model : string) : Precision :=
  let s := str_lowercase model in
  if str_contains "2bit" s || str_contains "2-bit" s || str_contains "int2" s then Int2
  else if str_contains "8bit" s || str_contains "8-bit" s || str_contains "int8" s then Int8
  else if str_contains "4bit" s || str_contains "4-bit" s || str_contains "int4" s then Int4
  else Fp16.
End Names.

Definition estimate_tokens (chars : Z) : Z :=
  f64_to_i64 (f64_max (f64_round (f64_div (f64_of_Z chars) (f64_of_Z 4))) f64_1).

Definition estimated_flops (params_b : f64) (precision : Precision)
  (prompt_tokens completion_tokens : Z) : f64 :=
  f64_mul
    (f64_mul (f64_mul (f64_mul (f64_of_Z 2) params_b) (f64_of_Z (10 ^ 9)))
       (f64_add (f64_of_Z prompt_tokens) (f64_mul (f64_of_Z completion_tokens) (f64_of_Z 2))))
    (Precision_factor precision).

Module InferenceTests.
#[local] Instance ascii_tables : Unicode := {| lower_nonascii := fun c => [c] |}.

Example tokens_tests : map estimate_tokens [0; 1; 4; 6; 400] = [1; 1; 1; 2; 100].
Proof. vm_compute. reflexivity. Qed.
End InferenceTests.
