(* ===== verification/InferenceProps.v ===== *)
(** * Properties of inference by subprocess *)

From S2P Require Import Prelude F64 F64Theory Crypto CryptoTheory Models Accounting Config ConfigProps Text Host Inference.
From Stdlib Require Import Floats.SpecFloat.

(** ** The polling loop *)

Section Polls.
Context `{HostOs} `{ProcessEnv} `{Runtime}.
Variables (config : ExodusConfig) (gpu : GpuInfo) (model_path : string) (messages : list ChatTurn).

(** A poll the loop goes on after: the child runs and the deadline is not reached. *)
Definition pending (deadline : Z) (p : Poll) : bool :=
  match p with Running e => e <? deadline | _ => false end.

Lemma wait_child_skip deadline child pre polls :
  forallb (pending deadline) pre = true ->
  wait_child config model_path deadline child (pre ++ polls) =
  wait_child config model_path deadline child polls.
Proof.
  induction pre as [|p pre IH]; cbn; [done|]. intros [Hp Hpre]%andb_true_iff.
  destruct p as [| e |]; cbn in Hp; try done. bool_prop.
  destruct (Z.leb_spec deadline e); [lia|]. by apply IH.
Qed.

(** The first decisive poll of a list, if any. *)
Lemma polls_decide deadline polls :
  forallb (pending deadline) polls = true \/
  exists pre p post, polls = pre ++ p :: post /\ forallb (pending deadline) pre = true /\
    pending deadline p = false.
Proof.
  induction polls as [|p polls IH]; [by left|]. destruct (pending deadline p) eqn:Ep.
  - destruct IH as [Hall|(pre & q & post & -> & Hpre & Hq)].
    + left. cbn. by rewrite Ep.
    + right. exists (p :: pre), q, post. cbn. by rewrite Ep.
  - right. by exists [], p, polls.
Qed.

(** What the loop makes of a decisive poll. *)
Definition poll_result (child : Child) (p : Poll) : result unit string :=
  match p with
  | Exited true _ => Ok tt
  | Exited false status =>
      Err (llama_bin config +:+ " exited with " +:+ status +:+ ": " +:+ trim (child_stderr child))
  | Running _ => Err (timeout_message config model_path (child_stderr child))
  | WaitError e => Err ("waiting on " +:+ llama_bin config +:+ ": " +:+ e)
  end.

Lemma wait_child_decided deadline child pre p post :
  forallb (pending deadline) pre = true -> pending deadline p = false ->
  wait_child config model_path deadline child (pre ++ p :: post) =
  join_drainers child (poll_result child p).
Proof.
  intros Hpre Hp. rewrite wait_child_skip by done. cbn. destruct p as [[] ?|e|]; try done.
  cbn in Hp. bool_prop. by destruct (Z.leb_spec deadline e); [|lia].
Qed.

Lemma wait_child_pending deadline child polls :
  forallb (pending deadline) polls = true ->
  wait_child config model_path deadline child polls = Waiting.
Proof. intros Hall. rewrite <- (app_nil_r polls), wait_child_skip by done. done. Qed.

Lemma wait_child_waiting deadline child polls :
  wait_child config model_path deadline child polls = Waiting <->
  forallb (pending deadline) polls = true \/ child_eof child = false.
Proof.
  destruct (polls_decide deadline polls) as [Hall|(pre & p & post & -> & Hpre & Hp)].
  - rewrite wait_child_pending by done. tauto.
  - rewrite wait_child_decided by done. unfold join_drainers. rewrite forallb_app, Hpre. cbn. rewrite Hp.
    destruct (child_eof child); naive_solver.
Qed.

Lemma wait_child_ok deadline child polls :
  wait_child config model_path deadline child polls = Done (Ok tt) <->
  child_eof child = true /\
  exists pre status post, polls = pre ++ Exited true status :: post /\
    forallb (pending deadline) pre = true.
Proof.
  split.
  - intros E. destruct (polls_decide deadline polls) as [Hall|(pre & p & post & -> & Hpre & Hp)].
    + by rewrite wait_child_pending in E.
    + rewrite wait_child_decided in E by done. unfold join_drainers in E.
      destruct (child_eof child); [|done]. destruct p as [[] status| |]; try done. eauto 7.
  - intros (He & pre & status & post & -> & Hpre). rewrite wait_child_decided by done.
    unfold join_drainers. by rewrite He.
Qed.

(** The guards before the loop. *)
Definition started (timeout : Z) (child : Child) : Prop :=
  binary_exists (llama_bin config) = true /\ path_is_file model_path = true /\
  duration_ns (f64_max (inference_timeout_seconds config) f64_1) = Some timeout /\
  spawn (complete_command config gpu model_path messages) = Ok child /\
  instant_fits (child_started_ns child + timeout) = true.

(** The text of a child that exited well, or the report that there is none. *)
Definition completion_text (child : Child) : result string string :=
  if String.eqb (clean (child_stdout child)) "" then
    Err (no_output_message config model_path (child_stderr child))
  else Ok (clean (child_stdout child)).

Lemma complete_started timeout child :
  started timeout child ->
  complete config gpu model_path messages =
  match wait_child config model_path timeout child (child_polls child) with
  | Panics => Panics
  | Waiting => Waiting
  | Done (Err e) => Done (Err e)
  | Done (Ok _) => Done (completion_text child)
  end.
Proof.
  intros (E1 & E2 & E3 & E4 & E5). unfold complete, completion_text. rewrite E1, E2, E3, E4, E5. cbn.
  destruct (wait_child _ _ _ _ _) as [[|]| |]; try done. by destruct (String.eqb _ "").
Qed.

(** C30: how a started completion ends, a child whose deadline the clock can hold: it never panics;
it is decided by the first poll that reports the exit of the child, an error of waiting, or a time
at or past the deadline, and returns what that poll says, whatever comes later, as soon as the
output pipes are closed; it waits for ever exactly when no poll is decisive or the pipes
are never closed (a process the child left behind holds them). *)
Theorem completion_terminates timeout child :
  started timeout child ->
  complete config gpu model_path messages <> Panics /\
  (complete config gpu model_path messages = Waiting <->
     forallb (pending timeout) (child_polls child) = true \/ child_eof child = false) /\
  (forall pre p post, child_polls child = pre ++ p :: post ->
     forallb (pending timeout) pre = true -> pending timeout p = false -> child_eof child = true ->
     complete config gpu model_path messages =
     Done (match poll_result child p with Ok _ => completion_text child | Err e => Err e end)).
Proof.
  intros Hs. rewrite (complete_started _ _ Hs). split_and!.
  - destruct (polls_decide timeout (child_polls child)) as [Hall|(pre & p & post & -> & Hpre & Hp)].
    + by rewrite wait_child_pending.
    + rewrite wait_child_decided by done. unfold join_drainers.
      by destruct (child_eof child), (poll_result child p).
  - rewrite <- wait_child_waiting. by destruct (wait_child _ _ _ _ _) as [[u|e]| |].
  - intros pre p post -> Hpre Hp He. rewrite wait_child_decided by done.
    unfold join_drainers. rewrite He. by destruct (poll_result child p).
Qed.

(** The timeout does not bound the call: a process the child leaves behind with its output pipes
open keeps the caller waiting although the deadline has passed and the child is killed. *)
Theorem held_pipe_outlasts_deadline timeout child pre elapsed post :
  started timeout child -> child_polls child = pre ++ Running elapsed :: post ->
  timeout <= elapsed -> child_eof child = false ->
  complete config gpu model_path messages = Waiting.
Proof.
  intros Hs _ _ He. rewrite (complete_started _ _ Hs).
  by rewrite (proj2 (wait_child_waiting timeout child (child_polls child)) (or_intror He)).
Qed.

(** a completion succeeds with a text exactly when the runtime and the model exist, the
child starts, exits successfully before the deadline, all who hold its pipes close them, and its
cleaned output, which is the text, is not empty. *)
Theorem completion_succeeds_iff text :
  complete config gpu model_path messages = Done (Ok text) <->
  exists timeout child, started timeout child /\ child_eof child = true /\
    (exists pre status post, child_polls child = pre ++ Exited true status :: post /\
       forallb (pending timeout) pre = true) /\
    text = clean (child_stdout child) /\ text <> "".
Proof.
  split.
  - intros E. pose proof E as E'. unfold complete in E'.
    destruct (binary_exists (llama_bin config)) eqn:E1; [|done].
    destruct (path_is_file model_path) eqn:E2; [|done]. cbn [negb] in E'.
    destruct (duration_ns _) as [timeout|] eqn:E3; [|done].
    destruct (spawn _) as [child|] eqn:E4; [|done].
    destruct (instant_fits (child_started_ns child + timeout)) eqn:E5; [|done].
    assert (started timeout child) as Hs by done. clear E'. rewrite (complete_started _ _ Hs) in E.
    destruct (wait_child _ _ _ _ _) as [[[]|]| |] eqn:Ew; try done.
    apply wait_child_ok in Ew as [He Hp]. unfold completion_text in E.
    destruct (String.eqb_spec (clean (child_stdout child)) ""); [done|]. injection E as <-. eauto 8.
  - intros (timeout & child & Hs & He & Hp & -> & Hne). rewrite (complete_started _ _ Hs).
    rewrite (proj2 (wait_child_ok timeout child (child_polls child)) (conj He Hp)).
    unfold completion_text. by rewrite (proj2 (String.eqb_neq _ "") Hne).
Qed.

(** A timeout read as [inf] makes every completion panic. *)
Theorem infinite_timeout_panics :
  binary_exists (llama_bin config) = true -> path_is_file model_path = true ->
  inference_timeout_seconds config = S754_infinity false ->
  complete config gpu model_path messages = Panics.
Proof. intros E1 E2 E3. unfold complete. by rewrite E1, E2, E3. Qed.
End Polls.

(** ** Names of models *)

Lemma span_digits_app l : forallb is_digit_char (span_digits l).1 = true /\
  l = (span_digits l).1 ++ (span_digits l).2.
Proof.
  induction l as [|c l IH]; cbn; [done|]. destruct (is_digit_char c) eqn:E; [|done].
  destruct (span_digits l) as [d r]. cbn in *. rewrite E. destruct IH as [Hd ->]. done.
Qed.

Lemma span_digits_stop d c r :
  forallb is_digit_char d = true -> is_digit_char c = false -> span_digits (d ++ c :: r) = (d, c :: r).
Proof.
  intros Hd Hc. induction d as [|x d IH]; cbn in *; [by rewrite Hc|].
  apply andb_true_iff in Hd as [Hx Hd]. by rewrite Hx, IH.
Qed.

Lemma span_digits_barrier l rest :
  span_digits (l ++ 45 :: rest) = ((span_digits l).1, (span_digits l).2 ++ 45 :: rest).
Proof.
  induction l as [|c l IH]; cbn; [done|]. destruct (is_digit_char c); [|done].
  rewrite IH. by destruct (span_digits l).
Qed.

(** A number does not reach over a hyphen. *)
Lemma span_number_barrier l rest :
  span_number (l ++ 45 :: rest) = ((span_number l).1, (span_number l).2 ++ 45 :: rest).
Proof.
  unfold span_number. rewrite span_digits_barrier. destruct (span_digits l) as [d [|c r]]; cbn; [done|].
  destruct (c =? 46); [|done]. rewrite span_digits_barrier. by destruct (span_digits r).
Qed.

Lemma span_number_shorter c l :
  is_digit_char c = true -> (length (span_number (c :: l)).2 < length (c :: l))%nat.
Proof.
  intros Hc. unfold span_number. cbn. rewrite Hc.
  pose proof (proj2 (span_digits_app l)) as El. destruct (span_digits l) as [d r]; cbn in *.
  assert (length r <= length l)%nat by (rewrite El, length_app; lia).
  destruct r as [|x r]; cbn in *; [lia|]. destruct (x =? 46); cbn; [|lia].
  pose proof (proj2 (span_digits_app r)) as Er. destruct (span_digits r) as [d' r']; cbn in *.
  rewrite Er, length_app in *. lia.
Qed.

(** The fuel of the scan is enough: more of it changes nothing. *)
Lemma params_scan_fuel f1 f2 best l :
  (length l <= f1)%nat -> (length l <= f2)%nat -> params_scan f1 best l = params_scan f2 best l.
Proof.
  revert f2 best l. induction f1 as [|f1 IH]; intros [|f2] best [|c l] H1 H2; cbn [length] in *; try lia; try done.
  cbn [params_scan]. destruct (is_digit_char c) eqn:Ec; [|apply IH; lia].
  pose proof (span_number_shorter c l Ec) as Hs. destruct (span_number (c :: l)) as [num r]. cbn in Hs.
  apply IH; lia.
Qed.

Lemma params_scan_barrier pre rest best :
  exists best', params_scan (length (pre ++ 45 :: rest)) best (pre ++ 45 :: rest) =
    params_scan (length rest) best' rest.
Proof.
  remember (length pre) as n eqn:Hn. revert pre Hn best.
  induction n as [n IH] using lt_wf_ind. intros pre -> best.
  destruct pre as [|c pre]; [by exists best|]. cbn [app length params_scan].
  destruct (is_digit_char c) eqn:Ec.
  - change (c :: pre ++ 45 :: rest) with ((c :: pre) ++ 45 :: rest).
    rewrite span_number_barrier. pose proof (span_number_shorter c pre Ec) as Hs.
    destruct (span_number (c :: pre)) as [num r]. cbn [fst snd] in *.
    rewrite (params_scan_fuel _ (length (r ++ 45 :: rest))); [|rewrite !length_app; cbn in *; lia|done].
    by apply (IH (length r)).
  - by apply (IH (length pre)); [cbn; lia|].
Qed.

Lemma params_scan_no_digit fuel best l :
  forallb (fun c => negb (is_digit_char c)) l = true -> params_scan fuel best l = best.
Proof.
  revert l. induction fuel as [|fuel IH]; intros [|c l]; cbn; try done.
  intros [Hc%negb_true_iff Hl]%andb_true_iff. rewrite Hc. by apply IH.
Qed.

(** A number in a name: digits, or digits, a point and digits. *)
Inductive number_text : list Z -> Prop :=
| number_int d : d <> [] -> forallb is_digit_char d = true -> number_text d
| number_frac d f : d <> [] -> forallb is_digit_char d = true -> forallb is_digit_char f = true ->
    number_text (d ++ 46 :: f).

Lemma span_number_text num rest :
  number_text num -> span_number (num ++ 98 :: rest) = (num, 98 :: rest).
Proof.
  unfold span_number. intros [d Hne Hd|d f Hne Hd Hf].
  - by rewrite span_digits_stop.
  - rewrite <- app_assoc. cbn [app]. rewrite span_digits_stop by done. cbn.
    by rewrite span_digits_stop.
Qed.

Lemma number_text_head num : number_text num -> exists c l, num = c :: l /\ is_digit_char c = true.
Proof.
  intros [d Hne Hd|d f Hne Hd Hf]; destruct d as [|c d]; try done; cbn in Hd |- *.
  all: apply andb_true_iff in Hd as [Hc _]; eauto.
Qed.

(** the parameter count read off a model's name is that of its last size tag: whatever comes
before a hyphen, a number followed by a [b] that does not begin [bit], with no digit after it,
gives that number of billions. *)
Theorem model_size_tag `{Unicode} model pre num tail v :
  lower_chars model = pre ++ 45 :: num ++ 98 :: tail -> number_text num ->
  billions_mark (98 :: tail) = true -> forallb (fun c => negb (is_digit_char c)) tail = true ->
  parse_f64 (utf8_encode num) = Some v ->
  model_params_b model = Some v.
Proof.
  intros El Hnum Hmark Htail Hv. unfold model_params_b. rewrite El.
  destruct (params_scan_barrier pre (num ++ 98 :: tail) None) as [best ->].
  destruct (number_text_head num Hnum) as (c & l & En & Hc).
  pose proof (span_number_text num tail Hnum) as Hspan. subst num.
  cbn [app length params_scan]. rewrite Hc. cbn [app] in Hspan. rewrite Hspan.
  change (skip_spaces (98 :: tail)) with (98 :: tail). rewrite Hmark, Hv.
  apply params_scan_no_digit. cbn. by rewrite Htail.
Qed.

(** A name tagged [32bit] is taken for a 2-bit model. *)
Theorem wide_tag_misread `{Unicode} : model_precision "llama-7b-32bit" = Int2.
Proof. vm_compute. reflexivity. Qed.

(** ** Estimated work *)

Lemma precision_factor_within p : within 3 (Precision_factor p).
Proof. by destruct p; vm_compute. Qed.

(** The estimate is finite for every model that is not absurdly large. *)
Lemma estimated_flops_within p prec pt ct A :
  within A p -> 0 <= A <= 700 -> in_i64 pt = true -> in_i64 ct = true ->
  within (A + 112) (estimated_flops p prec pt ct).
Proof.
  intros Hp HA Hpt%in_i64_spec Hct%in_i64_spec. unfold estimated_flops.
  assert (Htok : forall z, i64_min <= z <= i64_max -> within 65 (f64_of_Z z)).
  { intros z Hz. apply (within_of_Z z 64); unfold i64_min, i64_max in *; lia. }
  assert (H1 : within 71 (f64_add (f64_of_Z pt) (f64_mul (f64_of_Z ct) (f64_of_Z 2)))).
  { apply (within_add _ _ 69); [apply within_le with 65; [by apply Htok|lia]| |lia].
    apply (within_mul _ _ 65 3); [by apply Htok|by apply (within_of_Z 2 2)|lia]. }
  assert (H2 : within (A + 36) (f64_mul (f64_mul (f64_of_Z 2) p) (f64_of_Z (10 ^ 9)))).
  { replace (A + 36) with (3 + A + 1 + 31 + 1) by lia.
    apply within_mul; [apply within_mul; [by apply (within_of_Z 2 2)|done|lia]|by apply (within_of_Z _ 30)|lia]. }
  replace (A + 112) with (A + 36 + 71 + 1 + 3 + 1) by lia.
  apply within_mul; [by apply within_mul; [..|lia]|apply precision_factor_within|lia].
Qed.

Lemma estimated_flops_expected c :
  estimated_flops (params_b c) (precision c) (prompt_tokens c) (completion_tokens c) = expected_flops c.
Proof. reflexivity. Qed.

Lemma f64_sub_diag m e : exists s, f64_sub (S754_finite false m e) (S754_finite false m e) = S754_zero s.
Proof.
  exists false. unfold f64_sub, SFsub. cbv zeta. rewrite Z.min_id. unfold shl_align.
  replace (e - e)%Z with 0%Z by lia. cbn [fst]. unfold cond_Zopp.
  replace (Z.pos m - Z.pos m)%Z with 0%Z by lia. done.
Qed.

Lemma f64_positive x : is_finite x = true -> f64_lt f64_0 x = true -> exists m e, x = S754_finite false m e.
Proof. destruct x as [[]| | |[] m e]; try done. eauto. Qed.

Lemma positive_not_le x : f64_lt f64_0 x = true -> f64_le x f64_0 = false /\ f64_eq x f64_0 = false.
Proof. by destruct x as [[]|[]| |[] m e]. Qed.

Lemma estimate_plausible c tolerance :
  flops_estimate c =
    estimated_flops (params_b c) (precision c) (prompt_tokens c) (completion_tokens c) ->
  is_finite (flops_estimate c) = true -> f64_lt f64_0 (flops_estimate c) = true ->
  f64_le f64_0 tolerance = true ->
  flops_is_plausible c tolerance =
  negb (f64_gt (compute_seconds c) f64_0 &&
        f64_gt (f64_div (flops_estimate c) (compute_seconds c))
          (f64_mul (device_tier_flops_per_second (device_tier c)) (f64_add f64_1 tolerance))).
Proof.
  rewrite estimated_flops_expected. intros He Hf Hp Ht. unfold flops_is_plausible. rewrite <- He.
  destruct (positive_not_le _ Hp) as [-> ->].
  destruct (f64_positive _ Hf Hp) as (m & e & E). rewrite E.
  destruct (f64_sub_diag m e) as [s ->].
  assert (Hd : f64_gt (f64_div (f64_abs (S754_zero s)) (S754_finite false m e)) tolerance = false).
  { change (f64_div (f64_abs (S754_zero s)) (S754_finite false m e)) with (S754_zero false).
    by destruct tolerance as [[]|[]| |[] m' e']. }
  cbv zeta. rewrite Hd. destruct (f64_gt (compute_seconds c) f64_0); [|done].
  by destruct (f64_gt _ _).
Qed.

(** a claim that reports the estimated work is plausible for every tolerance of at least
zero, unless it beats the ceiling of its device: a positive, finite estimate has no
deviation, and only the achieved rate is left to test. *)
Theorem estimate_is_plausible c tolerance :
  flops_estimate c =
    estimated_flops (params_b c) (precision c) (prompt_tokens c) (completion_tokens c) ->
  is_finite (flops_estimate c) = true -> f64_lt f64_0 (flops_estimate c) = true ->
  f64_le f64_0 tolerance = true ->
  flops_is_plausible c tolerance =
  negb (f64_gt (compute_seconds c) f64_0 &&
        f64_gt (f64_div (flops_estimate c) (compute_seconds c))
          (f64_mul (device_tier_flops_per_second (device_tier c)) (f64_add f64_1 tolerance))).
Proof. apply estimate_plausible. Qed.

Module InferenceDemo.
#[local] Existing Instance InferenceTests.ascii_tables.
#[local] Instance host : HostOs := {|
  nvidia_smi := fun _ => None; read_to_string := fun _ => None; path_exists := fun _ => false;
  path_is_file := fun p => String.eqb p "/bin/llama-cli" || String.eqb p "/m/a-7b.gguf";
  available_parallelism := Some 4 |}.
#[local] Instance env : ProcessEnv := {|
  env_var := fun n => if String.eqb n "PATH" then Some "/usr/bin:/bin" else None;
  f64_to_string := fun _ => "300" |}.
Definition child : Child :=
  mkChild (7 * 10 ^ 9) [Running 50000000; Running 100000000; Exited true "exit status: 0"] true " Assistant: hello " "".
#[local] Instance runtime : Runtime := {| spawn := fun _ => Ok child |}.
Definition config : ExodusConfig := default_config "/d".

Lemma started_demo :
  started config default_gpu "/m/a-7b.gguf" [mkTurn "user" "hi"] (300 * 10 ^ 9) child.
Proof. split_and!; vm_compute; reflexivity. Qed.

Lemma completion_terminates_witness :
  complete config default_gpu "/m/a-7b.gguf" [mkTurn "user" "hi"] = Done (Ok "hello").
Proof.
  destruct (completion_terminates config default_gpu "/m/a-7b.gguf" [mkTurn "user" "hi"] _ _ started_demo)
    as (_ & _ & H).
  rewrite (H [Running 50000000; Running 100000000] (Exited true "exit status: 0") []);
    vm_compute; reflexivity.
Defined.

Lemma model_size_tag_witness : model_params_b "Qwen2.5-14B-Instruct" = Some (f64_of_Z 14).
Proof.
  apply (model_size_tag _ (chars "qwen2.5") (chars "14") (chars "-instruct")).
  - vm_compute. reflexivity.
  - apply number_int; [done|vm_compute; reflexivity].
  - vm_compute. reflexivity.
  - vm_compute. reflexivity.
  - vm_compute. reflexivity.
Defined.

Definition claim : ContributionClaim :=
  make_claim "id" "n" 1 "a-7b.gguf" (f64_of_Z 7) Fp16 10 20 (f64_of_Z 4)
    (estimated_flops (f64_of_Z 7) Fp16 10 20) Cpu "t0" "t1" 0 "".

(** 7e11 floating-point operations in four seconds: below the ceiling of a CPU. *)
Lemma estimate_is_plausible_witness : flops_is_plausible claim (f64_lit 1 2) = true.
Proof.
  rewrite (estimate_is_plausible claim (f64_lit 1 2)); vm_compute; reflexivity.
Defined.
End InferenceDemo.
