(* ===== verification/Http.v ===== *)
(** * The HTTP client of the inference server ([src/llama_server.rs], lines 293 on)

Requests as they are written, and [read_response] over the bytes a server sends before it
closes the connection: status line, headers, and a body framed by [Content-Length], by chunks
or by the end of the stream. *)

From S2P Require Import Prelude F64 Crypto Config Text.

(** ** [String::from_utf8_lossy] *)

Definition in_range (lo hi : Z) (a : ascii) : bool := (lo <=? byte_val a) && (byte_val a <=? hi).

(** The ranges of the second byte and the number of further bytes after a leading byte. *)
Definition utf8_lead (a : ascii) : option (Z * Z * nat) :=
  let b := byte_val a in
  if (0xc2 <=? b) && (b <=? 0xdf) then Some (0x80, 0xbf, 0%nat)
  else if b =? 0xe0 then Some (0xa0, 0xbf, 1%nat)
  else if b =? 0xed then Some (0x80, 0x9f, 1%nat)
  else if (0xe1 <=? b) && (b <=? 0xef) then Some (0x80, 0xbf, 1%nat)
  else if b =? 0xf0 then Some (0x90, 0xbf, 2%nat)
  else if (0xf1 <=? b) && (b <=? 0xf3) then Some (0x80, 0xbf, 2%nat)
  else if b =? 0xf4 then Some (0x80, 0x8f, 2%nat)
  else None.

Definition replacement : string := utf8_char 0xfffd.

(** [pending] holds the bytes of a sequence that is incomplete so far, [lo..hi] the range of
its next byte and [more] the number of bytes after that one. *)
Fixpoint lossy (pending : string) (lo hi : Z) (more : nat) (s : bytes) : string :=
  match s with
  | EmptyString => if String.eqb pending "" then "" else replacement
  | String a s' =>
      let fresh :=
        if byte_val a <? 0x80 then String a (lossy "" 0 0 0 s')
        else match utf8_lead a with
             | Some (lo', hi', more') => lossy (String a "") lo' hi' more' s'
             | None => replacement +:+ lossy "" 0 0 0 s'
             end in
      if String.eqb pending "" then fresh
      else if in_range lo hi a then
        match more with
        | O => pending +:+ String a (lossy "" 0 0 0 s')
        | S more' => lossy (pending +:+ String a "") 0x80 0xbf more' s'
        end
      else replacement +:+ fresh
  end.

Definition from_utf8_lossy (s : bytes) : string := lossy "" 0 0 0 s.

(** ** Requests *)

Definition http_get_request (host : string) (port : Z) (path : string) : bytes :=
  "GET " +:+ path +:+ " HTTP/1.1" +:+ crlf +:+ "Host: " +:+ host +:+ ":" +:+ pretty port +:+ crlf +:+
  "Connection: close" +:+ crlf +:+ crlf.

Definition http_post_request (host : string) (port : Z) (path body : string) : bytes :=
  "POST " +:+ path +:+ " HTTP/1.1" +:+ crlf +:+ "Host: " +:+ host +:+ ":" +:+ pretty port +:+ crlf +:+
  "Content-Type: application/json" +:+ crlf +:+ "Content-Length: " +:+ pretty (str_len body) +:+ crlf +:+
  "Connection: close" +:+ crlf +:+ crlf +:+ body.

(** ** Reading *)

(** [BufRead::read_line]: the bytes up to and with the next newline, and the rest. *)
Definition read_line (s : bytes) : bytes * bytes :=
  match split_at_char newline s with
  | Some (l, r) => (l +:+ String newline "", r)
  | None => (s, "")
  end.

Definition utf8_error : string := "stream did not contain valid UTF-8".

(** A line that must be text. *)
Definition read_text_line (what : string) (s : bytes) : result (string * bytes) string :=
  let '(l, r) := read_line s in
  if valid_str l then Ok (l, r) else Err (what +:+ ": " +:+ utf8_error).

(** [str::trim_end] *)
Definition trim_end (s : string) : string := utf8_encode (rev (skip_whitespace (rev (chars s)))).

Section Reading.
Context `{Unicode}.

Record Headers := mkHeaders { content_length : option Z; chunked : bool }.

Definition header_line (h : Headers) (line : string) : Headers :=
  let lower := str_lowercase line in
  match strip_prefix "content-length:" lower with
  | Some v => mkHeaders (parse_u64 (trim v)) (chunked h)
  | None =>
      if starts_with "transfer-encoding:" lower && str_contains "chunked" lower
      then mkHeaders (content_length h) true else h
  end.

(** The header loop; every turn consumes a line of at least one byte. *)
Fixpoint read_headers (fuel : nat) (h : Headers) (s : bytes) : result (Headers * bytes) string :=
  match fuel with
  | O => Ok (h, s)
  | S fuel' =>
      match s with
      | EmptyString => Ok (h, s)
      | _ =>
          '(l, r) <-? read_text_line "read header" s ;;
          let line := trim_end l in
          if String.eqb line "" then Ok (h, r) else read_headers fuel' (header_line h line) r
      end
  end.

(** [usize::from_str_radix(s, 16)] *)
Fixpoint hex_digits (acc : Z) (s : string) : option Z :=
  match s with
  | EmptyString => Some acc
  | String a s' => match nib a with Some d => hex_digits (16 * acc + d) s' | None => None end
  end.

Definition from_str_radix16 (s : string) : option Z :=
  let unsigned (d : string) :=
    if String.eqb d "" then None
    else match hex_digits 0 d with
         | Some z => if z <=? u64_max then Some z else None
         | None => None
         end in
  match s with
  | String a d => if Ascii.eqb a "+" then unsigned d else unsigned s
  | EmptyString => None
  end.

Definition chunk_size (line : string) : Z :=
  default 0 (from_str_radix16 (trim (default "0" (split_on ";" (trim line) !! 0%nat)))).

(** [Read::read_exact] *)
Definition read_exact (what : string) (n : Z) (s : bytes) : result (bytes * bytes) string :=
  if n <=? str_len s then
    Ok (String.substring 0 (Z.to_nat n) s,
        String.substring (Z.to_nat n) (String.length s - Z.to_nat n) s)
  else Err (what +:+ ": failed to fill whole buffer").

(** The chunk loop; a turn that goes on consumes a size line and a chunk. *)
Fixpoint read_chunks (fuel : nat) (body : bytes) (s : bytes) : result bytes string :=
  match fuel with
  | O => Ok body
  | S fuel' =>
      match s with
      | EmptyString => Ok body
      | _ =>
          '(l, r) <-? read_text_line "read chunk size" s ;;
          let size := chunk_size l in
          if size =? 0 then Ok body
          else
            '(chunk, r') <-? read_exact "read chunk body" size r ;;
            read_chunks fuel' (body +:+ chunk) (read_line r').2
      end
  end.

Definition status_code (line : string) : Z :=
  default 0 (split_whitespace line !! 1%nat ≫= parse_u16).

Definition read_body (h : Headers) (s : bytes) : result bytes string :=
  if chunked h then read_chunks (S (String.length s)) "" s
  else match content_length h with
       | Some len => '(body, _) <-? read_exact "read body" len s ;; Ok body
       | None => Ok s
       end.

(** [read_response] on everything the server sends. *)
Definition read_response (s : bytes) : result string string :=
  '(status, r) <-? read_text_line "read status line" s ;;
  let code := status_code status in
  '(h, r') <-? read_headers (S (String.length r)) (mkHeaders None false) r ;;
  body <-? read_body h r' ;;
  let text := from_utf8_lossy body in
  if negb (code =? 200) then
    Err ("llama-server HTTP " +:+ pretty code +:+ ": " +:+ first_n_chars 500 text)
  else Ok text.

(** ** The client *)

(** The other side of a connection: the resolved addresses, the attempts to connect, to set the
time-outs and to write, and what it answers to a request. *)
Record Remote := mkRemote {
  rm_resolve : result (list string) string;
  rm_connect : string -> result unit string;
  rm_timeouts : result unit string;
  rm_write : bytes -> result unit string;
  rm_answer : bytes -> bytes;
}.

Definition map_err {A E E'} (f : E -> E') (r : result A E) : result A E' :=
  match r with Ok a => Ok a | Err e => Err (f e) end.

(** [connect]: the first address, or the reason there is no connection. *)
Definition connect_stream (host : string) (port : Z) (r : Remote) : result unit string :=
  let at_port := host +:+ ":" +:+ pretty port in
  addrs <-? map_err (fun e => "resolve " +:+ at_port +:+ ": " +:+ e) (rm_resolve r) ;;
  match addrs with
  | [] => Err ("no address for " +:+ at_port)
  | addr :: _ => map_err (fun e => "connect to llama-server at " +:+ at_port +:+ ": " +:+ e) (rm_connect r addr)
  end.

Definition http_get (host : string) (port : Z) (path : string) (r : Remote) : result string string :=
  _ <-? connect_stream host port r ;;
  _ <-? rm_timeouts r ;;
  let req := http_get_request host port path in
  _ <-? map_err (fun e => "GET " +:+ path +:+ ": " +:+ e) (rm_write r req) ;;
  read_response (rm_answer r req).

Definition http_post_json (host : string) (port : Z) (path body : string) (r : Remote) : result string string :=
  _ <-? connect_stream host port r ;;
  _ <-? rm_timeouts r ;;
  let req := http_post_request host port path body in
  _ <-? map_err (fun e => "POST " +:+ path +:+ ": " +:+ e) (rm_write r req) ;;
  read_response (rm_answer r req).
End Reading.

Module HttpTests.
#[local] Instance ascii_tables : Unicode := {| lower_nonascii := fun c => [c] |}.

Example lossy_tests :
  from_utf8_lossy (String "097" (String "240" (String "159" (String "098" "c")))) =
    "a" +:+ replacement +:+ "bc" /\
  from_utf8_lossy (utf8_encode [0x61; 0xe9; 0x20ac; 0x1f600]) = utf8_encode [0x61; 0xe9; 0x20ac; 0x1f600].
Proof. vm_compute. done. Qed.
End HttpTests.
