(* ===== verification/HttpProps.v ===== *)
(** * Properties of the HTTP client

[read_response] inverts the framing a server uses: for any status line and header lines, and a
body sent in chunks, with its length or up to the close, it returns the body. *)

From S2P Require Import Prelude F64 Crypto CryptoTheory Config ConfigProps Decimal Text Http.

(** ** Lines of ASCII text *)

(** Printable ASCII: what a line of a header may hold. *)
Definition plain (a : ascii) : bool := (32 <=? byte_val a) && (byte_val a <? 127).

Lemma plain_ascii s : all_chars plain s = true -> all_ascii s = true.
Proof.
  induction s as [|a s IH]; cbn; [done|]. unfold plain at 1. intros [Ha Hs]%andb_true_iff.
  rewrite IH by done. bool_prop. rewrite andb_true_r. apply Z.ltb_lt. lia.
Qed.

Lemma plain_no_newline s : all_chars plain s = true -> no_char newline s = true.
Proof.
  apply all_chars_impl. intros a. unfold plain. intros Ha. bool_prop.
  destruct (Ascii.eqb_spec a newline) as [->|]; [|done].
  change (byte_val newline) with 10 in *. lia.
Qed.

Lemma byte_vals_app s t : byte_vals (s +:+ t) = byte_vals s ++ byte_vals t.
Proof. induction s as [|a s IH]; autorewrite with exodus_rw; cbn; [done|]. by rewrite IH. Qed.

(** The bytes of a line with its terminator. *)
Lemma chars_line s : all_chars plain s = true -> chars (s +:+ crlf) = chars s ++ [13; 10].
Proof.
  intros Hs%plain_ascii. rewrite !chars_ascii; [|done|by rewrite all_ascii_app, Hs].
  by rewrite byte_vals_app.
Qed.

Lemma trim_end_line s : all_chars plain s = true -> trim_end (s +:+ crlf) = trim_end s.
Proof. intros Hs. unfold trim_end. rewrite chars_line by done. by rewrite rev_app_distr. Qed.

Lemma trim_line s : all_chars plain s = true -> trim (s +:+ crlf) = trim s.
Proof.
  intros Hs. unfold trim, trim_chars. rewrite chars_line by done. f_equal. f_equal.
  induction (chars s) as [|c l IH]; cbn [skip_whitespace app]; [done|].
  destruct (is_whitespace c); [done|]. by rewrite app_comm_cons, rev_app_distr.
Qed.

Lemma read_text_line_plain what s r :
  all_chars plain s = true -> read_text_line what (s +:+ crlf +:+ r) = Ok (s +:+ crlf, r).
Proof.
  intros Hs. unfold read_text_line, read_line.
  replace (s +:+ crlf +:+ r) with ((s +:+ String carriage_return "") +:+ String newline r)
    by (unfold crlf; by rewrite !string_app_assoc).
  rewrite split_at_char_app.
  - rewrite string_app_assoc. rewrite valid_str_ascii; [done|].
    rewrite all_ascii_app, plain_ascii by done. done.
  - rewrite no_char_app, plain_no_newline by done. done.
Qed.

Lemma read_line_crlf r : (read_line (crlf +:+ r)).2 = r.
Proof. done. Qed.

Lemma read_exact_app what s r :
  read_exact what (str_len s) (s +:+ r) = Ok (s, r).
Proof.
  unfold read_exact, str_len. rewrite string_length_app.
  destruct (Z.leb_spec (Z.of_nat (String.length s)) (Z.of_nat (String.length s + String.length r))); [|lia].
  rewrite Nat2Z.id, substring_app_l.
  replace (String.length s + String.length r - String.length s)%nat with (String.length r) by lia.
  by rewrite substring_app_r.
Qed.

(** ** Headers *)

Section Framing.
Context `{Unicode}.

(** A header line: printable, not blank, without spaces at its end. *)
Definition header_ok (l : string) : bool :=
  all_chars plain l && String.eqb (trim_end l) l && negb (String.eqb l "").

Fixpoint header_text (hs : list string) : bytes :=
  match hs with [] => crlf | l :: hs' => l +:+ crlf +:+ header_text hs' end.

Lemma read_headers_text hs fuel h r :
  forallb header_ok hs = true -> (length hs < fuel)%nat ->
  read_headers fuel h (header_text hs +:+ r) = Ok (foldl header_line h hs, r).
Proof.
  revert fuel h. induction hs as [|l hs IH]; intros [|fuel] h Hw Hf; cbn [length] in Hf; try lia.
  - cbn [header_text read_headers]. pose proof (read_text_line_plain "read header" "" r eq_refl) as E.
    autorewrite with exodus_rw in E. rewrite E.
    destruct (crlf +:+ r) eqn:Es; [by destruct r|]. reflexivity.
  - cbn [forallb] in Hw. apply andb_true_iff in Hw as [Hl Hw].
    unfold header_ok in Hl. bool_prop. cbn [header_text read_headers foldl].
    rewrite !string_app_assoc.
    destruct (l +:+ crlf +:+ header_text hs +:+ r) eqn:Es; [by destruct l|]. rewrite <- Es.
    rewrite read_text_line_plain by done. cbn [rbind]. rewrite trim_end_line by done.
    match goal with E : trim_end l = l |- _ => rewrite E end.
    rewrite (proj2 (String.eqb_neq l "")) by done. apply IH; [done|lia].
Qed.

(** ** Chunks *)

Definition is_hex (a : ascii) : bool := if nib a is Some _ then true else false.

(** A chunk: its size in hexadecimal and its data, not empty and smaller than [2^64] bytes. *)
Definition chunk_ok (c : string * bytes) : bool :=
  all_chars is_hex c.1 && negb (String.eqb c.1 "") && negb (String.eqb c.2 "") &&
  bool_decide (hex_digits 0 c.1 = Some (str_len c.2)) && (str_len c.2 <=? u64_max).

Fixpoint chunk_text (cs : list (string * bytes)) : bytes :=
  match cs with
  | [] => "0" +:+ crlf
  | c :: cs' => c.1 +:+ crlf +:+ c.2 +:+ crlf +:+ chunk_text cs'
  end.

Fixpoint chunk_data (cs : list (string * bytes)) : bytes :=
  match cs with [] => "" | c :: cs' => c.2 +:+ chunk_data cs' end.

Lemma is_hex_facts a : is_hex a = true ->
  plain a = true /\ is_whitespace (byte_val a) = false /\ Ascii.eqb a ";" = false /\ Ascii.eqb a "+" = false.
Proof. destruct a as [[] [] [] [] [] [] [] []]; vm_compute; intros [=]; done. Qed.

Lemma trim_no_whitespace s :
  all_chars plain s = true -> all_chars (fun a => negb (is_whitespace (byte_val a))) s = true ->
  trim s = s.
Proof.
  intros Hp Hs. apply plain_ascii in Hp. unfold trim, trim_chars. rewrite chars_ascii by done.
  assert (Hall : forall l, forallb (fun c => negb (is_whitespace c)) l = true -> skip_whitespace l = l).
  { intros [|c l]; cbn; [done|]. intros [Hc _]%andb_true_iff. by destruct (is_whitespace c). }
  assert (Hb : forallb (fun c => negb (is_whitespace c)) (byte_vals s) = true).
  { clear Hp. induction s as [|a s IH]; cbn in *; [done|]. apply andb_true_iff in Hs as [Ha Hs].
    by rewrite Ha, IH. }
  rewrite (Hall (byte_vals s)), (Hall (rev (byte_vals s))), rev_involutive.
  - by apply utf8_encode_ascii.
  - rewrite forallb_forall in *. intros c Hc%in_rev. by apply Hb.
  - done.
Qed.

Lemma split_on_none c s : no_char c s = true -> split_on c s = [s].
Proof.
  unfold no_char. induction s as [|a s IH]; cbn; [done|].
  intros [Ha%negb_true_iff Hs]%andb_true_iff. by rewrite Ha, IH.
Qed.

Lemma hex_text_plain s : all_chars is_hex s = true -> all_chars plain s = true.
Proof. apply all_chars_impl. intros a Ha. by apply is_hex_facts. Qed.

Lemma hex_text_trim s : all_chars is_hex s = true -> trim s = s.
Proof.
  intros Hs. apply trim_no_whitespace; [by apply hex_text_plain|].
  revert Hs. apply all_chars_impl. intros a Ha. by apply is_hex_facts in Ha as (_ & -> & _).
Qed.

Lemma hex_text_no_semicolon s : all_chars is_hex s = true -> no_char ";" s = true.
Proof. apply all_chars_impl. intros a Ha. by apply is_hex_facts in Ha as (_ & _ & -> & _). Qed.

Lemma chunk_size_text c : chunk_ok c = true -> chunk_size (c.1 +:+ crlf) = str_len c.2.
Proof.
  unfold chunk_ok. intros Hc. bool_prop.
  unfold chunk_size. rewrite trim_line by by apply hex_text_plain.
  rewrite (hex_text_trim c.1) by done. rewrite split_on_none by by apply hex_text_no_semicolon.
  cbn [lookup list_lookup default]. rewrite hex_text_trim by done. unfold from_str_radix16.
  destruct c as [sz data]; cbn [fst snd] in *. destruct sz as [|a sz]; [done|].
  assert (Ha : is_hex a = true) by (cbn in *; by bool_prop).
  apply is_hex_facts in Ha as (_ & _ & _ & Ha). unfold id. cbv beta iota zeta. rewrite Ha.
  rewrite (proj2 (String.eqb_neq (String a sz) "")) by done.
  match goal with E : hex_digits 0 _ = _ |- _ => rewrite E end.
  match goal with E : _ <= u64_max |- _ => apply Z.leb_le in E; by rewrite E end.
Qed.

Lemma str_len_pos s : s <> "" -> 0 < str_len s.
Proof. destruct s; [done|]. unfold str_len. cbn. lia. Qed.

(** One turn of the chunk loop on what is not yet the end. *)
Lemma read_chunks_turn fuel body s l r :
  s <> "" -> read_text_line "read chunk size" s = Ok (l, r) ->
  read_chunks (S fuel) body s =
  if chunk_size l =? 0 then Ok body
  else '(chunk, r') <-? read_exact "read chunk body" (chunk_size l) r ;;
       read_chunks fuel (body +:+ chunk) (read_line r').2.
Proof. intros Hs E. destruct s; [done|]. cbn [read_chunks]. by rewrite E. Qed.

Lemma read_chunks_text cs fuel body r :
  forallb chunk_ok cs = true -> (length cs < fuel)%nat ->
  read_chunks fuel body (chunk_text cs +:+ r) = Ok (body +:+ chunk_data cs).
Proof.
  revert fuel body. induction cs as [|c cs IH]; intros [|fuel] body Hw Hf; cbn [length] in Hf; try lia.
  - cbn [chunk_text chunk_data]. rewrite string_app_nil_r, string_app_assoc.
    assert (Hne : "0" +:+ crlf +:+ r <> "") by done.
    by rewrite (read_chunks_turn _ _ _ _ _ Hne (read_text_line_plain _ "0" r eq_refl)).
  - cbn [forallb] in Hw. apply andb_true_iff in Hw as [Hc Hw].
    pose proof (chunk_size_text c Hc) as Hsize. unfold chunk_ok in Hc. bool_prop.
    assert (Hp : all_chars plain c.1 = true) by auto using hex_text_plain.
    cbn [chunk_text chunk_data]. rewrite !string_app_assoc.
    assert (Hne : c.1 +:+ crlf +:+ c.2 +:+ crlf +:+ chunk_text cs +:+ r <> "") by by destruct c.1.
    rewrite (read_chunks_turn _ _ _ _ _ Hne (read_text_line_plain _ _ _ Hp)), Hsize.
    pose proof (str_len_pos c.2 ltac:(done)). destruct (Z.eqb_spec (str_len c.2) 0); [lia|].
    rewrite read_exact_app. cbn [rbind]. rewrite read_line_crlf, IH by (done || lia).
    by rewrite string_app_assoc.
Qed.

(** ** Responses *)

(** The wire form of a body under given headers. *)
Inductive framed (h : Headers) : bytes -> bytes -> Prop :=
| framed_chunks cs rest :
    chunked h = true -> forallb chunk_ok cs = true ->
    framed h (chunk_data cs) (chunk_text cs +:+ rest)
| framed_length body rest :
    chunked h = false -> content_length h = Some (str_len body) -> framed h body (body +:+ rest)
| framed_close body :
    chunked h = false -> content_length h = None -> framed h body body.

Lemma header_text_length hs : (length hs < String.length (header_text hs))%nat.
Proof.
  induction hs as [|l hs IH]; cbn [header_text length]; [vm_compute; lia|].
  rewrite !string_length_app. change (String.length crlf) with 2%nat. lia.
Qed.

Lemma chunk_text_length cs : (length cs < String.length (chunk_text cs))%nat.
Proof.
  induction cs as [|c cs IH]; cbn [chunk_text length]; [vm_compute; lia|].
  rewrite !string_length_app. change (String.length crlf) with 2%nat. lia.
Qed.

Lemma read_body_framed h body wire : framed h body wire -> read_body h wire = Ok body.
Proof.
  unfold read_body. intros [cs rest Hc Hok|b rest Hc Hl|b Hc Hl]; rewrite Hc.
  - rewrite read_chunks_text; [done..|]. rewrite string_length_app.
    pose proof (chunk_text_length cs). lia.
  - by rewrite Hl, read_exact_app.
  - by rewrite Hl.
Qed.

Definition no_headers : Headers := mkHeaders None false.

(** C29: [read_response] recovers the body of a response with any printable status line and
header lines, however the headers frame it (chunked transfer, a content length, or the end of
the stream): it returns the body when the status is 200 and an error that shows the status
and the first 500 characters otherwise. *)
Theorem response_body_read status hs body wire :
  all_chars plain status = true -> forallb header_ok hs = true ->
  framed (foldl header_line no_headers hs) body wire ->
  read_response (status +:+ crlf +:+ header_text hs +:+ wire) =
  if status_code (status +:+ crlf) =? 200 then Ok (from_utf8_lossy body)
  else Err ("llama-server HTTP " +:+ pretty (status_code (status +:+ crlf)) +:+ ": " +:+
            first_n_chars 500 (from_utf8_lossy body)).
Proof.
  intros Hs Hh Hf. unfold read_response. change (mkHeaders None false) with no_headers. rewrite read_text_line_plain by done. cbn [rbind].
  rewrite read_headers_text; [|done|].
  - cbn [rbind]. rewrite (read_body_framed _ _ _ Hf). cbn [rbind].
    by destruct (status_code (status +:+ crlf) =? 200).
  - rewrite string_length_app. pose proof (header_text_length hs). lia.
Qed.
End Framing.

Module HttpDemo.
#[local] Existing Instance HttpTests.ascii_tables.

Definition demo_headers : list string := ["Content-Type: text/plain"; "Transfer-Encoding: Chunked"].
Definition demo_chunks : list (string * bytes) := [("5", "hola,"); ("00a", " como esta")].

Lemma response_body_read_witness :
  read_response ("HTTP/1.1 200 OK" +:+ crlf +:+ header_text demo_headers +:+ (chunk_text demo_chunks +:+ crlf)) =
  Ok "hola, como esta".
Proof.
  rewrite (response_body_read "HTTP/1.1 200 OK" demo_headers (chunk_data demo_chunks)).
  - vm_compute. reflexivity.
  - vm_compute. reflexivity.
  - vm_compute. reflexivity.
  - apply framed_chunks; vm_compute; reflexivity.
Defined.
End HttpDemo.
