(* ===== verification/HostProps.v ===== *)
(** * The host: theorems

The readers of [/proc] and of [nvidia-smi] against the formats they read, and the ranges of the
percentages they report. *)

From S2P Require Import Prelude F64 F64Theory F64Exact Crypto CryptoTheory Models Config ConfigProps Decimal Text Host.
From S2P Require Import Http HttpProps HostWindows.

(** ** Numbers and lines *)

Lemma pretty_char_digit d : (d < 10)%N -> byte_val (pretty_N_char d) = ch "0" + Z.of_N d.
Proof.
  intros Hd. assert (Hall : forallb (fun y => byte_val (pretty_N_char (Z.to_N y)) =? ch "0" + y) (zrange 0 9) = true)
    by (vm_compute; reflexivity).
  rewrite forallb_forall in Hall. specialize (Hall (Z.of_N d)). rewrite N2Z.id in Hall.
  apply Z.eqb_eq, Hall, list_elem_of_In, elem_of_zrange. lia.
Qed.

Lemma digits_val_go x s : digits_val 0 (pretty_N_go x s) = digits_val (Z.of_N x) s.
Proof.
  revert s. induction (N.lt_wf_0 x) as [x _ IH]. intros s. destruct (decide (0 < x)%N) as [Hx|Hx].
  - rewrite pretty_N_go_step, IH by (try apply N.div_lt; done). cbn [digits_val]. f_equal.
    rewrite pretty_char_digit by (by apply N.mod_lt). rewrite (N.div_mod x 10) at 3 by done. lia.
  - assert (x = 0%N) as -> by lia. by rewrite pretty_N_go_0.
Qed.

Lemma pretty_nonneg z : 0 <= z -> all_digits (pretty z) = true /\ digits_val 0 (pretty z) = z.
Proof.
  intros Hz. destruct z as [|p|p]; [done| |lia].
  change (pretty (Z.pos p)) with (pretty (N.pos p)). split; [apply pretty_N_digits|].
  unfold pretty, pretty_N. destruct (decide _); [done|]. by rewrite digits_val_go.
Qed.

Lemma digits_first s : s <> "" -> all_digits s = true -> exists a t, s = String a t /\ Ascii.eqb a "+" = false.
Proof.
  destruct s as [|a t]; [done|]. cbn. intros _ [Ha _]%andb_true_iff. exists a, t. split; [done|].
  apply Ascii.eqb_neq. by intros ->.
Qed.

Lemma parse_pretty z : 0 <= z <= u64_max -> parse_u64 (pretty z) = Some z.
Proof.
  intros [H0 H1]. destruct (pretty_nonneg z H0) as [Hd Hv]. unfold parse_u64, parse_uint.
  destruct (digits_first (pretty z) (pretty_Z_nonempty z) Hd) as (a & t & E & Ha). rewrite E in *.
  rewrite Ha, Hd, Hv. cbn [String.eqb negb andb]. by rewrite (proj2 (Z.leb_le _ _)).
Qed.

Lemma digits_plain s : all_digits s = true -> all_chars plain s = true.
Proof.
  induction s as [|a s IH]; cbn; [done|]. intros [Ha Hs]%andb_true_iff. rewrite IH by done.
  rewrite andb_true_r. revert Ha. by destruct a as [[] [] [] [] [] [] [] []].
Qed.

Lemma digits_not_white s : all_digits s = true -> all_chars (fun a => negb (is_whitespace (byte_val a))) s = true.
Proof.
  induction s as [|a s IH]; cbn; [done|]. intros [Ha Hs]%andb_true_iff. rewrite IH by done.
  rewrite andb_true_r. revert Ha. by destruct a as [[] [] [] [] [] [] [] []].
Qed.

Lemma strip_cr_line s : all_chars plain s = true -> strip_cr s = s.
Proof.
  induction s as [|a s IH]; [done|]. cbn [all_chars]. intros [Ha Hs]%andb_true_iff.
  destruct s as [|b s]; [|change (String a (strip_cr (String b s)) = String a (String b s)); by rewrite IH].
  cbn. destruct (Ascii.eqb_spec a carriage_return) as [->|]; done.
Qed.

Lemma split_on_app c l r : no_char c l = true -> split_on c (l +:+ String c r) = l :: split_on c r.
Proof.
  unfold no_char. induction l as [|a l IH]; autorewrite with exodus_rw; cbn.
  - by rewrite Ascii.eqb_refl.
  - intros [Ha%negb_true_iff Hl]%andb_true_iff. by rewrite Ha, IH.
Qed.

(** The lines of a text whose first line is plain. *)
Lemma str_lines_cons l r :
  all_chars plain l = true -> str_lines (l +:+ String newline r) = l :: str_lines r.
Proof.
  intros Hl. unfold str_lines. rewrite split_on_app by by apply plain_no_newline.
  destruct (split_on newline r) as [|p ps] eqn:E; [by apply split_on_nonempty in E|].
  cbn [lines_of]. by rewrite strip_cr_line.
Qed.

(** ** The counters of the processor *)

(** The counters of the first line of [/proc/stat]. *)
Fixpoint counters_text (cs : list Z) : string :=
  match cs with [] => "" | c :: cs' => " " +:+ pretty c +:+ counters_text cs' end.
Definition stat_text (cs : list Z) (rest : string) : string :=
  "cpu " +:+ counters_text cs +:+ String newline rest.

Definition total_jiffies (cs : list Z) : Z := foldr Z.add 0 cs.
(** The fourth and the fifth counter: idle and waiting for input. *)
Fixpoint idle_from (i : nat) (cs : list Z) : Z :=
  match cs with
  | [] => 0
  | c :: cs' => (if (i =? 3)%nat || (i =? 4)%nat then c else 0) + idle_from (S i) cs'
  end.
Definition idle_jiffies (cs : list Z) : Z := idle_from 0 cs.

Lemma counters_plain cs : Forall (Z.le 0) cs -> all_chars plain (counters_text cs) = true.
Proof.
  induction 1 as [|c cs Hc _ IH]; [done|]. cbn [counters_text]. rewrite !all_chars_app, IH.
  by rewrite (digits_plain _ (proj1 (pretty_nonneg c Hc))).
Qed.

Lemma words_of_word w cur l :
  forallb (fun c => negb (is_whitespace c)) w = true -> words_of cur (w ++ l) = words_of (rev w ++ cur) l.
Proof.
  revert cur. induction w as [|c w IH]; intros cur; [done|]. cbn [forallb app words_of rev].
  intros [Hc%negb_true_iff Hw]%andb_true_iff. rewrite Hc, IH by done. by rewrite <- app_assoc.
Qed.

Lemma not_white_vals s :
  all_chars (fun a => negb (is_whitespace (byte_val a))) s = true ->
  forallb (fun c => negb (is_whitespace c)) (byte_vals s) = true.
Proof. induction s as [|a s IH]; cbn; [done|]. intros [-> Hs]%andb_true_iff. by rewrite IH. Qed.

(** The words after a word [w] that has been read. *)
Lemma counters_words cs w :
  Forall (Z.le 0) cs -> w <> [] ->
  words_of (rev w) (byte_vals (counters_text cs)) = w :: map (fun c => byte_vals (pretty c)) cs.
Proof.
  intros Hcs. revert w. induction Hcs as [|c cs Hc _ IH]; intros w Hw; cbn [counters_text].
  - cbn. destruct (rev w) eqn:E; [|by rewrite <- E, rev_involutive]. by apply (f_equal (@rev Z)) in E; rewrite rev_involutive in E.
  - rewrite !byte_vals_app. change (byte_vals " ") with [32]. cbn [app words_of is_whitespace].
    change (is_whitespace 32) with true. cbv iota.
    destruct (rev w) as [|x y] eqn:E; [by apply (f_equal (@rev Z)) in E; rewrite rev_involutive in E|].
    rewrite <- E, rev_involutive. cbn [map]. f_equal.
    destruct (pretty_nonneg c Hc) as [Hd _].
    rewrite words_of_word by (by apply not_white_vals, digits_not_white). rewrite app_nil_r. apply IH.
    pose proof (pretty_Z_nonempty c). by destruct (pretty c).
Qed.

Lemma stat_words cs :
  Forall (Z.le 0) cs -> split_whitespace ("cpu " +:+ counters_text cs) = "cpu" :: map pretty cs.
Proof.
  intros Hcs. unfold split_whitespace. rewrite chars_ascii by (apply plain_ascii; rewrite all_chars_app, counters_plain; done).
  rewrite byte_vals_app. change (byte_vals "cpu ") with ([99; 112; 117] ++ [32]). rewrite <- app_assoc.
  rewrite words_of_word by done. rewrite app_nil_r. destruct Hcs as [|c cs Hc Hcs]; [done|].
  cbn [counters_text app]. rewrite !byte_vals_app. change (byte_vals " ") with [32].
  change (words_of (rev [99; 112; 117]) (32 :: [32] ++ byte_vals (pretty c) ++ byte_vals (counters_text cs)))
    with ([99; 112; 117] :: words_of [] (byte_vals (pretty c) ++ byte_vals (counters_text cs))).
  destruct (pretty_nonneg c Hc) as [Hd _].
  rewrite words_of_word by (by apply not_white_vals, digits_not_white). rewrite app_nil_r, counters_words; [|done|].
  2:{ pose proof (pretty_Z_nonempty c). by destruct (pretty c). }
  cbn [map]. rewrite !fmap_cons. f_equal. rewrite utf8_encode_ascii by (by apply plain_ascii, digits_plain). f_equal.
  clear -Hcs. induction Hcs as [|c cs Hc _ IH]; [done|]. cbn [map]. rewrite fmap_cons, IH.
  by rewrite utf8_encode_ascii by (by apply plain_ascii, digits_plain, pretty_nonneg).
Qed.

Lemma total_nonneg cs : Forall (Z.le 0) cs -> 0 <= total_jiffies cs.
Proof. induction 1; cbn; [done|]. unfold total_jiffies in *. lia. Qed.

Lemma sum_jiffies_spec cs i total idle :
  Forall (Z.le 0) cs -> 0 <= idle <= total -> total + total_jiffies cs <= u64_max ->
  sum_jiffies i total idle (map pretty cs) = Some (total + total_jiffies cs, idle + idle_from i cs).
Proof.
  intros Hcs. revert i total idle. induction Hcs as [|c cs Hc Hcs IH]; intros i total idle Hi Ht.
  - cbn. by rewrite !Z.add_0_r.
  - pose proof (total_nonneg cs Hcs). cbn [map sum_jiffies total_jiffies foldr idle_from] in *. fold (total_jiffies cs) in *.
    rewrite parse_pretty by (unfold u64_max in *; lia).
    unfold wrap_u64. rewrite !Z.mod_small by (unfold u64_max in *; lia).
    rewrite IH; [|destruct ((i =? 3)%nat || (i =? 4)%nat); lia|lia].
    f_equal. f_equal; [lia|]. destruct ((i =? 3)%nat || (i =? 4)%nat); lia.
Qed.

Lemma jiffies_read `{HostOs} cs rest :
  read_to_string "/proc/stat" = Some (stat_text cs rest) -> Forall (Z.le 0) cs -> total_jiffies cs <= u64_max ->
  read_cpu_jiffies = Some (total_jiffies cs, idle_jiffies cs).
Proof.
  intros Hr Hcs Ht. unfold read_cpu_jiffies. rewrite Hr. unfold stat_text. rewrite <- string_app_assoc.
  rewrite str_lines_cons by (rewrite all_chars_app, counters_plain; done).
  rewrite stat_words by done. rewrite skipn_cons, skipn_O. by rewrite sum_jiffies_spec.
Qed.

(** ** The usage is a percentage *)

Lemma usage_range total idle total' idle' :
  idle <= idle' -> idle' - idle <= total' - total -> total' - total < 2 ^ 53 ->
  f64_ge (usage_between (total, idle) (total', idle')) f64_0 = true /\
  f64_le (usage_between (total, idle) (total', idle')) (f64_of_Z 100) = true.
Proof.
  intros Hi Ht Hb. unfold usage_between.
  destruct (Z.leb_spec total total'), (Z.leb_spec idle idle'); cbn [andb]; [|by vm_compute..].
  destruct (Z.eqb_spec (total' - total) 0); [by vm_compute|].
  unfold wrap_u64. rewrite Z.mod_small by lia. apply percentage_range; lia.
Qed.

Lemma idle_le_total i cs : Forall (Z.le 0) cs -> 0 <= idle_from i cs <= total_jiffies cs.
Proof.
  intros Hcs. revert i. induction Hcs as [|c cs Hc Hcs IH]; intros i; cbn; [done|].
  fold (total_jiffies cs). specialize (IH (S i)). destruct ((i =? 3)%nat || (i =? 4)%nat); lia.
Qed.

(** Counters that grow: the idle ones grow at most as much as all together. *)
Lemma growth i cs cs' :
  Forall2 Z.le cs cs' -> total_jiffies cs <= total_jiffies cs' /\ idle_from i cs <= idle_from i cs' /\
  idle_from i cs' - idle_from i cs <= total_jiffies cs' - total_jiffies cs.
Proof.
  intros Hg. revert i. induction Hg as [|c c' cs cs' Hc _ IH]; intros i; cbn; [lia|].
  fold (total_jiffies cs) (total_jiffies cs'). specialize (IH (S i)).
  destruct ((i =? 3)%nat || (i =? 4)%nat); lia.
Qed.

(** C36: the CPU usage is a percentage: between any two readings of [/proc/stat] whose counters have
only grown, whatever their number, the sampler reports a number from 0 to 100, the rounding of
the division and of the product included; and the reading is that of the counters: their sum, and
the sum of the fourth and the fifth. *)
Theorem cpu_percent_in_range (os os' : HostOs) cs cs' rest rest' s :
  @read_to_string os "/proc/stat" = Some (stat_text cs rest) ->
  @read_to_string os' "/proc/stat" = Some (stat_text cs' rest') ->
  Forall (Z.le 0) cs -> Forall2 Z.le cs cs' -> total_jiffies cs' < 2 ^ 53 ->
  let '(_, s1) := @percent os s in
  let '(p, s2) := @percent os' s1 in
  s1 = Some (total_jiffies cs, idle_jiffies cs) /\ s2 = Some (total_jiffies cs', idle_jiffies cs') /\
  f64_ge p f64_0 = true /\ f64_le p (f64_of_Z 100) = true.
Proof.
  intros Hr Hr' Hcs Hg Ht. destruct (growth 0 _ _ Hg) as (Ht1 & Hi1 & Hd).
  assert (Hcs' : Forall (Z.le 0) cs').
  { clear -Hcs Hg. induction Hg; inversion Hcs; subst; constructor; [lia|auto]. }
  unfold percent. rewrite (@jiffies_read os cs rest), (@jiffies_read os' cs' rest') by (unfold u64_max; done || lia).
  cbn [sample]. split; [done|]. split; [done|]. unfold idle_jiffies. apply usage_range; try lia.
  pose proof (total_nonneg cs Hcs). lia.
Qed.

(** ** Windows *)

Lemma as_u64_spec low high : 0 <= low < 2 ^ 32 -> 0 <= high -> as_u64 (mkFileTime low high) = high * 2 ^ 32 + low.
Proof.
  intros Hl Hh. unfold as_u64. cbn [ft_high ft_low]. rewrite Z.shiftl_mul_pow2 by lia.
  symmetry. apply Z.add_nocarry_lor. apply Z.bits_inj'. intros n Hn. rewrite Z.land_spec, Z.bits_0.
  destruct (Z.lt_ge_cases n 32).
  - by rewrite Z.mul_pow2_bits_low.
  - rewrite andb_comm, Z.bits_above_log2; [done|lia|]. destruct (Z.eq_dec low 0) as [->|]; [cbn; lia|].
    apply Z.lt_le_trans with 32; [apply Z.log2_lt_pow2; lia|lia].
Qed.

(** The memory the report names: a part of the total, and its share a percentage. *)
Definition memory_sound (stats : Z * option Z) (report : Value) : Prop :=
  json_get "total_mb" report = Some (json_int stats.1) /\
  match stats.2 with
  | None => json_get "used_mb" report = Some VNull /\ json_get "percent" report = Some VNull
  | Some u =>
      0 <= u <= stats.1 /\ json_get "used_mb" report = Some (json_int u) /\
      exists x, json_get "percent" report = Some (json_f64 x) /\ f64_ge x f64_0 = true /\
        f64_le x (f64_of_Z 100) = true
  end.

Lemma memory_report_sound rss total used :
  0 <= total < 2 ^ 53 -> (forall u, used = Some u -> 0 <= u <= total) ->
  memory_sound (total, used) (memory_report rss (total, used)).
Proof.
  intros Ht Hu. split; [done|]. cbn [fst snd]. destruct used as [u|]; [|done].
  specialize (Hu u eq_refl). split; [done|]. split; [done|]. eexists. split; [reflexivity|].
  destruct (Z.ltb_spec 0 total); [apply percentage_range; lia|by vm_compute].
Qed.

Lemma meminfo_range `{HostOs} key z : meminfo_kb key = Some z -> 0 <= z <= u64_max.
Proof.
  unfold meminfo_kb. destruct (read_to_string _) as [t|]; [|done]. generalize (str_lines t).
  intros ls. induction ls as [|l ls IH]; cbn [meminfo_line]; [done|].
  destruct (strip_prefix key l); [apply parse_uint_range|done].
Qed.

(** the memory report is consistent on every system, whatever the files of [/proc] or the calls of
Windows say: the memory in use is part of the total and its share is a number from 0 to 100; where
nothing is known the fields are null.  (The total is assumed below [2^53] megabytes.) *)
Theorem memory_report_consistent `{HostOs} `{Kernel32} p :
  (forall ms, let ms' := (GlobalMemoryStatusEx ms).2 in
     0 <= ull_total_phys ms' /\ 0 <= ull_avail_phys ms') ->
  (mem_stats_on p).1 < 2 ^ 53 -> memory_sound (mem_stats_on p) (memory_on p).
Proof.
  intros Hwin Hb. unfold memory_on. destruct (mem_stats_on p) as [total used] eqn:E.
  apply memory_report_sound; cbn [fst] in Hb.
  - split; [|done]. destruct p; cbn in E.
    + unfold mem_stats in E. injection E as <- _. destruct (meminfo_kb "MemTotal") eqn:Em; cbn; [|done].
      apply meminfo_range in Em. apply Z.div_pos; lia.
    + unfold Win.win_mem_stats, Win.win_memory_mb in E. specialize (Hwin (mkMemoryStatusEx size_of_memory_status 0 0 0 0 0 0 0 0)).
      destruct (GlobalMemoryStatusEx _) as [ok ms]. cbn in Hwin. destruct (ok =? 0); injection E as <- _; [done|].
      repeat apply Z.div_pos; lia.
    + by injection E as <- _.
  - intros u ->. destruct p; cbn in E.
    + unfold mem_stats in E. injection E as <- Eu. destruct (meminfo_kb "MemAvailable") as [a|] eqn:Ea; [|done].
      apply meminfo_range in Ea. injection Eu as <-. cbn in Hb. split; [lia|].
      assert (0 <= a / 1024) by (apply Z.div_pos; lia).
      assert (0 <= default 0 (meminfo_kb "MemTotal") / 1024); [|lia].
      apply Z.div_pos; [|lia]. destruct (meminfo_kb "MemTotal") eqn:Em; cbn; [apply meminfo_range in Em; lia|done].
    + unfold Win.win_mem_stats, Win.win_memory_mb in E. specialize (Hwin (mkMemoryStatusEx size_of_memory_status 0 0 0 0 0 0 0 0)).
      destruct (GlobalMemoryStatusEx _) as [ok ms]. cbn in Hwin. destruct (ok =? 0); [done|]. injection E as <- <-.
      assert (0 <= ull_avail_phys ms / 1024 / 1024) by (repeat apply Z.div_pos; lia).
      assert (0 <= ull_total_phys ms / 1024 / 1024) by (repeat apply Z.div_pos; lia). lia.
    + done.
Qed.

(** ** The memory table *)

(** A line of [/proc/meminfo]. *)
Definition meminfo_entry (name : string) (pad : string) (kb : Z) : string :=
  name +:+ ":" +:+ pad +:+ pretty kb +:+ " kB".

Lemma trim_space s : trim (String " " s) = trim s.
Proof. reflexivity. Qed.

Fixpoint spaces (n : nat) : string := match n with O => "" | S n' => String " " (spaces n') end.

Lemma trim_spaces n s : trim (spaces n +:+ s) = trim s.
Proof. induction n as [|n IH]; autorewrite with exodus_rw; [done|]. cbn [spaces]. autorewrite with exodus_rw. by rewrite trim_space. Qed.

Lemma skip_not_white l : forallb (fun c => negb (is_whitespace c)) (take 1 l) = true -> skip_whitespace l = l.
Proof. destruct l as [|c l]; [done|]. cbn. by destruct (is_whitespace c). Qed.

(** Text that neither begins nor ends with white space. *)
Lemma trim_tight a mid b :
  all_ascii (a +:+ mid +:+ b) = true -> a <> "" -> b <> "" ->
  all_chars (fun c => negb (is_whitespace (byte_val c))) a = true ->
  all_chars (fun c => negb (is_whitespace (byte_val c))) b = true ->
  trim (a +:+ mid +:+ b) = a +:+ mid +:+ b.
Proof.
  intros Hs Ha Hb Hwa Hwb. unfold trim. rewrite chars_ascii by done.
  enough (trim_chars (byte_vals (a +:+ mid +:+ b)) = byte_vals (a +:+ mid +:+ b)) as -> by by apply utf8_encode_ascii.
  unfold trim_chars. apply not_white_vals in Hwa, Hwb. rewrite !byte_vals_app.
  destruct (byte_vals a) as [|x va] eqn:Ea; [by destruct a|].
  rewrite (skip_not_white ((x :: va) ++ _)) by (cbn in *; by apply andb_true_iff in Hwa as [-> _]).
  destruct (byte_vals b) as [|y vb] eqn:Eb; [by destruct b|].
  rewrite (skip_not_white (rev _)); [by rewrite rev_involutive|].
  rewrite app_assoc, rev_app_distr.
  assert (Hr : forallb (fun c => negb (is_whitespace c)) (rev (y :: vb)) = true).
  { rewrite forallb_forall in *. intros c Hc%in_rev. by apply Hwb. }
  destruct (rev (y :: vb)) as [|z r] eqn:Er; [by apply (f_equal (@length Z)) in Er; rewrite length_rev in Er|].
  cbn in *. by apply andb_true_iff in Hr as [-> _].
Qed.

Lemma meminfo_value kb pad :
  0 <= kb <= u64_max ->
  parse_u64 (default "" (split_on " " (trim (trim_start_char ":" (trim (":" +:+ spaces pad +:+ pretty kb +:+ " kB")))) !! 0%nat)) = Some kb.
Proof.
  intros Hkb. destruct (pretty_nonneg kb ltac:(lia)) as [Hd _]. pose proof (digits_plain _ Hd) as Hp.
  assert (Hsp : all_chars plain (spaces pad) = true) by (induction pad; done).
  assert (Htight : forall pre, all_chars plain pre = true -> pre <> "" ->
     all_chars (fun c => negb (is_whitespace (byte_val c))) pre = true ->
     forall mid, all_chars plain mid = true -> trim (pre +:+ mid +:+ "kB") = pre +:+ mid +:+ "kB").
  { intros pre H1 H2 H3 mid H4. apply trim_tight; try done. apply plain_ascii. by rewrite !all_chars_app, H1, H4. }
  replace (":" +:+ spaces pad +:+ pretty kb +:+ " kB") with (":" +:+ (spaces pad +:+ pretty kb +:+ " ") +:+ "kB")
    by by rewrite !string_app_assoc.
  rewrite Htight; [|done..|by rewrite !all_chars_app, Hsp, Hp].
  assert (Hts : trim_start_char ":" (":" +:+ (spaces pad +:+ pretty kb +:+ " ") +:+ "kB") =
    spaces pad +:+ pretty kb +:+ " " +:+ "kB").
  { autorewrite with exodus_rw. cbn [trim_start_char]. rewrite Ascii.eqb_refl. destruct pad as [|pad]; cbn [spaces].
    - autorewrite with exodus_rw. destruct (pretty kb) as [|d t] eqn:E; [by apply pretty_Z_nonempty in E|].
      autorewrite with exodus_rw. cbn [trim_start_char]. destruct (Ascii.eqb_spec d ":") as [->|]; [by cbn in Hd|by rewrite ?string_app_assoc].
    - autorewrite with exodus_rw. by rewrite ?string_app_assoc. }
  rewrite Hts, trim_spaces, (Htight (pretty kb) Hp (pretty_Z_nonempty kb) (digits_not_white _ Hd) " " eq_refl).
  change (" " +:+ "kB") with (String " " "kB"). rewrite split_on_app by (by apply digits_no_char).
  cbn [lookup list_lookup default]. by apply parse_pretty.
Qed.

(** The value of a key is read off the first line that begins with it. *)
Lemma meminfo_read key pad kb pre post :
  Forall (fun l => strip_prefix key l = None) pre -> 0 <= kb <= u64_max ->
  meminfo_line key (pre ++ meminfo_entry key (spaces pad) kb :: post) = Some kb.
Proof.
  intros Hpre Hkb. induction Hpre as [|l pre Hl _ IH]; cbn [app meminfo_line].
  - unfold meminfo_entry. rewrite strip_prefix_app. by apply meminfo_value.
  - by rewrite Hl.
Qed.

(** ** The devices of [nvidia-smi] *)

(** A name or a version as it appears between the commas. *)
Definition csv_text (s : string) : bool :=
  negb (String.eqb s "") && all_chars plain s && no_char "," s && String.eqb (trim s) s.

Definition smi_line (driver : string) (d : GpuDevice) : string :=
  gd_name d +:+ ", " +:+ pretty (gd_memory_total_mb d) +:+ ", " +:+ driver.
Fixpoint smi_text (driver : string) (ds : list GpuDevice) : string :=
  match ds with [] => "" | d :: ds' => smi_line driver d +:+ String newline (smi_text driver ds') end.

Definition device_ok (d : GpuDevice) : Prop :=
  csv_text (gd_name d) = true /\ 0 <= gd_memory_total_mb d <= u64_max.

Lemma csv_text_facts s :
  csv_text s = true -> s <> "" /\ all_chars plain s = true /\ no_char "," s = true /\ trim s = s.
Proof.
  unfold csv_text. intros Hs. bool_prop. split_and!; [|done|done|done]. by intros ->.
Qed.

Lemma smi_line_plain driver d : csv_text driver = true -> device_ok d -> all_chars plain (smi_line driver d) = true.
Proof.
  intros (_ & Hd & _)%csv_text_facts [(_ & Hn & _)%csv_text_facts Hm]. unfold smi_line. rewrite !all_chars_app.
  by rewrite Hn, Hd, (digits_plain _ (proj1 (pretty_nonneg _ (proj1 Hm)))).
Qed.

Lemma smi_line_read driver d info :
  csv_text driver = true -> device_ok d ->
  detect_line info (smi_line driver d) =
  mkGpuInfo (gpu_available info) (match gpu_driver info with None => Some driver | Some x => Some x end) (gpu_devices info ++ [d]).
Proof.
  intros (Hd0 & Hd1 & Hd2 & Hd3)%csv_text_facts [(Hn0 & Hn1 & Hn2 & Hn3)%csv_text_facts Hm].
  destruct (pretty_nonneg _ (proj1 Hm)) as [Hdig _].
  assert (Hsplit : split_on "," (smi_line driver d) = [gd_name d; String " " (pretty (gd_memory_total_mb d)); String " " driver]).
  { unfold smi_line. change (", " +:+ pretty (gd_memory_total_mb d) +:+ ", " +:+ driver) with
      (String "," ((String " " (pretty (gd_memory_total_mb d))) +:+ String "," (String " " driver))).
    rewrite split_on_app by done. f_equal. rewrite split_on_app.
    - f_equal. apply split_on_none. done.
    - change (no_char "," (String " " (pretty (gd_memory_total_mb d)))) with (no_char "," (pretty (gd_memory_total_mb d))). by apply digits_no_char. }
  unfold detect_line, csv_field. rewrite Hsplit. cbn [lookup list_lookup from_option]. unfold id. rewrite !trim_space, Hn3, Hd3.
  rewrite (trim_no_whitespace (pretty _)) by (by apply digits_plain || by apply digits_not_white).
  rewrite parse_pretty by done. rewrite (proj2 (String.eqb_neq _ _) Hn0). cbn [default]. f_equal.
  - rewrite (proj2 (String.eqb_neq _ _) Hd0). done.
  - by destruct d.
Qed.

(** what [nvidia-smi] lists is what the node reports: for a list of devices with their memory and a
driver version, printed in the CSV format the program asks for, the detection finds exactly these
devices in this order, the driver, and an available GPU, whatever the number of layers asked for. *)
Theorem gpu_report_read `{HostOs} `{ProcessEnv} driver ds layers :
  nvidia_smi ["--query-gpu=name,memory.total,driver_version"; "--format=csv,noheader,nounits"] = Some (smi_text driver ds) ->
  csv_text driver = true -> Forall device_ok ds -> ds <> [] ->
  detect layers = mkGpuInfo true (Some driver) ds /\ gpu_tier (detect layers) = GpuNvidia.
Proof.
  intros Hs Hd Hds Hne.
  assert (Hfold : forall info, foldl detect_line info (str_lines (smi_text driver ds)) =
    mkGpuInfo (gpu_available info) (match ds with [] => gpu_driver info | _ => match gpu_driver info with None => Some driver | Some x => Some x end end)
      (gpu_devices info ++ ds)).
  { clear Hne Hs. induction Hds as [|d ds Hok Hds IH]; intros info.
    - cbn. rewrite app_nil_r. by destruct info.
    - cbn [smi_text]. rewrite str_lines_cons by by apply smi_line_plain. cbn [foldl].
      rewrite smi_line_read, IH by done. cbn [gpu_available gpu_driver gpu_devices]. rewrite <- app_assoc. f_equal.
      by destruct ds, (gpu_driver info). }
  assert (E : detect layers = mkGpuInfo true (Some driver) ds).
  { unfold detect, detect_nvidia_smi. rewrite Hs, Hfold. cbn [gpu_available gpu_driver gpu_devices default_gpu app].
    by destruct ds. }
  by rewrite E.
Qed.

(** ** A concrete host *)

Module HostDemo.
(** What [nvidia-smi] prints, [/proc/stat] and the other files of a host. *)
Definition host (smi : option string) (files : list (string * string)) : HostOs := {|
  nvidia_smi _ := smi;
  read_to_string f := snd <$> find_first (fun p => String.eqb p.1 f) files;
  path_exists _ := false;
  path_is_file _ := false;
  available_parallelism := Some 4;
|}.
Definition no_env : ProcessEnv := {| env_var _ := None; f64_to_string _ := "" |}.
#[local] Existing Instance no_env.

Definition before : list Z := [100; 0; 50; 800; 50; 0; 0].
Definition after : list Z := [160; 0; 70; 815; 55; 0; 0].

Lemma cpu_percent_in_range_witness :
  let os cs := host None [("/proc/stat", stat_text cs "cpu0 1 2 3")] in
  let '(_, s1) := @percent (os before) new_sampler in
  let '(p, _) := @percent (os after) s1 in
  p = f64_of_Z 80 /\ f64_le p (f64_of_Z 100) = true.
Proof.
  cbv zeta.
  pose proof (cpu_percent_in_range (host None [("/proc/stat", stat_text before "cpu0 1 2 3")])
    (host None [("/proc/stat", stat_text after "cpu0 1 2 3")]) before after "cpu0 1 2 3" "cpu0 1 2 3" new_sampler
    eq_refl eq_refl ltac:(repeat constructor; lia) ltac:(repeat constructor; lia) ltac:(vm_compute; reflexivity)) as Hp.
  destruct (percent new_sampler) as [p0 s1] eqn:E1. destruct (percent s1) as [p s2] eqn:E2.
  destruct Hp as (Es & _ & _ & Hle). split; [|exact Hle]. subst s1. vm_compute in E2. injection E2 as <- _. reflexivity.
Defined.

(** A machine of 64 GB of which 16 GB are available. *)
Definition windows : Kernel32 := {|
  GlobalMemoryStatusEx ms := (1, mkMemoryStatusEx (dw_length ms) 75 (65536 * 2 ^ 20) (16384 * 2 ^ 20) 0 0 0 0 0);
  GetSystemTimes _ := (1, (mkFileTime 5 1, mkFileTime 7 1, mkFileTime 9 0));
  K32GetProcessMemoryInfo c _ := (0, c);
|}.
#[local] Existing Instance windows.

Lemma memory_report_consistent_witness :
  let os := host None [] in
  mem_stats_on OnWindows = (65536, Some 49152) /\ json_get "percent" (memory_on OnWindows) = Some (json_f64 (f64_of_Z 75)) /\
  memory_sound (mem_stats_on OnWindows) (memory_on OnWindows).
Proof.
  split; [vm_compute; reflexivity|]. split; [vm_compute; reflexivity|].
  apply (memory_report_consistent OnWindows).
  - intros ms. vm_compute. split; discriminate.
  - vm_compute. reflexivity.
Defined.

Definition device : GpuDevice := mkGpuDevice "NVIDIA GeForce RTX 3090" 24576.

Lemma gpu_report_read_witness :
  let os := host (Some (smi_text "550.54.14" [device; device])) [] in
  @detect os _ None = mkGpuInfo true (Some "550.54.14") [device; device].
Proof.
  cbv zeta. apply (@gpu_report_read (host (Some (smi_text "550.54.14" [device; device])) []) no_env
    "550.54.14" [device; device] None eq_refl).
  - vm_compute. reflexivity.
  - repeat constructor; vm_compute; congruence.
  - discriminate.
Defined.

(** ** Deviations *)

(** The exit status of [nvidia-smi] is not looked at: its message of failure is a device. *)
Theorem smi_failure_is_device :
  let os := host (Some ("NVIDIA-SMI has failed because it couldn't communicate with the NVIDIA driver." +:+ String newline "")) [] in
  gpu_available (@detect os _ None) = true /\
  gpu_devices (@detect os _ None) =
    [mkGpuDevice "NVIDIA-SMI has failed because it couldn't communicate with the NVIDIA driver." 0].
Proof. vm_compute. split; reflexivity. Qed.

(** The resident size of the process is divided by 1024 once more after it is in megabytes: a process of
2 GB is reported with [process_rss_mb] 2. *)
Theorem process_rss_in_gigabytes :
  let os := host None [("/proc/self/statm", "600000 524288 3000 1 0 1 0")] in
  @process_rss_mb os = 2048 /\ json_get "process_rss_mb" (@memory os) = Some (json_int 2).
Proof. vm_compute. split; reflexivity. Qed.

(** When a counter other than the idle ones has shrunk, the idle time may have grown more than the total:
the subtraction wraps around, and the usage is far above one hundred percent. *)
Theorem cpu_usage_underflows :
  let shrunk := [60; 0; 50; 850; 50; 0; 0] in
  f64_gt (usage_between (total_jiffies before, idle_jiffies before) (total_jiffies shrunk, idle_jiffies shrunk))
    (f64_of_Z 1000000) = true.
Proof. vm_compute. reflexivity. Qed.
End HostDemo.
