(* ===== verification/LlamaServer.v ===== *)
(** * The long-lived inference server ([src/llama_server.rs])

[LlamaServer] keeps one [llama-server] process and restarts it for another model.  A call of
[ensure_ready] sees its environment (files, HTTP exchanges, the free port, the reports of the
child) through the record [Observed]; its effects on processes are the actions it returns. *)

From S2P Require Import Prelude F64 Crypto Models Config Text Host Inference Http.

(** [serde_json::from_str] (with its error text) and [Value::to_string]. *)
Class JsonText := {
  json_parse : string -> result Value string;
  json_print : Value -> string;
}.

Record ServerState := mkServerState {
  sv_child : option Z;
  sv_model : option string;
  sv_port : Z;
  sv_log_path : string;
}.

Record LlamaServer := mkLlamaServer {
  ls_bin : string;
  ls_host : string;
  ls_port : Z;
  ls_parallel : Z;
  ls_layers : Z;
}.

Definition new_server (bin host : string) (port parallel layers : Z) : LlamaServer * ServerState :=
  (mkLlamaServer bin host port (Z.max parallel 1) layers, mkServerState None None port "").

(** What happens to processes: a start with the model and port of its command line, a kill, and
the exit of a child noticed by [try_wait]. *)
Inductive Action :=
| Start (pid : Z) (cmd : CommandLine) (model : string) (port : Z)
| Kill (pid : Z)
| Reaped (pid : Z).

(** The bytes a server sent before closing, or the error of the connection. *)
Abbreviation Exchange := (result bytes string) (only parsing).

Record ReadyPoll := mkReadyPoll {
  rp_exit : option string;   (** the status when the child has exited *)
  rp_health : Exchange;      (** [GET /health] on the new port *)
  rp_late : bool;            (** the deadline of 120 s has passed *)
}.

Record Observed := mkObserved {
  ob_model_is_file : bool;
  ob_binary_exists : bool;
  ob_health_current : Exchange;      (** [GET /health] on the recorded port *)
  ob_health_configured : Exchange;   (** [GET /health] on the configured port *)
  ob_models : Exchange;              (** [GET /v1/models] on the configured port *)
  ob_free_port : option Z;
  ob_log_path : string;
  ob_log_open : result unit string;
  ob_log_clone : result unit string;
  ob_spawn : result Z string;
  ob_ready : list ReadyPoll;
  ob_log : string;                   (** the log when it is read *)
}.

(** ** Pure parts *)

(** [Path::file_name] of a Unix path. *)
Definition file_name (path : string) : option string :=
  match last (filter (fun p => negb (String.eqb p "") && negb (String.eqb p ".") = true)
                (split_on "/" path)) with
  | Some name => if String.eqb name ".." then None else Some name
  | None => None
  end.

Definition model_matches (id model_path : string) : bool :=
  let name := default "" (file_name model_path) in
  negb (String.eqb name "") && (String.eqb id model_path || ends_with name id).

Definition truncated_mark : string :=
  utf8_char 0x2026 +:+ "(truncated)" +:+ utf8_char 0x2026.

Definition read_tail (content : string) (n : nat) : string :=
  if (length (chars content) <=? n)%nat then content
  else truncated_mark +:+ last_n_chars n content.

Definition pick_free_port (bound : option Z) : Z := default 52516 bound.

Section Server.
Context `{Unicode} `{JsonText}.

Definition http_result (e : Exchange) : result string string := rbind e read_response.

Definition health_at (e : Exchange) : bool := is_ok (http_result e).

Definition server_model (e : Exchange) : option string :=
  match http_result e with
  | Err _ => None
  | Ok resp =>
      match json_parse resp with
      | Err _ => None
      | Ok v => as_str (json_index "id" (json_at 0 (json_index "data" v)))
      end
  end.

Definition parse_chat_completion (resp : string) : result string string :=
  match json_parse resp with
  | Err e => Err ("bad completion JSON: " +:+ e +:+ ": " +:+ first_n_chars 300 resp)
  | Ok v =>
      let choice := json_at 0 (json_index "choices" v) in
      let content := default "" (as_str (json_index "content" (json_index "message" choice))) in
      let cleaned := clean content in
      if String.eqb cleaned "" then
        let finish := default "?" (as_str (json_index "finish_reason" choice)) in
        Err ("model returned an empty completion (finish_reason=" +:+ finish +:+
             "); check the chat template / context size")
      else Ok cleaned
  end.

(** ** [ensure_ready] *)

Definition kill_child (st : ServerState) : list Action :=
  match sv_child st with Some pid => [Kill pid] | None => [] end.

Definition server_command (srv : LlamaServer) (model_path : string) (port : Z) : CommandLine :=
  mkCommand (ls_bin srv)
    ["-m"; model_path; "--host"; ls_host srv; "--port"; pretty port;
     "--parallel"; pretty (ls_parallel srv); "--gpu-layers"; pretty (ls_layers srv)].

(** The readiness loop on a started child. *)
Fixpoint ready_loop (srv : LlamaServer) (model_path log : string) (pid port : Z)
  (st : ServerState) (polls : list ReadyPoll) :
  outcome (result Z string) * ServerState * list Action :=
  match polls with
  | [] => (Waiting, st, [])
  | p :: polls' =>
      match rp_exit p with
      | Some status =>
          (Done (Err (ls_bin srv +:+ " exited with " +:+ status +:+ "; llama-server log tail: " +:+
                      read_tail log 1500)),
           mkServerState None (sv_model st) (sv_port st) (sv_log_path st), [Reaped pid])
      | None =>
          if health_at (rp_health p) then
            (Done (Ok port), mkServerState (sv_child st) (Some model_path) (sv_port st) (sv_log_path st), [])
          else if rp_late p then
            (Done (Err ("llama-server did not become ready on " +:+ ls_host srv +:+ ":" +:+ pretty port +:+
                        " within 120s; llama-server log tail: " +:+ read_tail log 1500)),
             mkServerState None (sv_model st) (sv_port st) (sv_log_path st), [Kill pid])
          else ready_loop srv model_path log pid port st polls'
      end
  end.

(** Branch 3: start afresh on a free port, after the old child is gone. *)
Definition start_fresh (srv : LlamaServer) (model_path : string) (ob : Observed) (st : ServerState) :
  outcome (result Z string) * ServerState * list Action :=
  let killed := kill_child st in
  let st1 := mkServerState None None (sv_port st) (sv_log_path st) in
  let port := pick_free_port (ob_free_port ob) in
  match ob_log_open ob with
  | Err e => (Done (Err ("open server log " +:+ ob_log_path ob +:+ ": " +:+ e)), st1, killed)
  | Ok _ =>
      match ob_log_clone ob with
      | Err e => (Done (Err ("log clone: " +:+ e)), st1, killed)
      | Ok _ =>
          match ob_spawn ob with
          | Err e => (Done (Err ("failed to start " +:+ ls_bin srv +:+ ": " +:+ e)), st1, killed)
          | Ok pid =>
              let st2 := mkServerState (Some pid) None port (ob_log_path ob) in
              let '(r, st3, acts) :=
                ready_loop srv model_path (ob_log ob) pid port st2 (ob_ready ob) in
              (r, st3, killed ++ Start pid (server_command srv model_path port) model_path port :: acts)
          end
      end
  end.

Definition ensure_ready (srv : LlamaServer) (model_path : string) (ob : Observed) (st : ServerState) :
  outcome (result Z string) * ServerState * list Action :=
  if negb (ob_model_is_file ob) then
    (Done (Err ("model file not found: " +:+ model_path)), st, [])
  else if negb (ob_binary_exists ob) then
    (Done (Err ("llama-server runtime '" +:+ ls_bin srv +:+
                "' not found on PATH (set EXODUS_LLAMA_SERVER_BIN, or EXODUS_INFERENCE_BACKEND=cli for llama-cli one-shot)")),
     st, [])
  else if match sv_child st with Some _ => true | None => false end &&
          bool_decide (sv_model st = Some model_path) && health_at (ob_health_current ob)
  then (Done (Ok (sv_port st)), st, [])
  else if health_at (ob_health_configured ob) &&
          match server_model (ob_models ob) with
          | Some id => model_matches id model_path
          | None => false
          end
  then (Done (Ok (ls_port srv)),
        mkServerState None (Some model_path) (ls_port srv) (sv_log_path st), kill_child st)
  else start_fresh srv model_path ob st.

(** ** [chat] *)

Definition chat_body (messages : list ChatTurn) (max_tokens : Z) : string :=
  json_print (json_object [
    ("messages", VArray (map (fun m =>
       json_object [("role", VString (turn_role m)); ("content", VString (turn_content m))]) messages));
    ("max_tokens", json_int (Z.max max_tokens 1));
    ("temperature", json_f64 (f64_lit 6 10));
    ("stream", VBool false)]).

(** The completion request goes to the port [ensure_ready] returns; [post port request] is the
exchange. *)
Definition chat (srv : LlamaServer) (model_path : string) (messages : list ChatTurn)
  (max_tokens : Z) (ob : Observed) (post : Z -> bytes -> Exchange) (st : ServerState) :
  outcome (result string string) * ServerState * list Action :=
  let '(r, st', acts) := ensure_ready srv model_path ob st in
  match r with
  | Panics => (Panics, st', acts)
  | Waiting => (Waiting, st', acts)
  | Done (Err e) => (Done (Err e), st', acts)
  | Done (Ok port) =>
      let req := http_post_request (ls_host srv) port "/v1/chat/completions"
                   (chat_body messages max_tokens) in
      (Done (resp <-? http_result (post port req) ;; parse_chat_completion resp), st', acts)
  end.

(** [Drop] *)
Definition drop_server (st : ServerState) : ServerState * list Action :=
  (mkServerState None (sv_model st) (sv_port st) (sv_log_path st), kill_child st).

(** ** A life of the server: calls one after the other under the lock *)

Inductive server_run (srv : LlamaServer) : ServerState -> list Action -> Prop :=
| run_new port : server_run srv (mkServerState None None port "") []
| run_call st acts model ob r st' new :
    server_run srv st acts -> ensure_ready srv model ob st = (Done r, st', new) ->
    server_run srv st' (acts ++ new)
| run_drop st acts : server_run srv st acts -> server_run srv (drop_server st).1 (acts ++ (drop_server st).2).

End Server.

(** The processes that were started and are neither killed nor reaped. *)
Definition live_step (live : gset Z) (a : Action) : gset Z :=
  match a with Start pid _ _ _ => {[ pid ]} ∪ live | Kill pid | Reaped pid => live ∖ {[ pid ]} end.
Definition live (acts : list Action) : gset Z := foldl live_step ∅ acts.
