(* ===== verification/LlamaProps.v ===== *)
(** * Properties of the inference server and its HTTP client *)

From S2P Require Import Prelude F64 Crypto CryptoTheory Models Config Text Host Inference Http LlamaServer.

(** ** Processes *)

Section Processes.
Context `{Unicode} `{JsonText}.

Definition child_set (st : ServerState) : gset Z :=
  match sv_child st with Some pid => {[ pid ]} | None => ∅ end.

Lemma live_app l1 l2 : live (l1 ++ l2) = foldl live_step (live l1) l2.
Proof. unfold live. by rewrite foldl_app. Qed.

Lemma kill_child_live st : foldl live_step (child_set st) (kill_child st) = ∅.
Proof. unfold child_set, kill_child. destruct (sv_child st) as [pid|]; cbn; [set_solver|done]. Qed.

(** Every moment of a list of actions, from a set of running processes, has at most one. *)
Definition single_live (from : gset Z) (acts : list Action) : Prop :=
  forall k, (size (foldl live_step from (take k acts)) <= 1)%nat.

Lemma single_live_app from l1 l2 :
  single_live from l1 -> single_live (foldl live_step from l1) l2 -> single_live from (l1 ++ l2).
Proof.
  intros S1 S2 k. rewrite take_app, foldl_app. destruct (decide (k <= length l1)%nat).
  - replace (k - length l1)%nat with 0%nat by lia. apply S1.
  - rewrite (firstn_all2 l1) by lia. apply S2.
Qed.

Lemma child_set_single st : (size (child_set st) <= 1)%nat.
Proof. unfold child_set. destruct (sv_child st); rewrite ?size_singleton, ?size_empty; lia. Qed.

Lemma single_live_nil from : (size from <= 1)%nat -> single_live from [].
Proof. intros Hs k. by rewrite take_nil. Qed.

Lemma single_live_kill st : single_live (child_set st) (kill_child st).
Proof.
  intros k. unfold kill_child. destruct (sv_child st) as [pid|] eqn:E.
  - destruct k as [|k]; cbn; [apply child_set_single|]. rewrite take_nil. cbn.
    unfold child_set. rewrite E. replace ({[pid]} ∖ {[pid]}) with (∅ : gset Z) by set_solver.
    rewrite size_empty. lia.
  - rewrite take_nil. apply child_set_single.
Qed.

(** What one run of the readiness loop does to the processes. *)
Lemma ready_loop_live srv model log pid port st polls r st' acts :
  sv_child st = Some pid -> ready_loop srv model log pid port st polls = (r, st', acts) ->
  foldl live_step {[ pid ]} acts = child_set st' /\ single_live {[ pid ]} acts.
Proof.
  intros Hc. assert (H1 : (size ({[ pid ]} : gset Z) <= 1)%nat) by (rewrite size_singleton; lia).
  assert (Hone : forall a, live_step {[ pid ]} a = ∅ -> single_live {[ pid ]} [a]).
  { intros a Ha [|k]; cbn; [done|]. rewrite take_nil. cbn. rewrite Ha, size_empty. lia. }
  induction polls as [|p polls IH]; cbn; intros E.
  - injection E as <- <- <-. cbn. split; [unfold child_set; by rewrite Hc|by apply single_live_nil].
  - destruct (rp_exit p); [|destruct (health_at (rp_health p)); [|destruct (rp_late p)]].
    4: by apply IH.
    2: injection E as <- <- <-; cbn; split; [unfold child_set; cbn; by rewrite Hc|by apply single_live_nil].
    all: injection E as <- <- <-; cbn; split; [unfold child_set; cbn; set_solver|apply Hone; cbn; set_solver].
Qed.

Lemma ensure_ready_live srv model ob st r st' acts :
  ensure_ready srv model ob st = (r, st', acts) ->
  foldl live_step (child_set st) acts = child_set st' /\ single_live (child_set st) acts.
Proof.
  assert (Hn : single_live (child_set st) []) by apply single_live_nil, child_set_single.
  assert (Hk : forall m p l, foldl live_step (child_set st) (kill_child st) =
    child_set (mkServerState None m p l) /\ single_live (child_set st) (kill_child st)).
  { intros m p l. split; [apply kill_child_live|apply single_live_kill]. }
  unfold ensure_ready, start_fresh. cbv zeta. intros E.
  destruct (negb (ob_model_is_file ob)); [by injection E as <- <- <-|].
  destruct (negb (ob_binary_exists ob)); [by injection E as <- <- <-|].
  destruct (_ && health_at (ob_health_current ob)); [by injection E as <- <- <-|].
  destruct (health_at (ob_health_configured ob) && _); [injection E as <- <- <-; apply Hk|].
  destruct (ob_log_open ob); [|injection E as <- <- <-; apply Hk].
  destruct (ob_log_clone ob); [|injection E as <- <- <-; apply Hk].
  destruct (ob_spawn ob) as [pid|e]; [|injection E as <- <- <-; apply Hk].
  destruct (ready_loop _ _ _ _ _ _ _) as [[r3 st3] acts3] eqn:L. injection E as <- <- <-.
  eapply ready_loop_live in L as [L1 L2]; [|done].
  rewrite foldl_app, kill_child_live. cbn [foldl live_step].
  replace ({[pid]} ∪ ∅) with ({[pid]} : gset Z) by set_solver. split; [done|].
  apply single_live_app; [apply single_live_kill|]. rewrite kill_child_live.
  intros [|k]; cbn; [rewrite size_empty; lia|].
  replace ({[pid]} ∪ ∅) with ({[pid]} : gset Z) by set_solver. apply L2.
Qed.

(** C31: no inference server is leaked and no two run at once: after any sequence of calls and
drops the processes that were started and are neither killed nor reaped are exactly the
recorded child, at every moment there is at most one, and dropping leaves none. *)
Theorem server_processes_owned srv st acts :
  server_run srv st acts ->
  live acts = child_set st /\ single_live ∅ acts /\ live (acts ++ (drop_server st).2) = ∅.
Proof.
  intros Hr. assert (live acts = child_set st /\ single_live ∅ acts) as [Hl Hs].
  { induction Hr as [port|st acts model ob r st' new Hr IH E|st acts Hr IH].
    - split; [done|]. intros k. rewrite take_nil. cbn. rewrite size_empty. lia.
    - destruct IH as [IH1 IH2]. apply ensure_ready_live in E as [E1 E2].
      rewrite live_app, IH1. split; [done|]. apply single_live_app; [done|].
      change (foldl live_step ∅ acts) with (live acts). by rewrite IH1.
    - destruct IH as [IH1 IH2]. rewrite live_app, IH1. cbn [drop_server snd fst].
      rewrite kill_child_live. split; [done|]. apply single_live_app; [done|].
      change (foldl live_step ∅ acts) with (live acts). rewrite IH1. apply single_live_kill. }
  split_and!; [done..|]. rewrite live_app, Hl. cbn. apply kill_child_live.
Qed.

(** The last health check of a readiness loop that succeeds. *)
Lemma ready_loop_ok srv model log pid port st polls p st' acts :
  ready_loop srv model log pid port st polls = (Done (Ok p), st', acts) ->
  p = port /\ sv_model st' = Some model /\ sv_port st' = sv_port st /\ sv_child st' = sv_child st /\
  exists q, q ∈ polls /\ rp_exit q = None /\ health_at (rp_health q) = true.
Proof.
  induction polls as [|q polls IH]; cbn; [done|]. intros E.
  destruct (rp_exit q) eqn:Eq; [done|]. destruct (health_at (rp_health q)) eqn:Eh.
  - injection E as <- <- <-. cbn. split_and!; try done. exists q. split_and!; try done. set_solver.
  - destruct (rp_late q); [done|]. destruct (IH E) as (? & ? & ? & ? & q' & ? & ? & ?).
    split_and!; try done. exists q'. split_and!; try done. set_solver.
Qed.

(** a successful [ensure_ready] leaves the requested model and the returned port on record,
and the port has just answered a health check: the recorded child's port with the same model,
the configured port of a server that names the model, or the port of the new child. *)
Theorem ensure_ready_serves srv model ob st port st' acts :
  ensure_ready srv model ob st = (Done (Ok port), st', acts) ->
  sv_model st' = Some model /\ sv_port st' = port /\
  ((st' = st /\ acts = [] /\ health_at (ob_health_current ob) = true) \/
   (port = ls_port srv /\ sv_child st' = None /\ health_at (ob_health_configured ob) = true /\
    exists id, server_model (ob_models ob) = Some id /\ model_matches id model = true) \/
   (exists pid q, sv_child st' = Some pid /\
      Start pid (server_command srv model port) model port ∈ acts /\
      q ∈ ob_ready ob /\ rp_exit q = None /\ health_at (rp_health q) = true)).
Proof.
  unfold ensure_ready, start_fresh. cbv zeta. intros E.
  destruct (negb (ob_model_is_file ob)); [done|].
  destruct (negb (ob_binary_exists ob)); [done|].
  destruct (_ && health_at (ob_health_current ob)) eqn:E1.
  { injection E as <- <- <-. bool_prop. split_and!; try done. left. done. }
  destruct (health_at (ob_health_configured ob) && _) eqn:E2.
  { injection E as <- <- <-. bool_prop. split_and!; try done. right. left.
    split_and!; try done. destruct (server_model (ob_models ob)) as [id|]; [|done]. by exists id. }
  destruct (ob_log_open ob); [|done]. destruct (ob_log_clone ob); [|done].
  destruct (ob_spawn ob) as [pid|e]; [|done].
  destruct (ready_loop _ _ _ _ _ _ _) as [[r3 st3] acts3] eqn:L. injection E as -> <- <-.
  apply ready_loop_ok in L as (-> & Hm & Hp & Hc & q & Hq). cbn in Hp, Hc.
  split_and!; try done. right. right. exists pid, q. destruct Hq as (? & ? & ?).
  split_and!; try done. set_solver.
Qed.
End Processes.

(** Adoption compares the end of the reported id with the file name: a server of another model
whose name ends in the requested one is adopted. *)
Theorem adopts_by_suffix path name q :
  file_name path = Some name -> model_matches (q +:+ name) path = true.
Proof.
  intros E. unfold model_matches. rewrite E. cbn [default].
  assert (Hn : name <> "").
  { unfold file_name in E. destruct (last _) as [p|] eqn:L; [|done].
    apply last_Some_elem_of, list_elem_of_filter in L as [Hp _]. bool_prop.
    destruct (String.eqb p ".."); [done|]. by injection E as <-. }
  apply String.eqb_neq in Hn. unfold id. rewrite Hn. cbn [negb andb].
  apply orb_true_iff. right. apply ends_with_spec. by exists q.
Qed.

Module LlamaDemo.
#[local] Existing Instance HttpTests.ascii_tables.
#[local] Instance no_json : JsonText := {| json_parse := fun _ => Err "no parser"; json_print := fun _ => "" |}.

Definition srv : LlamaServer := mkLlamaServer "/opt/llama-server" "127.0.0.1" 52516 1 0.
Definition st0 : ServerState := mkServerState None None 52516 "".

Definition healthy : result bytes string :=
  Ok ("HTTP/1.1 200 OK" +:+ crlf +:+ "Content-Length: 2" +:+ crlf +:+ crlf +:+ "OK").
Definition refused : result bytes string := Err "connect to llama-server: refused".

(** A fresh start whose second poll is healthy. *)
Definition fresh (pid port : Z) : Observed :=
  mkObserved true true refused refused refused (Some port) "/tmp/llama.log" (Ok tt) (Ok tt) (Ok pid)
    [mkReadyPoll None refused false; mkReadyPoll None healthy false] "".
(** A restart whose child exits before it is ready. *)
Definition crash (pid port : Z) : Observed :=
  mkObserved true true refused refused refused (Some port) "/tmp/llama.log" (Ok tt) (Ok tt) (Ok pid)
    [mkReadyPoll None refused false; mkReadyPoll (Some "exit status: 1") refused false] "out of memory".

Definition st1 : ServerState := mkServerState (Some 7) (Some "/m/a.gguf") 4000 "/tmp/llama.log".
Definition acts1 : list Action := [Start 7 (server_command srv "/m/a.gguf" 4000) "/m/a.gguf" 4000].
Definition st2 : ServerState := mkServerState None None 4001 "/tmp/llama.log".
Definition acts2 : list Action :=
  [Kill 7; Start 8 (server_command srv "/m/b.gguf" 4001) "/m/b.gguf" 4001; Reaped 8].

Lemma run1 : server_run srv st1 ([] ++ acts1).
Proof.
  eapply (run_call srv st0 [] "/m/a.gguf" (fresh 7 4000) (Ok 4000)); [constructor|].
  vm_compute. reflexivity.
Qed.

Lemma server_processes_owned_witness :
  live acts1 = {[ 7 ]} /\ single_live ∅ (acts1 ++ acts2) /\ live (acts1 ++ acts2) = ∅.
Proof.
  assert (Hrun2 : server_run srv st2 (acts1 ++ acts2)).
  { eapply (run_call srv st1 acts1 "/m/b.gguf" (crash 8 4001)); [apply run1|].
    vm_compute. reflexivity. }
  destruct (server_processes_owned srv st2 _ Hrun2) as (H1 & H2 & _).
  split_and!; [vm_compute; reflexivity|exact H2|exact H1].
Defined.

Lemma ensure_ready_serves_witness :
  sv_model st1 = Some "/m/a.gguf" /\ sv_port st1 = 4000 /\
  ensure_ready srv "/m/a.gguf" (fresh 7 4000) st0 = (Done (Ok 4000), st1, acts1).
Proof.
  assert (E : ensure_ready srv "/m/a.gguf" (fresh 7 4000) st0 = (Done (Ok 4000), st1, acts1))
    by (vm_compute; reflexivity).
  destruct (ensure_ready_serves srv _ _ _ _ _ _ E) as (H1 & H2 & _). done.
Defined.
End LlamaDemo.
