(* ===== verification/Ledger.v ===== *)
(** * The ledger ([src/ledger.rs])

The SQLite store as two tables with the constraints of the schema, and the operations of
[ChainStore] as functions on it: [append] and [rollback] return the new store, the reads
are queries.  A transaction that fails is rolled back, so a failed [append] returns the
store it was given.  The constraint violations of the schema are
modelled, and the errors of opening a database file in its own file; the I/O errors of an open
database (disk full, locked file) are not. *)

From S2P Require Import Prelude F64 Crypto Models Accounting.

(** ** Errors *)

Inductive sql_constraint :=
| BlocksHeightPrimaryKey
| BlocksHashUnique
| ClaimsIdPrimaryKey
| ClaimsNodeSeqUnique
| ClaimsCuNotNull.

Inductive LedgerError :=
| OutOfOrderAppend (head : option Z) (block : Z)
| HeadBlockHashMissing
| PrevHashMismatch (expected got : string)
| InvalidEpoch
| DuplicateClaim (id : string)
| DuplicateNodeSeq (node : string) (seq : Z)
| SqliteError (c : sql_constraint).

(** ** Tables *)

Section Ledger.
Context `{Crypto} `{Serde}.

Record block_row := mkBlockRow {
  br_height : Z;
  br_block_hash : string;
  br_prev_hash : string;
  br_epoch : Z;
  br_sealed_by : string;
  br_proposal_json : jtext;
  br_signatures_json : jtext;
  br_committed_at : string;
  br_quorum : Z;
}.

Record claim_row := mkClaimRow {
  cr_claim_id : string;
  cr_height : Z;
  cr_node_id : string;
  cr_seq : Z;
  cr_cu : f64;
  cr_claim_json : jtext;
}.

(** Rows in insertion order. *)
Record ChainStore := mkStore {
  tbl_blocks : list block_row;
  tbl_claims : list claim_row;
}.

(** [init_schema] on a fresh database. *)
Definition empty_store : ChainStore := mkStore [] [].

(** ** Queries *)

(** [SELECT MAX(height) FROM blocks] *)
Definition head_locked (s : ChainStore) : option Z :=
  foldr (fun r acc => Some (match acc with Some m => Z.max (br_height r) m | None => br_height r end))
    None (tbl_blocks s).

Definition select_block (s : ChainStore) (h : Z) : option block_row :=
  find_first (fun r => br_height r =? h) (tbl_blocks s).

Definition block_hash_locked (s : ChainStore) (h : Z) : option string :=
  br_block_hash <$> select_block s h.

(** [Checkpoint] value assembled by [reconstruct] from the stored texts. *)
Definition stored_value (prop_json sig_json : jtext) (quorum : Z) : Value :=
  json_object [
    ("proposal", default VNull (json_from_str prop_json));
    ("signatures", default VNull (json_from_str sig_json));
    ("quorum", json_int (Z.max quorum 0))].

Definition fallback_checkpoint : Checkpoint :=
  mkCheckpoint (mkProposal (-1) (-1) "" "" [] "") [] 0.

(** Legacy blocks carry no quorum: the signatures they have stand for it. *)
Definition legacy_quorum (c : Checkpoint) : Checkpoint :=
  if (cp_quorum c =? 0) && negb (bool_decide (cp_signatures c = [])) then
    mkCheckpoint (cp_proposal c) (cp_signatures c) (usize_len (cp_signatures c))
  else c.

Definition reconstruct (prop_json sig_json : jtext) (quorum : Z) : Checkpoint :=
  legacy_quorum
    (default fallback_checkpoint
       (checkpoint_from_value (stored_value prop_json sig_json quorum))).

Definition row_checkpoint (r : block_row) : Checkpoint :=
  reconstruct (br_proposal_json r) (br_signatures_json r) (br_quorum r).

Definition get_block (s : ChainStore) (h : Z) : option Checkpoint :=
  row_checkpoint <$> select_block s h.

Definition height (s : ChainStore) : Z := default (-1) (head_locked s).

Definition head (s : ChainStore) : option Checkpoint :=
  match head_locked s with
  | Some h => get_block s h
  | None => None
  end.

Definition blocks (s : ChainStore) : list Checkpoint :=
  match head_locked s with
  | None => []
  | Some h => omap (get_block s) (zrange 0 h)
  end.

(** [SELECT 1 FROM claims WHERE ...] *)
Definition claim_exists (s : ChainStore) (id : string) : bool :=
  existsb (fun r => String.eqb (cr_claim_id r) id) (tbl_claims s).
Definition node_seq_exists (s : ChainStore) (node : string) (seq : Z) : bool :=
  existsb (fun r => String.eqb (cr_node_id r) node && (cr_seq r =? seq)) (tbl_claims s).

Definition all_committed_claim_ids (s : ChainStore) : gset string :=
  list_to_set (map cr_claim_id (tbl_claims s)).

(** A claim record as read back: unparsable text gives [null]. *)
Record ClaimRecord := mkClaimRecord {
  rec_claim_id : string;
  rec_height : Z;
  rec_node_id : string;
  rec_seq : Z;
  rec_cu : f64;
  rec_claim_json : Value;
}.

Definition row_record (r : claim_row) : ClaimRecord :=
  mkClaimRecord (cr_claim_id r) (cr_height r) (cr_node_id r) (cr_seq r) (cr_cu r)
    (default VNull (json_from_str (cr_claim_json r))).

(** [ORDER BY height ASC].  SQL leaves the order of rows of one height open; they keep their insertion
order here, which is what SQLite's sorter does with the rows of a table scan. *)
Definition all_claims (s : ChainStore) : list ClaimRecord :=
  map row_record (sort_by (fun a b => cr_height a <=? cr_height b) (tbl_claims s)).

(** [WHERE node_id = ?1 ORDER BY height ASC, seq ASC] *)
Definition claims_for_node (s : ChainStore) (node : string) : list ClaimRecord :=
  map row_record
    (sort_by (fun a b => (cr_height a <? cr_height b) ||
                         ((cr_height a =? cr_height b) && (cr_seq a <=? cr_seq b)))
       (filter (fun r => String.eqb (cr_node_id r) node = true) (tbl_claims s))).

(** [is_already_committed] *)
Definition is_already_committed (s : ChainStore) (c : Checkpoint) : bool :=
  if cp_height c <=? default (-1) (head_locked s) then true
  else forallb (fun signed =>
         claim_exists s (claim_id (sc_claim signed)) ||
         node_seq_exists s (claim_node_id (sc_claim signed)) (claim_seq (sc_claim signed)))
       (prop_claims (cp_proposal c)).

(** [SELECT COALESCE(SUM(cu), 0.0) FROM claims]; the order and the rounding of [SUM] are
SQLite's, so the aggregate is a parameter ([None] is SQL [NULL]). *)
Definition total_cu (sql_sum : list f64 -> option f64) (s : ChainStore) : f64 :=
  default f64_0 (sql_sum (map cr_cu (tbl_claims s))).
Definition total_cu_for_node (sql_sum : list f64 -> option f64) (s : ChainStore)
  (node : string) : f64 :=
  default f64_0 (sql_sum (map cr_cu
    (filter (fun r => String.eqb (cr_node_id r) node = true) (tbl_claims s)))).

(** ** Writes *)

(** The duplicate checks before the transaction. *)
Fixpoint check_duplicates (s : ChainStore) (claims : list SignedContribution) :
  result unit LedgerError :=
  match claims with
  | [] => Ok tt
  | signed :: rest =>
      let c := sc_claim signed in
      if claim_exists s (claim_id c) then Err (DuplicateClaim (claim_id c))
      else if node_seq_exists s (claim_node_id c) (claim_seq c)
      then Err (DuplicateNodeSeq (claim_node_id c) (claim_seq c))
      else check_duplicates s rest
  end.

Definition block_row_of (c : Checkpoint) : block_row :=
  mkBlockRow (cp_height c) (block_hash c) (prop_prev_hash (cp_proposal c)) (cp_epoch c)
    (prop_sealed_by (cp_proposal c))
    (json_to_string (proposal_to_value (cp_proposal c)))
    (json_to_string (signatures_value (cp_signatures c)))
    (prop_created_at (cp_proposal c))
    (wrap_i64 (cp_quorum c)).

Definition claim_row_of (h : Z) (signed : SignedContribution) : claim_row :=
  mkClaimRow (claim_id (sc_claim signed)) h (claim_node_id (sc_claim signed))
    (claim_seq (sc_claim signed)) (compute_units (sc_claim signed))
    (json_to_string (claim_to_value (sc_claim signed))).

(** [INSERT INTO blocks] under the constraints of the table. *)
Definition insert_block (r : block_row) (s : ChainStore) : result ChainStore LedgerError :=
  if existsb (fun r' => br_height r' =? br_height r) (tbl_blocks s)
  then Err (SqliteError BlocksHeightPrimaryKey)
  else if existsb (fun r' => String.eqb (br_block_hash r') (br_block_hash r)) (tbl_blocks s)
  then Err (SqliteError BlocksHashUnique)
  else Ok (mkStore (tbl_blocks s ++ [r]) (tbl_claims s)).

(** [INSERT INTO claims]; SQLite stores a NaN as NULL, which [cu REAL NOT NULL] refuses. *)
Definition insert_claim (r : claim_row) (s : ChainStore) : result ChainStore LedgerError :=
  if is_nan (cr_cu r) then Err (SqliteError ClaimsCuNotNull)
  else if claim_exists s (cr_claim_id r) then Err (SqliteError ClaimsIdPrimaryKey)
  else if node_seq_exists s (cr_node_id r) (cr_seq r)
  then Err (SqliteError ClaimsNodeSeqUnique)
  else Ok (mkStore (tbl_blocks s) (tbl_claims s ++ [r])).

Fixpoint insert_claims (h : Z) (claims : list SignedContribution) (s : ChainStore) :
  result ChainStore LedgerError :=
  match claims with
  | [] => Ok s
  | signed :: rest =>
      s1 <-? insert_claim (claim_row_of h signed) s ;;
      insert_claims h rest s1
  end.

(** [append]: the error, or the store after the committed transaction. *)
Definition append (c : Checkpoint) (s : ChainStore) : result ChainStore LedgerError :=
  let hd := head_locked s in
  if negb (cp_height c =? match hd with Some h => h + 1 | None => 0 end)
  then Err (OutOfOrderAppend hd (cp_height c))
  else
    expected_prev <-?
      match hd with
      | Some h =>
          match block_hash_locked s h with
          | Some bh => Ok bh
          | None => Err HeadBlockHashMissing
          end
      | None => Ok GENESIS_PREV_HASH
      end ;;
    if negb (String.eqb (prop_prev_hash (cp_proposal c)) expected_prev)
    then Err (PrevHashMismatch expected_prev (prop_prev_hash (cp_proposal c)))
    else if cp_epoch c <? 0 then Err InvalidEpoch
    else
      _ <-? check_duplicates s (prop_claims (cp_proposal c)) ;;
      s1 <-? insert_block (block_row_of c) s ;;
      insert_claims (cp_height c) (prop_claims (cp_proposal c)) s1.

(** [rollback]: the two deletes of the transaction. *)
Definition rollback_store (keep_height : Z) (s : ChainStore) : ChainStore :=
  mkStore (filter (fun r => (br_height r <=? keep_height) = true) (tbl_blocks s))
    (filter (fun r => (cr_height r <=? keep_height) = true) (tbl_claims s)).

Definition rollback (keep_height : Z) (s : ChainStore) : ChainStore * option Checkpoint :=
  let s' := rollback_store keep_height s in
  (s', if keep_height <? 0 then None else get_block s' keep_height).

(** ** Integrity *)

(** The detail string of [verify_chain], by what it reports. *)
Inductive chain_fault :=
| MissingBlock (h : Z)
| BrokenLink (h : Z)
| HashMismatch (h : Z)
| DuplicateClaimIn (id : string)
| DuplicateNodeSeqIn (node : string) (seq : Z).

(** The claims loop of [verify_chain]: the duplicate found, or the extended seen sets. *)
Fixpoint verify_claims (claims : list SignedContribution) (seen : gset string)
  (seen_seq : gset (string * Z)) : result (gset string * gset (string * Z)) chain_fault :=
  match claims with
  | [] => Ok (seen, seen_seq)
  | signed :: rest =>
      let c := sc_claim signed in
      let key := (claim_node_id c, claim_seq c) in
      if bool_decide (claim_id c ∈ seen) then Err (DuplicateClaimIn (claim_id c))
      else if bool_decide (key ∈ seen_seq)
      then Err (DuplicateNodeSeqIn (claim_node_id c) (claim_seq c))
      else verify_claims rest ({[claim_id c]} ∪ seen) ({[key]} ∪ seen_seq)
  end.

(** The height loop of [verify_chain]. *)
Fixpoint verify_blocks (s : ChainStore) (hs : list Z) (prev : string) (seen : gset string)
  (seen_seq : gset (string * Z)) : result unit chain_fault :=
  match hs with
  | [] => Ok tt
  | h :: rest =>
      match select_block s h with
      | None => Err (MissingBlock h)
      | Some r =>
          let c := row_checkpoint r in
          if negb (String.eqb (br_prev_hash r) prev)
          then Err (BrokenLink h)
          else if negb (String.eqb (block_hash c) (br_block_hash r))
          then Err (HashMismatch h)
          else
            sets <-? verify_claims (prop_claims (cp_proposal c)) seen seen_seq ;;
            verify_blocks s rest (br_block_hash r) sets.1 sets.2
      end
  end.

(** [verify_chain]: the number of blocks, or the first fault. *)
Definition verify_chain (s : ChainStore) : result Z chain_fault :=
  _ <-? verify_blocks s (zrange 0 (height s)) GENESIS_PREV_HASH ∅ ∅ ;;
  Ok (height s + 1).

(** ** Abstract specification: the ledger is a list of checkpoints *)

Definition claim_key (s : SignedContribution) : string * Z :=
  (claim_node_id (sc_claim s), claim_seq (sc_claim s)).
Definition signed_id (s : SignedContribution) : string := claim_id (sc_claim s).
Definition cp_claims (c : Checkpoint) : list SignedContribution := prop_claims (cp_proposal c).

Definition chain_claims (chain : list Checkpoint) : list SignedContribution :=
  chain ≫= cp_claims.

Definition chain_rows (chain : list Checkpoint) : list claim_row :=
  chain ≫= (fun c => claim_row_of (cp_height c) <$> cp_claims c).

(** The tables that store a chain. *)
Definition store_of (chain : list Checkpoint) : ChainStore :=
  mkStore (block_row_of <$> chain) (chain_rows chain).

Definition tip_hash (chain : list Checkpoint) : string :=
  match last chain with Some c => block_hash c | None => GENESIS_PREV_HASH end.

(** What a checkpoint must satisfy to extend a chain. *)
Record extends (chain : list Checkpoint) (c : Checkpoint) : Prop := {
  ext_height : cp_height c = Z.of_nat (length chain);
  ext_prev : prop_prev_hash (cp_proposal c) = tip_hash chain;
  ext_epoch : 0 <= cp_epoch c;
  ext_ids : NoDup (signed_id <$> (chain_claims chain ++ cp_claims c));
  ext_seqs : NoDup (claim_key <$> (chain_claims chain ++ cp_claims c));
  ext_hash : block_hash c ∉ (block_hash <$> chain);
  ext_cu : Forall (fun s => is_nan (compute_units (sc_claim s)) = false) (cp_claims c);
}.

Inductive valid_chain : list Checkpoint -> Prop :=
| valid_nil : valid_chain []
| valid_snoc chain c :
    valid_chain chain -> extends chain c -> wf_checkpoint c = true ->
    valid_chain (chain ++ [c]).

(** The well-formed stores: those that hold a valid chain. *)
Definition ledger_wf (s : ChainStore) : Prop :=
  exists chain, s = store_of chain /\ valid_chain chain.

(** A checkpoint as it is read back: the quorum column is an [i64], and a block without a
quorum gets the number of its signatures. *)
Definition stored_checkpoint (c : Checkpoint) : Checkpoint :=
  legacy_quorum (mkCheckpoint (cp_proposal c) (cp_signatures c) (Z.max (wrap_i64 (cp_quorum c)) 0)).

End Ledger.
