(* ===== verification/LedgerTheory.v ===== *)
(** * Theory of the ledger

Facts on valid chains, the queries and the writes of [Ledger] on the tables of a valid
chain, reading back, rolling back and the audit. *)

From S2P Require Import Prelude F64 Crypto Models Accounting Ledger.

Section ChainFacts.
Context `{Crypto} `{Serde}.

(** ** Facts on valid chains *)

Lemma chain_claims_app l1 l2 : chain_claims (l1 ++ l2) = chain_claims l1 ++ chain_claims l2.
Proof. apply bind_app. Qed.

Lemma chain_rows_app l1 l2 : chain_rows (l1 ++ l2) = chain_rows l1 ++ chain_rows l2.
Proof. apply bind_app. Qed.

Lemma store_of_snoc chain c :
  store_of (chain ++ [c]) =
  mkStore (tbl_blocks (store_of chain) ++ [block_row_of c])
    (tbl_claims (store_of chain) ++ (claim_row_of (cp_height c) <$> cp_claims c)).
Proof.
  unfold store_of. simpl. rewrite fmap_app, chain_rows_app. simpl. by rewrite app_nil_r.
Qed.

Lemma chain_rows_ids chain : cr_claim_id <$> chain_rows chain = signed_id <$> chain_claims chain.
Proof.
  induction chain as [|c chain IH]; [done|].
  change (c :: chain) with ([c] ++ chain).
  rewrite chain_rows_app, chain_claims_app, !fmap_app, IH. f_equal.
  unfold chain_rows, chain_claims. simpl. rewrite !app_nil_r, <- list_fmap_compose. done.
Qed.

Lemma chain_rows_keys chain :
  (fun r => (cr_node_id r, cr_seq r)) <$> chain_rows chain = claim_key <$> chain_claims chain.
Proof.
  induction chain as [|c chain IH]; [done|].
  change (c :: chain) with ([c] ++ chain).
  rewrite chain_rows_app, chain_claims_app, !fmap_app, IH. f_equal.
  unfold chain_rows, chain_claims. simpl. rewrite !app_nil_r, <- list_fmap_compose. done.
Qed.

Lemma valid_chain_heights chain i c :
  valid_chain chain -> chain !! i = Some c -> cp_height c = Z.of_nat i.
Proof.
  induction 1 as [|chain c' Hv IH He Hw]; [done|].
  intros [[_ Hl]|[-> ->]]%lookup_snoc_Some; [by apply IH|apply He].
Qed.

Lemma valid_chain_prefix l1 l2 : valid_chain (l1 ++ l2) -> valid_chain l1.
Proof.
  induction l2 as [|x l2 IH] using rev_ind; [by rewrite app_nil_r|].
  rewrite app_assoc. intros Hv. apply IH. inversion Hv as [Hn|? ? ? ? ? Hn].
  - by apply app_cons_not_nil in Hn.
  - by apply app_inj_tail in Hn as [-> _].
Qed.

Lemma valid_chain_take n chain : valid_chain chain -> valid_chain (take n chain).
Proof. intros Hv. apply (valid_chain_prefix _ (drop n chain)). by rewrite take_drop. Qed.

Lemma valid_chain_snoc_inv chain c :
  valid_chain (chain ++ [c]) -> valid_chain chain /\ extends chain c /\ wf_checkpoint c = true.
Proof.
  intros Hv. inversion Hv as [Hn|? ? ? ? ? Hn]; [by apply app_cons_not_nil in Hn|].
  by apply app_inj_tail in Hn as [-> ->].
Qed.

Lemma valid_chain_extends chain i c :
  valid_chain chain -> chain !! i = Some c -> extends (take i chain) c /\ wf_checkpoint c = true.
Proof.
  intros Hv Hi. pose proof (valid_chain_take (S i) chain Hv) as Ht.
  rewrite (take_S_r _ _ _ Hi) in Ht. by apply valid_chain_snoc_inv in Ht as (_ & ? & ?).
Qed.

Lemma valid_chain_nodup chain :
  valid_chain chain ->
  NoDup (signed_id <$> chain_claims chain) /\ NoDup (claim_key <$> chain_claims chain) /\
  NoDup (block_hash <$> chain).
Proof.
  induction 1 as [|chain c Hv (IH1 & IH2 & IH3) He Hw]; [repeat split; constructor|].
  rewrite chain_claims_app. unfold chain_claims at 2 4. simpl. rewrite app_nil_r.
  split; [apply He|]. split; [apply He|]. rewrite fmap_app. apply NoDup_app.
  split; [done|]. split; [|apply NoDup_singleton]. simpl.
  intros x Hx ->%list_elem_of_singleton. by apply (ext_hash _ _ He).
Qed.

(** ** Queries on the tables of a valid chain *)

Lemma head_locked_of chain :
  valid_chain chain ->
  head_locked (store_of chain) =
  if decide (chain = []) then None else Some (Z.of_nat (length chain) - 1).
Proof.
  intros Hv.
  assert (Hg : forall l k, (forall i c, l !! i = Some c -> cp_height c = Z.of_nat (k + i)) ->
    foldr (fun r acc => Some (match acc with Some m => Z.max (br_height r) m | None => br_height r end))
      None (block_row_of <$> l) =
    if decide (l = []) then None else Some (Z.of_nat (k + length l) - 1)).
  { induction l as [|c l IH]; intros k Hh; [done|].
    rewrite fmap_cons. cbn [foldr].
    rewrite (IH (S k)) by (intros i c' Hi; rewrite (Hh (S i) c' Hi); lia).
    simpl. rewrite (Hh 0%nat c eq_refl). destruct l; simpl; f_equal; lia. }
  unfold head_locked. simpl. rewrite (Hg chain 0%nat); [done|].
  intros i c Hi. by rewrite (valid_chain_heights _ _ _ Hv Hi).
Qed.

Lemma height_of chain : valid_chain chain -> height (store_of chain) = Z.of_nat (length chain) - 1.
Proof.
  intros Hv. unfold height. rewrite head_locked_of by done.
  by destruct (decide (chain = [])) as [->|].
Qed.

Lemma select_block_of chain h :
  valid_chain chain -> 0 <= h ->
  select_block (store_of chain) h = block_row_of <$> chain !! Z.to_nat h.
Proof.
  intros Hv Hh. unfold select_block. simpl.
  assert (Hg : forall l k, (forall i c, l !! i = Some c -> cp_height c = Z.of_nat (k + i)) ->
    Z.of_nat k <= h ->
    find_first (fun r => br_height r =? h) (block_row_of <$> l) =
    block_row_of <$> l !! (Z.to_nat h - k)%nat).
  { induction l as [|c l IH]; intros k Hc Hk; [done|].
    rewrite fmap_cons. cbn [find_first br_height block_row_of].
    rewrite (Hc 0%nat c eq_refl). destruct (Z.eqb_spec (Z.of_nat (k + 0)) h) as [E|E].
    - by replace (Z.to_nat h - k)%nat with 0%nat by lia.
    - rewrite (IH (S k)); [|intros i c' Hi; rewrite (Hc (S i) c' Hi); lia|lia].
      by replace (Z.to_nat h - k)%nat with (S (Z.to_nat h - S k)) by lia. }
  rewrite (Hg chain 0%nat); [by rewrite Nat.sub_0_r| |lia].
  intros i c Hi. by rewrite (valid_chain_heights _ _ _ Hv Hi).
Qed.

Lemma select_block_neg chain h :
  valid_chain chain -> h < 0 -> select_block (store_of chain) h = None.
Proof.
  intros Hv Hh. unfold select_block. apply find_first_None. simpl.
  intros r (c & -> & [i Hi]%list_elem_of_lookup)%list_elem_of_fmap. simpl.
  apply Z.eqb_neq. rewrite (valid_chain_heights _ _ _ Hv Hi). lia.
Qed.

Lemma tip_hash_locked chain :
  valid_chain chain -> chain <> [] ->
  block_hash_locked (store_of chain) (Z.of_nat (length chain) - 1) = Some (tip_hash chain).
Proof.
  intros Hv Hne. destruct chain as [|c chain _] using rev_ind; [done|].
  unfold block_hash_locked. rewrite select_block_of; [|done|rewrite length_app; simpl; lia].
  rewrite length_app. simpl. rewrite lookup_app_r by lia.
  replace (Z.to_nat _ - length chain)%nat with 0%nat by lia. simpl.
  unfold tip_hash. by rewrite last_snoc.
Qed.

(** ** Writes *)

Lemma claim_exists_spec s id : claim_exists s id = true <-> id ∈ (cr_claim_id <$> tbl_claims s).
Proof.
  unfold claim_exists. rewrite existsb_exists, list_elem_of_fmap.
  setoid_rewrite <- list_elem_of_In. split.
  - intros (r & Hr & E). bool_prop. eauto.
  - intros (r & -> & Hr). exists r. by rewrite String.eqb_refl.
Qed.

Lemma node_seq_exists_spec s node seq :
  node_seq_exists s node seq = true <->
  (node, seq) ∈ ((fun r => (cr_node_id r, cr_seq r)) <$> tbl_claims s).
Proof.
  unfold node_seq_exists. rewrite existsb_exists, list_elem_of_fmap.
  setoid_rewrite <- list_elem_of_In. split.
  - intros (r & Hr & E). bool_prop. subst. eauto.
  - intros (r & [= -> ->] & Hr). exists r. by rewrite String.eqb_refl, Z.eqb_refl.
Qed.

Lemma check_duplicates_ok s claims :
  check_duplicates s claims = Ok tt <->
  Forall (fun x => (signed_id x ∉ (cr_claim_id <$> tbl_claims s)) /\
                   claim_key x ∉ ((fun r => (cr_node_id r, cr_seq r)) <$> tbl_claims s)) claims.
Proof.
  induction claims as [|x claims IH]; simpl; [by split; [constructor|]|].
  rewrite Forall_cons, <- IH. unfold signed_id, claim_key.
  rewrite <- claim_exists_spec, <- node_seq_exists_spec.
  destruct (claim_exists s _); [by split; [|intros [[[] _] _]]|].
  destruct (node_seq_exists s _ _); [by split; [|intros [[_ []] _]]|].
  split; [intros ->; done|by intros [_ ->]].
Qed.

Lemma insert_claim_ok r s s' :
  insert_claim r s = Ok s' <->
  is_nan (cr_cu r) = false /\ (cr_claim_id r ∉ (cr_claim_id <$> tbl_claims s)) /\
  ((cr_node_id r, cr_seq r) ∉ ((fun r => (cr_node_id r, cr_seq r)) <$> tbl_claims s)) /\
  s' = mkStore (tbl_blocks s) (tbl_claims s ++ [r]).
Proof.
  unfold insert_claim. rewrite <- claim_exists_spec, <- node_seq_exists_spec.
  destruct (is_nan _); [by split; [|intros [? _]]|].
  destruct (claim_exists s _); [by split; [|intros (_ & [] & _)]|].
  destruct (node_seq_exists s _ _); [by split; [|intros (_ & _ & [] & _)]|].
  split; [intros [= <-]; done|by intros (_ & _ & _ & ->)].
Qed.

Lemma insert_claims_ok h claims s s' :
  NoDup (cr_claim_id <$> tbl_claims s) ->
  NoDup ((fun r => (cr_node_id r, cr_seq r)) <$> tbl_claims s) ->
  insert_claims h claims s = Ok s' <->
  Forall (fun x => is_nan (compute_units (sc_claim x)) = false) claims /\
  NoDup ((cr_claim_id <$> tbl_claims s) ++ (signed_id <$> claims)) /\
  NoDup (((fun r => (cr_node_id r, cr_seq r)) <$> tbl_claims s) ++ (claim_key <$> claims)) /\
  s' = mkStore (tbl_blocks s) (tbl_claims s ++ (claim_row_of h <$> claims)).
Proof.
  revert s. induction claims as [|x claims IH]; intros s Hi Hk; cbn [insert_claims].
  { rewrite !fmap_nil, !app_nil_r. destruct s as [tb tc]; simpl.
    split; [intros [= <-]; auto|by intros (_ & _ & _ & ->)]. }
  rewrite rbind_ok, !fmap_cons, !NoDup_app_cons_r, Forall_cons. split.
  - intros (s1 & (Hnan & Hid & Hkey & ->)%insert_claim_ok & Hrest).
    apply IH in Hrest; simpl in *.
    + rewrite !fmap_app in Hrest. simpl in Hrest. destruct Hrest as (? & ? & ? & ->).
      rewrite <- !app_assoc in *. done.
    + rewrite fmap_app. by apply NoDup_snoc.
    + rewrite fmap_app. by apply NoDup_snoc.
  - intros ((Hnan & Hall) & (Hid & Hnd) & (Hkey & Hndk) & ->).
    exists (mkStore (tbl_blocks s) (tbl_claims s ++ [claim_row_of h x])).
    split; [apply insert_claim_ok; done|].
    apply IH; simpl; rewrite ?fmap_app; simpl.
    + by apply NoDup_app in Hnd as [? _].
    + by apply NoDup_app in Hndk as [? _].
    + by rewrite <- (app_assoc (tbl_claims s)).
Qed.

Lemma insert_block_ok r s s' :
  insert_block r s = Ok s' <->
  (br_height r ∉ (br_height <$> tbl_blocks s)) /\
  (br_block_hash r ∉ (br_block_hash <$> tbl_blocks s)) /\
  s' = mkStore (tbl_blocks s ++ [r]) (tbl_claims s).
Proof.
  assert (Hh : existsb (fun r' => br_height r' =? br_height r) (tbl_blocks s) = true <->
               br_height r ∈ (br_height <$> tbl_blocks s)).
  { rewrite existsb_exists, list_elem_of_fmap. setoid_rewrite <- list_elem_of_In.
    setoid_rewrite Z.eqb_eq. split; intros (r' & ? & ?); eauto. }
  assert (Hb : existsb (fun r' => String.eqb (br_block_hash r') (br_block_hash r)) (tbl_blocks s) = true <->
               br_block_hash r ∈ (br_block_hash <$> tbl_blocks s)).
  { rewrite existsb_exists, list_elem_of_fmap. setoid_rewrite <- list_elem_of_In.
    setoid_rewrite String.eqb_eq. split; intros (r' & ? & ?); eauto. }
  unfold insert_block. rewrite <- Hh, <- Hb.
  destruct (existsb _ _); [by split; [|intros [[] _]]|].
  destruct (existsb _ _); [by split; [|intros (_ & [] & _)]|].
  split; [by intros [= <-]|by intros (_ & _ & ->)].
Qed.

(** The tests of [append] before the transaction, on the tables of a valid chain. *)
Lemma append_guards chain c :
  valid_chain chain ->
  append c (store_of chain) =
  if negb (cp_height c =? Z.of_nat (length chain))
  then Err (OutOfOrderAppend (head_locked (store_of chain)) (cp_height c))
  else if negb (String.eqb (prop_prev_hash (cp_proposal c)) (tip_hash chain))
  then Err (PrevHashMismatch (tip_hash chain) (prop_prev_hash (cp_proposal c)))
  else if cp_epoch c <? 0 then Err InvalidEpoch
  else
    _ <-? check_duplicates (store_of chain) (cp_claims c) ;;
    s1 <-? insert_block (block_row_of c) (store_of chain) ;;
    insert_claims (cp_height c) (cp_claims c) s1.
Proof.
  intros Hv. unfold append. rewrite (head_locked_of _ Hv).
  destruct (decide (chain = [])) as [->|Hne]; [done|].
  rewrite Z.sub_simpl_r. destruct (negb _); [done|].
  by rewrite (tip_hash_locked _ Hv Hne).
Qed.

Lemma append_ok_iff chain c s' :
  valid_chain chain ->
  append c (store_of chain) = Ok s' <-> extends chain c /\ s' = store_of (chain ++ [c]).
Proof.
  intros Hv. rewrite (append_guards _ _ Hv).
  destruct (valid_chain_nodup _ Hv) as (Hi & Hk & _).
  assert (Hins : forall s1, s1 = mkStore (tbl_blocks (store_of chain) ++ [block_row_of c]) (chain_rows chain) ->
    insert_claims (cp_height c) (cp_claims c) s1 = Ok s' <->
    Forall (fun x => is_nan (compute_units (sc_claim x)) = false) (cp_claims c) /\
    NoDup (signed_id <$> chain_claims chain ++ cp_claims c) /\
    NoDup (claim_key <$> chain_claims chain ++ cp_claims c) /\ s' = store_of (chain ++ [c])).
  { intros s1 ->. rewrite insert_claims_ok; simpl; rewrite ?chain_rows_ids, ?chain_rows_keys; [|done..].
    by rewrite store_of_snoc, !fmap_app. }
  split.
  - intros Ha. inv_match Ha. bool_prop.
    apply rbind_ok in Ha as ([] & Hdup & (s1 & (Hh & Hb & ->)%insert_block_ok & Hc)%rbind_ok).
    apply Hins in Hc as (? & ? & ? & ->); [|done]. split; [|done].
    constructor; try done.
    intros Hin. apply Hb. simpl. by rewrite <- list_fmap_compose.
  - intros [He ->]. rewrite (ext_height _ _ He), Z.eqb_refl, (ext_prev _ _ He), String.eqb_refl.
    simpl. rewrite (proj2 (Z.ltb_ge _ _) (ext_epoch _ _ He)).
    apply rbind_ok. exists tt. split.
    + apply check_duplicates_ok, Forall_forall. intros x Hx. simpl.
      rewrite chain_rows_ids, chain_rows_keys.
      pose proof (ext_ids _ _ He) as Hn1. pose proof (ext_seqs _ _ He) as Hn2.
      rewrite fmap_app in Hn1. rewrite fmap_app in Hn2.
      apply NoDup_app in Hn1 as (_ & Hd1 & _). apply NoDup_app in Hn2 as (_ & Hd2 & _).
      split; intros Hin; [apply (Hd1 _ Hin)|apply (Hd2 _ Hin)]; by apply list_elem_of_fmap_2.
    + apply rbind_ok. eexists. split.
      * apply insert_block_ok. split; [|split; [|reflexivity]]; simpl; rewrite <- list_fmap_compose.
        -- intros (c' & E & [i Hi']%list_elem_of_lookup)%list_elem_of_fmap. simpl in E.
           rewrite (valid_chain_heights _ _ _ Hv Hi'), (ext_height _ _ He) in E.
           apply lookup_lt_Some in Hi'. lia.
        -- apply (ext_hash _ _ He).
      * rewrite <- (ext_height _ _ He). apply Hins; [done|]. repeat split; apply He.
Qed.
End ChainFacts.

(** * Reading back, rolling back, verifying *)

Section LedgerLaws.
Context `{Crypto} `{SL : SerdeLaws}.

Lemma stored_value_of p sigs q :
  wf_proposal p = true -> forallb wf_signature sigs = true ->
  stored_value (json_to_string (proposal_to_value p)) (json_to_string (signatures_value sigs)) q =
  checkpoint_to_value (mkCheckpoint p sigs (Z.max q 0)).
Proof.
  intros Hp Hs. unfold stored_value.
  by rewrite !json_text_roundtrip by auto using wf_proposal_value, wf_signatures_value.
Qed.

(** A row read back gives the checkpoint that was stored, up to its quorum field. *)
Lemma row_checkpoint_of c :
  wf_checkpoint c = true -> row_checkpoint (block_row_of c) = stored_checkpoint c.
Proof.
  intros Hw. unfold row_checkpoint, reconstruct, block_row_of. cbn.
  unfold wf_checkpoint in Hw. bool_prop. rewrite stored_value_of by done.
  rewrite checkpoint_value_roundtrip; [done|].
  unfold wf_checkpoint. cbn. rewrite !andb_true_iff. split_and!; try done.
  pose proof (wrap_i64_range (cp_quorum c)) as Hr%in_i64_spec. unfold in_u64, i64_max in *. lia.
Qed.

Lemma stored_checkpoint_proposal c : cp_proposal (stored_checkpoint c) = cp_proposal c.
Proof. unfold stored_checkpoint, legacy_quorum. by destruct (_ && _). Qed.

Lemma stored_checkpoint_signatures c : cp_signatures (stored_checkpoint c) = cp_signatures c.
Proof. unfold stored_checkpoint, legacy_quorum. by destruct (_ && _). Qed.

Lemma stored_checkpoint_hash c : block_hash (stored_checkpoint c) = block_hash c.
Proof.
  unfold block_hash. by rewrite stored_checkpoint_proposal, stored_checkpoint_signatures.
Qed.

(** A quorum that fits the column and is not a legacy zero survives storage. *)
Lemma stored_checkpoint_id c :
  0 < cp_quorum c <= i64_max \/ (cp_quorum c = 0 /\ cp_signatures c = []) ->
  stored_checkpoint c = c.
Proof.
  destruct c as [p sigs q]. unfold stored_checkpoint, legacy_quorum. cbn. intros Hq.
  rewrite wrap_i64_id by (apply in_i64_spec; unfold i64_min, i64_max in *; lia).
  rewrite Z.max_l by lia. destruct Hq as [Hq|[-> ->]]; [|done].
  by rewrite (proj2 (Z.eqb_neq q 0)) by lia.
Qed.

Lemma wf_of_valid chain i c : valid_chain chain -> chain !! i = Some c -> wf_checkpoint c = true.
Proof. intros Hv Hi. by apply (valid_chain_extends _ _ _ Hv) in Hi as [_ ?]. Qed.

Lemma get_block_of chain h :
  valid_chain chain ->
  get_block (store_of chain) h =
  if decide (0 <= h) then stored_checkpoint <$> chain !! Z.to_nat h else None.
Proof.
  intros Hv. unfold get_block. destruct (decide (0 <= h)) as [Hh|Hh].
  - rewrite select_block_of by done. destruct (chain !! Z.to_nat h) eqn:E; [|done].
    simpl. f_equal. eauto using row_checkpoint_of, wf_of_valid.
  - by rewrite select_block_neg by (done || lia).
Qed.

Lemma head_of chain : valid_chain chain -> head (store_of chain) = stored_checkpoint <$> last chain.
Proof.
  intros Hv. unfold head. rewrite head_locked_of by done.
  destruct (decide (chain = [])) as [->|Hne]; [done|].
  rewrite get_block_of by done. rewrite last_lookup.
  destruct chain as [|c chain]; [done|]. cbn [length]. destruct (decide _); [|lia].
  f_equal. f_equal. lia.
Qed.

Lemma omap_seqZ_lookup {A B} (f : A -> B) (l : list A) :
  omap (fun h => if decide (0 <= h) then f <$> l !! Z.to_nat h else None)
    (zrange 0 (Z.of_nat (length l) - 1)) = f <$> l.
Proof.
  unfold zrange. replace (Z.of_nat (length l) - 1 - 0 + 1) with (Z.of_nat (length l)) by lia.
  induction l as [|x l IH] using rev_ind; [done|].
  rewrite length_app, fmap_app. cbn [length]. rewrite Nat2Z.inj_add.
  rewrite seqZ_app by lia. rewrite omap_app, <- IH. f_equal.
  - apply list_omap_ext. apply Forall2_same_length_lookup. split; [done|].
    intros i h1 h2 Hi1 Hi2. simplify_eq.
    apply lookup_seqZ in Hi1 as [-> Hi]. destruct (decide _); [|done].
    rewrite lookup_app_l by lia. done.
  - rewrite seqZ_cons by lia. simpl. destruct (decide _); [|lia]. rewrite lookup_app_r by lia.
    by replace (Z.to_nat _ - length l)%nat with 0%nat by lia.
Qed.

(** [blocks] lists the chain. *)
Lemma blocks_of chain : valid_chain chain -> blocks (store_of chain) = stored_checkpoint <$> chain.
Proof.
  intros Hv. unfold blocks. rewrite head_locked_of by done.
  destruct (decide (chain = [])) as [->|Hne]; [done|]. rewrite <- omap_seqZ_lookup.
  apply list_omap_ext. induction (zrange _ _); constructor; [by apply get_block_of|done].
Qed.

(** ** Rollback *)

Lemma filter_block_rows chain k n :
  (forall i c, chain !! i = Some c -> cp_height c = Z.of_nat (n + i)) -> -1 <= k ->
  filter (fun r => (br_height r <=? k) = true) (block_row_of <$> chain) =
  block_row_of <$> take (Z.to_nat (k + 1) - n) chain.
Proof.
  revert n. induction chain as [|c chain IH]; intros n Hh Hk; [by rewrite take_nil|].
  rewrite fmap_cons, filter_cons. cbn [br_height block_row_of].
  rewrite (Hh 0%nat c eq_refl).
  assert (Hh' : forall i c', chain !! i = Some c' -> cp_height c' = Z.of_nat (S n + i))
    by (intros i c' Hi; rewrite (Hh (S i) c' Hi); lia).
  destruct (decide _) as [E|E]; rewrite (IH (S n)) by done.
  - apply Z.leb_le in E. replace (Z.to_nat (k + 1) - n)%nat with (S (Z.to_nat (k + 1) - S n)) by lia.
    done.
  - apply not_true_is_false, Z.leb_gt in E.
    replace (Z.to_nat (k + 1) - n)%nat with 0%nat by lia.
    by replace (Z.to_nat (k + 1) - S n)%nat with 0%nat by lia.
Qed.

Lemma filter_claim_rows chain k n :
  (forall i c, chain !! i = Some c -> cp_height c = Z.of_nat (n + i)) -> -1 <= k ->
  filter (fun r => (cr_height r <=? k) = true) (chain_rows chain) =
  chain_rows (take (Z.to_nat (k + 1) - n) chain).
Proof.
  revert n. induction chain as [|c chain IH]; intros n Hh Hk; [by rewrite take_nil|].
  change (c :: chain) with ([c] ++ chain) at 1. rewrite chain_rows_app, filter_app.
  assert (Hh' : forall i c', chain !! i = Some c' -> cp_height c' = Z.of_nat (S n + i))
    by (intros i c' Hi; rewrite (Hh (S i) c' Hi); lia).
  rewrite (IH (S n)) by done. unfold chain_rows at 1. simpl. rewrite app_nil_r.
  pose proof (Hh 0%nat c eq_refl) as Hc. rewrite Nat.add_0_r in Hc.
  destruct (decide (cp_height c <= k)) as [E|E].
  - replace (Z.to_nat (k + 1) - n)%nat with (S (Z.to_nat (k + 1) - S n)) by lia.
    cbn [take]. change (c :: take ?m chain) with ([c] ++ take m chain). rewrite chain_rows_app.
    f_equal. unfold chain_rows. simpl. rewrite app_nil_r.
    apply filter_all, Forall_fmap, Forall_true. intros x. simpl. lia.
  - replace (Z.to_nat (k + 1) - n)%nat with 0%nat by lia.
    replace (Z.to_nat (k + 1) - S n)%nat with 0%nat by lia. rewrite !take_0, app_nil_r.
    apply filter_none, Forall_fmap, Forall_true. intros x. simpl. lia.
Qed.

(** Rolling back to a height keeps exactly the blocks up to it. *)
Lemma rollback_store_of chain k :
  valid_chain chain -> -1 <= k ->
  rollback_store k (store_of chain) = store_of (take (Z.to_nat (k + 1)) chain).
Proof.
  intros Hv Hk. unfold rollback_store. cbn.
  assert (Hh : forall i c, chain !! i = Some c -> cp_height c = Z.of_nat (0 + i))
    by (intros i c; by apply valid_chain_heights).
  rewrite (filter_block_rows _ _ 0), (filter_claim_rows _ _ 0) by done.
  by rewrite Nat.sub_0_r.
Qed.

Lemma rollback_of chain k :
  valid_chain chain -> -1 <= k ->
  rollback k (store_of chain) =
  (store_of (take (Z.to_nat (k + 1)) chain),
   if k <? 0 then None else stored_checkpoint <$> chain !! Z.to_nat k).
Proof.
  intros Hv Hk. unfold rollback. rewrite rollback_store_of by done. f_equal.
  destruct (Z.ltb_spec k 0); [done|].
  rewrite get_block_of by by apply valid_chain_take. rewrite decide_True by done.
  by rewrite lookup_take_lt by lia.
Qed.

(** ** Integrity *)

(** The sets [verify_chain] accumulates for the claims it has seen. *)
Definition seen_ids (l : list SignedContribution) : gset string := list_to_set (signed_id <$> l).
Definition seen_keys (l : list SignedContribution) : gset (string * Z) :=
  list_to_set (claim_key <$> l).

Lemma verify_claims_iff claims old sets :
  NoDup (signed_id <$> old) -> NoDup (claim_key <$> old) ->
  verify_claims claims (seen_ids old) (seen_keys old) = Ok sets <->
  NoDup (signed_id <$> old ++ claims) /\ NoDup (claim_key <$> old ++ claims) /\
  sets = (seen_ids (old ++ claims), seen_keys (old ++ claims)).
Proof.
  revert old. induction claims as [|x claims IH]; intros old Hi Hk; cbn [verify_claims].
  { rewrite app_nil_r. split; [intros [= <-]; done|intros (_ & _ & ->); done]. }
  assert (Ei : claim_id (sc_claim x) ∈ seen_ids old <-> signed_id x ∈ (signed_id <$> old))
    by (unfold seen_ids; by rewrite elem_of_list_to_set).
  assert (Ek : (claim_node_id (sc_claim x), claim_seq (sc_claim x)) ∈ seen_keys old <->
               claim_key x ∈ (claim_key <$> old))
    by (unfold seen_keys; by rewrite elem_of_list_to_set).
  replace (old ++ x :: claims) with ((old ++ [x]) ++ claims) by by rewrite <- app_assoc.
  assert (Hs : forall (P : Prop), NoDup (signed_id <$> (old ++ [x]) ++ claims) /\
            NoDup (claim_key <$> (old ++ [x]) ++ claims) /\ P ->
            (signed_id x ∉ (signed_id <$> old)) /\ (claim_key x ∉ (claim_key <$> old))).
  { intros P (H1%NoDup_fmap_app_l%NoDup_fmap_snoc & H2%NoDup_fmap_app_l%NoDup_fmap_snoc & _).
    by destruct H1, H2. }
  case_bool_decide as E1; [split; [done|intros [Hn _]%Hs; by apply Ei in E1]|].
  case_bool_decide as E2; [split; [done|intros [_ Hn]%Hs; by apply Ek in E2]|].
  rewrite <- (IH (old ++ [x])); [|apply NoDup_fmap_snoc; by rewrite <- ?Ei, <- ?Ek..].
  unfold seen_ids, seen_keys. rewrite !fmap_app, !list_to_set_app_L. cbn.
  rewrite !union_empty_r_L, (union_comm_L {[claim_id _]}). by rewrite (union_comm_L {[(_, _)]}).
Qed.

(** The rows of a store that passes the audit: each holds a checkpoint with the recorded
hash, each [prev_hash] column repeats the hash before it. *)
Fixpoint linked (prev : string) (rows : list block_row) : Prop :=
  match rows with
  | [] => True
  | r :: rows' =>
      br_prev_hash r = prev /\ block_hash (row_checkpoint r) = br_block_hash r /\
      linked (br_block_hash r) rows'
  end.

Definition rows_claims (rows : list block_row) : list SignedContribution :=
  rows ≫= (fun r => cp_claims (row_checkpoint r)).

Lemma verify_blocks_iff s hs prev old :
  NoDup (signed_id <$> old) -> NoDup (claim_key <$> old) ->
  verify_blocks s hs prev (seen_ids old) (seen_keys old) = Ok tt <->
  exists rows, Forall2 (fun h r => select_block s h = Some r) hs rows /\ linked prev rows /\
    NoDup (signed_id <$> old ++ rows_claims rows) /\ NoDup (claim_key <$> old ++ rows_claims rows).
Proof.
  revert prev old. induction hs as [|h hs IH]; intros prev old Hi Hk; cbn [verify_blocks].
  { split; [intros _; exists []; cbn; rewrite app_nil_r; by repeat constructor|done]. }
  destruct (select_block s h) as [r|] eqn:Er.
  2:{ split; [done|]. intros (rows & HF & _). inversion HF; congruence. }
  transitivity (br_prev_hash r = prev /\ block_hash (row_checkpoint r) = br_block_hash r /\
    exists rows, Forall2 (fun h r => select_block s h = Some r) hs rows /\
      linked (br_block_hash r) rows /\
      NoDup (signed_id <$> old ++ cp_claims (row_checkpoint r) ++ rows_claims rows) /\
      NoDup (claim_key <$> old ++ cp_claims (row_checkpoint r) ++ rows_claims rows)).
  - destruct (String.eqb_spec (br_prev_hash r) prev) as [E1|E1]; cbn [negb];
      [|by split; [|intros [? _]]].
    destruct (String.eqb_spec (block_hash (row_checkpoint r)) (br_block_hash r)) as [E2|E2];
      cbn [negb]; [|by split; [|intros (_ & ? & _)]].
    rewrite rbind_ok. setoid_rewrite verify_claims_iff; [|done..]. setoid_rewrite app_assoc.
    split.
    + intros (sets & (H1 & H2 & ->) & Hr). cbn in Hr. by apply IH in Hr.
    + intros (_ & _ & rows & HF & HL & H1 & H2). eexists. split; [split_and!; [..|reflexivity]|].
      1,2: by eapply NoDup_fmap_app_l.
      cbn. apply IH; [by eapply NoDup_fmap_app_l..|by exists rows].
  - split.
    + intros (E1 & E2 & rows & HF & HL & H1 & H2). exists (r :: rows). cbn. by repeat constructor.
    + intros (rows & HF & HL & H1 & H2). inversion HF as [|? r' ? rows' Hr' HF']; subst.
      rewrite Er in Hr'. injection Hr' as <-. destruct HL as (? & ? & ?).
      split; [done|]. split; [done|]. by exists rows'.
Qed.

Lemma verify_chain_rows s n :
  verify_chain s = Ok n <->
  n = height s + 1 /\
  exists rows, Forall2 (fun h r => select_block s h = Some r) (zrange 0 (height s)) rows /\
    linked GENESIS_PREV_HASH rows /\
    NoDup (signed_id <$> rows_claims rows) /\ NoDup (claim_key <$> rows_claims rows).
Proof.
  unfold verify_chain. rewrite rbind_ok.
  pose proof (verify_blocks_iff s (zrange 0 (height s)) GENESIS_PREV_HASH []
                (NoDup_nil_2) (NoDup_nil_2)) as Hb. cbn in Hb. rewrite <- Hb.
  split; [intros ([] & H1 & [= <-]); done|intros [-> H1]; by exists tt].
Qed.

Lemma linked_of chain l1 l2 :
  valid_chain chain -> chain = l1 ++ l2 -> linked (tip_hash l1) (block_row_of <$> l2).
Proof.
  intros Hv. revert l1. induction l2 as [|c l2 IH]; intros l1 E; [done|].
  assert (Hl : chain !! length l1 = Some c) by (subst; by apply list_lookup_middle).
  destruct (valid_chain_extends _ _ _ Hv Hl) as [He Hw].
  rewrite E, take_app_length in He. split_and!.
  - apply (ext_prev _ _ He).
  - by rewrite row_checkpoint_of, stored_checkpoint_hash.
  - replace (br_block_hash _) with (tip_hash (l1 ++ [c])) by (unfold tip_hash; by rewrite last_snoc).
    apply IH. by rewrite <- app_assoc.
Qed.

Lemma rows_claims_of chain : valid_chain chain -> rows_claims (block_row_of <$> chain) = chain_claims chain.
Proof.
  intros Hv. unfold rows_claims, chain_claims. rewrite list_fmap_bind.
  apply bind_ext_elem. intros c [i Hi]%list_elem_of_lookup. cbn.
  rewrite row_checkpoint_of by eauto using wf_of_valid.
  unfold cp_claims. by rewrite stored_checkpoint_proposal.
Qed.

Lemma verify_chain_of chain :
  valid_chain chain -> verify_chain (store_of chain) = Ok (Z.of_nat (length chain)).
Proof.
  intros Hv. apply verify_chain_rows. rewrite height_of by done. split; [lia|].
  exists (block_row_of <$> chain). rewrite rows_claims_of by done.
  destruct (valid_chain_nodup _ Hv) as (? & ? & _). split_and!; [|by apply (linked_of chain [])|done..].
  apply Forall2_same_length_lookup. unfold zrange. rewrite length_seqZ, length_fmap. split; [lia|].
  intros i h r [-> Hi]%lookup_seqZ Hr. rewrite select_block_of by (done || lia).
  by rewrite Z.add_0_l, Nat2Z.id, <- list_lookup_fmap.
Qed.

(** ** The abstract interface *)

Lemma ledger_wf_empty : ledger_wf empty_store.
Proof. exists []. split; [done|constructor]. Qed.

Lemma append_wf c s s' :
  ledger_wf s -> wf_checkpoint c = true -> append c s = Ok s' -> ledger_wf s'.
Proof.
  intros (chain & -> & Hv) Hw [He ->]%append_ok_iff; [|done].
  exists (chain ++ [c]). split; [done|by constructor].
Qed.

Lemma rollback_wf k s : ledger_wf s -> -1 <= k -> ledger_wf (rollback_store k s).
Proof.
  intros (chain & -> & Hv) Hk. rewrite rollback_store_of by done.
  eexists. split; [done|by apply valid_chain_take].
Qed.

(** What each error of [append] says about the chain and the block. *)
Definition append_fault (chain : list Checkpoint) (c : Checkpoint) (e : LedgerError) : Prop :=
  match e with
  | OutOfOrderAppend hd h =>
      h = cp_height c /\ default (-1) hd = Z.of_nat (length chain) - 1 /\
      h <> Z.of_nat (length chain)
  | HeadBlockHashMissing => False
  | PrevHashMismatch expected got =>
      expected = tip_hash chain /\ got = prop_prev_hash (cp_proposal c) /\ got <> expected
  | InvalidEpoch => cp_epoch c < 0
  | DuplicateClaim id =>
      id ∈ (signed_id <$> chain_claims chain) /\ id ∈ (signed_id <$> cp_claims c)
  | DuplicateNodeSeq node seq =>
      (node, seq) ∈ (claim_key <$> chain_claims chain) /\ (node, seq) ∈ (claim_key <$> cp_claims c)
  | SqliteError BlocksHeightPrimaryKey => False
  | SqliteError BlocksHashUnique => block_hash c ∈ (block_hash <$> chain)
  | SqliteError ClaimsIdPrimaryKey => ~ NoDup (signed_id <$> cp_claims c)
  | SqliteError ClaimsNodeSeqUnique => ~ NoDup (claim_key <$> cp_claims c)
  | SqliteError ClaimsCuNotNull =>
      Exists (fun x => is_nan (compute_units (sc_claim x)) = true) (cp_claims c)
  end.

Lemma check_duplicates_err s claims e :
  check_duplicates s claims = Err e ->
  (exists x, x ∈ claims /\ e = DuplicateClaim (signed_id x) /\
             signed_id x ∈ (cr_claim_id <$> tbl_claims s)) \/
  (exists x, x ∈ claims /\ e = DuplicateNodeSeq (claim_key x).1 (claim_key x).2 /\
             claim_key x ∈ ((fun r => (cr_node_id r, cr_seq r)) <$> tbl_claims s)).
Proof.
  induction claims as [|x claims IH]; simpl; [done|].
  destruct (claim_exists s _) eqn:E1.
  { intros [= <-]. left. exists x. apply claim_exists_spec in E1. split; [left|done]. }
  destruct (node_seq_exists s _ _) eqn:E2.
  { intros [= <-]. right. exists x. apply node_seq_exists_spec in E2. split; [left|done]. }
  intros [(y & Hy & ?)|(y & Hy & ?)]%IH; [left|right]; exists y; (split; [by right|done]).
Qed.

(** An insertion of claims that were checked against the table fails only on a duplicate
inside the block or on a NaN. *)
Lemma insert_claims_err h claims s e :
  insert_claims h claims s = Err e ->
  exists pre x post, claims = pre ++ x :: post /\
    let s1 := mkStore (tbl_blocks s) (tbl_claims s ++ (claim_row_of h <$> pre)) in
    insert_claim (claim_row_of h x) s1 = Err e.
Proof.
  revert s. induction claims as [|x claims IH]; intros s; cbn [insert_claims]; [done|].
  destruct (insert_claim (claim_row_of h x) s) as [s1|e1] eqn:E; cbn [rbind].
  - apply insert_claim_ok in E as (_ & _ & _ & ->). intros (pre & y & post & -> & Hy)%IH.
    exists (x :: pre), y, post. split; [done|]. simpl in *. by rewrite <- app_assoc in Hy.
  - intros [= <-]. exists [], x, claims. split; [done|]. simpl. by rewrite app_nil_r; destruct s.
Qed.

Lemma insert_claims_fault chain c e tb :
  Forall (fun x => (signed_id x ∉ (signed_id <$> chain_claims chain)) /\
                   (claim_key x ∉ (claim_key <$> chain_claims chain))) (cp_claims c) ->
  insert_claims (cp_height c) (cp_claims c) (mkStore tb (chain_rows chain)) = Err e ->
  append_fault chain c e.
Proof.
  intros Hnew (pre & x & post & E & Hx)%insert_claims_err.
  assert (Hin : x ∈ cp_claims c) by (rewrite E; apply elem_of_app; right; left).
  rewrite Forall_forall in Hnew. destruct (Hnew x Hin) as [Hni Hnk].
  unfold insert_claim in Hx. destruct (is_nan _) eqn:En.
  { injection Hx as <-. apply Exists_exists. by exists x. }
  assert (Hdup : forall {B} (f : SignedContribution -> B),
             f x ∈ (f <$> pre) -> ~ NoDup (f <$> cp_claims c)).
  { intros B f Hf. rewrite E, fmap_app, fmap_cons. by intros [Hn _]%NoDup_app_cons_r. }
  destruct (claim_exists _ _) eqn:Ei.
  { injection Hx as <-. apply Hdup. apply claim_exists_spec in Ei. cbn in Ei.
    rewrite fmap_app, chain_rows_ids, elem_of_app, <- list_fmap_compose in Ei.
    by destruct Ei as [?|?]. }
  destruct (node_seq_exists _ _ _) eqn:Ek; [|done].
  injection Hx as <-. apply Hdup. apply node_seq_exists_spec in Ek. cbn in Ek.
  rewrite fmap_app, chain_rows_keys, elem_of_app, <- list_fmap_compose in Ek.
  by destruct Ek as [?|?].
Qed.

Lemma append_err_fault chain c e :
  valid_chain chain -> append c (store_of chain) = Err e -> append_fault chain c e.
Proof.
  intros Hv. rewrite (append_guards _ _ Hv).
  destruct (Z.eqb_spec (cp_height c) (Z.of_nat (length chain))) as [Eh|Eh]; cbn [negb].
  2:{ intros [= <-]. split; [done|]. split; [|done]. apply (height_of _ Hv). }
  destruct (String.eqb_spec (prop_prev_hash (cp_proposal c)) (tip_hash chain)) as [Ep|Ep]; cbn [negb].
  2:{ by intros [= <-]. }
  destruct (Z.ltb_spec (cp_epoch c) 0) as [Ee|Ee]; [by intros [= <-]|].
  destruct (check_duplicates _ _) as [[]|e'] eqn:Ed; simpl.
  2:{ intros [= <-].
      apply check_duplicates_err in Ed as [(x & Hx & -> & Hin)|(x & Hx & -> & Hin)];
        cbn in Hin; rewrite ?chain_rows_ids, ?chain_rows_keys in Hin.
      - split; [done|by apply list_elem_of_fmap_2].
      - split; [done|]. change (claim_key x ∈ (claim_key <$> cp_claims c)).
        by apply list_elem_of_fmap_2. }
  destruct (insert_block _ _) as [s1|e'] eqn:Eb; simpl.
  - apply insert_block_ok in Eb as (_ & _ & ->). apply insert_claims_fault.
    apply check_duplicates_ok in Ed. cbn in Ed.
    by rewrite chain_rows_ids, chain_rows_keys in Ed.
  - intros [= <-]. unfold insert_block in Eb. destruct (existsb _ _) eqn:E1.
    + apply existsb_exists in E1 as (r & Hr%list_elem_of_In & E1%Z.eqb_eq). cbn in Hr.
      apply list_elem_of_fmap in Hr as (c' & -> & [i Hi]%list_elem_of_lookup). cbn in E1.
      rewrite (valid_chain_heights _ _ _ Hv Hi) in E1. apply lookup_lt_Some in Hi. lia.
    + destruct (existsb (fun r' => String.eqb _ _) _) eqn:E2; [|done]. injection Eb as <-.
      apply existsb_exists in E2 as (r & Hr%list_elem_of_In & E2%String.eqb_eq). cbn in Hr.
      apply list_elem_of_fmap in Hr as (c' & -> & Hc'). cbn in *. rewrite <- E2.
      by apply list_elem_of_fmap_2.
Qed.
End LedgerLaws.
