(* ===== verification/LedgerProps.v ===== *)
(** * Properties of the ledger

The theorems on [append], [rollback], the reads and [verify_chain], with witnesses on a
concrete two-block chain. *)

From S2P Require Import Prelude F64 Crypto Models Accounting Instances Ledger LedgerTheory.

(** ** A concrete chain *)

Module LedgerDemo.
#[local] Existing Instance Toy.crypto_inst.
#[local] Existing Instance Toy.serde_inst.

Definition chain1 : list Checkpoint := [genesis_checkpoint].

(** An append that succeeds shows that the block extends the chain. *)
Lemma extends_by_append chain c :
  valid_chain chain -> is_ok (append c (store_of chain)) = true -> extends chain c.
Proof.
  intros Hv Ha. destruct (append c (store_of chain)) as [s'|e] eqn:E; [|discriminate].
  by apply append_ok_iff in E as [? _].
Qed.

Lemma extends_genesis : extends [] genesis_checkpoint.
Proof. apply extends_by_append; [constructor|vm_compute; reflexivity]. Qed.

Lemma chain1_valid : valid_chain chain1.
Proof. apply (valid_snoc []); [constructor|apply extends_genesis|vm_compute; reflexivity]. Qed.

Lemma wf_block1 : wf_checkpoint Demo.block1 = true.
Proof. vm_compute. reflexivity. Qed.

Lemma extends_block1 : extends chain1 Demo.block1.
Proof. apply extends_by_append; [apply chain1_valid|vm_compute; reflexivity]. Qed.

Definition chain2 : list Checkpoint := chain1 ++ [Demo.block1].

Lemma chain2_valid : valid_chain chain2.
Proof. apply valid_snoc; [apply chain1_valid|apply extends_block1|apply wf_block1]. Qed.
End LedgerDemo.

Section LedgerProperties.
Context `{Crypto} `{SL : SerdeLaws}.

(** C2: [append] implements the abstract ledger: on the tables of a valid chain it succeeds
exactly for the checkpoints that extend the chain (next height, link to the tip, fresh claim
ids and node sequences, fresh hash, no NaN units), and then the tables are those of the
extended chain, which is again valid when the checkpoint is well-formed. *)
Theorem append_refines chain c s' :
  valid_chain chain -> wf_checkpoint c = true ->
  (append c (store_of chain) = Ok s' <-> extends chain c /\ s' = store_of (chain ++ [c])) /\
  (append c (store_of chain) = Ok s' -> valid_chain (chain ++ [c])).
Proof.
  intros Hv Hw. split; [by apply append_ok_iff|].
  intros [He _]%append_ok_iff; [by constructor|done].
Qed.

(** an [append] that fails names a condition that really is violated: each error value
carries the facts it reports, and the two internal errors (missing head hash, duplicate
height key) cannot occur on the tables of a valid chain. *)
Theorem append_error_classified chain c e :
  valid_chain chain -> append c (store_of chain) = Err e ->
  append_fault chain c e /\ ~ extends chain c.
Proof.
  intros Hv He. split; [by apply append_err_fault|].
  intros Hx. assert (append c (store_of chain) = Ok (store_of (chain ++ [c]))) as Ha
    by by apply append_ok_iff.
  congruence.
Qed.

(** C16: the reads return the chain that was written: [height], [get_block] at every height,
[head] and [blocks] give the checkpoints of the chain in order, unchanged but for the quorum
field, which the [i64] column and the legacy rule normalise. *)
Theorem ledger_readback chain :
  valid_chain chain ->
  height (store_of chain) = Z.of_nat (length chain) - 1 /\
  (forall h, get_block (store_of chain) h =
     if decide (0 <= h) then stored_checkpoint <$> chain !! Z.to_nat h else None) /\
  head (store_of chain) = stored_checkpoint <$> last chain /\
  blocks (store_of chain) = stored_checkpoint <$> chain.
Proof.
  intros Hv. split_and!; [by apply height_of|intros h; by apply get_block_of|by apply head_of|].
  by apply blocks_of.
Qed.

(** [rollback] to a height of at least -1 leaves exactly the blocks up to that height and
their claims, again a valid chain, and returns the surviving head. *)
Theorem rollback_prefix chain k :
  valid_chain chain -> -1 <= k ->
  rollback k (store_of chain) =
    (store_of (take (Z.to_nat (k + 1)) chain),
     if k <? 0 then None else stored_checkpoint <$> chain !! Z.to_nat k) /\
  valid_chain (take (Z.to_nat (k + 1)) chain).
Proof. intros Hv Hk. split; [by apply rollback_of|by apply valid_chain_take]. Qed.

(** C14: [verify_chain] decides, on any tables whatsoever, exactly the following: there is a
row for every height up to the head, the [prev_hash] columns repeat the preceding
[block_hash] columns starting from the genesis constant, every stored checkpoint hashes to
its [block_hash] column, and no claim id and no node sequence occurs twice. *)
Theorem verify_chain_exact s n :
  verify_chain s = Ok n <->
  n = height s + 1 /\
  exists rows, Forall2 (fun h r => select_block s h = Some r) (zrange 0 (height s)) rows /\
    linked GENESIS_PREV_HASH rows /\
    NoDup (signed_id <$> rows_claims rows) /\ NoDup (claim_key <$> rows_claims rows).
Proof. apply verify_chain_rows. Qed.

(** A ledger built by appends always passes its own audit, with the right count. *)
Theorem verify_chain_accepts chain :
  valid_chain chain -> verify_chain (store_of chain) = Ok (Z.of_nat (length chain)).
Proof. apply verify_chain_of. Qed.

(** A row with other [height] and [prev_hash] columns. *)
Definition relink (h : Z) (prev : string) (r : block_row) : block_row :=
  mkBlockRow h (br_block_hash r) prev (br_epoch r) (br_sealed_by r) (br_proposal_json r)
    (br_signatures_json r) (br_committed_at r) (br_quorum r).

(** the audit trusts the [prev_hash] column: it never looks at the [prev_hash] and the
[height] inside the stored proposal, so any well-formed checkpoint with distinct claims,
whatever block it was built on, passes as block 1 once its columns are rewritten. *)
Theorem audit_ignores_proposal_link c :
  wf_checkpoint c = true ->
  NoDup (signed_id <$> cp_claims c) -> NoDup (claim_key <$> cp_claims c) ->
  verify_chain (mkStore [block_row_of genesis_checkpoint;
                         relink 1 (block_hash genesis_checkpoint) (block_row_of c)] []) = Ok 2.
Proof.
  intros Hw Hi Hk. apply verify_chain_rows. split; [done|].
  exists [block_row_of genesis_checkpoint; relink 1 (block_hash genesis_checkpoint) (block_row_of c)].
  assert (Hg : wf_checkpoint genesis_checkpoint = true) by (vm_compute; reflexivity).
  pose proof (row_checkpoint_of _ Hg) as E0. pose proof (row_checkpoint_of _ Hw) as E1.
  change (row_checkpoint (block_row_of c)) with
    (row_checkpoint (relink 1 (block_hash genesis_checkpoint) (block_row_of c))) in E1.
  split_and!.
  - apply Forall2_cons_2; [done|]. apply Forall2_cons_2; [done|]. constructor.
  - cbn [linked]. rewrite E0, E1, !stored_checkpoint_hash. done.
  - unfold rows_claims. cbn [mbind list_bind]. rewrite E0, E1. unfold cp_claims in *.
    rewrite !stored_checkpoint_proposal, app_nil_r. done.
  - unfold rows_claims. cbn [mbind list_bind]. rewrite E0, E1. unfold cp_claims in *.
    rewrite !stored_checkpoint_proposal, app_nil_r. done.
Qed.
End LedgerProperties.

(** ** Witnesses on the concrete chain *)

Module LedgerWitnesses.
#[local] Existing Instance Toy.crypto_inst.
#[local] Existing Instance Toy.serde_inst.
Import LedgerDemo.

Lemma append_refines_witness :
  append Demo.block1 (store_of chain1) = Ok (store_of chain2) /\ valid_chain chain2.
Proof.
  pose proof (append_refines chain1 Demo.block1 (store_of chain2) chain1_valid wf_block1) as [H1 H2].
  assert (Ha : append Demo.block1 (store_of chain1) = Ok (store_of chain2))
    by (apply H1; split; [apply extends_block1|reflexivity]).
  split; [exact Ha|apply H2; exact Ha].
Defined.

(** Re-delivering block 1 is out of order. *)
Lemma append_error_classified_witness :
  append Demo.block1 (store_of chain2) = Err (OutOfOrderAppend (Some 1) 1) /\
  append_fault chain2 Demo.block1 (OutOfOrderAppend (Some 1) 1).
Proof.
  assert (Ha : append Demo.block1 (store_of chain2) = Err (OutOfOrderAppend (Some 1) 1))
    by (rewrite (append_guards _ _ chain2_valid), (head_locked_of _ chain2_valid); reflexivity).
  split; [exact Ha|]. apply (append_error_classified chain2 Demo.block1); [apply chain2_valid|exact Ha].
Defined.

Lemma ledger_readback_witness : blocks (store_of chain2) = stored_checkpoint <$> chain2.
Proof.
  apply (ledger_readback (SL := toy_serde_laws) chain2). apply chain2_valid.
Defined.

Lemma rollback_prefix_witness : (rollback 0 (store_of chain2)).1 = store_of chain1.
Proof.
  rewrite (proj1 (rollback_prefix (SL := toy_serde_laws) chain2 0 chain2_valid ltac:(lia))).
  reflexivity.
Defined.

Lemma verify_chain_exact_witness :
  verify_chain (store_of chain2) = Ok 2 /\ height (store_of chain2) = 1.
Proof.
  assert (Hv : verify_chain (store_of chain2) = Ok 2) by (vm_compute; reflexivity).
  split; [exact Hv|]. pose proof (proj1 (verify_chain_exact (store_of chain2) 2) Hv) as [E _]. lia.
Defined.

Lemma verify_chain_accepts_witness : verify_chain (store_of chain2) = Ok 2.
Proof. apply (verify_chain_accepts (SL := toy_serde_laws) chain2). apply chain2_valid. Defined.

(** A block built on nothing. *)
Definition orphan : Checkpoint :=
  mkCheckpoint (mkProposal 7 42 "no such block" Demo.node [] "2026-08-05T00:01:00+00:00") [] 0.

Lemma audit_ignores_proposal_link_witness :
  verify_chain (mkStore [block_row_of genesis_checkpoint;
    relink 1 (block_hash genesis_checkpoint) (block_row_of orphan)] []) = Ok 2 /\
  prop_prev_hash (cp_proposal orphan) <> block_hash genesis_checkpoint.
Proof.
  split; [|vm_compute; discriminate].
  apply (audit_ignores_proposal_link (SL := toy_serde_laws) orphan);
    [vm_compute; reflexivity|constructor..].
Defined.
End LedgerWitnesses.
