(* ===== verification/LedgerFile.v ===== *)
(** * The database file of the ledger ([src/ledger.rs])

[ChainStore::open] and [init_schema]: what opening does to the file, step by step, with the steps
that can fail.  Older files have a [blocks] table without the column [quorum]; opening adds it.
The theorems: opening keeps the ledger, an opening that failed halfway is repaired by the next one,
and a migrated ledger is a valid ledger of the same blocks. *)

From S2P Require Import Prelude F64 Crypto Models Accounting Instances Ledger LedgerTheory LedgerProps.

Section LedgerFile.
Context `{Crypto} `{Serde}.

(** ** Files *)

(** A row of the table of older versions. *)
Record legacy_row := mkLegacyRow {
  lr_height : Z;
  lr_block_hash : string;
  lr_prev_hash : string;
  lr_epoch : Z;
  lr_sealed_by : string;
  lr_proposal_json : jtext;
  lr_signatures_json : jtext;
  lr_committed_at : string;
}.

Inductive blocks_table :=
| WithoutQuorum (rows : list legacy_row)
| WithQuorum (rows : list block_row).

(** [PRAGMA table_info(blocks)] *)
Definition table_columns (t : blocks_table) : list string :=
  ["height"; "block_hash"; "prev_hash"; "epoch"; "sealed_by"; "proposal_json"; "signatures_json"; "committed_at"] ++
  match t with WithoutQuorum _ => [] | WithQuorum _ => ["quorum"] end.

Record Database := mkDb {
  db_blocks : option blocks_table;
  db_claims : option (list claim_row);
  db_indexes : gset string;
  db_wal : bool;
}.
Definition empty_db : Database := mkDb None None ∅ false.

(** ** Steps *)

Inductive OpenStep :=
| CreateDir
| OpenFile
| JournalMode
| Synchronous
| CreateBlocks
| CreateClaims
| IndexNode
| IndexHeight
| TableInfo
| AddQuorum.

#[export] Instance OpenStep_eq_dec : EqDecision OpenStep.
Proof. solve_decision. Defined.

(** The steps of [open], in order; a path without a parent directory needs no directory. *)
Definition open_steps (has_parent : bool) : list OpenStep :=
  (if has_parent then [CreateDir] else []) ++
  [OpenFile; JournalMode; Synchronous; CreateBlocks; CreateClaims; IndexNode; IndexHeight; TableInfo; AddQuorum].

(** [ALTER TABLE blocks ADD COLUMN quorum INTEGER NOT NULL DEFAULT 0] *)
Definition migrate_row (r : legacy_row) : block_row :=
  mkBlockRow (lr_height r) (lr_block_hash r) (lr_prev_hash r) (lr_epoch r) (lr_sealed_by r)
    (lr_proposal_json r) (lr_signatures_json r) (lr_committed_at r) 0.

Definition add_quorum (t : blocks_table) : blocks_table :=
  match t with WithoutQuorum rows => WithQuorum (map migrate_row rows) | WithQuorum _ => t end.

(** What a step does to an open database. *)
Definition db_effect (st : OpenStep) (db : Database) : Database :=
  match st with
  | CreateDir | OpenFile | Synchronous | TableInfo => db
  | JournalMode => mkDb (db_blocks db) (db_claims db) (db_indexes db) true
  | CreateBlocks =>
      mkDb (Some (default (WithoutQuorum []) (db_blocks db))) (db_claims db) (db_indexes db) (db_wal db)
  | CreateClaims => mkDb (db_blocks db) (Some (default [] (db_claims db))) (db_indexes db) (db_wal db)
  | IndexNode => mkDb (db_blocks db) (db_claims db) ({["idx_claims_node"]} ∪ db_indexes db) (db_wal db)
  | IndexHeight => mkDb (db_blocks db) (db_claims db) ({["idx_blocks_height"]} ∪ db_indexes db) (db_wal db)
  | AddQuorum => mkDb (add_quorum <$> db_blocks db) (db_claims db) (db_indexes db) (db_wal db)
  end.

(** A file that does not exist is created by opening it, as an empty database. *)
Definition step_effect (st : OpenStep) (file : option Database) : option Database :=
  match st with
  | CreateDir => file
  | OpenFile => Some (default empty_db file)
  | _ => db_effect st <$> file
  end.

(** The column is added when the table does not have it. *)
Definition skipped (st : OpenStep) (file : option Database) : bool :=
  match st with
  | AddQuorum =>
      match file ≫= db_blocks with
      | Some t => existsb (String.eqb "quorum") (table_columns t)
      | None => false
      end
  | _ => false
  end.

Fixpoint run_steps (faults : OpenStep -> option string) (steps : list OpenStep) (file : option Database) :
  result unit string * option Database :=
  match steps with
  | [] => (Ok tt, file)
  | st :: rest =>
      if skipped st file then run_steps faults rest file
      else
        match faults st with
        | Some e => (Err e, file)
        | None => run_steps faults rest (step_effect st file)
        end
  end.

(** The ledger in a file. *)
Definition store_in (db : Database) : ChainStore :=
  mkStore match db_blocks db with
          | Some (WithQuorum rows) => rows
          | Some (WithoutQuorum rows) => map migrate_row rows
          | None => []
          end (default [] (db_claims db)).

(** [ChainStore::open]: the store, and the file afterwards; [faults] are the errors of the disk and of
SQLite. *)
Definition open_store (faults : OpenStep -> option string) (has_parent : bool) (file : option Database) :
  result ChainStore string * option Database :=
  let '(r, file) := run_steps faults (open_steps has_parent) file in
  (_ <-? r ;; Ok (store_in (default empty_db file)), file).

(** ** Theorems *)

Definition no_faults : OpenStep -> option string := fun _ => None.

(** A file of the current version. *)
Definition current (db : Database) : Prop :=
  (exists rows, db_blocks db = Some (WithQuorum rows)) /\ (exists rows, db_claims db = Some rows) /\
  db_indexes db = {["idx_blocks_height"]} ∪ ({["idx_claims_node"]} ∪ db_indexes db) /\ db_wal db = true.

(** The file after all steps. *)
Definition upgraded (db : Database) : Database :=
  mkDb (Some (add_quorum (default (WithoutQuorum []) (db_blocks db)))) (Some (default [] (db_claims db)))
    ({["idx_blocks_height"]} ∪ ({["idx_claims_node"]} ∪ db_indexes db)) true.

Lemma run_open_steps b file :
  run_steps no_faults (open_steps b) file = (Ok tt, Some (upgraded (default empty_db file))).
Proof.
  destruct file as [[[[rows|rows]|] cl ix w]|], b; reflexivity.
Qed.

Lemma upgraded_store db : store_in (upgraded db) = store_in db.
Proof. by destruct db as [[[rows|rows]|] [cl|] ix w]. Qed.

Lemma upgraded_current db : current (upgraded db).
Proof.
  split_and!; cbn; [destruct (db_blocks db) as [[]|]; cbn; eauto|eauto| |done]. set_solver.
Qed.

Lemma upgraded_id db : current db -> upgraded db = db.
Proof.
  intros ((rows & E1) & (cl & E2) & E3 & E4). unfold upgraded. rewrite E1, E2, <- E3, <- E4. by destruct db; cbn in *; subst.
Qed.

(** No step loses anything: whatever is in the file before is there after it. *)
Lemma run_steps_store faults steps file :
  store_in (default empty_db (run_steps faults steps file).2) = store_in (default empty_db file).
Proof.
  revert file. induction steps as [|st steps IH]; intros file; [done|]. cbn [run_steps].
  destruct (skipped st file); [apply IH|]. destruct (faults st); [done|]. rewrite IH.
  destruct file as [[[[rows|rows]|] [cl|] ix w]|], st; reflexivity.
Qed.
End LedgerFile.

Section LedgerFileProperties.
Context `{Crypto} `{SL : SerdeLaws}.

(** C20: opening keeps the ledger: without errors it gives the ledger that the file holds, in a file of
the current version that opens the same way again; with an error, at whatever step and of whatever
kind, the file still holds the same ledger, and the next opening without errors gives it.  A
missing file is the empty ledger. *)
Theorem open_keeps_ledger faults b file :
  let s := store_in (default empty_db file) in
  let '(r, file') := open_store faults b file in
  open_store no_faults b file' = (Ok s, Some (upgraded (default empty_db file'))) /\
  (forall s', r = Ok s' -> s' = s) /\
  ((forall st, faults st = None) -> r = Ok s /\ file' = Some (upgraded (default empty_db file)) /\
     current (upgraded (default empty_db file)) /\ open_store no_faults b file' = (Ok s, file')).
Proof.
  cbn zeta. unfold open_store at 1. pose proof (run_steps_store faults (open_steps b) file) as Hs.
  destruct (run_steps faults (open_steps b) file) as [r file'] eqn:E. cbn [snd] in Hs.
  assert (Hagain : open_store no_faults b file' =
    (Ok (store_in (default empty_db file)), Some (upgraded (default empty_db file')))).
  { unfold open_store. rewrite run_open_steps, <- Hs. cbn [rbind]. by rewrite <- (upgraded_store (default _ file')). }
  split_and!; [done|destruct r; cbn; [intros s' [= <-]; done|done]|].
  intros Hf. assert (E' : run_steps faults (open_steps b) file = run_steps no_faults (open_steps b) file).
  { generalize (open_steps b) file. intros steps. induction steps as [|st steps IH]; intros f; [done|]. cbn [run_steps].
    rewrite Hf. by destruct (skipped st f). }
  rewrite E, run_open_steps in E'. injection E' as -> ->. set (db := default empty_db file) in *.
  change (default empty_db (Some (upgraded db))) with (upgraded db) in *. cbn [rbind].
  split_and!; [by rewrite upgraded_store|done|apply upgraded_current|].
  rewrite Hagain. by rewrite upgraded_id by apply upgraded_current.
Qed.

(** ** Migration *)

(** A block as an older version stored it, and what is left of it: no quorum. *)
Definition legacy_row_of (c : Checkpoint) : legacy_row :=
  mkLegacyRow (cp_height c) (block_hash c) (prop_prev_hash (cp_proposal c)) (cp_epoch c)
    (prop_sealed_by (cp_proposal c)) (json_to_string (proposal_to_value (cp_proposal c)))
    (json_to_string (signatures_value (cp_signatures c))) (prop_created_at (cp_proposal c)).
Definition without_quorum (c : Checkpoint) : Checkpoint := mkCheckpoint (cp_proposal c) (cp_signatures c) 0.

Definition legacy_file (chain : list Checkpoint) : Database :=
  mkDb (Some (WithoutQuorum (legacy_row_of <$> chain))) (Some (chain_rows chain)) ∅ true.

Lemma without_quorum_claims chain :
  chain_claims (without_quorum <$> chain) = chain_claims chain /\ chain_rows (without_quorum <$> chain) = chain_rows chain /\
  block_hash <$> (without_quorum <$> chain) = block_hash <$> chain.
Proof.
  induction chain as [|c chain (IH1 & IH2 & IH3)]; [done|]. unfold chain_claims, chain_rows in *.
  rewrite !fmap_cons, !bind_cons, IH1, IH2, IH3. done.
Qed.

Lemma legacy_store chain : store_in (legacy_file chain) = store_of (without_quorum <$> chain).
Proof.
  unfold store_in, store_of. cbn [db_blocks db_claims legacy_file from_option].
  rewrite (proj1 (proj2 (without_quorum_claims chain))). f_equal. rewrite <- list_fmap_compose.
  induction chain as [|c chain IH]; [done|]. rewrite !fmap_cons. cbn [map]. by rewrite IH.
Qed.

Lemma without_quorum_valid chain : valid_chain chain -> valid_chain (without_quorum <$> chain).
Proof.
  induction 1 as [|chain c Hv IH He Hw]; [constructor|]. rewrite fmap_app. apply valid_snoc; [done| |].
  - destruct (without_quorum_claims chain) as (Ec & _ & Eh). destruct He as [E1 E2 E3 E4 E5 E6 E7].
    constructor; rewrite ?Ec, ?Eh; try done.
    + by rewrite length_fmap.
    + cbn. rewrite E2. unfold tip_hash. rewrite fmap_last. by destruct (last chain).
  - unfold wf_checkpoint in *. apply andb_true_iff in Hw as [Hw _]. by apply andb_true_iff.
Qed.

(** C21: the ledger of an older version survives its migration: opened without errors, it is a valid
ledger of the same blocks, which passes the audit; every block is read back with its proposal and
signatures, and the signatures it carries count as its quorum. *)
Theorem migration_keeps_ledger chain b :
  valid_chain chain ->
  exists s, (open_store no_faults b (Some (legacy_file chain))).1 = Ok s /\ ledger_wf s /\
    verify_chain s = Ok (Z.of_nat (length chain)) /\
    blocks s = (fun c => mkCheckpoint (cp_proposal c) (cp_signatures c) (usize_len (cp_signatures c))) <$> chain.
Proof.
  intros Hv. pose proof (without_quorum_valid chain Hv) as Hv'. exists (store_of (without_quorum <$> chain)).
  split_and!.
  - unfold open_store. rewrite run_open_steps. cbn [rbind from_option fst]; unfold id. by rewrite upgraded_store, legacy_store.
  - by eexists.
  - rewrite verify_chain_of by done. by rewrite length_fmap.
  - rewrite blocks_of by done. rewrite <- list_fmap_compose. apply list_fmap_ext. intros i c _.
    unfold stored_checkpoint, legacy_quorum, without_quorum. cbn. case_bool_decide as Hs; [|done]. by rewrite Hs.
Qed.
End LedgerFileProperties.

Module LedgerFileDemo.
#[local] Existing Instance Toy.crypto_inst.
#[local] Existing Instance Toy.serde_inst.
#[local] Existing Instance toy_serde_laws.

(** The disk is full when the column is added to the file of an older version. *)
Definition full_disk (st : OpenStep) : option string :=
  if decide (st = AddQuorum) then Some "database or disk is full" else None.

Lemma open_keeps_ledger_witness :
  let '(r, file') := open_store full_disk true (Some (legacy_file LedgerDemo.chain2)) in
  r = Err "database or disk is full" /\
  (open_store no_faults true file').1 = Ok (store_of (without_quorum <$> LedgerDemo.chain2)).
Proof.
  pose proof (open_keeps_ledger full_disk true (Some (legacy_file LedgerDemo.chain2))) as Ho. cbv zeta in Ho.
  destruct (open_store full_disk true (Some (legacy_file LedgerDemo.chain2))) as [r file'] eqn:E.
  destruct Ho as [Ho _]. rewrite Ho. split; [|exact (f_equal Ok (legacy_store _))].
  exact (eq_sym (f_equal fst E) : r = (open_store full_disk true (Some (legacy_file LedgerDemo.chain2))).1).
Defined.

Lemma migration_keeps_ledger_witness :
  exists s, (open_store no_faults true (Some (legacy_file LedgerDemo.chain2))).1 = Ok s /\ verify_chain s = Ok 2.
Proof.
  destruct (migration_keeps_ledger LedgerDemo.chain2 true LedgerDemo.chain2_valid) as (s & Hs & _ & Hv & _).
  exists s. split; [exact Hs|exact Hv].
Defined.
End LedgerFileDemo.
