(* ===== verification/Binding.v ===== *)
(** * What hashes and signatures bind

The canonical bytes of claims, proposals and signature lists determine them
([Canonical]), so a signature covers the whole claim, a proposal hash the whole proposal
and a block hash the proposal with its signatures; through the [prev_hash] links the hash of
the head block fixes the whole ledger.  The statements on hashes exhibit, in the other case,
two different inputs with one digest among the inputs that were really hashed. *)

From S2P Require Import Prelude F64 Crypto CryptoTheory Models Accounting Instances Config Decimal.
From S2P Require Import Canonical Ledger LedgerTheory LedgerProps.

Section Binding.
Context `{Crypto}.

(** ** The floats of the structs *)

Definition claim_faithful (c : ContributionClaim) : bool :=
  ryu_faithful (params_b c) && ryu_faithful (compute_seconds c) && ryu_faithful (flops_estimate c).

Definition proposal_faithful (p : CheckpointProposal) : bool :=
  forallb (fun s => claim_faithful (sc_claim s)) (prop_claims p).

Lemma faithful_json_object fields :
  forallb (fun p => floats_faithful p.2) fields = true -> floats_faithful (json_object fields) = true.
Proof.
  intros Hf. unfold json_object. cbn.
  assert (Hgen : forall m, forallb (fun p => floats_faithful p.2) m = true ->
    forallb (fun p => floats_faithful p.2) (foldl (fun m p => btree_insert p.1 p.2 m) m fields) = true).
  { induction fields as [|[k v] fields IH]; intros m Hm; [done|].
    simpl in Hf. apply andb_true_iff in Hf as [Hkv Hf]. simpl. apply IH; [done|].
    by apply forallb_btree_insert. }
  by apply (Hgen []).
Qed.

Lemma faithful_json_int z : floats_faithful (json_int z) = true.
Proof. unfold json_int. by destruct (z <? 0). Qed.

Lemma faithful_json_f64 f : ryu_faithful f = true -> floats_faithful (json_f64 f) = true.
Proof. unfold json_f64. by destruct (is_finite f). Qed.

Lemma faithful_map {A} (enc : A -> Value) (p : A -> bool) l :
  (forall a, p a = true -> floats_faithful (enc a) = true) -> forallb p l = true ->
  floats_faithful (VArray (map enc l)) = true.
Proof.
  intros He. cbn. induction l as [|a l IH]; cbn; [done|]. intros [Ha Hl]%andb_true_iff.
  by rewrite He, IH.
Qed.

Ltac faithful_fields :=
  apply faithful_json_object; cbn [forallb snd];
  rewrite !andb_true_iff; split_and?; rewrite ?faithful_json_int; try reflexivity;
  try (apply faithful_json_f64; assumption).

Lemma printable_claim c :
  wf_claim c = true -> claim_faithful c = true -> printable (claim_to_value c) = true.
Proof.
  intros Hw Hf. unfold printable. rewrite wf_claim_value by done.
  unfold claim_faithful in Hf. bool_prop. unfold claim_to_value. faithful_fields.
Qed.

Lemma faithful_signed s : claim_faithful (sc_claim s) = true -> floats_faithful (signed_to_value s) = true.
Proof.
  intros Hf. unfold signed_to_value. faithful_fields.
  unfold claim_faithful in Hf. bool_prop. unfold claim_to_value. faithful_fields.
Qed.

Lemma printable_proposal p :
  wf_proposal p = true -> proposal_faithful p = true -> printable (proposal_to_value p) = true.
Proof.
  intros Hw Hf. unfold printable. rewrite wf_proposal_value by done.
  unfold proposal_to_value. faithful_fields. eapply faithful_map; [|exact Hf].
  apply faithful_signed.
Qed.

Lemma printable_signatures l :
  forallb wf_signature l = true -> printable (signatures_value l) = true.
Proof.
  intros Hw. unfold printable. rewrite wf_signatures_value by done.
  unfold signatures_value. eapply faithful_map; [|exact Hw].
  intros s _. unfold signature_to_value. faithful_fields.
Qed.

(** ** Canonical bytes determine the structs *)

(** An encoder with a decoder for what it writes is injective. *)
Lemma decoded_inj {A} (enc : A -> Value) (dec : Value -> option A) (a b : A) :
  dec (enc a) = Some a -> dec (enc b) = Some b -> enc a = enc b -> a = b.
Proof. intros Ha Hb E. rewrite E in Ha. congruence. Qed.

Lemma payload_bytes_inj c1 c2 :
  wf_claim c1 = true -> wf_claim c2 = true ->
  claim_faithful c1 = true -> claim_faithful c2 = true ->
  payload_bytes c1 = payload_bytes c2 -> c1 = c2.
Proof.
  intros W1 W2 F1 F2 E. apply canonical_json_inj in E; [|by apply printable_claim..].
  revert E. by apply (decoded_inj _ Toy.claim_of); apply claim_of_value.
Qed.

Lemma proposal_bytes_inj p1 p2 :
  wf_proposal p1 = true -> wf_proposal p2 = true ->
  proposal_faithful p1 = true -> proposal_faithful p2 = true ->
  canonical_bytes (proposal_to_value p1) = canonical_bytes (proposal_to_value p2) -> p1 = p2.
Proof.
  intros W1 W2 F1 F2 E. apply canonical_json_inj in E; [|by apply printable_proposal..].
  revert E. by apply (decoded_inj _ Toy.proposal_of); apply proposal_of_value.
Qed.

Lemma signatures_value_inj l1 l2 : signatures_value l1 = signatures_value l2 -> l1 = l2.
Proof.
  unfold signatures_value. intros [= E]. revert l2 E.
  induction l1 as [|s1 l1 IH]; intros [|s2 l2] E; try done. cbn in E.
  apply (f_equal (fun l => (hd VNull l, tl l))) in E. cbn in E.
  apply pair_equal_spec in E as [Es E]. f_equal; [|by apply IH].
  revert Es. by apply (decoded_inj _ Toy.signature_of); apply signature_of_value.
Qed.

Lemma signatures_bytes_inj l1 l2 :
  forallb wf_signature l1 = true -> forallb wf_signature l2 = true ->
  canonical_bytes (signatures_value l1) = canonical_bytes (signatures_value l2) -> l1 = l2.
Proof.
  intros W1 W2 E. apply canonical_json_inj in E; [|by apply printable_signatures..].
  by apply signatures_value_inj.
Qed.

(** ** Hashes *)

(** Two different inputs, one from each list, with one digest. *)
Definition collides (xs ys : list bytes) : Prop :=
  exists x y, x ∈ xs /\ y ∈ ys /\ x <> y /\ sha256 x = sha256 y.

Lemma collides_mono xs ys xs' ys' : xs ⊆ xs' -> ys ⊆ ys' -> collides xs ys -> collides xs' ys'.
Proof. intros Hx Hy (x & y & ? & ? & ? & ?). exists x, y. set_solver. Qed.

Lemma hex_inj a b : hex a = hex b -> a = b.
Proof.
  intros E. pose proof (hex_decode_hex a) as Ha. rewrite E, hex_decode_hex in Ha. by injection Ha.
Qed.

(** One digest: one input, or the two collide. *)
Lemma digest_binds x y : hex (sha256 x) = hex (sha256 y) -> x = y \/ collides [x] [y].
Proof.
  intros E%hex_inj. destruct (decide (x = y)) as [|Hn]; [by left|]. right.
  exists x, y. set_solver.
Qed.

(** The inputs hashed for one block: the proposal, and its hash with the signatures. *)
Definition hashed_inputs (c : Checkpoint) : list bytes :=
  [canonical_bytes (proposal_to_value (cp_proposal c));
   proposal_hash (cp_proposal c) +:+ canonical_bytes (signatures_value (cp_signatures c))].

(** The part of a block its hash covers. *)
Definition covered (c : Checkpoint) : CheckpointProposal * list QuorumSignature :=
  (cp_proposal c, cp_signatures c).

Definition block_faithful (c : Checkpoint) : bool := proposal_faithful (cp_proposal c).

Lemma proposal_hash_binds p1 p2 :
  wf_proposal p1 = true -> wf_proposal p2 = true ->
  proposal_faithful p1 = true -> proposal_faithful p2 = true ->
  proposal_hash p1 = proposal_hash p2 ->
  p1 = p2 \/
  collides [canonical_bytes (proposal_to_value p1)] [canonical_bytes (proposal_to_value p2)].
Proof.
  intros W1 W2 F1 F2 E. unfold proposal_hash, sha256_hex in E.
  apply digest_binds in E as [E|]; [left|by right]. by apply proposal_bytes_inj.
Qed.

Context `{!CryptoLaws}.

Lemma proposal_hash_length p : String.length (proposal_hash p) = 64%nat.
Proof. unfold proposal_hash, sha256_hex. by rewrite hex_length, sha256_length. Qed.

Lemma block_hash_binds c1 c2 :
  wf_checkpoint c1 = true -> wf_checkpoint c2 = true ->
  block_faithful c1 = true -> block_faithful c2 = true ->
  block_hash c1 = block_hash c2 ->
  covered c1 = covered c2 \/ collides (hashed_inputs c1) (hashed_inputs c2).
Proof.
  intros W1 W2 F1 F2 E. unfold wf_checkpoint in *. bool_prop.
  unfold block_hash, sha256_bytes_hex in E. apply digest_binds in E as [E|Hc].
  - apply string_app_inj_len in E as [Ep Es]; [|by rewrite !proposal_hash_length].
    apply signatures_bytes_inj in Es; [|done..].
    destruct (proposal_hash_binds (cp_proposal c1) (cp_proposal c2)) as [Ep'|Hc]; [done..| |].
    + left. unfold covered. by rewrite Ep', Es.
    + right. eapply collides_mono; [..|exact Hc]; set_solver.
  - right. eapply collides_mono; [..|exact Hc]; set_solver.
Qed.

(** ** Chains *)

Context `{Serde}.

Lemma tip_hash_snoc chain c : tip_hash (chain ++ [c]) = block_hash c.
Proof. unfold tip_hash. by rewrite last_snoc. Qed.

Lemma tip_hash_binds chain1 chain2 :
  valid_chain chain1 -> valid_chain chain2 -> chain1 <> [] -> chain2 <> [] ->
  forallb block_faithful chain1 = true -> forallb block_faithful chain2 = true ->
  tip_hash chain1 = tip_hash chain2 ->
  covered <$> chain1 = covered <$> chain2 \/
  collides (chain1 ≫= hashed_inputs) (chain2 ≫= hashed_inputs).
Proof.
  intros V1. revert chain2. induction V1 as [|l1 c1 V1 IH X1 W1]; [done|].
  intros chain2 V2 _ N2 F1 F2 E. destruct V2 as [|l2 c2 V2 X2 W2]; [done|]. clear N2.
  rewrite forallb_app in F1, F2. cbn in F1, F2. rewrite andb_true_r in F1, F2. bool_prop.
  rewrite !tip_hash_snoc in E. rewrite !bind_app, !fmap_app.
  destruct (block_hash_binds c1 c2) as [Ec|Hc]; [done..| |].
  2:{ right. eapply collides_mono; [..|exact Hc]; set_solver. }
  assert (Hp : cp_proposal c1 = cp_proposal c2) by (unfold covered in Ec; congruence).
  assert (Hlen : length l1 = length l2).
  { pose proof (ext_height _ _ X1) as G1. pose proof (ext_height _ _ X2) as G2.
    unfold cp_height in *. rewrite Hp in G1. lia. }
  assert (Htip : tip_hash l1 = tip_hash l2).
  { pose proof (ext_prev _ _ X1) as G1. pose proof (ext_prev _ _ X2) as G2.
    rewrite Hp in G1. congruence. }
  destruct l1 as [|b1 l1], l2 as [|b2 l2]; try discriminate Hlen.
  { left. cbn. by rewrite Ec. }
  destruct (IH (b2 :: l2)) as [El|Hc]; [done..| |].
  - left. rewrite El. cbn. by rewrite Ec.
  - right. eapply collides_mono; [..|exact Hc]; set_solver.
Qed.

Context `{!SerdeLaws}.

Lemma covered_stored c : covered (stored_checkpoint c) = covered c.
Proof. unfold covered. by rewrite stored_checkpoint_proposal, stored_checkpoint_signatures. Qed.

Lemma covered_blocks chain :
  valid_chain chain -> covered <$> blocks (store_of chain) = covered <$> chain.
Proof.
  intros Hv. rewrite blocks_of by done. rewrite <- list_fmap_compose. apply list_fmap_ext.
  intros i c _. apply covered_stored.
Qed.

Lemma hashed_inputs_stored c : hashed_inputs (stored_checkpoint c) = hashed_inputs c.
Proof. unfold hashed_inputs. by rewrite stored_checkpoint_proposal, stored_checkpoint_signatures. Qed.

Lemma hashed_inputs_blocks chain :
  valid_chain chain -> blocks (store_of chain) ≫= hashed_inputs = chain ≫= hashed_inputs.
Proof.
  intros Hv. rewrite blocks_of by done. clear Hv. induction chain as [|c chain IH]; [done|].
  change (hashed_inputs (stored_checkpoint c) ++ ((stored_checkpoint <$> chain) ≫= hashed_inputs) =
    hashed_inputs c ++ (chain ≫= hashed_inputs)).
  by rewrite IH, hashed_inputs_stored.
Qed.

Lemma faithful_blocks chain :
  valid_chain chain ->
  forallb block_faithful (blocks (store_of chain)) = forallb block_faithful chain.
Proof.
  intros Hv. rewrite blocks_of by done. clear Hv. induction chain as [|c chain IH]; [done|].
  cbn [fmap list_fmap forallb] in *. rewrite IH. f_equal. unfold block_faithful.
  by rewrite stored_checkpoint_proposal.
Qed.

(** Ledgers with the same head hash, or both without a head, hold the same proposals and signatures. *)
Lemma same_head_same_ledger s1 s2 :
  ledger_wf s1 -> ledger_wf s2 ->
  forallb block_faithful (blocks s1) = true -> forallb block_faithful (blocks s2) = true ->
  block_hash <$> head s1 = block_hash <$> head s2 ->
  covered <$> blocks s1 = covered <$> blocks s2 \/
  collides (blocks s1 ≫= hashed_inputs) (blocks s2 ≫= hashed_inputs).
Proof.
  intros (l1 & -> & V1) (l2 & -> & V2). rewrite !faithful_blocks, !covered_blocks,
    !hashed_inputs_blocks, !head_of by done.
  intros F1 F2 E. destruct (last l1) as [c1|] eqn:L1, (last l2) as [c2|] eqn:L2; try done.
  - injection E as E. rewrite !stored_checkpoint_hash in E.
    apply tip_hash_binds; try done; [by intros ->..|]. unfold tip_hash. by rewrite L1, L2.
  - apply last_None in L1 as ->, L2 as ->. by left.
Qed.

(** ** Properties *)

(** C15: for well-formed claims (integers in the range of [i64], finite floats, text in UTF-8) whose
floats are printed by the formatter so that they read back, as Ryu documents of every finite
float, the bytes a claim's signature is computed over determine every field of the claim: two
such claims with the same payload bytes are the same claim, so no field can be changed, dropped
or moved into another without changing the signed bytes.  (A claim with a float that is not finite
is outside of this: every such float is written as [null].) *)
Theorem signed_payload_binds_claim c1 c2 :
  wf_claim c1 = true -> wf_claim c2 = true ->
  claim_faithful c1 = true -> claim_faithful c2 = true ->
  payload_bytes c1 = payload_bytes c2 -> c1 = c2.
Proof. apply payload_bytes_inj. Qed.

(** C12: tamper evidence: two valid ledgers whose heads have the same block hash hold the same
proposals, with all their claims, and the same signatures at every height, unless two different
inputs that were hashed for their blocks have one SHA-256 digest.  The [quorum] column of a
block is not hashed and may differ.  The floats of the claims are assumed to be printed so that
they read back, as Ryu documents of every finite float. *)
Theorem head_hash_binds_ledger s1 s2 h1 h2 :
  ledger_wf s1 -> ledger_wf s2 ->
  forallb block_faithful (blocks s1) = true -> forallb block_faithful (blocks s2) = true ->
  head s1 = Some h1 -> head s2 = Some h2 -> block_hash h1 = block_hash h2 ->
  covered <$> blocks s1 = covered <$> blocks s2 \/
  collides (blocks s1 ≫= hashed_inputs) (blocks s2 ≫= hashed_inputs).
Proof.
  intros W1 W2 F1 F2 E1 E2 E. apply same_head_same_ledger; try done. rewrite E1, E2. cbn. by rewrite E.
Qed.
End Binding.

Module BindingDemo.
#[local] Existing Instance Toy.crypto_inst.
#[local] Existing Instance Toy.serde_inst.
#[local] Existing Instance toy_crypto_laws.
#[local] Existing Instance toy_serde_laws.
Import LedgerDemo.

Lemma signed_payload_binds_claim_witness :
  wf_claim (Demo.claim "c1" Demo.node 1) = true /\
  claim_faithful (Demo.claim "c1" Demo.node 1) = true /\
  Demo.claim "c1" Demo.node 1 = Demo.claim "c1" Demo.node (2 - 1).
Proof.
  split; [vm_compute; reflexivity|]. split; [vm_compute; reflexivity|].
  apply signed_payload_binds_claim; vm_compute; reflexivity.
Defined.

(** Block 1 with another quorum field, which its hash does not cover. *)
Definition block1_q : Checkpoint :=
  mkCheckpoint (cp_proposal Demo.block1) (cp_signatures Demo.block1) 7.

Lemma chain2_q_valid : valid_chain (chain1 ++ [block1_q]).
Proof.
  apply valid_snoc; [apply chain1_valid| |vm_compute; reflexivity].
  apply extends_by_append; [apply chain1_valid|vm_compute; reflexivity..].
Qed.

Lemma head_hash_binds_ledger_witness :
  covered <$> blocks (store_of chain2) = covered <$> blocks (store_of (chain1 ++ [block1_q])) \/
  collides (blocks (store_of chain2) ≫= hashed_inputs)
    (blocks (store_of (chain1 ++ [block1_q])) ≫= hashed_inputs).
Proof.
  apply (head_hash_binds_ledger _ _ (stored_checkpoint Demo.block1) (stored_checkpoint block1_q)).
  - exists chain2. split; [done|apply chain2_valid].
  - exists (chain1 ++ [block1_q]). split; [done|apply chain2_q_valid].
  - vm_compute. reflexivity.
  - vm_compute. reflexivity.
  - vm_compute. reflexivity.
  - vm_compute. reflexivity.
  - vm_compute. reflexivity.
Defined.
End BindingDemo.
