(* ===== verification/Validation.v ===== *)
(** * Validation rules ([src/consensus/validation.rs])

[validate_proposal] and [validate_checkpoint] over the store.  The set of seen claim ids
that the code extends in place is returned beside the result, also when validation fails. *)

From S2P Require Import Prelude F64 Crypto Models Accounting Ledger.

Inductive ValidationError :=
| BadHeight (expected got : Z)
| BadPrevHash (expected got : string)
| EpochNotAdvancing (chain proposal : Z)
| EmptyProposal
| BadContributionSignature
| ImplausibleFlops (id : string)
| DoubleClaim (id : string)
| ReusedSequence (node : string)
| FutureCheckpoint (id : string)
| InsufficientQuorum (have required block_quorum local_committee : Z)
| DuplicateSigner (node : string)
| BadQuorumSignature (node : string)
| SubmitForeignClaim
| SubmitBadSignature
| SubmitImplausible.

Section Validation.
Context `{Crypto} `{Serde}.

Definition is_canonical_genesis (p : CheckpointProposal) : bool :=
  (prop_height p =? 0) && (prop_epoch p =? 0) &&
  String.eqb (prop_prev_hash p) GENESIS_PREV_HASH &&
  String.eqb (prop_sealed_by p) GENESIS_SEALER &&
  bool_decide (prop_claims p = []) &&
  String.eqb (prop_created_at p) GENESIS_TIMESTAMP.

(** The loop of [validate_proposal] over the claims.  [node_seqs] keeps the last sequence
number met for each node. *)
Fixpoint validate_claims (claims : list SignedContribution) (head_height : Z) (tolerance : f64)
  (node_seqs : gmap string Z) (claim_ids seen : gset string) :
  gset string * result unit ValidationError :=
  match claims with
  | [] => (seen, Ok tt)
  | signed :: rest =>
      let c := sc_claim signed in
      if negb (signed_verify signed) then (seen, Err BadContributionSignature)
      else if negb (flops_is_plausible c tolerance) then (seen, Err (ImplausibleFlops (claim_id c)))
      else if bool_decide (claim_id c ∈ seen) || bool_decide (claim_id c ∈ claim_ids)
      then (seen, Err (DoubleClaim (claim_id c)))
      else if match node_seqs !! claim_node_id c with
              | Some prev_seq => prev_seq =? claim_seq c
              | None => false
              end
      then (seen, Err (ReusedSequence (claim_node_id c)))
      else if head_height <? last_seen_checkpoint_height c
      then (seen, Err (FutureCheckpoint (claim_id c)))
      else validate_claims rest head_height tolerance
             (<[claim_node_id c := claim_seq c]> node_seqs)
             ({[claim_id c]} ∪ claim_ids) ({[claim_id c]} ∪ seen)
  end.

Definition validate_proposal (p : CheckpointProposal) (s : ChainStore) (seen : gset string)
  (tolerance : f64) (allow_empty_claims : bool) : gset string * result unit ValidationError :=
  let hd := head s in
  let head_height := from_option cp_height (-1) hd in
  let expected_prev := from_option block_hash GENESIS_PREV_HASH hd in
  if negb (prop_height p =? head_height + 1)
  then (seen, Err (BadHeight (head_height + 1) (prop_height p)))
  else if negb (String.eqb (prop_prev_hash p) expected_prev)
  then (seen, Err (BadPrevHash expected_prev (prop_prev_hash p)))
  else if match hd with Some h => prop_epoch p <=? cp_epoch h | None => false end
  then (seen, Err (EpochNotAdvancing (from_option cp_epoch 0 hd) (prop_epoch p)))
  else if negb allow_empty_claims && bool_decide (prop_claims p = [])
  then (seen, Err EmptyProposal)
  else validate_claims (prop_claims p) head_height tolerance ∅ ∅ seen.

Definition verify_share_for_proposal (signature_hex public_key_hex proposal_hash : string) : bool :=
  match hex_decode signature_hex with
  | None => false
  | Some signature =>
      match hex_decode public_key_hex with
      | None => false
      | Some public_key => verify proposal_hash signature public_key
      end
  end.

(** The loop of [validate_checkpoint] over the quorum signatures. *)
Fixpoint validate_signatures (sigs : list QuorumSignature) (p_hash : string)
  (seen_signers : gset string) : result unit ValidationError :=
  match sigs with
  | [] => Ok tt
  | sig :: rest =>
      if bool_decide (qs_node_id sig ∈ seen_signers) then Err (DuplicateSigner (qs_node_id sig))
      else if negb (verify_share_for_proposal (qs_signature_hex sig) (qs_public_key_hex sig) p_hash)
      then Err (BadQuorumSignature (qs_node_id sig))
      else validate_signatures rest p_hash ({[qs_node_id sig]} ∪ seen_signers)
  end.

Definition required_quorum (c : Checkpoint) : Z := if 0 <? cp_quorum c then cp_quorum c else 1.

Definition validate_checkpoint (c : Checkpoint) (s : ChainStore) (tolerance : f64)
  (min_quorum : Z) (allow_empty_claims : bool) (seen_claim_ids : option (gset string)) :
  option (gset string) * result unit ValidationError :=
  let p := cp_proposal c in
  if is_canonical_genesis p then (seen_claim_ids, Ok tt)
  else
    let '(seen', r) :=
      validate_proposal p s (default ∅ seen_claim_ids) tolerance allow_empty_claims in
    let seen_out := match seen_claim_ids with Some _ => Some seen' | None => None end in
    (seen_out,
     _ <-? r ;;
     let required := required_quorum c in
     if Z.of_nat (length (cp_signatures c)) <? required
     then Err (InsufficientQuorum (Z.of_nat (length (cp_signatures c))) required (cp_quorum c)
                 min_quorum)
     else validate_signatures (cp_signatures c) (proposal_hash p) ∅).

End Validation.
