(* ===== verification/ValidationTheory.v ===== *)
(** * Theory of the validation rules

What a successful validation guarantees, stated on the abstract chain, and the exact
acceptance conditions. *)

From S2P Require Import Prelude F64 Crypto Models Accounting Ledger LedgerTheory Validation.

(** ** Quorum signatures *)

Section QuorumSignatures.
Context `{Crypto}.

(** A signature on the proposal hash under the key it carries. *)
Definition sig_ok (p_hash : string) (s : QuorumSignature) : Prop :=
  verify_share_for_proposal (qs_signature_hex s) (qs_public_key_hex s) p_hash = true.

Lemma validate_signatures_iff sigs p_hash (signers : gset string) :
  validate_signatures sigs p_hash signers = Ok tt <->
  NoDup (qs_node_id <$> sigs) /\ Forall (fun s => qs_node_id s ∉ signers) sigs /\
  Forall (sig_ok p_hash) sigs.
Proof.
  revert signers. induction sigs as [|s sigs IH]; intros signers; cbn [validate_signatures].
  { split; [|done]. intros _. split_and!; [apply NoDup_nil_2|apply Forall_nil_2..]. }
  rewrite fmap_cons, NoDup_cons, !Forall_cons. unfold sig_ok at 1.
  case_bool_decide as E1; [by split; [|intros (_ & [? _] & _)]|].
  destruct (verify_share_for_proposal _ _ _) eqn:E2; cbn [negb];
    [|by split; [|intros (_ & _ & [? _])]].
  rewrite IH. split.
  - intros (H1 & H2 & H3). rewrite Forall_forall in H2. split_and!; try done.
    + intros (y & Ey & Hy)%list_elem_of_fmap. apply (H2 y Hy). rewrite <- Ey. set_solver.
    + apply Forall_forall. intros y Hy Hin. apply (H2 y Hy). set_solver.
  - intros ((Hn & H1) & (_ & H2) & (_ & H3)). split_and!; try done.
    rewrite Forall_forall in H2. apply Forall_forall. intros y Hy [Ey|?]%elem_of_union; [|by apply (H2 y)].
    apply elem_of_singleton in Ey. apply Hn. rewrite <- Ey. by apply list_elem_of_fmap_2.
Qed.
End QuorumSignatures.

Section ValidationTheory.
Context `{Crypto} `{SL : SerdeLaws}.

(** ** Claims *)

(** What the loop checks of each claim by itself. *)
Definition claim_ok (hh : Z) (tol : f64) (x : SignedContribution) : Prop :=
  signed_verify x = true /\ flops_is_plausible (sc_claim x) tol = true /\
  last_seen_checkpoint_height (sc_claim x) <= hh.

Definition signer_of (x : SignedContribution) : string := claim_node_id (sc_claim x).

(** No claim repeats the sequence number of the preceding claim of the same node. *)
Definition seqs_alternate (claims : list SignedContribution) : Prop :=
  forall l1 x l2 y l3, claims = l1 ++ x :: l2 ++ y :: l3 ->
    signer_of x = signer_of y -> Forall (fun z => signer_of z <> signer_of x) l2 ->
    claim_seq (sc_claim x) <> claim_seq (sc_claim y).

(** The same relative to the last sequence numbers already met. *)
Definition seqs_alternate_after (m : gmap string Z) (claims : list SignedContribution) : Prop :=
  seqs_alternate claims /\
  forall l1 y l2 n, claims = l1 ++ y :: l2 -> Forall (fun z => signer_of z <> signer_of y) l1 ->
    m !! signer_of y = Some n -> n <> claim_seq (sc_claim y).

Lemma seqs_alternate_nil m : seqs_alternate_after m [].
Proof.
  split.
  - intros l1 x l2 y l3 E. by destruct l1.
  - intros l1 y l2 n E. by destruct l1.
Qed.

Lemma seqs_alternate_cons m x claims :
  seqs_alternate_after m (x :: claims) <->
  m !! signer_of x <> Some (claim_seq (sc_claim x)) /\
  seqs_alternate_after (<[signer_of x := claim_seq (sc_claim x)]> m) claims.
Proof.
  split.
  - intros [Ha Hm]. split; [|split].
    + intros E. by apply (Hm [] x claims _ eq_refl (Forall_nil_2 _) E).
    + intros l1 a l2 b l3 E. apply (Ha (x :: l1) a l2 b l3). by rewrite E.
    + intros l1 y l2 n E Hf. destruct (decide (signer_of x = signer_of y)) as [Exy|Exy].
      * rewrite Exy, lookup_insert_eq. intros [= <-]. apply (Ha [] x l1 y l2); [by rewrite E|done|].
        by rewrite Exy.
      * rewrite lookup_insert_ne by done. apply (Hm (x :: l1) y l2); [by rewrite E|].
        by constructor.
  - intros (Hx & Ha & Hm). split.
    + intros [|z l1] a l2 b l3 [= -> E]; [|by apply (Ha l1 a l2 b l3)].
      intros Eab Hf. apply (Hm l2 b l3); [done|by rewrite <- Eab|].
      by rewrite Eab, lookup_insert_eq.
    + intros [|z l1] y l2 n [= -> E].
      * intros _ En ->. by apply Hx.
      * intros [Hz Hf]%Forall_cons En. apply (Hm l1 y l2); [done..|].
        by rewrite lookup_insert_ne.
Qed.

Definition ids_of (claims : list SignedContribution) : gset string :=
  list_to_set (signed_id <$> claims).

Lemma validate_claims_iff claims hh tol m cids seen seen' :
  cids ⊆ seen ->
  validate_claims claims hh tol m cids seen = (seen', Ok tt) <->
  Forall (claim_ok hh tol) claims /\ NoDup (signed_id <$> claims) /\
  Forall (fun x => signed_id x ∉ seen) claims /\ seqs_alternate_after m claims /\
  seen' = ids_of claims ∪ seen.
Proof.
  revert m cids seen. induction claims as [|x claims IH]; intros m cids seen Hsub;
    cbn [validate_claims].
  { split.
    - intros [= <-]. split_and!; [apply Forall_nil_2|apply NoDup_nil_2|apply Forall_nil_2|apply seqs_alternate_nil|set_solver].
    - intros (_ & _ & _ & _ & ->). f_equal. set_solver. }
  rewrite !Forall_cons, fmap_cons, NoDup_cons, seqs_alternate_cons.
  destruct (signed_verify x) eqn:E1; cbn [negb];
    [|by split; [|intros ([(? & _) _] & _); congruence]].
  destruct (flops_is_plausible (sc_claim x) tol) eqn:E2; cbn [negb];
    [|by split; [|intros ([(_ & ? & _) _] & _); congruence]].
  case_bool_decide as E3; cbn [orb].
  { split; [done|]. by intros (_ & _ & [? _] & _). }
  rewrite bool_decide_eq_false_2 by set_solver. cbn [orb].
  assert (Hseq : (match m !! claim_node_id (sc_claim x) with
           | Some n => n =? claim_seq (sc_claim x) | None => false end) = true <->
          m !! signer_of x = Some (claim_seq (sc_claim x))).
  { unfold signer_of. destruct (m !! _); [|done]. rewrite Z.eqb_eq. naive_solver. }
  destruct (match m !! _ with Some _ => _ | None => _ end) eqn:E4.
  { split; [done|]. intros (_ & _ & _ & [Hn _] & _). by destruct Hn; apply Hseq. }
  destruct (Z.ltb_spec hh (last_seen_checkpoint_height (sc_claim x))) as [E5|E5].
  { split; [done|]. intros ([(_ & _ & ?) _] & _). lia. }
  rewrite IH by set_solver. unfold claim_ok, signed_id.
  split.
  - intros (H1 & H2 & H3 & H4 & ->). split_and!; try done.
    + rewrite Forall_forall in H3. intros (y & Ey & Hy)%list_elem_of_fmap.
      apply (H3 y Hy). rewrite <- Ey. set_solver.
    + eapply Forall_impl; [exact H3|]. set_solver.
    + rewrite <- Hseq. congruence.
    + unfold ids_of, signed_id. cbn. set_solver.
  - intros ((_ & H1) & (Hn & H2) & (_ & H3) & (_ & H4) & ->). split_and!; try done.
    + rewrite Forall_forall in *. intros y Hy [Ey|?]%elem_of_union; [|by apply (H3 y)].
      apply Hn. apply elem_of_singleton in Ey. rewrite <- Ey. by apply (list_elem_of_fmap_2 signed_id).
    + unfold ids_of, signed_id. cbn. set_solver.
Qed.

(** ** Proposals *)

(** A proposal that may follow the chain: the conditions of [validate_proposal]. *)
Record admissible (chain : list Checkpoint) (p : CheckpointProposal) (seen : gset string)
  (tol : f64) (allow_empty : bool) : Prop := {
  adm_height : prop_height p = Z.of_nat (length chain);
  adm_prev : prop_prev_hash p = tip_hash chain;
  adm_epoch : forall h, last chain = Some h -> cp_epoch h < prop_epoch p;
  adm_nonempty : allow_empty = true \/ prop_claims p <> [];
  adm_claims : Forall (claim_ok (Z.of_nat (length chain) - 1) tol) (prop_claims p);
  adm_ids : NoDup (signed_id <$> prop_claims p);
  adm_unseen : Forall (fun x => signed_id x ∉ seen) (prop_claims p);
  adm_seqs : seqs_alternate (prop_claims p);
}.

Lemma seqs_alternate_empty claims : seqs_alternate_after ∅ claims <-> seqs_alternate claims.
Proof.
  split; [by intros [? _]|]. intros Ha. split; [done|]. intros l1 y l2 n _ _ E.
  by rewrite lookup_empty in E.
Qed.

Lemma head_facts chain :
  valid_chain chain ->
  from_option cp_height (-1) (head (store_of chain)) = Z.of_nat (length chain) - 1 /\
  from_option block_hash GENESIS_PREV_HASH (head (store_of chain)) = tip_hash chain.
Proof.
  intros Hv. rewrite head_of by done. unfold tip_hash. destruct (last chain) as [c|] eqn:E; simpl.
  - rewrite stored_checkpoint_hash. split; [|done].
    unfold cp_height. rewrite stored_checkpoint_proposal. rewrite last_lookup in E.
    pose proof (valid_chain_heights _ _ _ Hv E) as Eh. unfold cp_height in Eh. rewrite Eh.
    apply lookup_lt_Some in E. lia.
  - apply last_None in E as ->. done.
Qed.

Lemma validate_proposal_iff chain p seen seen' tol allow :
  valid_chain chain ->
  validate_proposal p (store_of chain) seen tol allow = (seen', Ok tt) <->
  admissible chain p seen tol allow /\ seen' = ids_of (prop_claims p) ∪ seen.
Proof.
  intros Hv. destruct (head_facts _ Hv) as [Eh Ep].
  unfold validate_proposal. rewrite Eh, Ep, Z.sub_simpl_r.
  assert (Hep : (match head (store_of chain) with
                 | Some h => prop_epoch p <=? cp_epoch h | None => false end) = false <->
                forall h, last chain = Some h -> cp_epoch h < prop_epoch p).
  { rewrite head_of by done. destruct (last chain) as [h|]; simpl.
    - unfold cp_epoch. rewrite stored_checkpoint_proposal, Z.leb_gt.
      split; [intros Hl h' [= <-]; done|intros Hl; by apply Hl].
    - done. }
  destruct (Z.eqb_spec (prop_height p) (Z.of_nat (length chain))) as [E1|E1]; cbn [negb].
  2:{ split; [done|]. intros [[] _]. done. }
  destruct (String.eqb_spec (prop_prev_hash p) (tip_hash chain)) as [E2|E2]; cbn [negb].
  2:{ split; [done|]. intros [[] _]. done. }
  destruct (match head _ with Some _ => _ | None => _ end) eqn:E3.
  { split; [done|]. intros [[_ _ Hx _ _ _ _ _] _]. by apply Hep in Hx. }
  destruct (negb allow && bool_decide (prop_claims p = [])) eqn:E4.
  { bool_prop. split; [done|]. intros [[_ _ _ [?|?] _ _ _ _] _]; congruence. }
  rewrite validate_claims_iff by done. rewrite seqs_alternate_empty. split.
  - intros (H1 & H2 & H3 & H4 & ->). split; [|done]. constructor; try done; [by apply Hep|].
    destruct allow; [by left|right]. simpl in E4. by apply bool_decide_eq_false in E4.
  - intros [[] ->]. done.
Qed.

(** ** Checkpoints *)

(** The certificate a checkpoint carries: enough signatures on the proposal hash, by
different signer names. *)
Record certified (c : Checkpoint) : Prop := {
  cert_quorum : required_quorum c <= Z.of_nat (length (cp_signatures c));
  cert_signers : NoDup (qs_node_id <$> cp_signatures c);
  cert_sigs : Forall (sig_ok (proposal_hash (cp_proposal c))) (cp_signatures c);
}.

Lemma validate_checkpoint_iff chain c tol q allow oseen oseen' :
  valid_chain chain ->
  validate_checkpoint c (store_of chain) tol q allow oseen = (oseen', Ok tt) <->
  (is_canonical_genesis (cp_proposal c) = true /\ oseen' = oseen) \/
  (is_canonical_genesis (cp_proposal c) = false /\
   admissible chain (cp_proposal c) (default ∅ oseen) tol allow /\ certified c /\
   oseen' = (fun seen => ids_of (cp_claims c) ∪ seen) <$> oseen).
Proof.
  intros Hv. unfold validate_checkpoint.
  destruct (is_canonical_genesis (cp_proposal c)).
  { split; [intros [= <-]; by left|]. intros [[_ ->]|[? _]]; done. }
  destruct (validate_proposal _ _ _ _ _) as [seen' [[]|e]] eqn:Ep; cbn [rbind].
  2:{ split; [done|]. intros [[? _]|(_ & Ha & _)]; [done|].
      assert (validate_proposal (cp_proposal c) (store_of chain) (default ∅ oseen) tol allow =
              (ids_of (cp_claims c) ∪ default ∅ oseen, Ok tt)) by by apply validate_proposal_iff.
      congruence. }
  apply validate_proposal_iff in Ep as [Ha ->]; [|done].
  transitivity (oseen' = (fun seen => ids_of (cp_claims c) ∪ seen) <$> oseen /\ certified c).
  - destruct (Z.ltb_spec (Z.of_nat (length (cp_signatures c))) (required_quorum c)) as [E|E].
    + split; [done|]. intros [_ [Hq _ _]]. lia.
    + destruct (validate_signatures _ _ _) as [[]|e] eqn:Es.
      * apply validate_signatures_iff in Es as (H1 & _ & H3).
        split; [intros [= <-]; split; [by destruct oseen|done]|]. intros [-> _]. by destruct oseen.
      * split; [done|]. intros [_ [_ H1 H2]].
        assert (validate_signatures (cp_signatures c) (proposal_hash (cp_proposal c)) ∅ = Ok tt)
          as Hs; [|congruence].
        apply validate_signatures_iff. split_and!; [done| |done]. apply Forall_forall. set_solver.
  - split; [intros [-> ?]; by right|]. intros [[? _]|(_ & _ & ? & ->)]; done.
Qed.
End ValidationTheory.
