(* ===== verification/ValidationProps.v ===== *)
(** * Properties of the validation rules

Exact acceptance conditions of [validate_proposal] and [validate_checkpoint], and what they
leave open. *)

From S2P Require Import Prelude F64 Crypto CryptoTheory Models Accounting Instances Config.
From S2P Require Import Ledger LedgerTheory LedgerProps Validation ValidationTheory.

Section ValidationProperties.
Context `{Crypto} `{SL : SerdeLaws}.

(** C8: [validate_proposal] accepts on the store of a valid chain exactly the proposals with
the next height, the hash of the tip, a later epoch than the tip, a claim at least (unless
empty ones are allowed), claims that verify, are plausible and refer to no future block, claim
ids that are new and different, and no node repeating its preceding sequence number; the set
of seen ids then grows by exactly the ids of the claims. *)
Theorem validate_proposal_exact chain p seen seen' tol allow :
  valid_chain chain ->
  validate_proposal p (store_of chain) seen tol allow = (seen', Ok tt) <->
  admissible chain p seen tol allow /\ seen' = ids_of (prop_claims p) ∪ seen.
Proof. apply validate_proposal_iff. Qed.

(** C7: [validate_checkpoint] accepts exactly the canonical genesis proposal, whatever it is
signed with, and the admissible proposals with at least the recorded quorum of signatures (one
when none is recorded), all by different signer names and all valid for the proposal hash. *)
Theorem validate_checkpoint_exact chain c tol q allow oseen oseen' :
  valid_chain chain ->
  validate_checkpoint c (store_of chain) tol q allow oseen = (oseen', Ok tt) <->
  (is_canonical_genesis (cp_proposal c) = true /\ oseen' = oseen) \/
  (is_canonical_genesis (cp_proposal c) = false /\
   admissible chain (cp_proposal c) (default ∅ oseen) tol allow /\ certified c /\
   oseen' = (fun seen => ids_of (cp_claims c) ∪ seen) <$> oseen).
Proof. apply validate_checkpoint_iff. Qed.

(** A validated proposal whose node sequences are also fresh is taken by the ledger. *)
Lemma admissible_extends chain c seen tol :
  valid_chain chain -> admissible chain (cp_proposal c) seen tol false -> 0 <= cp_epoch c ->
  ids_of (chain_claims chain) ⊆ seen ->
  NoDup (claim_key <$> chain_claims chain ++ cp_claims c) ->
  block_hash c ∉ (block_hash <$> chain) ->
  Forall (fun x => is_nan (compute_units (sc_claim x)) = false) (cp_claims c) ->
  extends chain c.
Proof.
  intros Hv [H1 H2 H3 H4 H5 H6 H7 H8] He Hsub Hk Hh Hcu. split; try done.
  rewrite fmap_app. apply NoDup_app. split; [apply (valid_chain_nodup _ Hv)|]. split; [|done].
  intros id Hid (x & -> & Hx)%list_elem_of_fmap. rewrite Forall_forall in H7. apply (H7 x Hx).
  apply Hsub. unfold ids_of. by apply elem_of_list_to_set.
Qed.

(** what validation leaves to the ledger: for a validated checkpoint, when the seen ids
cover the ledger, [append] can fail only because a node sequence number is reused, the block
hash is already present or a claim has NaN units (or a negative epoch at height 0). *)
Theorem validated_append_succeeds chain c seen tol q oseen' :
  valid_chain chain -> ids_of (chain_claims chain) ⊆ seen ->
  is_canonical_genesis (cp_proposal c) = false ->
  validate_checkpoint c (store_of chain) tol q false (Some seen) = (oseen', Ok tt) ->
  0 <= cp_epoch c ->
  NoDup (claim_key <$> chain_claims chain ++ cp_claims c) ->
  block_hash c ∉ (block_hash <$> chain) ->
  Forall (fun x => is_nan (compute_units (sc_claim x)) = false) (cp_claims c) ->
  append c (store_of chain) = Ok (store_of (chain ++ [c])).
Proof.
  intros Hv Hsub Hg Hval He Hk Hh Hcu. apply append_ok_iff; [done|]. split; [|done].
  apply validate_checkpoint_iff in Hval as [[? _]|(_ & Ha & _)]; [congruence| |done].
  by eapply admissible_extends.
Qed.
End ValidationProperties.

Section SignerNames.
Context `{CL : CryptoLaws}.

(** the signer names of a certificate are not bound to keys: one key holder can sign under
any list of different names, and the signature check accepts the certificate. *)
Theorem one_key_fills_quorum sk p names :
  String.length sk = 32%nat -> NoDup names ->
  let pk := public_key_from_private sk in
  validate_signatures
    ((fun n => mkQuorumSignature n (hex pk) (hex (sign (proposal_hash p) sk))) <$> names)
    (proposal_hash p) ∅ = Ok tt.
Proof.
  intros Hsk Hn. cbv zeta. apply validate_signatures_iff. rewrite <- list_fmap_compose. split_and!.
  - change (NoDup ((fun n : string => n) <$> names)). by rewrite list_fmap_id.
  - apply Forall_forall. set_solver.
  - apply Forall_fmap, Forall_true. intros n. unfold sig_ok, verify_share_for_proposal. cbn.
    rewrite !hex_decode_hex. by apply sign_verify.
Qed.
End SignerNames.

Module ValidationDemo.
#[local] Existing Instance Toy.crypto_inst.
#[local] Existing Instance Toy.serde_inst.
Import LedgerDemo.

Definition tol : f64 := f64_lit 1 2.

Lemma accepts_block1 :
  exists o, validate_checkpoint Demo.block1 (store_of chain1) tol 1 false (Some ∅) = (o, Ok tt).
Proof.
  assert (Hok : is_ok (validate_checkpoint Demo.block1 (store_of chain1) tol 1 false (Some ∅)).2 = true)
    by (vm_compute; reflexivity).
  destruct (validate_checkpoint _ _ _ _ _ _) as [o [[]|]]; [|discriminate Hok]. by exists o.
Qed.

Lemma validate_proposal_exact_witness :
  exists seen', validate_proposal Demo.proposal1 (store_of chain1) ∅ tol false = (seen', Ok tt) /\
    admissible chain1 Demo.proposal1 ∅ tol false.
Proof.
  assert (Hok : is_ok (validate_proposal Demo.proposal1 (store_of chain1) ∅ tol false).2 = true)
    by (vm_compute; reflexivity).
  destruct (validate_proposal Demo.proposal1 (store_of chain1) ∅ tol false) as [seen' [[]|]] eqn:E;
    [|discriminate Hok].
  exists seen'. split; [reflexivity|].
  exact (proj1 (proj1 (validate_proposal_exact (SL := toy_serde_laws) chain1 Demo.proposal1 ∅ seen' tol
    false chain1_valid) E)).
Defined.

Lemma validate_checkpoint_exact_witness : certified Demo.block1.
Proof.
  destruct accepts_block1 as [o E].
  destruct (proj1 (validate_checkpoint_exact (SL := toy_serde_laws) chain1 Demo.block1 tol 1 false
    (Some ∅) o chain1_valid) E) as [[Hg _]|(_ & _ & Hc & _)]; [|exact Hc].
  vm_compute in Hg. discriminate Hg.
Defined.

Lemma validated_append_succeeds_witness :
  append Demo.block1 (store_of chain1) = Ok (store_of (chain1 ++ [Demo.block1])).
Proof.
  destruct accepts_block1 as [o E]. pose proof extends_block1 as Hx.
  apply (validated_append_succeeds (SL := toy_serde_laws) chain1 Demo.block1 ∅ tol 1 o);
    [apply chain1_valid|unfold ids_of; vm_compute chain_claims; set_solver|vm_compute; reflexivity
    |exact E|apply Hx..].
Defined.

Lemma one_key_fills_quorum_witness :
  validate_signatures
    ((fun n => mkQuorumSignature n (hex (public_key_from_private Demo.seed))
                 (hex (sign (proposal_hash Demo.proposal1) Demo.seed))) <$> ["alice"; "bob"; "carol"])
    (proposal_hash Demo.proposal1) ∅ = Ok tt.
Proof.
  apply (one_key_fills_quorum (CL := toy_crypto_laws) Demo.seed Demo.proposal1 ["alice"; "bob"; "carol"]);
    [reflexivity|]. apply (bool_decide_eq_true_1 _). vm_compute. reflexivity.
Defined.
End ValidationDemo.
