(* ===== verification/Protocol.v ===== *)
(** * The consensus protocol ([src/consensus/protocol.rs])

The state machine of one node: [ProtocolState] as a record, its handlers as functions on
the pair of the protocol state and the store, and the public entry points of
[ConsensusProtocol], which return the messages and notifications they flush.  The mutex
makes every entry point atomic, so an execution is a sequence of entry points.

The environment is the class [Env]: the readings of the two clocks, indexed by how many
readings were taken, the key a hash map iteration starts with, and SQLite's [SUM]. *)

From S2P Require Import Prelude F64 Crypto Models Accounting Config Ledger Validation.

Definition MAX_RECENT_COMMIT_REJECTS : Z := 512.
Definition MAX_PENDING_CLAIMS : Z := 4096.
Definition MAX_PENDING_COMMITS : Z := 1024.

(** ** Environment *)

Class Env := {
  (** the [n]-th reading of [monotonic_now] *)
  clock : nat -> f64;
  (** the [n]-th reading of [utcnow_iso] *)
  utcnow : nat -> string;
  (** the first key a [HashMap] iteration yields *)
  hash_first : nat -> gmap string SignedContribution -> option string;
  (** SQLite's [SUM] over a column; [None] is [NULL] *)
  sql_sum : list f64 -> option f64;
}.

Class EnvLaws `{Env} := {
  utcnow_valid n : valid_str (utcnow n) = true;
  hash_first_key n m k : hash_first n m = Some k -> is_Some (m !! k);
  hash_first_some n m : m <> ∅ -> is_Some (hash_first n m);
  sql_sum_empty : sql_sum [] = None;
  sql_sum_number l x : sql_sum l = Some x -> is_nan x = false;
}.

(** ** State *)

Record ProtocolState := mkProtocolState {
  ps_node_id : string;
  ps_private_key : bytes;
  ps_public_key_hex : string;
  ps_pending : gmap string SignedContribution;
  ps_committed_claim_ids : gset string;
  ps_proposed_claim_ids : gset string;
  ps_proposals : gmap string CheckpointProposal;
  ps_signatures : gmap string (gmap string SignatureShare);
  ps_signed : gset string;
  ps_view : Z;
  ps_last_activity : f64;
  ps_peers : gmap string Heartbeat;
  ps_peer_seen : gmap string f64;
  ps_pending_commits : gmap Z Checkpoint;
  ps_recent_fork_alerts : gset string;
  ps_recent_commit_rejects : list string;
  ps_last_sync_request : f64;
  ps_sync_interval_seconds : f64;
  ps_outgoing : list (string * Message);
  ps_listener_calls : list (Z * string);
  (** how many readings of the clocks were taken so far *)
  ps_clock_reads : nat;
}.

(** Field updates. *)
Definition with_pending (x : gmap string SignedContribution) (st : ProtocolState) : ProtocolState :=
  mkProtocolState (ps_node_id st) (ps_private_key st) (ps_public_key_hex st) x
    (ps_committed_claim_ids st) (ps_proposed_claim_ids st) (ps_proposals st) (ps_signatures
    st) (ps_signed st) (ps_view st) (ps_last_activity st) (ps_peers st) (ps_peer_seen st)
    (ps_pending_commits st) (ps_recent_fork_alerts st) (ps_recent_commit_rejects st)
    (ps_last_sync_request st) (ps_sync_interval_seconds st) (ps_outgoing st)
    (ps_listener_calls st) (ps_clock_reads st).
Definition with_committed (x : gset string) (st : ProtocolState) : ProtocolState :=
  mkProtocolState (ps_node_id st) (ps_private_key st) (ps_public_key_hex st) (ps_pending st)
    x (ps_proposed_claim_ids st) (ps_proposals st) (ps_signatures st) (ps_signed st) (ps_view
    st) (ps_last_activity st) (ps_peers st) (ps_peer_seen st) (ps_pending_commits st)
    (ps_recent_fork_alerts st) (ps_recent_commit_rejects st) (ps_last_sync_request st)
    (ps_sync_interval_seconds st) (ps_outgoing st) (ps_listener_calls st) (ps_clock_reads st).
Definition with_proposed (x : gset string) (st : ProtocolState) : ProtocolState :=
  mkProtocolState (ps_node_id st) (ps_private_key st) (ps_public_key_hex st) (ps_pending st)
    (ps_committed_claim_ids st) x (ps_proposals st) (ps_signatures st) (ps_signed st) (ps_view
    st) (ps_last_activity st) (ps_peers st) (ps_peer_seen st) (ps_pending_commits st)
    (ps_recent_fork_alerts st) (ps_recent_commit_rejects st) (ps_last_sync_request st)
    (ps_sync_interval_seconds st) (ps_outgoing st) (ps_listener_calls st) (ps_clock_reads st).
Definition with_proposals (x : gmap string CheckpointProposal) (st : ProtocolState) : ProtocolState :=
  mkProtocolState (ps_node_id st) (ps_private_key st) (ps_public_key_hex st) (ps_pending st)
    (ps_committed_claim_ids st) (ps_proposed_claim_ids st) x (ps_signatures st) (ps_signed st)
    (ps_view st) (ps_last_activity st) (ps_peers st) (ps_peer_seen st) (ps_pending_commits st)
    (ps_recent_fork_alerts st) (ps_recent_commit_rejects st) (ps_last_sync_request st)
    (ps_sync_interval_seconds st) (ps_outgoing st) (ps_listener_calls st) (ps_clock_reads st).
Definition with_signatures (x : gmap string (gmap string SignatureShare)) (st : ProtocolState) : ProtocolState :=
  mkProtocolState (ps_node_id st) (ps_private_key st) (ps_public_key_hex st) (ps_pending st)
    (ps_committed_claim_ids st) (ps_proposed_claim_ids st) (ps_proposals st) x (ps_signed st)
    (ps_view st) (ps_last_activity st) (ps_peers st) (ps_peer_seen st) (ps_pending_commits st)
    (ps_recent_fork_alerts st) (ps_recent_commit_rejects st) (ps_last_sync_request st)
    (ps_sync_interval_seconds st) (ps_outgoing st) (ps_listener_calls st) (ps_clock_reads st).
Definition with_signed (x : gset string) (st : ProtocolState) : ProtocolState :=
  mkProtocolState (ps_node_id st) (ps_private_key st) (ps_public_key_hex st) (ps_pending st)
    (ps_committed_claim_ids st) (ps_proposed_claim_ids st) (ps_proposals st) (ps_signatures
    st) x (ps_view st) (ps_last_activity st) (ps_peers st) (ps_peer_seen st)
    (ps_pending_commits st) (ps_recent_fork_alerts st) (ps_recent_commit_rejects st)
    (ps_last_sync_request st) (ps_sync_interval_seconds st) (ps_outgoing st)
    (ps_listener_calls st) (ps_clock_reads st).
Definition with_view (x : Z) (st : ProtocolState) : ProtocolState :=
  mkProtocolState (ps_node_id st) (ps_private_key st) (ps_public_key_hex st) (ps_pending st)
    (ps_committed_claim_ids st) (ps_proposed_claim_ids st) (ps_proposals st) (ps_signatures
    st) (ps_signed st) x (ps_last_activity st) (ps_peers st) (ps_peer_seen st)
    (ps_pending_commits st) (ps_recent_fork_alerts st) (ps_recent_commit_rejects st)
    (ps_last_sync_request st) (ps_sync_interval_seconds st) (ps_outgoing st)
    (ps_listener_calls st) (ps_clock_reads st).
Definition with_last_activity (x : f64) (st : ProtocolState) : ProtocolState :=
  mkProtocolState (ps_node_id st) (ps_private_key st) (ps_public_key_hex st) (ps_pending st)
    (ps_committed_claim_ids st) (ps_proposed_claim_ids st) (ps_proposals st) (ps_signatures
    st) (ps_signed st) (ps_view st) x (ps_peers st) (ps_peer_seen st) (ps_pending_commits st)
    (ps_recent_fork_alerts st) (ps_recent_commit_rejects st) (ps_last_sync_request st)
    (ps_sync_interval_seconds st) (ps_outgoing st) (ps_listener_calls st) (ps_clock_reads st).
Definition with_peers (x : gmap string Heartbeat) (st : ProtocolState) : ProtocolState :=
  mkProtocolState (ps_node_id st) (ps_private_key st) (ps_public_key_hex st) (ps_pending st)
    (ps_committed_claim_ids st) (ps_proposed_claim_ids st) (ps_proposals st) (ps_signatures
    st) (ps_signed st) (ps_view st) (ps_last_activity st) x (ps_peer_seen st)
    (ps_pending_commits st) (ps_recent_fork_alerts st) (ps_recent_commit_rejects st)
    (ps_last_sync_request st) (ps_sync_interval_seconds st) (ps_outgoing st)
    (ps_listener_calls st) (ps_clock_reads st).
Definition with_peer_seen (x : gmap string f64) (st : ProtocolState) : ProtocolState :=
  mkProtocolState (ps_node_id st) (ps_private_key st) (ps_public_key_hex st) (ps_pending st)
    (ps_committed_claim_ids st) (ps_proposed_claim_ids st) (ps_proposals st) (ps_signatures
    st) (ps_signed st) (ps_view st) (ps_last_activity st) (ps_peers st) x (ps_pending_commits
    st) (ps_recent_fork_alerts st) (ps_recent_commit_rejects st) (ps_last_sync_request st)
    (ps_sync_interval_seconds st) (ps_outgoing st) (ps_listener_calls st) (ps_clock_reads st).
Definition with_pending_commits (x : gmap Z Checkpoint) (st : ProtocolState) : ProtocolState :=
  mkProtocolState (ps_node_id st) (ps_private_key st) (ps_public_key_hex st) (ps_pending st)
    (ps_committed_claim_ids st) (ps_proposed_claim_ids st) (ps_proposals st) (ps_signatures
    st) (ps_signed st) (ps_view st) (ps_last_activity st) (ps_peers st) (ps_peer_seen st) x
    (ps_recent_fork_alerts st) (ps_recent_commit_rejects st) (ps_last_sync_request st)
    (ps_sync_interval_seconds st) (ps_outgoing st) (ps_listener_calls st) (ps_clock_reads st).
Definition with_fork_alerts (x : gset string) (st : ProtocolState) : ProtocolState :=
  mkProtocolState (ps_node_id st) (ps_private_key st) (ps_public_key_hex st) (ps_pending st)
    (ps_committed_claim_ids st) (ps_proposed_claim_ids st) (ps_proposals st) (ps_signatures
    st) (ps_signed st) (ps_view st) (ps_last_activity st) (ps_peers st) (ps_peer_seen st)
    (ps_pending_commits st) x (ps_recent_commit_rejects st) (ps_last_sync_request st)
    (ps_sync_interval_seconds st) (ps_outgoing st) (ps_listener_calls st) (ps_clock_reads st).
Definition with_rejects (x : list string) (st : ProtocolState) : ProtocolState :=
  mkProtocolState (ps_node_id st) (ps_private_key st) (ps_public_key_hex st) (ps_pending st)
    (ps_committed_claim_ids st) (ps_proposed_claim_ids st) (ps_proposals st) (ps_signatures
    st) (ps_signed st) (ps_view st) (ps_last_activity st) (ps_peers st) (ps_peer_seen st)
    (ps_pending_commits st) (ps_recent_fork_alerts st) x (ps_last_sync_request st)
    (ps_sync_interval_seconds st) (ps_outgoing st) (ps_listener_calls st) (ps_clock_reads st).
Definition with_last_sync (x : f64) (st : ProtocolState) : ProtocolState :=
  mkProtocolState (ps_node_id st) (ps_private_key st) (ps_public_key_hex st) (ps_pending st)
    (ps_committed_claim_ids st) (ps_proposed_claim_ids st) (ps_proposals st) (ps_signatures
    st) (ps_signed st) (ps_view st) (ps_last_activity st) (ps_peers st) (ps_peer_seen st)
    (ps_pending_commits st) (ps_recent_fork_alerts st) (ps_recent_commit_rejects st) x
    (ps_sync_interval_seconds st) (ps_outgoing st) (ps_listener_calls st) (ps_clock_reads st).
Definition with_outgoing (x : list (string * Message)) (st : ProtocolState) : ProtocolState :=
  mkProtocolState (ps_node_id st) (ps_private_key st) (ps_public_key_hex st) (ps_pending st)
    (ps_committed_claim_ids st) (ps_proposed_claim_ids st) (ps_proposals st) (ps_signatures
    st) (ps_signed st) (ps_view st) (ps_last_activity st) (ps_peers st) (ps_peer_seen st)
    (ps_pending_commits st) (ps_recent_fork_alerts st) (ps_recent_commit_rejects st)
    (ps_last_sync_request st) (ps_sync_interval_seconds st) x (ps_listener_calls st)
    (ps_clock_reads st).
Definition with_listeners (x : list (Z * string)) (st : ProtocolState) : ProtocolState :=
  mkProtocolState (ps_node_id st) (ps_private_key st) (ps_public_key_hex st) (ps_pending st)
    (ps_committed_claim_ids st) (ps_proposed_claim_ids st) (ps_proposals st) (ps_signatures
    st) (ps_signed st) (ps_view st) (ps_last_activity st) (ps_peers st) (ps_peer_seen st)
    (ps_pending_commits st) (ps_recent_fork_alerts st) (ps_recent_commit_rejects st)
    (ps_last_sync_request st) (ps_sync_interval_seconds st) (ps_outgoing st) x (ps_clock_reads
    st).
Definition with_reads (x : nat) (st : ProtocolState) : ProtocolState :=
  mkProtocolState (ps_node_id st) (ps_private_key st) (ps_public_key_hex st) (ps_pending st)
    (ps_committed_claim_ids st) (ps_proposed_claim_ids st) (ps_proposals st) (ps_signatures
    st) (ps_signed st) (ps_view st) (ps_last_activity st) (ps_peers st) (ps_peer_seen st)
    (ps_pending_commits st) (ps_recent_fork_alerts st) (ps_recent_commit_rejects st)
    (ps_last_sync_request st) (ps_sync_interval_seconds st) (ps_outgoing st)
    (ps_listener_calls st) x.

(** What an entry point does to the outside: publish on a topic, call the listener. *)
Inductive event :=
| Publish (topic : string) (m : Message)
| Notify (height : Z) (hash : string).

Section Protocol.
Context `{Crypto} `{Serde} `{Env}.
Variable config : ExodusConfig.

Definition push (topic : string) (m : Message) (st : ProtocolState) : ProtocolState :=
  with_outgoing (ps_outgoing st ++ [(topic, m)]) st.

(** A reading of the monotonic clock, [now]. *)
Definition now (st : ProtocolState) : f64 * ProtocolState :=
  (clock (ps_clock_reads st), with_reads (S (ps_clock_reads st)) st).

(** ** Committee *)

Definition block_members (b : Checkpoint) : gset string :=
  (if String.eqb (prop_sealed_by (cp_proposal b)) GENESIS_SEALER then ∅
   else {[prop_sealed_by (cp_proposal b)]}) ∪
  list_to_set (qs_node_id <$> cp_signatures b).

(** [iter().take(n)] for a [usize]. *)
Definition take_usize {A} (n : Z) (l : list A) : list A :=
  take (Z.to_nat (Z.min n (Z.of_nat (length l)))) l.

Definition committee_set (st : ProtocolState) (s : ChainStore) : gset string :=
  {[ps_node_id st]} ∪
  ⋃ (block_members <$> take_usize (wrap_u64 (active_peer_window config)) (rev (blocks s))) ∪
  dom (ps_peers st).

Definition committee_members (st : ProtocolState) (s : ChainStore) : list string :=
  sort_strings (elements (committee_set st s)).

(** The order of [sealer_for_view]: more compute units first, then the smaller id. *)
Definition weight_le (s : ChainStore) (a b : string) : bool :=
  let wa := total_cu_for_node sql_sum s a in
  let wb := total_cu_for_node sql_sum s b in
  if f64_lt wb wa then true else if f64_lt wa wb then false else string_le a b.

Definition sealer_for_view (st : ProtocolState) (s : ChainStore) (view : Z) : string :=
  let committee := sort_by (weight_le s) (committee_members st s) in
  match committee with
  | [] => ps_node_id st
  | _ => default (ps_node_id st) (committee !! Z.to_nat (view mod Z.of_nat (length committee)))
  end.

Definition quorum_of (byz : bool) (n : Z) : Z :=
  if byz then
    let f := (n - 1) / 3 in
    Z.max (2 * f + 1) 1
  else n / 2 + 1.

Definition quorum_size (st : ProtocolState) (s : ChainStore) : Z :=
  wrap_u64 (quorum_of (byzantine config) (Z.max (Z.of_nat (length (committee_members st s))) 1)).

(** [common_ancestor]: the loop from the local head down. *)
Definition common_ancestor (s : ChainStore) (peer : list Checkpoint) : Z :=
  default (-1)
    (find_first
       (fun h =>
          match get_block s h with
          | None => false
          | Some local =>
              existsb (fun b => (cp_height b =? h) && String.eqb (block_hash b) (block_hash local))
                peer
          end)
       (rev (zrange 0 (height s)))).

(** ** Signing *)

Definition signature_share (st : ProtocolState) (p : CheckpointProposal) : SignatureShare :=
  mkShare (proposal_hash p) (prop_height p) (prop_epoch p) (ps_node_id st) (ps_public_key_hex st)
    (hex (sign (proposal_hash p) (ps_private_key st))).

(** [signatures.entry(h).or_default().insert(node, share)] *)
Definition add_share (h : string) (share : SignatureShare) (st : ProtocolState) : ProtocolState :=
  with_signatures
    (<[h := <[ss_node_id share := share]> (default ∅ (ps_signatures st !! h))]> (ps_signatures st)) st.

(** [signatures.entry(h).or_default()] *)
Definition or_default_shares (h : string) (st : ProtocolState) : ProtocolState :=
  with_signatures (<[h := default ∅ (ps_signatures st !! h)]> (ps_signatures st)) st.

Definition add_own_signature (p : CheckpointProposal) (st : ProtocolState) : ProtocolState :=
  let share := signature_share st p in
  let p_hash := proposal_hash p in
  let st := add_share p_hash share st in
  let st := with_signed ({[p_hash]} ∪ ps_signed st) st in
  push SIGNATURES (MSignatureShare share) st.

(** ** Sync requests and bounded queues *)

Definition request_sync (from_height : Z) (st : ProtocolState) : ProtocolState :=
  let '(t, st) := now st in
  if f64_gt (ps_sync_interval_seconds st) f64_0 &&
     f64_lt (f64_sub t (ps_last_sync_request st)) (ps_sync_interval_seconds st)
  then st
  else push SYNC (MSyncRequest (mkSyncRequest (ps_node_id st) from_height)) (with_last_sync t st).

Definition commit_reject_seen (h : string) (st : ProtocolState) : bool :=
  existsb (fun h' => String.eqb h' h) (ps_recent_commit_rejects st).

(** [while len > n { pop_front() }] *)
Definition pop_front_to {A} (n : Z) (l : list A) : list A :=
  drop (Z.to_nat (Z.of_nat (length l) - n)) l.

Definition note_commit_reject (h : string) (st : ProtocolState) : ProtocolState :=
  if commit_reject_seen h st then st
  else with_rejects (pop_front_to MAX_RECENT_COMMIT_REJECTS (ps_recent_commit_rejects st ++ [h])) st.

(** The keys of a [BTreeMap] in order. *)
Definition btree_keys {A} (m : gmap Z A) : list Z := sort_by Z.leb (elements (dom m)).

(** The loop that drops the lowest heights; [fuel] is the size of the map. *)
Fixpoint drop_lowest (fuel : nat) (m : gmap Z Checkpoint) : gmap Z Checkpoint :=
  match fuel with
  | O => m
  | S fuel' =>
      if MAX_PENDING_COMMITS <? Z.of_nat (size m) then
        match btree_keys m with
        | h :: _ => drop_lowest fuel' (delete h m)
        | [] => m
        end
      else m
  end.

Definition insert_pending_commit (c : Checkpoint) (st : ProtocolState) : ProtocolState :=
  let m := <[cp_height c := c]> (ps_pending_commits st) in
  with_pending_commits (drop_lowest (size m) m) st.

(** The loop that bounds the claim queue: it removes the first key of the iteration. *)
Fixpoint evict (fuel : nat) (n : nat) (m : gmap string SignedContribution) :
  gmap string SignedContribution :=
  match fuel with
  | O => m
  | S fuel' =>
      if MAX_PENDING_CLAIMS <? Z.of_nat (size m) then
        match hash_first n m with
        | Some id => evict fuel' n (delete id m)
        | None => m
        end
      else m
  end.

(** ** Commit *)

Definition forget_claim (id : string) (st : ProtocolState) : ProtocolState :=
  with_proposed (ps_proposed_claim_ids st ∖ {[id]}) (with_pending (delete id (ps_pending st)) st).

Definition mark_committed (id : string) (st : ProtocolState) : ProtocolState :=
  with_committed ({[id]} ∪ ps_committed_claim_ids st) st.

(** After a successful append. *)
Definition settle_claims (claims : list SignedContribution) (st : ProtocolState) : ProtocolState :=
  foldl (fun st x => mark_committed (signed_id x) (forget_claim (signed_id x) st)) st claims.

(** After an append refused because the block is already covered. *)
Definition settle_duplicate (s : ChainStore) (claims : list SignedContribution)
  (st : ProtocolState) : ProtocolState :=
  foldl (fun st x =>
           let st := forget_claim (signed_id x) st in
           if claim_exists s (signed_id x) then mark_committed (signed_id x) st else st)
    st claims.

(** The block is not above the local head. *)
Definition not_above_head (s : ChainStore) (h : Z) : bool :=
  match head s with Some hd => h <=? cp_height hd | None => false end.

Definition commit_local (c : Checkpoint) (ns : ProtocolState * ChainStore) :
  ProtocolState * ChainStore :=
  let '(st, s) := ns in
  if not_above_head s (cp_height c) then (st, s)
  else
    match append c s with
    | Err _ =>
        if is_already_committed s c then (settle_duplicate s (cp_claims c) st, s)
        else (request_sync (wrap_i64 (cp_height c - 1)) st, s)
    | Ok s' =>
        let st := settle_claims (cp_claims c) st in
        let p_hash := proposal_hash (cp_proposal c) in
        let st := with_proposals (delete p_hash (ps_proposals st)) st in
        let st := with_signatures (delete p_hash (ps_signatures st)) st in
        let st := with_view (Z.max (ps_view st) (wrap_i64 (cp_epoch c + 1))) st in
        let '(t, st) := now st in
        let st := with_last_activity t st in
        let st := push COMMITS (MCommitMessage (mkCommitMessage c)) st in
        (with_listeners (ps_listener_calls st ++ [(cp_height c, block_hash c)]) st, s')
    end.

Definition share_le (a b : SignatureShare) : bool := string_le (ss_node_id a) (ss_node_id b).

Definition share_signature (s : SignatureShare) : QuorumSignature :=
  mkQuorumSignature (ss_node_id s) (ss_public_key_hex s) (ss_signature_hex s).

(** The checkpoint [maybe_commit] builds from the shares it holds. *)
Definition seal (p : CheckpointProposal) (shares : gmap string SignatureShare) (q : Z) : Checkpoint :=
  mkCheckpoint p (share_signature <$> sort_by share_le (map_to_list shares).*2) q.

Definition maybe_commit (p : CheckpointProposal) (ns : ProtocolState * ChainStore) :
  ProtocolState * ChainStore :=
  let '(st, s) := ns in
  let shares := default ∅ (ps_signatures st !! proposal_hash p) in
  if Z.of_nat (size shares) <? quorum_size st s then (st, s)
  else
    let c := seal p shares (quorum_size st s) in
    match (validate_checkpoint c s (flops_tolerance config) (quorum_size st s) false
             (Some (ps_committed_claim_ids st))).2 with
    | Err _ => (st, s)
    | Ok _ => commit_local c (st, s)
    end.

(** ** Handlers *)

Definition on_claims (g : ContributionGossip) (st : ProtocolState) : ProtocolState :=
  let signed := cg_signed g in
  let id := claim_id (sc_claim signed) in
  if negb (signed_verify signed) then st
  else if bool_decide (is_Some (ps_pending st !! id)) || bool_decide (id ∈ ps_committed_claim_ids st)
          || bool_decide (id ∈ ps_proposed_claim_ids st)
  then st
  else
    let m := <[id := signed]> (ps_pending st) in
    with_pending (evict (size m) (ps_clock_reads st) m) st.

(** The loop over the claims of an accepted proposal. *)
Definition take_claims (claims : list SignedContribution) (st : ProtocolState) : ProtocolState :=
  foldl (fun st x =>
           with_pending (delete (signed_id x) (ps_pending st))
             (with_proposed ({[signed_id x]} ∪ ps_proposed_claim_ids st) st))
    st claims.

(** A proposal is stored, its claims leave the queue, the own share is added. *)
Definition accept_proposal (p : CheckpointProposal) (st : ProtocolState) : ProtocolState :=
  let p_hash := proposal_hash p in
  let st := with_proposals (<[p_hash := p]> (ps_proposals st)) st in
  let st := or_default_shares p_hash st in
  let st := take_claims (prop_claims p) st in
  let st := add_own_signature p st in
  let '(t, st) := now st in
  with_last_activity t st.

Definition on_proposal (pm : ProposalMessage) (ns : ProtocolState * ChainStore) :
  ProtocolState * ChainStore :=
  let '(st, s) := ns in
  let p := pm_proposal pm in
  let p_hash := proposal_hash p in
  if bool_decide (is_Some (ps_proposals st !! p_hash)) || bool_decide (p_hash ∈ ps_signed st)
  then (st, s)
  else if not_above_head s (prop_height p) then (st, s)
  else if negb (String.eqb (prop_sealed_by p) (sealer_for_view st s (prop_epoch p))) then (st, s)
  else
    match (validate_proposal p s (ps_committed_claim_ids st) (flops_tolerance config) false).2 with
    | Err _ => (st, s)
    | Ok _ =>
        let st := accept_proposal p st in
        if String.eqb (sealer_for_view st s (ps_view st)) (ps_node_id st)
        then maybe_commit p (st, s)
        else (st, s)
    end.

Definition on_signature (share : SignatureShare) (ns : ProtocolState * ChainStore) :
  ProtocolState * ChainStore :=
  let '(st, s) := ns in
  if negb (share_verify share) then (st, s)
  else
    match ps_proposals st !! ss_proposal_hash share with
    | None => (st, s)
    | Some p => maybe_commit p (add_share (ss_proposal_hash share) share st, s)
    end.

(** One turn of the loop of [flush_pending_commits]. *)
Definition flush_height (ns : ProtocolState * ChainStore) (h : Z) : ProtocolState * ChainStore :=
  let '(st, s) := ns in
  if negb (h =? from_option cp_height (-1) (head s) + 1) then (st, s)
  else
    match ps_pending_commits st !! h with
    | None => (st, s)
    | Some c =>
        let st := with_pending_commits (delete h (ps_pending_commits st)) st in
        match (validate_checkpoint c s (flops_tolerance config) (quorum_size st s) false None).2 with
        | Ok _ => commit_local c (st, s)
        | Err _ => (st, s)
        end
    end.

Definition flush_pending_commits (ns : ProtocolState * ChainStore) : ProtocolState * ChainStore :=
  let '(st, s) := ns in
  match head s with
  | None => (st, s)
  | Some _ => foldl flush_height (st, s) (btree_keys (ps_pending_commits st))
  end.

(** A commit at or below the local head: a fork at the head height raises an alert, and the
smaller hash is asked for. *)
Definition stale_commit (c h : Checkpoint) (st : ProtocolState) : ProtocolState :=
  if negb (String.eqb (block_hash h) (block_hash c)) && (cp_height c =? cp_height h) then
    let st := push FORKS (MForkAlert (mkForkAlert (ps_node_id st) (cp_height c) (block_hash h)
                                        (block_hash c))) st in
    if string_lt (block_hash c) (block_hash h) then request_sync (-1) st else st
  else st.

(** The part of [on_commit] after the routing by height and parent. *)
Definition apply_commit (c : Checkpoint) (ns : ProtocolState * ChainStore) :
  ProtocolState * ChainStore :=
  let '(st, s) := ns in
  if commit_reject_seen (block_hash c) st then (st, s)
  else
    let '(seen, r) := validate_checkpoint c s (flops_tolerance config) (quorum_size st s) false
                        (Some (ps_committed_claim_ids st)) in
    match r with
    | Err _ => (note_commit_reject (block_hash c) st, s)
    | Ok _ =>
        let st := with_committed (default (ps_committed_claim_ids st) seen) st in
        flush_pending_commits (commit_local c (st, s))
    end.

Definition on_commit (cm : CommitMessage) (ns : ProtocolState * ChainStore) :
  ProtocolState * ChainStore :=
  let '(st, s) := ns in
  let c := cm_checkpoint cm in
  match head s with
  | Some h =>
      if cp_height c <=? cp_height h then (stale_commit c h st, s)
      else if cp_height h + 1 <? cp_height c
      then (request_sync (cp_height h) (insert_pending_commit c st), s)
      else if negb (String.eqb (prop_prev_hash (cp_proposal c)) (block_hash h))
      then (request_sync (-1) st, s)
      else apply_commit c (st, s)
  | None =>
      if negb (cp_height c =? 0)
      then (request_sync (-1) (insert_pending_commit c st), s)
      else apply_commit c (st, s)
  end.

Definition on_heartbeat (hb : Heartbeat) (ns : ProtocolState * ChainStore) :
  ProtocolState * ChainStore :=
  let '(st, s) := ns in
  if String.eqb (hb_node_id hb) (ps_node_id st) then (st, s)
  else
    let st := with_peers (<[hb_node_id hb := hb]> (ps_peers st)) st in
    let '(t, st) := now st in
    let st := with_peer_seen (<[hb_node_id hb := t]> (ps_peer_seen st)) st in
    match head s with
    | None => (request_sync (-1) st, s)
    | Some h =>
        if cp_height h <? hb_height hb then (request_sync (cp_height h) st, s)
        else if (hb_height hb =? cp_height h) && negb (String.eqb (hb_block_hash hb) (block_hash h))
        then (push FORKS (MForkAlert (mkForkAlert (ps_node_id st) (hb_height hb) (block_hash h)
                                        (hb_block_hash hb))) st, s)
        else (st, s)
    end.

Definition prune_stale_peers (t stale_after : f64) (st : ProtocolState) : ProtocolState :=
  if f64_le stale_after f64_0 then st
  else
    let cutoff := f64_sub t stale_after in
    with_peers
      (filter (fun kv => from_option (fun seen => f64_gt seen cutoff) true
                           (ps_peer_seen st !! kv.1) = true) (ps_peers st)) st.

Definition on_fork (a : ForkAlert) (st : ProtocolState) : ProtocolState :=
  let key := fa_observed_hash_a a +:+ fa_observed_hash_b a in
  if bool_decide (key ∈ ps_recent_fork_alerts st) then st
  else with_fork_alerts ({[key]} ∪ ps_recent_fork_alerts st) st.

Definition on_sync_request (r : SyncRequest) (ns : ProtocolState * ChainStore) :
  ProtocolState * ChainStore :=
  let '(st, s) := ns in
  if String.eqb (sq_node_id r) (ps_node_id st) then (st, s)
  else
    let bs := omap (get_block s) (zrange (wrap_i64 (sq_from_height r + 1)) (height s)) in
    match bs with
    | [] => (st, s)
    | _ => (push SYNC (MSyncResponse (mkSyncResponse (ps_node_id st) bs)) st, s)
    end.

(** ** Fork reorganisation *)

Definition height_le (a b : Checkpoint) : bool := cp_height a <=? cp_height b.

(** The incoming blocks chain off each other from the given hash and height. *)
Fixpoint contiguous (bs : list Checkpoint) (expected_prev : string) (expected_height : Z) : bool :=
  match bs with
  | [] => true
  | b :: rest =>
      (cp_height b =? expected_height) && String.eqb (prop_prev_hash (cp_proposal b)) expected_prev &&
      contiguous rest (block_hash b) (expected_height + 1)
  end.

(** [if store.get_block(h).is_none() { let _ = store.append(b); }] over a list. *)
Definition append_missing (bs : list Checkpoint) (s : ChainStore) : ChainStore :=
  foldl (fun s b =>
           match get_block s (cp_height b) with
           | None => match append b s with Ok s' => s' | Err _ => s end
           | Some _ => s
           end) s bs.

(** The restore path of a reorganisation that fails after [applied] blocks. *)
Definition restore (ancestor : Z) (saved : list Checkpoint) (applied : nat) (s : ChainStore) :
  ChainStore :=
  append_missing saved (rollback_store ancestor (append_missing (take applied saved) s)).

(** The apply loop; it stops with the restored store at the first invalid block. *)
Fixpoint reorg_apply (incoming : list Checkpoint) (ancestor : Z) (saved : list Checkpoint)
  (applied : nat) (ns : ProtocolState * ChainStore) : ProtocolState * ChainStore :=
  match incoming with
  | [] =>
      let '(st, s) := ns in (with_committed (all_committed_claim_ids s) st, s)
  | b :: rest =>
      let '(st, s) := ns in
      match (validate_checkpoint b s (flops_tolerance config) (quorum_size st s) false (Some ∅)).2 with
      | Err _ =>
          let s := restore ancestor saved applied s in
          (with_committed (all_committed_claim_ids s) st, s)
      | Ok _ => reorg_apply rest ancestor saved (S applied) (commit_local b (st, s))
      end
  end.

(** The branch that replaces the local one, once it is known to be contiguous. *)
Definition reorg (ancestor : Z) (incoming : list Checkpoint) (ns : ProtocolState * ChainStore) :
  ProtocolState * ChainStore :=
  let '(st, s) := ns in
  let saved := omap (get_block s) (zrange (ancestor + 1) (height s)) in
  let '(st, s) :=
    if ancestor <? height s then
      let s' := rollback_store ancestor s in
      (with_pending_commits (filter (fun kv => kv.1 <= height s') (ps_pending_commits st)) st, s')
    else (st, s) in
  reorg_apply incoming ancestor saved 0 (st, s).

Definition reconcile_chain (peer : list Checkpoint) (ns : ProtocolState * ChainStore) :
  ProtocolState * ChainStore :=
  let '(st, s) := ns in
  let bs := sort_by height_le peer in
  match last bs with
  | None => (st, s)
  | Some tip =>
      if cp_height tip <? height s then (st, s)
      else if (cp_height tip =? height s) &&
              match head s with
              | Some local => string_le (block_hash local) (block_hash tip)
              | None => false
              end
      then (st, s)
      else
        let ancestor := common_ancestor s bs in
        let incoming := filter (fun b => ancestor < cp_height b) bs in
        let expected_prev := from_option block_hash GENESIS_PREV_HASH (get_block s ancestor) in
        if contiguous incoming expected_prev (ancestor + 1)
        then reorg ancestor incoming (st, s)
        else (st, s)
  end.

Definition on_sync_response (r : SyncResponse) (ns : ProtocolState * ChainStore) :
  ProtocolState * ChainStore :=
  if existsb (fun b => cp_height b =? 0) (sp_blocks r) then reconcile_chain (sp_blocks r) ns
  else foldl (fun ns b => on_commit (mkCommitMessage b) ns) ns (sp_blocks r).

(** ** Proposing *)

Definition claim_le (a b : SignedContribution) : bool := string_le (signed_id a) (signed_id b).

(** The claims of a new proposal: the queued claims not yet committed or proposed. *)
Definition proposable (st : ProtocolState) : list SignedContribution :=
  sort_by claim_le
    (map_to_list
       (filter (fun kv => (kv.1 ∉ ps_committed_claim_ids st) /\ (kv.1 ∉ ps_proposed_claim_ids st))
          (ps_pending st))).*2.

Definition propose_internal (ns : ProtocolState * ChainStore) : ProtocolState * ChainStore :=
  let '(st, s) := ns in
  if negb (String.eqb (sealer_for_view st s (ps_view st)) (ps_node_id st)) then (st, s)
  else
    match head s with
    | None => (st, s)
    | Some hd =>
        if existsb (fun kv => prop_height kv.2 =? cp_height hd + 1) (map_to_list (ps_proposals st))
        then (st, s)
        else
          let claims := proposable st in
          if bool_decide (claims = []) then (st, s)
          else
            let p := mkProposal (ps_view st) (wrap_i64 (cp_height hd + 1)) (block_hash hd)
                       (ps_node_id st) claims (utcnow (ps_clock_reads st)) in
            let st := with_reads (S (ps_clock_reads st)) st in
            match (validate_proposal p s ∅ (flops_tolerance config) false).2 with
            | Err _ => (st, s)
            | Ok _ =>
                let st := accept_proposal p st in
                maybe_commit p (push PROPOSALS (MProposalMessage (mkProposalMessage p)) st, s)
            end
    end.

(** ** Entry points *)

Definition flush (d : list (string * Message) * list (Z * string)) : list event :=
  map (fun tm => Publish tm.1 tm.2) d.1 ++ map (fun hb => Notify hb.1 hb.2) d.2.

Definition drain (st : ProtocolState) :
  ProtocolState * (list (string * Message) * list (Z * string)) :=
  (with_listeners [] (with_outgoing [] st), (ps_outgoing st, ps_listener_calls st)).

(** Lock, run the handler, drain, unlock, flush. *)
Definition run (handler : ProtocolState * ChainStore -> ProtocolState * ChainStore)
  (ns : ProtocolState * ChainStore) : ProtocolState * ChainStore * list event :=
  let '(st, s) := handler ns in
  let '(st, d) := drain st in
  (st, s, flush d).

Definition submit_claim (signed : SignedContribution) (ns : ProtocolState * ChainStore) :
  ProtocolState * ChainStore * list event * result string ValidationError :=
  let '(st, s) := ns in
  let c := sc_claim signed in
  if negb (String.eqb (claim_node_id c) (ps_node_id st)) then (st, s, [], Err SubmitForeignClaim)
  else if negb (signed_verify signed) then (st, s, [], Err SubmitBadSignature)
  else if negb (flops_is_plausible c (flops_tolerance config)) then (st, s, [], Err SubmitImplausible)
  else
    let insert (ns : ProtocolState * ChainStore) :=
      let '(st, s) := ns in
      if bool_decide (is_Some (ps_pending st !! claim_id c)) ||
         bool_decide (claim_id c ∈ ps_committed_claim_ids st)
      then (st, s)
      else (push CLAIMS (MContributionGossip (mkGossip signed))
              (with_pending (<[claim_id c := signed]> (ps_pending st)) st), s) in
    (run insert (st, s), Ok (claim_id c)).

Definition on_state (f : ProtocolState -> ProtocolState) (ns : ProtocolState * ChainStore) :
  ProtocolState * ChainStore := (f ns.1, ns.2).

(** The dispatch of [receive]: a message of another type than its topic's is dropped. *)
Definition dispatch (topic : string) (m : Message) (ns : ProtocolState * ChainStore) :
  ProtocolState * ChainStore :=
  if String.eqb topic CLAIMS then
    match m with MContributionGossip g => on_state (on_claims g) ns | _ => ns end
  else if String.eqb topic PROPOSALS then
    match m with MProposalMessage p => on_proposal p ns | _ => ns end
  else if String.eqb topic SIGNATURES then
    match m with MSignatureShare sh => on_signature sh ns | _ => ns end
  else if String.eqb topic COMMITS then
    match m with MCommitMessage c => on_commit c ns | _ => ns end
  else if String.eqb topic HEARTBEATS then
    match m with MHeartbeat h => on_heartbeat h ns | _ => ns end
  else if String.eqb topic FORKS then
    match m with MForkAlert a => on_state (on_fork a) ns | _ => ns end
  else ns.

Definition receive (topic : string) (m : Message) := run (dispatch topic m).
Definition handle_sync_request (r : SyncRequest) := run (on_sync_request r).
Definition handle_sync_response (r : SyncResponse) := run (on_sync_response r).
Definition propose_now := run propose_internal.

Definition is_sealer (st : ProtocolState) (s : ChainStore) : bool :=
  String.eqb (sealer_for_view st s (ps_view st)) (ps_node_id st).

(** The view change of [tick]. *)
Definition tick_view (t : f64) (s : ChainStore) (st : ProtocolState) : ProtocolState * bool :=
  if f64_gt (f64_sub t (ps_last_activity st)) (election_timeout_seconds config) then
    let was_sealer := is_sealer st s in
    let st := with_view (wrap_i64 (ps_view st + 1)) st in
    let takeover := negb was_sealer && is_sealer st s in
    (with_last_activity t st, takeover)
  else (st, false).

Definition heartbeat_of (st : ProtocolState) (s : ChainStore) (h : Checkpoint) : Heartbeat :=
  mkHeartbeat (ps_node_id st) (cp_height h) (block_hash h) (cp_epoch h)
    (prop_sealed_by (cp_proposal h))
    (wrap_i64 (foldr Z.add 0 (map (fun b => Z.of_nat (length (cp_signatures b))) (blocks s)))).

(** The locked part of [tick], with its flush, and whether the node takes over as sealer. *)
Definition tick_locked (ns : ProtocolState * ChainStore) :
  ProtocolState * ChainStore * list event * bool :=
  let '(st, s) := ns in
  let '(t, st) := now st in
  let st := prune_stale_peers t (peer_stale_after config) st in
  let '(st, takeover) := tick_view t s st in
  let '(st, (msgs, listeners)) := drain st in
  let msgs :=
    match head s with
    | Some h => msgs ++ [(HEARTBEATS, MHeartbeat (heartbeat_of st s h))]
    | None => msgs
    end in
  (st, s, flush (msgs, listeners), takeover).

Definition tick (ns : ProtocolState * ChainStore) : ProtocolState * ChainStore * list event :=
  let '(st, s, evs, takeover) := tick_locked ns in
  if takeover then
    let '(st, s, evs') := propose_now (st, s) in (st, s, evs ++ evs')
  else (st, s, evs).

(** ** Queries *)

Definition sealer_node (st : ProtocolState) (s : ChainStore) : string :=
  sealer_for_view st s (ps_view st).
Definition pending_claims_count (st : ProtocolState) : Z := Z.of_nat (size (ps_pending st)).
Definition active_peers (st : ProtocolState) (s : ChainStore) : list string := committee_members st s.
Definition peer_count (st : ProtocolState) : Z := Z.of_nat (size (ps_peers st)).
Definition signatures_for (p_hash : string) (st : ProtocolState) : Z :=
  Z.of_nat (size (default ∅ (ps_signatures st !! p_hash))).

(** ** Construction *)

Definition ensure_genesis (ns : ProtocolState * ChainStore) : ProtocolState * ChainStore :=
  let '(st, s) := ns in
  if negb (height s =? -1) then
    (with_view (match head s with Some h => wrap_i64 (cp_epoch h + 1) | None => 1 end) st, s)
  else
    let s := match append genesis_checkpoint s with Ok s' => s' | Err _ => s end in
    let '(t, st) := now (with_view 1 st) in
    (with_last_activity t st, s).

(** [ConsensusProtocol::new] *)
Definition new (node_id : string) (private_key : bytes) (public_key_hex : string) (s : ChainStore) :
  ProtocolState * ChainStore :=
  let ids : gset string := list_to_set (map rec_claim_id (all_claims s)) in
  ensure_genesis
    (mkProtocolState node_id private_key public_key_hex ∅ ids ∅ ∅ ∅ ∅ 1 (clock 0) ∅ ∅ ∅ ∅ []
       f64_0 (sync_request_interval_seconds config) [] [] 1, s).

End Protocol.
