(* ===== verification/ProtocolTheory.v ===== *)
(** * Theory of the protocol: the ledger side

The chains a node can hold: every block but a canonical genesis was validated against the
blocks before it.  How each handler changes the chain. *)

From S2P Require Import Prelude F64 Crypto CryptoTheory Models Accounting Config Ledger.
From S2P Require Import LedgerTheory Validation ValidationTheory Protocol.

Section SealedChains.
Context `{Crypto} `{SL : SerdeLaws}.
Variable tol : f64.

(** ** Sealed chains *)

(** How a block may stand after the blocks [pre]: it is a canonical genesis at height 0, or
an admissible, certified block. *)
Definition block_ok (pre : list Checkpoint) (c : Checkpoint) : Prop :=
  (pre = [] /\ is_canonical_genesis (cp_proposal c) = true) \/
  (admissible pre (cp_proposal c) ∅ tol false /\ certified c).

Definition sealed (chain : list Checkpoint) : Prop :=
  forall i c, chain !! i = Some c -> block_ok (take i chain) c.

(** A chain that is valid for the ledger and sealed. *)
Definition sound_chain (chain : list Checkpoint) : Prop := valid_chain chain /\ sealed chain.

Lemma sealed_nil : sealed [].
Proof. intros i c Hi. by rewrite lookup_nil in Hi. Qed.

Lemma sealed_snoc chain c : sealed (chain ++ [c]) <-> sealed chain /\ block_ok chain c.
Proof.
  split.
  - intros Hs. split.
    + intros i c' Hi. pose proof (lookup_lt_Some _ _ _ Hi).
      specialize (Hs i c'). rewrite lookup_app_l, take_app_le in Hs by lia. by apply Hs.
    + specialize (Hs (length chain) c). rewrite list_lookup_middle, take_app_length in Hs by done.
      by apply Hs.
  - intros [Hs Hc] i c' [[Hi Hl]|[-> ->]]%lookup_snoc_Some.
    + rewrite take_app_le by lia. by apply Hs.
    + by rewrite take_app_length.
Qed.

Lemma sealed_take n chain : sealed chain -> sealed (take n chain).
Proof.
  intros Hs i c [Hi Hlt]%lookup_take_Some. rewrite take_take, Nat.min_l by lia. by apply Hs.
Qed.

Lemma sound_take n chain : sound_chain chain -> sound_chain (take n chain).
Proof. intros [? ?]. split; [by apply valid_chain_take|by apply sealed_take]. Qed.

Lemma sound_nil : sound_chain [].
Proof. split; [constructor|apply sealed_nil]. Qed.

Lemma sound_snoc chain c :
  sound_chain chain -> extends chain c -> wf_checkpoint c = true -> block_ok chain c ->
  sound_chain (chain ++ [c]).
Proof. intros [Hv Hs] He Hw Hb. split; [by constructor|by apply sealed_snoc]. Qed.

Lemma admissible_weaken chain p seen t allow :
  admissible chain p seen t allow -> admissible chain p ∅ t allow.
Proof. intros []. split; try done. apply Forall_forall. set_solver. Qed.

(** ** Storage keeps blocks sound *)

Lemma last_lookup_of {A} (l : list A) x : last l = Some x -> exists i, l !! i = Some x.
Proof. rewrite last_lookup. eauto. Qed.

(** Two chains that differ in quorum fields only. *)
Definition same_blocks (l1 l2 : list Checkpoint) : Prop :=
  Forall2 (fun a b => cp_proposal a = cp_proposal b /\ cp_signatures a = cp_signatures b) l1 l2.

Lemma same_blocks_hash l1 l2 : same_blocks l1 l2 -> (block_hash <$> l1) = (block_hash <$> l2).
Proof.
  induction 1 as [|a b l1 l2 [E1 E2] _ IH]; [done|]. rewrite !fmap_cons, IH. f_equal.
  unfold block_hash. by rewrite E1, E2.
Qed.

Lemma same_blocks_claims l1 l2 : same_blocks l1 l2 -> chain_claims l1 = chain_claims l2.
Proof.
  induction 1 as [|a b l1 l2 [E1 E2] _ IH]; [done|]. unfold chain_claims in *. cbn. rewrite IH.
  unfold cp_claims. by rewrite E1.
Qed.

Lemma same_blocks_length l1 l2 : same_blocks l1 l2 -> length l1 = length l2.
Proof. apply Forall2_length. Qed.

Lemma same_blocks_last l1 l2 :
  same_blocks l1 l2 ->
  match last l1, last l2 with
  | Some a, Some b => cp_proposal a = cp_proposal b /\ cp_signatures a = cp_signatures b
  | None, None => True
  | _, _ => False
  end.
Proof.
  intros HF. rewrite !last_lookup, (same_blocks_length _ _ HF).
  destruct (l1 !! _) as [a|] eqn:E1, (l2 !! _) as [b|] eqn:E2; try done.
  - by apply (Forall2_lookup_lr _ _ _ _ _ _ HF E1 E2).
  - apply (Forall2_lookup_l _ _ _ _ _ HF) in E1 as (? & ? & _). congruence.
  - apply (Forall2_lookup_r _ _ _ _ _ HF) in E2 as (? & ? & _). congruence.
Qed.

Lemma same_blocks_tip l1 l2 : same_blocks l1 l2 -> tip_hash l1 = tip_hash l2.
Proof.
  intros HF%same_blocks_last. unfold tip_hash.
  destruct (last l1), (last l2); try done. destruct HF as [E1 E2]. unfold block_hash. by rewrite E1, E2.
Qed.

Lemma same_blocks_stored l : same_blocks l (stored_checkpoint <$> l).
Proof.
  induction l as [|c l IH]; constructor; [|done].
  by rewrite stored_checkpoint_proposal, stored_checkpoint_signatures.
Qed.

Lemma same_blocks_refl l : same_blocks l l.
Proof. induction l; by constructor. Qed.

Lemma extends_same l1 l2 c : same_blocks l1 l2 -> extends l1 c -> extends l2 (stored_checkpoint c).
Proof.
  intros HF [H1 H2 H3 H4 H5 H6 H7].
  split; unfold cp_height, cp_epoch, cp_claims in *;
    rewrite ?stored_checkpoint_proposal, ?stored_checkpoint_hash,
      <- ?(same_blocks_length _ _ HF), <- ?(same_blocks_tip _ _ HF),
      <- ?(same_blocks_claims _ _ HF), <- ?(same_blocks_hash _ _ HF); done.
Qed.

Lemma wf_quorum c : wf_checkpoint c = true -> 0 <= cp_quorum c.
Proof. unfold wf_checkpoint, in_u64. intros ?. bool_prop. lia. Qed.

Lemma stored_quorum_le c :
  0 <= cp_quorum c ->
  required_quorum (stored_checkpoint c) <= Z.max (required_quorum c) (Z.of_nat (length (cp_signatures c))).
Proof.
  intros Hq. pose proof (Z.mod_le (cp_quorum c + 2 ^ 63) (2 ^ 64) ltac:(lia) ltac:(lia)).
  unfold stored_checkpoint, legacy_quorum, required_quorum. cbn.
  destruct (_ && _); cbn [cp_quorum].
  - assert (usize_len (cp_signatures c) <= Z.of_nat (length (cp_signatures c)))
      by (apply wrap_u64_le; lia).
    destruct (0 <? usize_len _) eqn:E1, (0 <? cp_quorum c) eqn:E2; lia.
  - unfold wrap_i64. destruct (0 <? Z.max _ _) eqn:E1, (0 <? cp_quorum c) eqn:E2; lia.
Qed.

Lemma certified_stored c : wf_checkpoint c = true -> certified c -> certified (stored_checkpoint c).
Proof.
  intros Hw%wf_quorum [Hq Hn Hs]. pose proof (stored_quorum_le c Hw).
  split; rewrite ?stored_checkpoint_signatures, ?stored_checkpoint_proposal; [lia|done..].
Qed.

Lemma admissible_same l1 l2 p seen t allow :
  same_blocks l1 l2 -> admissible l1 p seen t allow -> admissible l2 p seen t allow.
Proof.
  intros HF [H1 H2 H3 H4 H5 H6 H7 H8].
  split; rewrite <- ?(same_blocks_length _ _ HF), <- ?(same_blocks_tip _ _ HF); try done.
  intros h Hh. pose proof (same_blocks_last _ _ HF) as HL. rewrite Hh in HL.
  destruct (last l1) as [a|] eqn:El; [|done]. destruct HL as [E _].
  unfold cp_epoch. rewrite <- E. by apply H3.
Qed.

Lemma block_ok_stored l1 l2 c :
  same_blocks l1 l2 -> wf_checkpoint c = true -> block_ok l1 c -> block_ok l2 (stored_checkpoint c).
Proof.
  intros HF Hw [[-> Hg]|[Ha Hc]].
  - left. inversion HF. by rewrite stored_checkpoint_proposal.
  - right. rewrite stored_checkpoint_proposal.
    split; [by eapply admissible_same|by apply certified_stored].
Qed.

Lemma wf_stored c : wf_checkpoint c = true -> wf_checkpoint (stored_checkpoint c) = true.
Proof.
  unfold wf_checkpoint. rewrite stored_checkpoint_proposal, stored_checkpoint_signatures.
  intros Hw. bool_prop. rewrite !andb_true_iff. split_and!; try done.
  unfold stored_checkpoint, legacy_quorum. cbn. destruct (_ && _); cbn; [apply wrap_u64_range|].
  pose proof (wrap_i64_range (cp_quorum c)) as Hr%in_i64_spec. unfold in_u64, i64_max in *. lia.
Qed.

Lemma wrap_i64_u64 z : in_u64 z = true -> wrap_i64 z = if z <=? i64_max then z else z - 2 ^ 64.
Proof.
  unfold in_u64, wrap_i64, i64_max. intros Hz. bool_prop.
  destruct (Z.leb_spec z (2 ^ 63 - 1)).
  - rewrite Z.mod_small by lia. lia.
  - replace (z + 2 ^ 63) with (z - 2 ^ 63 + 1 * 2 ^ 64) by lia.
    rewrite Z.mod_add, Z.mod_small by lia. lia.
Qed.

(** Storing what was read back changes nothing. *)
Lemma stored_idempotent c : stored_checkpoint (stored_checkpoint c) = stored_checkpoint c.
Proof.
  pose proof (wrap_i64_range (cp_quorum c)) as Hr%in_i64_spec.
  pose proof (wrap_u64_range (Z.of_nat (length (cp_signatures c)))) as Hu.
  fold (usize_len (cp_signatures c)) in Hu.
  unfold stored_checkpoint at 2 3. unfold legacy_quorum. cbn [cp_quorum cp_signatures cp_proposal].
  destruct (Z.eqb_spec (Z.max (wrap_i64 (cp_quorum c)) 0) 0) as [E|E]; cbn [andb].
  - destruct (bool_decide (cp_signatures c = [])) eqn:Es; cbn [negb].
    + apply stored_checkpoint_id. right. bool_prop. done.
    + unfold stored_checkpoint, legacy_quorum. cbn [cp_quorum cp_signatures cp_proposal].
      rewrite Es, (wrap_i64_u64 _ Hu). unfold in_u64, i64_max in *. bool_prop.
      destruct (Z.leb_spec (usize_len (cp_signatures c)) (2 ^ 63 - 1)).
      * rewrite Z.max_l by lia. destruct (Z.eqb_spec (usize_len (cp_signatures c)) 0); done.
      * rewrite Z.max_r by lia. done.
  - apply stored_checkpoint_id. left. cbn [cp_quorum]. lia.
Qed.

(** Replacing the blocks above a height by what the store reads back of them. *)
Definition restored (n : nat) (chain : list Checkpoint) : list Checkpoint :=
  take n chain ++ (stored_checkpoint <$> drop n chain).

Lemma same_blocks_restored n chain : same_blocks chain (restored n chain).
Proof.
  unfold restored. rewrite <- (take_drop n chain) at 1.
  apply Forall2_app; [apply same_blocks_refl|apply same_blocks_stored].
Qed.

Lemma restored_snoc n chain c :
  (n <= length chain)%nat -> restored n (chain ++ [c]) = restored n chain ++ [stored_checkpoint c].
Proof.
  intros Hn. unfold restored. by rewrite take_app_le, drop_app_le, fmap_app, app_assoc by lia.
Qed.

Lemma stored_restored n chain : stored_checkpoint <$> restored n chain = stored_checkpoint <$> chain.
Proof.
  unfold restored. rewrite <- (take_drop n chain) at 3. rewrite !fmap_app. f_equal.
  rewrite <- list_fmap_compose. apply list_fmap_ext. intros i c _. cbn. apply stored_idempotent.
Qed.

Lemma sound_restored n chain : sound_chain chain -> sound_chain (restored n chain).
Proof.
  induction chain as [|c chain IH] using rev_ind; intros Hs.
  { unfold restored. by rewrite take_nil, drop_nil. }
  destruct (decide (n <= length chain)%nat) as [Hn|Hn].
  2:{ unfold restored. rewrite take_ge, drop_ge by (rewrite length_app; simpl; lia).
      by rewrite fmap_nil, app_nil_r. }
  rewrite restored_snoc by done. destruct Hs as [Hv Hs].
  apply valid_chain_snoc_inv in Hv as (Hv & He & Hw). apply sealed_snoc in Hs as [Hs Hb].
  apply sound_snoc; [by apply IH| | |].
  - eapply extends_same; [apply same_blocks_restored|done].
  - by apply wf_stored.
  - eapply block_ok_stored; [apply same_blocks_restored|done..].
Qed.

(** ** Epochs *)

Lemma sealed_epoch_step chain i a b :
  sealed chain -> chain !! i = Some a -> chain !! S i = Some b -> cp_epoch a < cp_epoch b.
Proof.
  intros Hs Ha Hb. destruct (Hs _ _ Hb) as [[Hn _]|[Had _]].
  - apply (f_equal length) in Hn. rewrite length_take in Hn. apply lookup_lt_Some in Hb. cbn [length] in Hn. lia.
  - apply (adm_epoch _ _ _ _ _ Had). rewrite (take_S_r _ _ _ Ha). apply last_snoc.
Qed.

(** Epochs strictly increase along a sealed chain. *)
Lemma sealed_epochs chain i j a b :
  sealed chain -> (i < j)%nat -> chain !! i = Some a -> chain !! j = Some b ->
  cp_epoch a < cp_epoch b.
Proof.
  intros Hs Hij Ha. revert b. induction Hij as [|j Hij IH]; intros b Hb.
  - by eapply sealed_epoch_step.
  - destruct (lookup_lt_is_Some_2 chain j) as [c Hc]; [apply lookup_lt_Some in Hb; lia|].
    pose proof (IH c Hc). pose proof (sealed_epoch_step _ _ _ _ Hs Hc Hb). lia.
Qed.

Lemma sealed_epoch_last chain c h :
  sealed chain -> c ∈ chain -> last chain = Some h -> cp_epoch c <= cp_epoch h.
Proof.
  intros Hs [i Hi]%list_elem_of_lookup Hl. rewrite last_lookup in Hl.
  pose proof (lookup_lt_Some _ _ _ Hi). destruct (decide (i = pred (length chain))) as [->|Hne].
  - rewrite Hi in Hl. injection Hl as ->. lia.
  - pose proof (sealed_epochs chain i (pred (length chain)) c h Hs ltac:(lia) Hi Hl). lia.
Qed.
End SealedChains.
