(* ===== verification/ProtocolInv.v ===== *)
(** * The invariant of a node

[node_inv chain st] relates the protocol state to the chain the store holds; every handler
preserves it. *)

From S2P Require Import Prelude F64 Crypto CryptoTheory Models Accounting Config Ledger.
From S2P Require Import LedgerTheory Validation ValidationTheory Protocol ProtocolTheory.

Section NodeInv.
Context `{CL : CryptoLaws} `{SL : SerdeLaws} `{EL : EnvLaws}.
Variable config : ExodusConfig.
(** Whether the [i64] view counter can have wrapped around; the order between the view and
the epochs of the chain is lost when it does. *)
Variable overflowed : Prop.
(** The name of the node. *)
Variable me : string.

Local Abbreviation tol := (flops_tolerance config).
Local Abbreviation sound := (sound_chain tol).

(** ** Well-formed messages: what deserialisation yields *)

Definition wf_share (s : SignatureShare) : bool :=
  in_i64 (ss_height s) && in_i64 (ss_epoch s) &&
  forallb valid_str [ss_proposal_hash s; ss_node_id s; ss_public_key_hex s; ss_signature_hex s].

Definition wf_message (m : Message) : bool :=
  match m with
  | MContributionGossip g => wf_signed (cg_signed g)
  | MProposalMessage p => wf_proposal (pm_proposal p)
  | MSignatureShare s => wf_share s
  | MCommitMessage c => wf_checkpoint (cm_checkpoint c)
  | MHeartbeat h =>
      in_i64 (hb_height h) && in_i64 (hb_epoch h) && in_i64 (hb_quorum_weight h) &&
      forallb valid_str [hb_node_id h; hb_block_hash h; hb_sealed_by h]
  | MSyncRequest r => in_i64 (sq_from_height r) && valid_str (sq_node_id r)
  | MSyncResponse r => valid_str (sp_node_id r) && forallb wf_checkpoint (sp_blocks r)
  | MForkAlert a =>
      in_i64 (fa_height a) &&
      forallb valid_str [fa_node_id a; fa_observed_hash_a a; fa_observed_hash_b a]
  end.

(** ** The invariant *)

(** The topic of each type of message. *)
Definition topic_of (m : Message) : string :=
  match m with
  | MContributionGossip _ => CLAIMS
  | MProposalMessage _ => PROPOSALS
  | MSignatureShare _ => SIGNATURES
  | MCommitMessage _ => COMMITS
  | MHeartbeat _ => HEARTBEATS
  | MSyncRequest _ | MSyncResponse _ => SYNC
  | MForkAlert _ => FORKS
  end.

(** What a node publishes: it speaks in its own name, its claims and shares verify, the
blocks it announces are certified, an alert shows two different hashes. *)
Definition message_ok (m : Message) : Prop :=
  match m with
  | MContributionGossip g =>
      claim_node_id (sc_claim (cg_signed g)) = me /\ signed_verify (cg_signed g) = true
  | MProposalMessage p => prop_sealed_by (pm_proposal p) = me
  | MSignatureShare sh => ss_node_id sh = me /\ share_verify sh = true
  | MCommitMessage c =>
      is_canonical_genesis (cp_proposal (cm_checkpoint c)) = true \/ certified (cm_checkpoint c)
  | MHeartbeat h => hb_node_id h = me
  | MSyncRequest r => sq_node_id r = me
  | MSyncResponse r => sp_node_id r = me /\ sp_blocks r <> []
  | MForkAlert a => fa_node_id a = me /\ fa_observed_hash_a a <> fa_observed_hash_b a
  end.

Definition out_ok (tm : string * Message) : Prop := tm.1 = topic_of tm.2 /\ message_ok tm.2.

(** A share held for the proposal [h] under the name [n]. *)
Definition share_ok (h n : string) (sh : SignatureShare) : Prop :=
  ss_node_id sh = n /\ ss_proposal_hash sh = h /\ wf_share sh = true /\ share_verify sh = true.

(** The epochs of a chain lie below the view, but for the last representable one. *)
Definition below_view (chain : list Checkpoint) (st : ProtocolState) : Prop :=
  overflowed \/ Forall (fun c => cp_epoch c < i64_max -> cp_epoch c < ps_view st) chain.

Lemma below_view_mono chain st st' :
  ps_view st <= ps_view st' -> below_view chain st -> below_view chain st'.
Proof.
  intros Hle [Ho|Hb]; [by left|right]. eapply Forall_impl; [exact Hb|]. cbn.
  intros c Hc Hlt. specialize (Hc Hlt). lia.
Qed.

Record node_inv (chain : list Checkpoint) (st : ProtocolState) : Prop := {
  ni_key : String.length (ps_private_key st) = 32%nat;
  ni_public : ps_public_key_hex st = hex (public_key_from_private (ps_private_key st));
  ni_me : ps_node_id st = me;
  ni_node : valid_str me = true;
  ni_view_range : in_i64 (ps_view st) = true;
  ni_view : below_view chain st;
  ni_ids : ids_of (chain_claims chain) ⊆ ps_committed_claim_ids st;
  ni_pending : map_Forall (fun id x => signed_id x = id /\ wf_signed x = true /\
                                       signed_verify x = true) (ps_pending st);
  ni_proposals : map_Forall (fun h p => proposal_hash p = h /\ wf_proposal p = true)
                   (ps_proposals st);
  ni_shares : map_Forall (fun h m => map_Forall (share_ok h) m) (ps_signatures st);
  ni_commits : map_Forall (fun h c => cp_height c = h /\ wf_checkpoint c = true)
                 (ps_pending_commits st);
  ni_commits_size : Z.of_nat (size (ps_pending_commits st)) <= MAX_PENDING_COMMITS;
  ni_rejects : NoDup (ps_recent_commit_rejects st);
  ni_rejects_len : Z.of_nat (length (ps_recent_commit_rejects st)) <= MAX_RECENT_COMMIT_REJECTS;
  ni_outgoing : Forall out_ok (ps_outgoing st);
}.

Definition good (ns : ProtocolState * ChainStore) : Prop :=
  exists chain, ns.2 = store_of chain /\ sound chain /\ node_inv chain ns.1.

(** Name the parts of a good pair. *)
Ltac open_good ns :=
  let st := fresh "st" in let s := fresh "s" in let E := fresh "E" in
  destruct ns as [st s]; intros (chain & E & Hs & Hi); cbn [fst snd] in E, Hi; subst s.

(** ** Updates that do not touch the invariant *)

Ltac frame := intros []; split; done.

Lemma inv_outgoing chain x st :
  Forall out_ok x -> node_inv chain st -> node_inv chain (with_outgoing x st).
Proof. intros ?. frame. Qed.
Lemma inv_listeners chain x st : node_inv chain st -> node_inv chain (with_listeners x st).
Proof. frame. Qed.
Lemma inv_reads chain x st : node_inv chain st -> node_inv chain (with_reads x st).
Proof. frame. Qed.
Lemma inv_last_activity chain x st : node_inv chain st -> node_inv chain (with_last_activity x st).
Proof. frame. Qed.
Lemma inv_last_sync chain x st : node_inv chain st -> node_inv chain (with_last_sync x st).
Proof. frame. Qed.
Lemma inv_proposed chain x st : node_inv chain st -> node_inv chain (with_proposed x st).
Proof. frame. Qed.
Lemma inv_signed chain x st : node_inv chain st -> node_inv chain (with_signed x st).
Proof. frame. Qed.
Lemma inv_peers chain x st : node_inv chain st -> node_inv chain (with_peers x st).
Proof. frame. Qed.
Lemma inv_peer_seen chain x st : node_inv chain st -> node_inv chain (with_peer_seen x st).
Proof. frame. Qed.
Lemma inv_fork_alerts chain x st : node_inv chain st -> node_inv chain (with_fork_alerts x st).
Proof. frame. Qed.
Lemma inv_push chain t m st :
  t = topic_of m -> message_ok m -> node_inv chain st -> node_inv chain (push t m st).
Proof.
  intros Ht Hm Hi. apply inv_outgoing; [|done]. apply Forall_app. split; [apply Hi|].
  by constructor; [|constructor].
Qed.

(** ** Updates with a side condition *)

Lemma inv_pending chain x st :
  map_Forall (fun id x => signed_id x = id /\ wf_signed x = true /\ signed_verify x = true) x ->
  node_inv chain st -> node_inv chain (with_pending x st).
Proof. intros ?. frame. Qed.
Lemma inv_committed chain x st :
  ids_of (chain_claims chain) ⊆ x -> node_inv chain st -> node_inv chain (with_committed x st).
Proof. intros ?. frame. Qed.
Lemma inv_proposals chain x st :
  map_Forall (fun h p => proposal_hash p = h /\ wf_proposal p = true) x ->
  node_inv chain st -> node_inv chain (with_proposals x st).
Proof. intros ?. frame. Qed.
Lemma inv_signatures chain x st :
  map_Forall (fun h m => map_Forall (share_ok h) m) x ->
  node_inv chain st -> node_inv chain (with_signatures x st).
Proof. intros ?. frame. Qed.
Lemma inv_view chain x st :
  in_i64 x = true -> ps_view st <= x -> node_inv chain st -> node_inv chain (with_view x st).
Proof.
  intros Hx Hle []. split; try done. by eapply below_view_mono.
Qed.
Lemma inv_pending_commits chain x st :
  map_Forall (fun h c => cp_height c = h /\ wf_checkpoint c = true) x ->
  Z.of_nat (size x) <= MAX_PENDING_COMMITS ->
  node_inv chain st -> node_inv chain (with_pending_commits x st).
Proof. intros ??. frame. Qed.
Lemma inv_rejects chain x st :
  NoDup x -> Z.of_nat (length x) <= MAX_RECENT_COMMIT_REJECTS ->
  node_inv chain st -> node_inv chain (with_rejects x st).
Proof. intros ??. frame. Qed.

(** A shorter chain, or the same blocks under other quorum fields. *)
Lemma inv_chain chain chain' st :
  below_view chain' st ->
  ids_of (chain_claims chain') ⊆ ps_committed_claim_ids st ->
  node_inv chain st -> node_inv chain' st.
Proof. intros ??. frame. Qed.

Hint Resolve inv_listeners inv_reads inv_last_activity inv_last_sync inv_proposed
  inv_signed inv_peers inv_peer_seen inv_fork_alerts : exodus.

Lemma inv_now chain st : node_inv chain st -> node_inv chain (now st).2.
Proof. cbn. auto with exodus. Qed.

Lemma inv_request_sync chain h st : node_inv chain st -> node_inv chain (request_sync h st).
Proof.
  intros Hi. unfold request_sync. cbn. destruct (_ && _); [auto with exodus|].
  apply inv_push; [done|apply Hi|auto with exodus].
Qed.

Lemma inv_delete_pending chain id st :
  node_inv chain st -> node_inv chain (with_pending (delete id (ps_pending st)) st).
Proof. intros Hi. apply inv_pending; [|done]. apply map_Forall_delete, Hi. Qed.

Hint Resolve inv_request_sync inv_delete_pending : exodus.

Lemma inv_forget chain id st : node_inv chain st -> node_inv chain (forget_claim id st).
Proof. intros Hi. apply inv_proposed. by apply inv_delete_pending. Qed.

Lemma inv_mark chain id st : node_inv chain st -> node_inv chain (mark_committed id st).
Proof. intros Hi. apply inv_committed; [|done]. pose proof (ni_ids _ _ Hi). set_solver. Qed.

Hint Resolve inv_forget inv_mark : exodus.

Lemma inv_settle_claims chain claims st :
  node_inv chain st -> node_inv chain (settle_claims claims st).
Proof.
  unfold settle_claims. revert st. induction claims as [|x claims IH]; intros st Hi; cbn; [done|].
  auto with exodus.
Qed.

Lemma inv_settle_duplicate chain s claims st :
  node_inv chain st -> node_inv chain (settle_duplicate s claims st).
Proof.
  unfold settle_duplicate. revert st. induction claims as [|x claims IH]; intros st Hi; cbn; [done|].
  apply IH. destruct (claim_exists s _); auto with exodus.
Qed.

Lemma inv_take_claims chain claims st :
  node_inv chain st -> node_inv chain (take_claims claims st).
Proof.
  unfold take_claims. revert st. induction claims as [|x claims IH]; intros st Hi; cbn; [done|].
  apply IH. apply inv_pending; [apply map_Forall_delete, Hi|]. auto with exodus.
Qed.

(** ** Committing a block *)

Lemma ids_of_app l1 l2 : ids_of (l1 ++ l2) = ids_of l1 ∪ ids_of l2.
Proof. unfold ids_of. by rewrite fmap_app, list_to_set_app_L. Qed.

Lemma chain_claims_snoc chain c : chain_claims (chain ++ [c]) = chain_claims chain ++ cp_claims c.
Proof. rewrite chain_claims_app. unfold chain_claims at 2. cbn. by rewrite app_nil_r. Qed.

Lemma settle_claims_committed claims st :
  ps_committed_claim_ids (settle_claims claims st) = ids_of claims ∪ ps_committed_claim_ids st.
Proof.
  unfold settle_claims, ids_of. revert st. induction claims as [|x claims IH]; intros st; cbn; [set_solver|].
  rewrite IH. cbn. set_solver.
Qed.

Lemma settle_claims_view claims st : ps_view (settle_claims claims st) = ps_view st.
Proof. unfold settle_claims. revert st. induction claims as [|x claims IH]; intros st; cbn; [done|]. by rewrite IH. Qed.

Lemma settle_duplicate_view s claims st : ps_view (settle_duplicate s claims st) = ps_view st.
Proof.
  unfold settle_duplicate. revert st. induction claims as [|x claims IH]; intros st; cbn; [done|].
  rewrite IH. by destruct (claim_exists _ _).
Qed.

Lemma request_sync_view h st : ps_view (request_sync h st) = ps_view st.
Proof. unfold request_sync. cbn. by destruct (_ && _). Qed.

Lemma wf_epoch c : wf_checkpoint c = true -> in_i64 (cp_epoch c) = true.
Proof. unfold wf_checkpoint, wf_proposal. intros Hw. bool_prop. done. Qed.

(** The state after a successful append. *)
Lemma inv_appended chain st c :
  node_inv chain st -> wf_checkpoint c = true ->
  node_inv (chain ++ [c])
    (with_view (Z.max (ps_view st) (wrap_i64 (cp_epoch c + 1))) (settle_claims (cp_claims c) st)).
Proof.
  intros Hi Hw. pose proof (wf_epoch _ Hw) as He%in_i64_spec.
  pose proof (ni_view_range _ _ Hi) as Hr%in_i64_spec.
  pose proof (wrap_i64_range (cp_epoch c + 1)) as Hwr%in_i64_spec.
  apply (inv_chain chain).
  - destruct (ni_view _ _ Hi) as [Ho|Hv]; [by left|right].
    cbn. apply Forall_app. split; [|constructor; [|constructor]].
    + eapply Forall_impl; [exact Hv|]. cbn. intros b Hb Hlt. specialize (Hb Hlt). lia.
    + intros Hlt. rewrite wrap_i64_id; [lia|]. apply in_i64_spec. lia.
  - cbn. rewrite chain_claims_snoc, ids_of_app, settle_claims_committed.
    pose proof (ni_ids _ _ Hi). set_solver.
  - apply inv_view; [apply in_i64_spec; lia|rewrite settle_claims_view; lia|].
    by apply inv_settle_claims.
Qed.

(** The blocks a store can receive: well-formed and justified by the chain. *)
Definition offered (chain : list Checkpoint) (c : Checkpoint) : Prop :=
  wf_checkpoint c = true /\ block_ok tol chain c.

Inductive committed_or_not (chain : list Checkpoint) (c : Checkpoint)
  (ns : ProtocolState * ChainStore) : Prop :=
| not_committed : ns.2 = store_of chain -> node_inv chain ns.1 -> committed_or_not chain c ns
| is_committed :
    ns.2 = store_of (chain ++ [c]) -> extends chain c -> sound (chain ++ [c]) ->
    node_inv (chain ++ [c]) ns.1 -> committed_or_not chain c ns.

Lemma commit_local_cases chain st c :
  sound chain -> node_inv chain st -> offered chain c ->
  committed_or_not chain c (commit_local c (st, store_of chain)).
Proof.
  intros Hs Hi [Hw Hb]. unfold commit_local.
  destruct (not_above_head _ _); [by apply not_committed|].
  destruct (append c (store_of chain)) as [s'|e] eqn:Ea.
  - apply append_ok_iff in Ea as [He ->]; [|apply Hs].
    apply is_committed; [done|done|by apply sound_snoc|]. cbn.
    apply inv_listeners, inv_push; [done|by destruct Hb as [[_ ?]|[_ ?]]; [left|right]|].
    apply inv_last_activity, inv_reads.
    pose proof (inv_appended chain st c Hi Hw) as Hn.
    replace (ps_view st) with (ps_view (settle_claims (cp_claims c) st)) in Hn
      by apply settle_claims_view.
    pose proof (map_Forall_delete _ _ (proposal_hash (cp_proposal c)) (ni_proposals _ _ Hn)) as Hp.
    pose proof (map_Forall_delete _ _ (proposal_hash (cp_proposal c)) (ni_shares _ _ Hn)) as Hsh.
    destruct Hn. by split.
  - destruct (is_already_committed _ _); apply not_committed; try done; cbn.
    + by apply inv_settle_duplicate.
    + by apply inv_request_sync.
Qed.

Lemma commit_local_view st s c : ps_view st <= ps_view (commit_local c (st, s)).1.
Proof.
  unfold commit_local. destruct (not_above_head _ _); [done|].
  destruct (append c s) as [s'|e]; [cbn; rewrite settle_claims_view; lia|].
  destruct (is_already_committed _ _); cbn [fst]; [by rewrite settle_duplicate_view|].
  by rewrite request_sync_view.
Qed.

Lemma good_commit_local chain st c :
  sound chain -> node_inv chain st -> offered chain c -> good (commit_local c (st, store_of chain)).
Proof.
  intros Hs Hi Ho. destruct (commit_local_cases chain st c Hs Hi Ho); eexists; eauto.
Qed.

(** A block that passes validation is one the chain can take. *)
Lemma validated_offered chain c q allow oseen :
  sound chain -> wf_checkpoint c = true -> allow = false ->
  (validate_checkpoint c (store_of chain) tol q allow oseen).2 = Ok tt ->
  offered chain c \/ (chain <> [] /\ is_canonical_genesis (cp_proposal c) = true).
Proof.
  intros [Hv Hs] Hw -> Hok.
  destruct (validate_checkpoint _ _ _ _ _ _) as [o r] eqn:E. cbn in Hok. subst r.
  apply validate_checkpoint_iff in E; [|done].
  destruct E as [[Hg _]|(Hg & Ha & Hc & _)].
  - destruct (decide (chain = [])) as [->|Hne]; [left|by right]. split; [done|by left].
  - left. split; [done|]. right. split; [by eapply admissible_weaken|done].
Qed.

(** A canonical genesis is never committed above a non-empty chain. *)
Lemma commit_local_genesis chain st c :
  sound chain -> node_inv chain st -> chain <> [] ->
  is_canonical_genesis (cp_proposal c) = true ->
  commit_local c (st, store_of chain) = (st, store_of chain).
Proof.
  intros [Hv _] Hi Hne Hg. unfold commit_local, not_above_head.
  rewrite head_of by done. destruct (last chain) as [h|] eqn:El; [|by apply last_None in El].
  cbn. assert (cp_height c = 0) as ->.
  { unfold is_canonical_genesis in Hg. bool_prop. done. }
  rewrite last_lookup in El. pose proof (valid_chain_heights _ _ _ Hv El) as Hh.
  unfold cp_height. rewrite stored_checkpoint_proposal. unfold cp_height in Hh. rewrite Hh.
  by rewrite (proj2 (Z.leb_le _ _)) by lia.
Qed.

Lemma commit_validated_cases chain st c q oseen :
  sound chain -> node_inv chain st -> wf_checkpoint c = true ->
  (validate_checkpoint c (store_of chain) tol q false oseen).2 = Ok tt ->
  committed_or_not chain c (commit_local c (st, store_of chain)).
Proof.
  intros Hs Hi Hw Hok.
  destruct (validated_offered _ _ _ _ _ Hs Hw eq_refl Hok) as [Ho|[Hne Hg]].
  - by apply commit_local_cases.
  - rewrite commit_local_genesis by done. by apply not_committed.
Qed.

Lemma good_commit_validated chain st c q oseen :
  sound chain -> node_inv chain st -> wf_checkpoint c = true ->
  (validate_checkpoint c (store_of chain) tol q false oseen).2 = Ok tt ->
  good (commit_local c (st, store_of chain)).
Proof.
  intros Hs Hi Hw Hok. destruct (commit_validated_cases chain st c q oseen Hs Hi Hw Hok); eexists; eauto.
Qed.

(** ** Shares and proposals *)

Lemma inv_add_share chain h sh st :
  share_ok h (ss_node_id sh) sh -> node_inv chain st -> node_inv chain (add_share h sh st).
Proof.
  intros Hsh Hi. apply inv_signatures; [|done]. apply map_Forall_insert_2; [|apply Hi].
  apply map_Forall_insert_2; [done|]. destruct (ps_signatures st !! h) eqn:E; cbn.
  - by apply (ni_shares _ _ Hi) in E.
  - apply map_Forall_empty.
Qed.

Lemma inv_or_default chain h st : node_inv chain st -> node_inv chain (or_default_shares h st).
Proof.
  intros Hi. apply inv_signatures; [|done]. apply map_Forall_insert_2; [|apply Hi].
  destruct (ps_signatures st !! h) eqn:E; cbn; [by apply (ni_shares _ _ Hi) in E|apply map_Forall_empty].
Qed.

Lemma valid_proposal_hash p : valid_str (proposal_hash p) = true.
Proof. apply sha256_hex_valid. Qed.
Lemma valid_block_hash c : valid_str (block_hash c) = true.
Proof. apply sha256_bytes_hex_valid. Qed.
Hint Resolve valid_proposal_hash valid_block_hash : exodus.

(** The own share verifies. *)
Lemma own_share_ok chain st p :
  node_inv chain st -> wf_proposal p = true ->
  share_ok (proposal_hash p) (ps_node_id st) (signature_share st p).
Proof.
  intros Hi Hp. split_and!; [done|done| |].
  - unfold wf_proposal in Hp. bool_prop. unfold wf_share. cbn.
    rewrite (ni_public _ _ Hi), (ni_me _ _ Hi), (ni_node _ _ Hi), valid_proposal_hash, !hex_valid. cbn.
    by rewrite andb_true_r, andb_true_iff.
  - unfold share_verify. cbn. rewrite (ni_public _ _ Hi), !hex_decode_hex.
    apply sign_verify, (ni_key _ _ Hi).
Qed.

Lemma inv_add_own_signature chain p st :
  wf_proposal p = true -> node_inv chain st -> node_inv chain (add_own_signature p st).
Proof.
  intros Hp Hi. pose proof (own_share_ok chain st p Hi Hp) as Hsh.
  apply inv_push; [done| |by apply inv_signed, inv_add_share].
  destruct Hsh as (_ & _ & _ & ?). split; [apply Hi|done].
Qed.

Lemma inv_accept_proposal chain p st :
  wf_proposal p = true -> node_inv chain st -> node_inv chain (accept_proposal p st).
Proof.
  intros Hp Hi. apply inv_last_activity, inv_reads, inv_add_own_signature; [done|].
  apply inv_take_claims, inv_or_default, inv_proposals; [|done].
  apply map_Forall_insert_2; [done|apply Hi].
Qed.

Lemma wf_seal p shares q :
  wf_proposal p = true -> map_Forall (share_ok (proposal_hash p)) shares -> in_u64 q = true ->
  wf_checkpoint (seal p shares q) = true.
Proof.
  intros Hp Hsh Hq. unfold wf_checkpoint, seal. cbn. rewrite Hp, Hq, andb_true_r. cbn.
  apply forallb_forall. intros sg Hsg%list_elem_of_In.
  apply list_elem_of_fmap in Hsg as (sh & -> & Hin%elem_of_sort_by).
  apply list_elem_of_fmap in Hin as ([n sh'] & -> & Hin%elem_of_map_to_list). cbn.
  apply Hsh in Hin as (_ & _ & Hw & _). unfold wf_share in Hw. cbn in Hw. bool_prop.
  unfold wf_signature. cbn. rewrite !andb_true_iff. done.
Qed.

Lemma quorum_range st s : in_u64 (quorum_size config st s) = true.
Proof. apply wrap_u64_range. Qed.

Lemma shares_held chain st h :
  node_inv chain st -> map_Forall (share_ok h) (default ∅ (ps_signatures st !! h)).
Proof.
  intros Hi. destruct (ps_signatures st !! h) eqn:E; cbn; [by apply (ni_shares _ _ Hi) in E|].
  apply map_Forall_empty.
Qed.

Lemma good_intro chain st : sound chain -> node_inv chain st -> good (st, store_of chain).
Proof. intros ??. by exists chain. Qed.
Hint Resolve good_intro : exodus.

Lemma result_unit_ok {E} (r : result unit E) u : r = Ok u -> r = Ok tt.
Proof. by destruct u. Qed.

Lemma good_maybe_commit chain st p :
  sound chain -> node_inv chain st -> wf_proposal p = true ->
  good (maybe_commit config p (st, store_of chain)).
Proof.
  intros Hs Hi Hp. unfold maybe_commit. destruct (_ <? _); [by apply good_intro|].
  destruct (validate_checkpoint _ _ _ _ _ _).2 as [u|e] eqn:Ev; [|by apply good_intro].
  eapply good_commit_validated; [done|done| |by eapply result_unit_ok].
  apply wf_seal; [done|by eapply shares_held|apply quorum_range].
Qed.

Lemma good_on_proposal pm ns :
  good ns -> wf_proposal (pm_proposal pm) = true -> good (on_proposal config pm ns).
Proof.
  open_good ns. intros Hp. unfold on_proposal.
  destruct (_ || _); [by apply good_intro|]. destruct (not_above_head _ _); [by apply good_intro|].
  destruct (negb _); [by apply good_intro|].
  destruct (validate_proposal _ _ _ _ _).2; [|by apply good_intro].
  pose proof (inv_accept_proposal _ _ _ Hp Hi) as Ha.
  destruct (String.eqb _ _); [by apply good_maybe_commit|by apply good_intro].
Qed.

Lemma good_on_signature sh ns :
  good ns -> wf_share sh = true -> good (on_signature config sh ns).
Proof.
  open_good ns. intros Hw. unfold on_signature.
  destruct (share_verify sh) eqn:Ev; cbn [negb]; [|by apply good_intro].
  destruct (ps_proposals st !! _) as [p|] eqn:Ep; [|by apply good_intro].
  apply good_maybe_commit; [done| |].
  - apply inv_add_share; [by repeat split|done].
  - by apply (ni_proposals _ _ Hi) in Ep as [_ ?].
Qed.

(** ** Bounded queues *)

Lemma drop_lowest_forall (P : Z -> Checkpoint -> Prop) fuel m :
  map_Forall P m -> map_Forall P (drop_lowest fuel m).
Proof.
  revert m. induction fuel as [|fuel IH]; intros m Hm; cbn; [done|].
  destruct (_ <? _); [|done]. destruct (btree_keys m); [done|]. by apply IH, map_Forall_delete.
Qed.

Lemma btree_keys_elem {A} (m : gmap Z A) h : h ∈ btree_keys m <-> is_Some (m !! h).
Proof. unfold btree_keys. by rewrite elem_of_sort_by, elem_of_elements, elem_of_dom. Qed.

Lemma btree_keys_nil {A} (m : gmap Z A) : btree_keys m = [] -> size m = 0%nat.
Proof.
  intros E. apply map_size_empty_iff, map_empty. intros h. apply eq_None_not_Some.
  rewrite <- btree_keys_elem, E. apply not_elem_of_nil.
Qed.

Lemma drop_lowest_size fuel m :
  Z.of_nat (size m) <= Z.of_nat fuel + MAX_PENDING_COMMITS ->
  Z.of_nat (size (drop_lowest fuel m)) <= MAX_PENDING_COMMITS.
Proof.
  revert m. induction fuel as [|fuel IH]; intros m Hm; cbn [drop_lowest]; [lia|].
  destruct (Z.ltb_spec MAX_PENDING_COMMITS (Z.of_nat (size m))); [|lia].
  destruct (btree_keys m) as [|h ks] eqn:Ek.
  { apply btree_keys_nil in Ek. unfold MAX_PENDING_COMMITS in *. lia. }
  assert (is_Some (m !! h)) as Hh by (rewrite <- btree_keys_elem, Ek; left).
  apply IH. rewrite map_size_delete_Some by done. unfold MAX_PENDING_COMMITS in *. lia.
Qed.

Lemma inv_insert_pending_commit chain c st :
  wf_checkpoint c = true -> node_inv chain st -> node_inv chain (insert_pending_commit c st).
Proof.
  intros Hw Hi. apply inv_pending_commits; [| |done].
  - apply drop_lowest_forall, map_Forall_insert_2; [done|apply Hi].
  - apply drop_lowest_size. unfold MAX_PENDING_COMMITS. lia.
Qed.

Lemma pop_front_to_length {A} n (l : list A) :
  0 <= n -> Z.of_nat (length (pop_front_to n l)) <= n.
Proof. intros Hn. unfold pop_front_to. rewrite length_drop. lia. Qed.

Lemma commit_reject_seen_spec h st : commit_reject_seen h st = true <-> h ∈ ps_recent_commit_rejects st.
Proof.
  unfold commit_reject_seen. rewrite existsb_exists. setoid_rewrite <- list_elem_of_In.
  setoid_rewrite String.eqb_eq. split; [by intros (? & ? & ->)|eauto].
Qed.

Lemma inv_note_reject chain h st : node_inv chain st -> node_inv chain (note_commit_reject h st).
Proof.
  intros Hi. unfold note_commit_reject. destruct (commit_reject_seen h st) eqn:E; [done|].
  apply inv_rejects; [| |done].
  - apply (sublist_NoDup _ (ps_recent_commit_rejects st ++ [h])); [|apply sublist_drop].
    apply NoDup_snoc. split; [apply Hi|]. rewrite <- commit_reject_seen_spec. congruence.
  - by apply pop_front_to_length.
Qed.

(** ** Commits from the network *)

Lemma good_flush_height ns h : good ns -> good (flush_height config ns h).
Proof.
  open_good ns. unfold flush_height. destruct (negb _); [by apply good_intro|].
  destruct (ps_pending_commits st !! h) as [c|] eqn:Ec; [|by apply good_intro].
  assert (Hd : node_inv chain (with_pending_commits (delete h (ps_pending_commits st)) st)).
  { apply inv_pending_commits; [apply map_Forall_delete, Hi| |done].
    pose proof (ni_commits_size _ _ Hi). rewrite map_size_delete, Ec. lia. }
  destruct (validate_checkpoint _ _ _ _ _ _).2 as [u|e] eqn:Ev; [|by apply good_intro].
  eapply good_commit_validated; [done|done| |by eapply result_unit_ok].
  by apply (ni_commits _ _ Hi) in Ec as [_ ?].
Qed.

Lemma good_flush_pending ns : good ns -> good (flush_pending_commits config ns).
Proof.
  destruct ns as [st s]. intros Hg. unfold flush_pending_commits. destruct (head s); [|done].
  generalize (btree_keys (ps_pending_commits st)). intros hs. revert st s Hg.
  induction hs as [|h hs IH]; intros st' s' Hg; cbn [foldl]; [done|].
  destruct (flush_height config (st', s') h) as [st2 s2] eqn:E. apply IH. rewrite <- E.
  by apply good_flush_height.
Qed.

Lemma good_apply_commit ns c :
  good ns -> wf_checkpoint c = true -> good (apply_commit config c ns).
Proof.
  open_good ns. intros Hw. unfold apply_commit.
  destruct (commit_reject_seen _ _); [by apply good_intro|].
  destruct (validate_checkpoint _ _ _ _ _ _) as [seen r] eqn:Ev.
  destruct r as [[]|e]; [|by apply good_intro; [|apply inv_note_reject]].
  apply good_flush_pending. eapply good_commit_validated; [done| |done|by rewrite Ev].
  apply inv_committed; [|done]. pose proof (ni_ids _ _ Hi).
  apply validate_checkpoint_iff in Ev as [[_ ->]|(_ & _ & _ & ->)]; [..|apply Hs]; cbn; set_solver.
Qed.

Lemma inv_stale_commit chain c h st : node_inv chain st -> node_inv chain (stale_commit c h st).
Proof.
  intros Hi. unfold stale_commit. destruct (_ && _) eqn:E; [|done]. bool_prop.
  assert (node_inv chain (push FORKS (MForkAlert (mkForkAlert (ps_node_id st) (cp_height c)
    (block_hash h) (block_hash c))) st)) by (apply inv_push; [done|split; [apply Hi|done]|done]).
  destruct (string_lt _ _); auto with exodus.
Qed.

Lemma good_on_commit cm ns :
  good ns -> wf_checkpoint (cm_checkpoint cm) = true -> good (on_commit config cm ns).
Proof.
  intros Hg Hw. pose proof Hg as Hg'. revert Hg. open_good ns. unfold on_commit.
  destruct (head (store_of chain)) as [h|].
  - destruct (_ <=? _); [by apply good_intro; [|apply inv_stale_commit]|].
    destruct (_ <? _); [by apply good_intro; [|apply inv_request_sync, inv_insert_pending_commit]|].
    destruct (negb _); [by apply good_intro; [|apply inv_request_sync]|].
    by apply good_apply_commit.
  - destruct (negb _); [by apply good_intro; [|apply inv_request_sync, inv_insert_pending_commit]|].
    by apply good_apply_commit.
Qed.

Lemma good_on_heartbeat hb ns : good ns -> good (on_heartbeat hb ns).
Proof.
  open_good ns. unfold on_heartbeat, now. destruct (String.eqb _ _); [by apply good_intro|].
  cbv beta iota zeta.
  assert (Hn : node_inv chain
    (with_peer_seen (<[hb_node_id hb := clock (ps_clock_reads st)]> (ps_peer_seen st))
       (with_reads (S (ps_clock_reads st))
          (with_peers (<[hb_node_id hb := hb]> (ps_peers st)) st)))) by auto with exodus.
  destruct (head (store_of chain)) as [h|]; [|by apply good_intro; [|apply inv_request_sync]].
  destruct (_ <? _); [by apply good_intro; [|apply inv_request_sync]|].
  destruct (_ && _) eqn:Ef; apply good_intro; auto with exodus. bool_prop.
  apply inv_push; [done|split; [apply Hi|cbn; congruence]|done].
Qed.

Lemma good_on_sync_request r ns : good ns -> good (on_sync_request r ns).
Proof.
  open_good ns. unfold on_sync_request. destruct (String.eqb _ _); [by apply good_intro|].
  destruct (omap _ _); apply good_intro; auto with exodus.
  apply inv_push; [done|split; [apply Hi|done]|done].
Qed.
End NodeInv.
