(* ===== verification/ProtocolReorg.v ===== *)
(** * Theory of the protocol: fork reorganisation

[reconcile_chain] on sound chains: what the restore path gives back, the possible outcomes
of the apply loop, and that the node invariant is preserved. *)

From S2P Require Import Prelude F64 Crypto CryptoTheory Models Accounting Config Ledger.
From S2P Require Import LedgerTheory Validation ValidationTheory Protocol ProtocolTheory.
From S2P Require Import ProtocolInv.

Section Reorg.
Context `{CL : CryptoLaws} `{SL : SerdeLaws} `{EL : EnvLaws}.
Variable config : ExodusConfig.
Variable overflowed : Prop.
Variable me : string.

Local Abbreviation tol := (flops_tolerance config).
Local Abbreviation sound := (sound_chain tol).
Local Abbreviation node_inv := (ProtocolInv.node_inv overflowed me).
Local Abbreviation below_view := (ProtocolInv.below_view overflowed).
Local Abbreviation good := (ProtocolInv.good config overflowed me).

(** ** The restore path *)

Lemma append_missing_cons b bs s :
  append_missing (b :: bs) s =
  append_missing bs (match get_block s (cp_height b) with
                     | None => match append b s with Ok s' => s' | Err _ => s end
                     | Some _ => s
                     end).
Proof. done. Qed.

Lemma append_missing_app bs1 bs2 s :
  append_missing (bs1 ++ bs2) s = append_missing bs2 (append_missing bs1 s).
Proof. apply foldl_app. Qed.

Lemma append_missing_extends bs chain :
  valid_chain chain -> Forall (fun b => wf_checkpoint b = true) bs ->
  exists ext, append_missing bs (store_of chain) = store_of (chain ++ ext) /\
    valid_chain (chain ++ ext).
Proof.
  intros Hv Hw. revert chain Hv. induction Hw as [|b bs Hb Hw IH]; intros chain Hv.
  { exists []. by rewrite app_nil_r. }
  rewrite append_missing_cons.
  destruct (get_block (store_of chain) (cp_height b)); [by apply IH|].
  destruct (append b (store_of chain)) as [s'|e] eqn:E; [|by apply IH].
  apply append_ok_iff in E as [He ->]; [|done].
  destruct (IH (chain ++ [b])) as (ext & -> & Hv'); [by constructor|].
  exists (b :: ext). by rewrite <- !app_assoc in *.
Qed.

(** Re-appending what was read back of the upper part of a chain rebuilds it. *)
Lemma append_missing_restored n chain :
  sound chain ->
  append_missing (stored_checkpoint <$> drop n chain) (store_of (take n chain)) =
  store_of (restored n chain).
Proof.
  induction chain as [|c chain IH] using rev_ind; intros Hs.
  { unfold restored. by rewrite take_nil, drop_nil. }
  destruct (decide (n <= length chain)%nat) as [Hn|Hn].
  2:{ unfold restored. rewrite take_ge, drop_ge by (rewrite length_app; simpl; lia).
      by rewrite fmap_nil, app_nil_r. }
  assert (Hs' : sound chain).
  { destruct Hs as [(? & _)%valid_chain_snoc_inv (? & _)%sealed_snoc]. by split. }
  rewrite restored_snoc, take_app_le, drop_app_le, fmap_app by lia.
  rewrite append_missing_app, (IH Hs'). rewrite fmap_cons, fmap_nil, append_missing_cons.
  pose proof (sound_restored tol n chain Hs') as [Hvr _].
  destruct Hs as [(Hv & He & Hw)%valid_chain_snoc_inv _].
  assert (He' : extends (restored n chain) (stored_checkpoint c))
    by (eapply extends_same; [apply same_blocks_restored|done]).
  rewrite get_block_of by done. rewrite (ext_height _ _ He'). rewrite decide_True by lia.
  rewrite Nat2Z.id, lookup_ge_None_2 by lia. cbn [fmap option_fmap option_map].
  by rewrite (proj2 (append_ok_iff _ _ (store_of (restored n chain ++ [stored_checkpoint c])) Hvr))
    by done.
Qed.

Lemma omap_seqZ_drop {A B} (f : A -> B) (l : list A) n :
  omap (fun h => if decide (0 <= h) then f <$> l !! Z.to_nat h else None)
    (seqZ (Z.of_nat n) (Z.of_nat (length l) - Z.of_nat n)) = f <$> drop n l.
Proof.
  remember (length l - n)%nat as k eqn:Ek. revert n Ek. induction k as [|k IH]; intros n Ek.
  - rewrite drop_ge by lia. by rewrite seqZ_nil by lia.
  - destruct (lookup_lt_is_Some_2 l n ltac:(lia)) as [x Hx].
    rewrite seqZ_cons, (drop_S _ _ _ Hx) by lia. cbn. rewrite decide_True by lia.
    rewrite Nat2Z.id, Hx. cbn. f_equal.
    replace (Z.succ (Z.of_nat n)) with (Z.of_nat (S n)) by lia.
    replace (Z.pred (Z.of_nat (length l) - Z.of_nat n)) with (Z.of_nat (length l) - Z.of_nat (S n)) by lia.
    apply IH. lia.
Qed.

(** The blocks the reorganisation saves. *)
Lemma saved_blocks chain a :
  valid_chain chain -> -1 <= a ->
  omap (get_block (store_of chain)) (zrange (a + 1) (height (store_of chain))) =
  stored_checkpoint <$> drop (Z.to_nat (a + 1)) chain.
Proof.
  intros Hv Ha. rewrite height_of by done. unfold zrange.
  rewrite <- omap_seqZ_drop, Z2Nat.id by lia.
  replace (Z.of_nat (length chain) - 1 - (a + 1) + 1) with (Z.of_nat (length chain) - (a + 1)) by lia.
  apply list_omap_ext. induction (seqZ _ _); constructor; [by apply get_block_of|done].
Qed.

Lemma wf_saved n chain :
  valid_chain chain -> Forall (fun b => wf_checkpoint b = true) (stored_checkpoint <$> drop n chain).
Proof.
  intros Hv. apply Forall_fmap, Forall_forall. intros c Hc. cbn. apply wf_stored.
  apply list_elem_of_lookup in Hc as [i Hi]. rewrite lookup_drop in Hi. by eapply wf_of_valid.
Qed.

(** The restore path rebuilds the blocks of the original chain, whatever was applied. *)
Lemma restore_restored a chain cur applied :
  sound chain -> valid_chain cur -> -1 <= a -> a < Z.of_nat (length chain) ->
  take (Z.to_nat (a + 1)) cur = take (Z.to_nat (a + 1)) chain ->
  restore a (stored_checkpoint <$> drop (Z.to_nat (a + 1)) chain) applied (store_of cur) =
  store_of (restored (Z.to_nat (a + 1)) chain).
Proof.
  intros Hs Hvc Ha Hlen Hpre. unfold restore.
  destruct (append_missing_extends
              (take applied (stored_checkpoint <$> drop (Z.to_nat (a + 1)) chain)) cur)
    as (ext & -> & Hve); [done|apply Forall_take, wf_saved, Hs|].
  rewrite rollback_store_of by done.
  assert (Hl : (Z.to_nat (a + 1) <= length cur)%nat).
  { assert (length (take (Z.to_nat (a + 1)) cur) = Z.to_nat (a + 1)) as E
      by (rewrite Hpre, length_take; lia).
    rewrite length_take in E. lia. }
  rewrite take_app_le, Hpre by done. by apply append_missing_restored.
Qed.

(** ** The apply loop *)

Lemma all_ids_of chain : all_committed_claim_ids (store_of chain) = ids_of (chain_claims chain).
Proof.
  unfold all_committed_claim_ids, ids_of. cbn. f_equal.
  change (cr_claim_id <$> chain_rows chain = signed_id <$> chain_claims chain).
  apply chain_rows_ids.
Qed.

Lemma below_view_same l1 l2 st : same_blocks l1 l2 -> below_view l1 st -> below_view l2 st.
Proof.
  intros HF [Ho|Hb]; [by left|right]. revert Hb.
  induction HF as [|a b l1 l2 [E _] _ IH]; [done|]. intros [Ha Hl]%Forall_cons.
  constructor; [|by apply IH]. unfold cp_epoch in *. by rewrite <- E.
Qed.

Lemma inv_refresh chain st :
  node_inv chain st ->
  node_inv chain (with_committed (all_committed_claim_ids (store_of chain)) st).
Proof. intros Hi. apply inv_committed; [|done]. by rewrite all_ids_of. Qed.

Lemma inv_restored n chain cur st :
  node_inv cur st -> below_view chain st ->
  node_inv (restored n chain)
    (with_committed (all_committed_claim_ids (store_of (restored n chain))) st).
Proof.
  intros Hi Hb. pose proof (same_blocks_restored n chain) as HF.
  destruct Hi. split; try done.
  - exact (below_view_same _ _ st HF Hb).
  - cbn [ps_committed_claim_ids with_committed]. by rewrite all_ids_of.
Qed.

Lemma good_reorg_apply incoming a chain cur applied st :
  sound chain -> sound cur -> node_inv cur st -> below_view chain st ->
  -1 <= a -> a < Z.of_nat (length chain) ->
  take (Z.to_nat (a + 1)) cur = take (Z.to_nat (a + 1)) chain ->
  (Z.to_nat (a + 1) <= length cur)%nat ->
  Forall (fun b => wf_checkpoint b = true) incoming ->
  good (reorg_apply config incoming a (stored_checkpoint <$> drop (Z.to_nat (a + 1)) chain)
                 applied (st, store_of cur)).
Proof.
  intros Hs Hc Hi Hb Ha Hlen Hpre Hl Hw. revert cur st applied Hc Hi Hb Hpre Hl.
  induction Hw as [|b incoming Hwb Hw IH]; intros cur st applied Hc Hi Hb Hpre Hl;
    cbn [reorg_apply].
  { exists cur. split; [done|]. split; [done|]. by apply inv_refresh. }
  destruct (validate_checkpoint _ _ _ _ _ _).2 as [u|e] eqn:Ev.
  2:{ rewrite restore_restored by (done || apply Hc).
      exists (restored (Z.to_nat (a + 1)) chain).
      split; [done|]. split; [by apply sound_restored|]. by eapply inv_restored. }
  pose proof (commit_local_view st (store_of cur) b) as Hview.
  assert (Hcases := commit_validated_cases config overflowed me cur st b _ _ Hc Hi Hwb (result_unit_ok _ _ Ev)).
  destruct (commit_local b (st, store_of cur)) as [st' s'].
  destruct Hcases as [E1 Hi'|E1 He Hs' Hi']; cbn [fst snd] in *; subst s'.
  - apply IH; try done. by eapply below_view_mono.
  - apply IH; try done.
    + by eapply below_view_mono.
    + by rewrite take_app_le.
    + rewrite length_app. lia.
Qed.

(** ** The whole reorganisation *)

Lemma common_ancestor_range chain peer :
  valid_chain chain -> -1 <= common_ancestor (store_of chain) peer < Z.of_nat (length chain).
Proof.
  intros Hv. unfold common_ancestor. destruct (find_first _ _) as [h|] eqn:E; cbn; [|lia].
  apply find_first_Some in E as [Hin _]. rewrite <- rev_reverse, elem_of_reverse, elem_of_zrange in Hin
    || (apply list_elem_of_In, in_rev, list_elem_of_In in Hin; apply elem_of_zrange in Hin).
  rewrite height_of in Hin by done. lia.
Qed.

Lemma inv_take chain n st : node_inv chain st -> node_inv (take n chain) st.
Proof.
  intros Hi. apply (inv_chain _ _ chain); [| |done].
  { destruct (ni_view _ _ _ _ Hi) as [Ho|Hv]; [by left|right]. by apply Forall_take. }
  pose proof (ni_ids _ _ _ _ Hi) as Hids. rewrite <- (take_drop n chain), chain_claims_app, ids_of_app in Hids.
  set_solver.
Qed.

Lemma inv_retain chain (P : Z * Checkpoint -> Prop) `{!forall x, Decision (P x)} st :
  node_inv chain st -> node_inv chain (with_pending_commits (filter P (ps_pending_commits st)) st).
Proof.
  intros Hi. apply inv_pending_commits; [| |done].
  - intros h c [Hc _]%map_lookup_filter_Some. by apply (ni_commits _ _ _ _ Hi).
  - pose proof (ni_commits_size _ _ _ _ Hi).
    pose proof (map_subseteq_size _ _ (map_filter_subseteq P (ps_pending_commits st))). lia.
Qed.

Lemma good_reorg a incoming chain st :
  sound chain -> node_inv chain st -> -1 <= a < Z.of_nat (length chain) ->
  Forall (fun b => wf_checkpoint b = true) incoming ->
  good (reorg config a incoming (st, store_of chain)).
Proof.
  intros Hs Hi Ha Hw. unfold reorg. rewrite saved_blocks by (apply Hs || lia).
  rewrite height_of by apply Hs. destruct (Z.ltb_spec a (Z.of_nat (length chain) - 1)) as [Hlt|Hge].
  - rewrite rollback_store_of by (apply Hs || lia). cbv beta iota zeta.
    apply good_reorg_apply; try done; try lia.
    + by apply sound_take.
    + by apply inv_retain, inv_take.
    + apply Hi.
    + rewrite take_take. f_equal. lia.
    + rewrite length_take. lia.
  - cbv beta iota zeta. apply good_reorg_apply; try done; try lia. apply Hi.
Qed.

Lemma good_reconcile peer ns :
  good ns -> Forall (fun b => wf_checkpoint b = true) peer ->
  good (reconcile_chain config peer ns).
Proof.
  destruct ns as [st s]. intros (chain & E & Hs & Hi) Hw. cbn [fst snd] in *. subst s.
  assert (Hg : good (st, store_of chain)) by by exists chain.
  unfold reconcile_chain. destruct (last _) as [tip|]; [|done].
  destruct (_ <? _); [done|]. destruct (_ && _); [done|]. destruct (contiguous _ _ _); [|done].
  apply good_reorg; [done|done|apply common_ancestor_range, Hs|].
  apply Forall_forall. intros b [_ Hb]%list_elem_of_filter. rewrite elem_of_sort_by in Hb.
  rewrite Forall_forall in Hw. by apply Hw.
Qed.

Lemma good_on_sync_response r ns :
  good ns -> Forall (fun b => wf_checkpoint b = true) (sp_blocks r) ->
  good (on_sync_response config r ns).
Proof.
  intros Hg Hw. unfold on_sync_response. destruct (existsb _ _); [by apply good_reconcile|].
  revert ns Hg. induction Hw as [|b bs Hb Hw IH]; intros ns Hg; cbn [foldl]; [done|].
  apply IH. by apply good_on_commit.
Qed.

(** ** Outcomes *)

Lemma contiguous_heights bs prev h i b :
  contiguous bs prev h = true -> bs !! i = Some b -> cp_height b = h + Z.of_nat i.
Proof.
  revert prev h i. induction bs as [|c bs IH]; intros prev h i; cbn [contiguous]; [done|].
  intros Hc. bool_prop. destruct i as [|i]; cbn; [intros [= <-]; lia|].
  intros Hi. specialize (IH _ _ i ltac:(eassumption) Hi). lia.
Qed.

Lemma genesis_height p : is_canonical_genesis p = true -> prop_height p = 0.
Proof. unfold is_canonical_genesis. intros Hg. bool_prop. done. Qed.

Lemma not_above_head_of chain h :
  valid_chain chain -> Z.of_nat (length chain) <= h -> not_above_head (store_of chain) h = false.
Proof.
  intros Hv Hh. unfold not_above_head. destruct (head_facts _ Hv) as [E _].
  destruct (head (store_of chain)) as [hd|]; [|done]. cbn in E. rewrite E. apply Z.leb_gt. lia.
Qed.

(** A block that extends the chain is committed. *)
Lemma commit_local_extends chain st c :
  valid_chain chain -> extends chain c ->
  (commit_local c (st, store_of chain)).2 = store_of (chain ++ [c]).
Proof.
  intros Hv He. unfold commit_local.
  rewrite not_above_head_of by (done || rewrite (ext_height _ _ He); done).
  by rewrite (proj2 (append_ok_iff chain c (store_of (chain ++ [c])) Hv)).
Qed.

Lemma store_of_length chain chain' : store_of chain = store_of chain' -> length chain = length chain'.
Proof.
  intros E%(f_equal tbl_blocks). cbn in E. apply (f_equal length) in E. by rewrite !length_fmap in E.
Qed.

Lemma validate_wrong_height chain c q oseen :
  valid_chain chain -> cp_height c = Z.of_nat (length chain) + 1 ->
  (validate_checkpoint c (store_of chain) tol q false oseen).2 <> Ok tt.
Proof.
  intros Hv Hh Hok. destruct (validate_checkpoint _ _ _ _ _ _) as [o r] eqn:E. cbn in Hok. subst r.
  apply validate_checkpoint_iff in E as [[Hg _]|(_ & Ha & _)]; [| |done].
  - apply genesis_height in Hg. unfold cp_height in Hh. lia.
  - pose proof (adm_height _ _ _ _ _ Ha). unfold cp_height in Hh. lia.
Qed.

(** How a reorganisation can end, as a relation between the chain before, the incoming
blocks above the ancestor and the chain after. *)
Inductive reorg_outcome (n : nat) (chain cur incoming : list Checkpoint) (s : ChainStore) : Prop :=
| reorg_adopted :
    s = store_of (cur ++ incoming) -> valid_chain (cur ++ incoming) ->
    reorg_outcome n chain cur incoming s
| reorg_restored : s = store_of (restored n chain) -> reorg_outcome n chain cur incoming s
| reorg_dropped_last init b :
    incoming = init ++ [b] -> s = store_of (cur ++ init) -> valid_chain (cur ++ init) ->
    ~ extends (cur ++ init) b ->
    reorg_outcome n chain cur incoming s.

Lemma reorg_apply_outcome incoming a chain cur applied st :
  sound chain -> sound cur -> node_inv cur st ->
  -1 <= a -> a < Z.of_nat (length chain) ->
  take (Z.to_nat (a + 1)) cur = take (Z.to_nat (a + 1)) chain ->
  (Z.to_nat (a + 1) <= length cur)%nat ->
  Forall (fun b => wf_checkpoint b = true) incoming ->
  (forall i b, incoming !! i = Some b -> cp_height b = Z.of_nat (length cur) + Z.of_nat i) ->
  reorg_outcome (Z.to_nat (a + 1)) chain cur incoming
    (reorg_apply config incoming a (stored_checkpoint <$> drop (Z.to_nat (a + 1)) chain)
       applied (st, store_of cur)).2.
Proof.
  intros Hs Hc Hi Ha Hlen Hpre Hl Hw Hh. revert cur st applied Hc Hi Hpre Hl Hh.
  induction Hw as [|b incoming Hwb Hw IH]; intros cur st applied Hc Hi Hpre Hl Hh;
    cbn [reorg_apply].
  { apply reorg_adopted; rewrite app_nil_r; [done|apply Hc]. }
  destruct (validate_checkpoint _ _ _ _ _ _).2 as [u|e] eqn:Ev.
  2:{ apply reorg_restored. rewrite restore_restored by (done || apply Hc). done. }
  assert (Hcases := commit_validated_cases config overflowed me cur st b _ _ Hc Hi Hwb
                      (result_unit_ok _ _ Ev)).
  assert (Hext : forall st, extends cur b -> (commit_local b (st, store_of cur)).2 = store_of (cur ++ [b]))
    by (intros st0; apply commit_local_extends, Hc).
  specialize (Hext st). destruct (commit_local b (st, store_of cur)) as [st' s'].
  destruct Hcases as [E1 Hi'|E1 He Hs' Hi']; cbn [fst snd] in *; subst s'.
  - assert (Hne : ~ extends cur b).
    { intros He%Hext%store_of_length. rewrite length_app in He. simpl in He. lia. }
    destruct incoming as [|b2 rest]; cbn [reorg_apply].
    { apply (reorg_dropped_last _ _ _ _ _ [] b); [done|..]; rewrite app_nil_r; [done|apply Hc|done]. }
    destruct (validate_checkpoint b2 _ _ _ _ _).2 as [u2|e2] eqn:Ev2.
    + exfalso. eapply validate_wrong_height; [apply Hc| |by eapply result_unit_ok].
      rewrite (Hh 1%nat b2 eq_refl). lia.
    + apply reorg_restored. rewrite restore_restored by (done || apply Hc). done.
  - destruct (IH (cur ++ [b]) st' (S applied)) as [E Hv|E|init c E1' E2 Hv E3]; try done.
    + by rewrite take_app_le.
    + rewrite length_app. lia.
    + intros i c Hc'. rewrite length_app. cbn [length]. rewrite (Hh (S i) c Hc'). lia.
    + apply reorg_adopted; by rewrite <- app_assoc in *.
    + by apply reorg_restored.
    + rewrite <- app_assoc in E2, E3, Hv. apply (reorg_dropped_last _ _ _ _ _ (b :: init) c);
        [by rewrite E1'|done..].
Qed.

Lemma reorg_outcomes a incoming chain st :
  sound chain -> node_inv chain st -> -1 <= a < Z.of_nat (length chain) ->
  Forall (fun b => wf_checkpoint b = true) incoming ->
  (forall i b, incoming !! i = Some b -> cp_height b = a + 1 + Z.of_nat i) ->
  reorg_outcome (Z.to_nat (a + 1)) chain (take (Z.to_nat (a + 1)) chain) incoming
    (reorg config a incoming (st, store_of chain)).2.
Proof.
  intros Hs Hi Ha Hw Hh. unfold reorg. rewrite saved_blocks by (apply Hs || lia).
  assert (El : Z.of_nat (length (take (Z.to_nat (a + 1)) chain)) = a + 1) by (rewrite length_take; lia).
  rewrite height_of by apply Hs. destruct (Z.ltb_spec a (Z.of_nat (length chain) - 1)) as [Hlt|Hge].
  - rewrite rollback_store_of by (apply Hs || lia). cbv beta iota zeta.
    apply reorg_apply_outcome; try done; try lia.
    + by apply sound_take.
    + by apply inv_retain, inv_take.
    + rewrite take_take. f_equal. lia.
    + intros i b Hb. rewrite (Hh i b Hb). lia.
  - cbv beta iota zeta. rewrite (take_ge chain (Z.to_nat (a + 1))) at 1 by lia.
    apply reorg_apply_outcome; try done; try lia.
    intros i b Hb. rewrite (Hh i b Hb). lia.
Qed.

(** The incoming blocks reach the height of the tip. *)
Lemma incoming_reach bs tip a :
  last bs = Some tip -> a <= cp_height tip ->
  (forall i b, filter (fun b => a < cp_height b) bs !! i = Some b -> cp_height b = a + 1 + Z.of_nat i) ->
  cp_height tip <= a + Z.of_nat (length (filter (fun b => a < cp_height b) bs)).
Proof.
  intros Hl Ha Hh. destruct (decide (a = cp_height tip)) as [->|Hne]; [lia|].
  assert (Hin : tip ∈ filter (fun b => a < cp_height b) bs).
  { apply list_elem_of_filter. split; [lia|]. apply last_lookup_of in Hl as [i Hi].
    by apply list_elem_of_lookup_2 in Hi. }
  apply list_elem_of_lookup in Hin as [i Hi]. pose proof (lookup_lt_Some _ _ _ Hi).
  rewrite (Hh i tip Hi). lia.
Qed.

(** [reconcile_chain] declines, or ends in one of the outcomes, and the replacing chain is
not shorter than the local one. *)
Lemma reconcile_cases chain st peer :
  sound chain -> node_inv chain st -> Forall (fun b => wf_checkpoint b = true) peer ->
  reconcile_chain config peer (st, store_of chain) = (st, store_of chain) \/
  (let bs := sort_by height_le peer in
   let a := common_ancestor (store_of chain) bs in
   let incoming := filter (fun b => a < cp_height b) bs in
   Z.of_nat (length chain) <= a + 1 + Z.of_nat (length incoming) /\
   reorg_outcome (Z.to_nat (a + 1)) chain (take (Z.to_nat (a + 1)) chain) incoming
     (reconcile_chain config peer (st, store_of chain)).2).
Proof.
  intros Hs Hi Hw. unfold reconcile_chain. cbv zeta.
  destruct (last (sort_by height_le peer)) as [tip|] eqn:El; [|by left].
  destruct (Z.ltb_spec (cp_height tip) (height (store_of chain))) as [Hlt|Hge]; [by left|].
  destruct (_ && _); [by left|].
  destruct (contiguous _ _ _) eqn:Ec; [|by left]. right.
  pose proof (common_ancestor_range chain (sort_by height_le peer) (proj1 Hs)) as Ha.
  rewrite height_of in Hge by apply Hs.
  assert (Hh := fun i b => contiguous_heights _ _ _ i b Ec).
  split.
  - pose proof (incoming_reach _ _ (common_ancestor (store_of chain) (sort_by height_le peer)) El) as Hr.
    specialize (Hr ltac:(lia) Hh). lia.
  - apply reorg_outcomes; [done|done|lia| |done].
    apply Forall_forall. intros b [_ Hb]%list_elem_of_filter. rewrite elem_of_sort_by in Hb.
    rewrite Forall_forall in Hw. by apply Hw.
Qed.
End Reorg.
