(* ===== verification/ProtocolSteps.v ===== *)
(** * Executions of a node

The entry points as a step relation with the events they emit, the reachable states, and
the proof that the node invariant holds in all of them. *)

From S2P Require Import Prelude F64 Crypto CryptoTheory Models Accounting Config Ledger.
From S2P Require Import LedgerTheory Validation ValidationTheory Protocol ProtocolTheory.
From S2P Require Import ProtocolInv ProtocolReorg.

(** ** Steps *)

Section Steps.
Context `{Crypto} `{Serde} `{Env}.
Variable config : ExodusConfig.

(** One call of an entry point.  What comes from the network was deserialised, hence is
well-formed; [tick] is its locked part, the take-over it may trigger is a [propose_now]. *)
Inductive step : ProtocolState * ChainStore -> list event -> ProtocolState * ChainStore -> Prop :=
| step_submit ns signed st s evs r :
    wf_signed signed = true -> submit_claim config signed ns = (st, s, evs, r) ->
    step ns evs (st, s)
| step_receive ns topic m st s evs :
    wf_message m = true -> receive config topic m ns = (st, s, evs) -> step ns evs (st, s)
| step_sync_request ns r st s evs :
    handle_sync_request r ns = (st, s, evs) -> step ns evs (st, s)
| step_sync_response ns r st s evs :
    wf_message (MSyncResponse r) = true -> handle_sync_response config r ns = (st, s, evs) ->
    step ns evs (st, s)
| step_tick ns st s evs takeover :
    tick_locked config ns = (st, s, evs, takeover) -> step ns evs (st, s)
| step_propose ns st s evs :
    propose_now config ns = (st, s, evs) -> step ns evs (st, s).

(** The steps that always apply, with the result they compute. *)
Lemma step_propose_now ns :
  step ns (propose_now config ns).2 ((propose_now config ns).1.1, (propose_now config ns).1.2).
Proof. apply step_propose. by destruct (propose_now config ns) as [[? ?] ?]. Qed.

Lemma step_submit_claim ns signed :
  wf_signed signed = true ->
  step ns (submit_claim config signed ns).1.2
    ((submit_claim config signed ns).1.1.1, (submit_claim config signed ns).1.1.2).
Proof.
  intros Hw. apply (step_submit _ signed _ _ _ (submit_claim config signed ns).2 Hw).
  by destruct (submit_claim config signed ns) as [[[? ?] ?] ?].
Qed.

(** The states of a node started with an identity on a sound store. *)
Inductive reachable (node_id : string) (private_key : bytes) (s0 : ChainStore) :
  ProtocolState * ChainStore -> Prop :=
| reach_new :
    reachable node_id private_key s0
      (new config node_id private_key (hex (public_key_from_private private_key)) s0)
| reach_step ns evs ns' :
    reachable node_id private_key s0 ns -> step ns evs ns' ->
    reachable node_id private_key s0 ns'.

(** An identity and a store a node can be started with: an empty store, or one that an
earlier run left behind. *)
Record startable (node_id : string) (private_key : bytes) (s0 : ChainStore) : Prop := {
  start_key : String.length private_key = 32%nat;
  start_node : valid_str node_id = true;
  start_store : exists chain, s0 = store_of chain /\ sound_chain (flops_tolerance config) chain;
}.

End Steps.

Section StepTheory.
Context `{CL : CryptoLaws} `{SL : SerdeLaws} `{EL : EnvLaws}.
Variable config : ExodusConfig.
Variable overflowed : Prop.
Variable me : string.

Local Abbreviation tol := (flops_tolerance config).
Local Abbreviation sound := (sound_chain tol).
Local Abbreviation node_inv := (ProtocolInv.node_inv overflowed me).
Local Abbreviation good := (ProtocolInv.good config overflowed me).

Local Abbreviation out_ok := (ProtocolInv.out_ok me).

(** What the outside sees of a step. *)
Definition event_ok (e : event) : Prop :=
  match e with Publish t m => out_ok (t, m) | Notify _ _ => True end.

Lemma flush_ok msgs listeners : Forall out_ok msgs -> Forall event_ok (flush (msgs, listeners)).
Proof.
  intros Hm. unfold flush. apply Forall_app. split.
  - apply Forall_forall. intros e He%list_elem_of_In%in_map_iff. destruct He as ([t m] & <- & Hin).
    rewrite Forall_forall in Hm. by apply Hm, list_elem_of_In.
  - apply Forall_forall. intros e He%list_elem_of_In%in_map_iff. by destruct He as ([h b] & <- & _).
Qed.

Lemma good_run handler ns st s evs :
  good (handler ns) -> run handler ns = (st, s, evs) -> good (st, s) /\ Forall event_ok evs.
Proof.
  unfold run. destruct (handler ns) as [st1 s1]. intros (chain & E & Hs & Hi).
  unfold drain. intros [= <- <- <-]. split; [|apply flush_ok, Hi].
  exists chain. split; [done|]. split; [done|]. apply inv_listeners, inv_outgoing; [constructor|done].
Qed.

(** ** Claims *)

Lemma evict_forall (P : string -> SignedContribution -> Prop) fuel n m :
  map_Forall P m -> map_Forall P (evict fuel n m).
Proof.
  revert m. induction fuel as [|fuel IH]; intros m Hm; cbn [evict]; [done|].
  destruct (_ <? _); [|done]. destruct (hash_first n m); [|done]. by apply IH, map_Forall_delete.
Qed.

(** The loop of [on_claims] has enough fuel. *)
Lemma evict_size fuel n m :
  Z.of_nat (size m) <= Z.of_nat fuel + MAX_PENDING_CLAIMS ->
  Z.of_nat (size (evict fuel n m)) <= MAX_PENDING_CLAIMS.
Proof.
  revert m. induction fuel as [|fuel IH]; intros m Hm; cbn [evict]; [lia|].
  destruct (Z.ltb_spec MAX_PENDING_CLAIMS (Z.of_nat (size m))); [|lia].
  assert (Hne : m <> ∅) by (intros ->; rewrite map_size_empty in *; unfold MAX_PENDING_CLAIMS in *; lia).
  destruct (hash_first_some n m Hne) as [id Hid]. rewrite Hid.
  pose proof (hash_first_key _ _ _ Hid) as Hk. apply IH.
  rewrite map_size_delete_Some by done. unfold MAX_PENDING_CLAIMS in *. lia.
Qed.

Lemma inv_on_claims chain g st :
  wf_signed (cg_signed g) = true -> node_inv chain st -> node_inv chain (on_claims g st).
Proof.
  intros Hw Hi. unfold on_claims.
  destruct (signed_verify (cg_signed g)) eqn:Ev; cbn [negb]; [|done].
  destruct (_ || _); [done|]. apply inv_pending; [|done].
  apply evict_forall, map_Forall_insert_2; [done|apply Hi].
Qed.

Lemma good_submit signed ns st s evs r :
  good ns -> wf_signed signed = true -> submit_claim config signed ns = (st, s, evs, r) ->
  good (st, s) /\ Forall event_ok evs.
Proof.
  destruct ns as [st0 s0]. intros Hg Hw. unfold submit_claim.
  destruct (String.eqb_spec (claim_node_id (sc_claim signed)) (ps_node_id st0)) as [En|En];
    cbn [negb]; [|by intros [= <- <- <- _]].
  destruct (signed_verify signed) eqn:Ev; cbn [negb]; [|by intros [= <- <- <- _]].
  destruct (negb _); [by intros [= <- <- <- _]|].
  destruct (run _ _) as [[st1 s1] evs1] eqn:Er. intros [= <- <- <- _].
  eapply good_run; [|exact Er]. cbv beta iota.
  destruct (_ || _); [done|]. destruct Hg as (chain & E & Hs & Hi). exists chain.
  split; [done|]. split; [done|]. cbn [fst snd] in *.
  apply inv_push; [done|split; [rewrite <- (ni_me _ _ _ _ Hi); exact En|done]|].
  apply inv_pending; [|done]. apply map_Forall_insert_2; [done|apply Hi].
Qed.

(** ** Proposals *)

Lemma proposable_elem st x :
  x ∈ proposable st ->
  exists id, ps_pending st !! id = Some x /\ (id ∉ ps_committed_claim_ids st) /\
    (id ∉ ps_proposed_claim_ids st).
Proof.
  unfold proposable. rewrite elem_of_sort_by.
  intros ([id x'] & -> & Hin%elem_of_map_to_list)%list_elem_of_fmap. cbn.
  apply map_lookup_filter_Some in Hin as [Hl [? ?]]. eauto.
Qed.

Lemma good_propose ns : good ns -> good (propose_internal config ns).
Proof.
  intros Hg. destruct ns as [st s]. unfold propose_internal.
  destruct (negb _); [done|]. destruct (head s) as [hd|]; [|done].
  destruct (existsb _ _); [done|]. destruct (bool_decide _); [done|].
  destruct Hg as (chain & E & Hs & Hi). cbn [fst snd] in *. subst s.
  set (p := mkProposal _ _ _ _ _ _).
  assert (Hw : wf_proposal p = true).
  { unfold wf_proposal. cbn. rewrite (ni_view_range _ _ _ _ Hi), wrap_i64_range, valid_block_hash,
      (ni_me _ _ _ _ Hi), (ni_node _ _ _ _ Hi), utcnow_valid. cbn.
    apply forallb_forall. intros x Hx%list_elem_of_In.
    apply proposable_elem in Hx as (id & Hx & _). by apply (ni_pending _ _ _ _ Hi) in Hx as (_ & ? & _). }
  assert (Hi' : node_inv chain (with_reads (S (ps_clock_reads st)) st)) by by apply inv_reads.
  destruct (validate_proposal _ _ _ _ _).2; [|by exists chain].
  apply good_maybe_commit; [done| |done].
  apply inv_push; [done|exact (ni_me _ _ _ _ Hi)|]. by apply inv_accept_proposal.
Qed.

(** ** The clock *)

Lemma inv_prune chain t d st : node_inv chain st -> node_inv chain (prune_stale_peers t d st).
Proof. intros Hi. unfold prune_stale_peers. destruct (f64_le _ _); [done|]. by apply inv_peers. Qed.

Lemma inv_tick_view chain t s st :
  (ps_view st = i64_max -> overflowed) -> node_inv chain st ->
  node_inv chain (tick_view config t s st).1.
Proof.
  intros Ho Hi. unfold tick_view. destruct (f64_gt _ _); cbn [fst]; [|done].
  apply inv_last_activity. pose proof (ni_view_range _ _ _ _ Hi) as Hr%in_i64_spec.
  destruct (decide (ps_view st = i64_max)) as [E|E].
  - destruct Hi. split; try done; cbn; [apply wrap_i64_range|left; auto].
  - rewrite wrap_i64_id by (apply in_i64_spec; lia).
    apply inv_view; [apply in_i64_spec; lia|lia|done].
Qed.

Lemma prune_view t d st : ps_view (prune_stale_peers t d st) = ps_view st.
Proof. unfold prune_stale_peers. by destruct (f64_le _ _). Qed.

Lemma good_tick ns st s evs takeover :
  (ps_view ns.1 = i64_max -> overflowed) ->
  good ns -> tick_locked config ns = (st, s, evs, takeover) ->
  good (st, s) /\ Forall event_ok evs.
Proof.
  destruct ns as [st0 s0]. intros Ho (chain & E & Hs & Hi). cbn [fst snd] in *. subst s0.
  unfold tick_locked, now. cbv beta iota zeta.
  set (st1 := prune_stale_peers _ _ _).
  assert (Hi1 : node_inv chain st1) by by apply inv_prune, inv_reads.
  assert (Ho1 : ps_view st1 = i64_max -> overflowed) by (unfold st1; rewrite prune_view; exact Ho).
  pose proof (inv_tick_view chain (clock (ps_clock_reads st0)) (store_of chain) st1 Ho1 Hi1) as Hi2.
  destruct (tick_view _ _ _ _) as [st2 b]. cbn [fst] in Hi2. unfold drain. cbv beta iota zeta.
  intros [= <- <- <- _]. split.
  - exists chain. split; [done|]. split; [done|].
    apply inv_listeners, inv_outgoing; [constructor|done].
  - apply flush_ok. destruct (head _); [|apply Hi2]. apply Forall_app. split; [apply Hi2|].
    constructor; [|constructor]. split; [done|]. exact (ni_me _ _ _ _ Hi2).
Qed.

Lemma wrap_i64_succ z : in_i64 z = true -> wrap_i64 (z + 1) = z + 1 \/ z = i64_max.
Proof.
  intros Hz%in_i64_spec. destruct (decide (z = i64_max)); [by right|left].
  apply wrap_i64_id, in_i64_spec. lia.
Qed.

(** ** All steps *)

Lemma good_on_state f ns :
  (forall chain st, node_inv chain st -> node_inv chain (f st)) -> good ns -> good (on_state f ns).
Proof.
  destruct ns as [st s]. intros Hf (chain & E & Hs & Hi). exists chain. split; [done|]. split; [done|].
  by apply Hf.
Qed.

Lemma good_dispatch topic m ns :
  wf_message m = true -> good ns -> good (dispatch config topic m ns).
Proof.
  intros Hw Hg. unfold dispatch.
  repeat (destruct (String.eqb topic _); [destruct m; try done|]); cbn [wf_message] in Hw; [..|done].
  - apply good_on_state; [|done]. intros. by apply inv_on_claims.
  - by apply good_on_proposal.
  - by apply good_on_signature.
  - by apply good_on_commit.
  - by apply good_on_heartbeat.
  - apply good_on_state; [|done]. intros chain st Hi. unfold on_fork.
    case_bool_decide; [done|]. by apply inv_fork_alerts.
Qed.

Lemma good_step ns evs ns' :
  (ps_view ns.1 = i64_max -> overflowed) -> good ns -> step config ns evs ns' ->
  good ns' /\ Forall event_ok evs.
Proof.
  intros Ho Hg Hstep. destruct Hstep as [? ? ? ? ? ? Hw E|? ? ? ? ? ? Hw E|? ? ? ? ? E|? ? ? ? ? Hw E|? ? ? ? ? E|? ? ? ? E].
  - by eapply good_submit.
  - eapply good_run; [|exact E]. by apply good_dispatch.
  - eapply good_run; [|exact E]. by apply good_on_sync_request.
  - eapply good_run; [|exact E]. apply good_on_sync_response; [done|].
    cbn [wf_message] in Hw. apply andb_true_iff in Hw as [_ Hw].
    apply Forall_forall. intros b Hb%list_elem_of_In. by apply (proj1 (forallb_forall _ _) Hw).
  - by eapply good_tick.
  - eapply good_run; [|exact E]. by apply good_propose.
Qed.

(** ** Construction *)

Lemma extends_genesis_nil : extends [] genesis_checkpoint.
Proof.
  split; try done; try apply NoDup_nil_2; try apply Forall_nil_2. apply not_elem_of_nil.
Qed.

Lemma sound_genesis : sound [genesis_checkpoint].
Proof.
  apply (sound_snoc tol []); [apply sound_nil|apply extends_genesis_nil|vm_compute; reflexivity|].
  left. split; [done|vm_compute; reflexivity].
Qed.

Lemma append_genesis : append genesis_checkpoint (store_of []) = Ok (store_of [genesis_checkpoint]).
Proof.
  apply (append_ok_iff [] genesis_checkpoint); [constructor|]. split; [apply extends_genesis_nil|done].
Qed.

Lemma all_claims_ids chain :
  list_to_set (map rec_claim_id (all_claims (store_of chain))) = ids_of (chain_claims chain).
Proof.
  apply set_eq. intros id. unfold all_claims, ids_of. rewrite map_map, !elem_of_list_to_set.
  rewrite <- chain_rows_ids. change (map ?f ?l) with (f <$> l).
  rewrite !list_elem_of_fmap. cbn. by setoid_rewrite elem_of_sort_by.
Qed.

(** The state [new] starts from, before [ensure_genesis]. *)
Lemma inv_fresh node_id private_key chain v :
  String.length private_key = 32%nat -> node_id = me -> valid_str me = true ->
  in_i64 v = true -> (overflowed \/ Forall (fun c => cp_epoch c < i64_max -> cp_epoch c < v) chain) ->
  node_inv chain
    (mkProtocolState node_id private_key (hex (public_key_from_private private_key)) ∅
       (ids_of (chain_claims chain)) ∅ ∅ ∅ ∅ v (clock 0) ∅ ∅ ∅ ∅ []
       f64_0 (sync_request_interval_seconds config) [] [] 1).
Proof.
  intros Hk Hme Hn Hv Hb.
  split; cbn; try done; try apply map_Forall_empty; try apply NoDup_nil_2.
Qed.

Lemma good_new private_key chain :
  String.length private_key = 32%nat -> valid_str me = true -> sound chain ->
  ((exists h, last chain = Some h /\ cp_epoch h = i64_max) -> overflowed) ->
  good (new config me private_key (hex (public_key_from_private private_key)) (store_of chain)).
Proof.
  intros Hk Hn Hs Ho. unfold new. rewrite all_claims_ids. unfold ensure_genesis.
  rewrite height_of by apply Hs. destruct (decide (chain = [])) as [->|Hne].
  - cbn [length Z.of_nat Z.sub Z.add Z.opp Z.eqb Pos.eqb negb]. rewrite append_genesis.
    exists [genesis_checkpoint]. split; [done|]. split; [apply sound_genesis|].
    apply inv_last_activity, inv_reads.
    pose proof (inv_fresh me private_key [genesis_checkpoint] 1 Hk eq_refl Hn eq_refl) as Hf.
    apply Hf. right. constructor; [|constructor]. intros _. vm_compute. reflexivity.
  - destruct (Z.eqb_spec (Z.of_nat (length chain) - 1) (-1)) as [E|E]; cbn [negb].
    { destruct chain; [done|]. cbn [length] in E. lia. }
    exists chain. split; [done|]. split; [done|].
    rewrite head_of by apply Hs. destruct (last chain) as [h|] eqn:El; [|by apply last_None in El].
    cbn [fmap option_fmap option_map]. unfold cp_epoch at 1. rewrite stored_checkpoint_proposal.
    apply inv_fresh; [done|done|done|apply wrap_i64_range|].
    assert (Hin : h ∈ chain) by (apply last_lookup_of in El as [i Hi]; by apply list_elem_of_lookup_2 in Hi).
    assert (Hw : in_i64 (cp_epoch h) = true).
    { apply list_elem_of_lookup in Hin as [i Hi]. eapply wf_epoch, wf_of_valid; [apply Hs|done]. }
    destruct (wrap_i64_succ _ Hw) as [Ew|Ew]; [right|left; by apply Ho; exists h].
    apply Forall_forall. intros c Hc _. fold (cp_epoch h). rewrite Ew.
    pose proof (sealed_epoch_last tol chain c h (proj2 Hs) Hc El). lia.
Qed.
End StepTheory.

(** ** Reachable states *)

Section Reachable.
Context `{CL : CryptoLaws} `{SL : SerdeLaws} `{EL : EnvLaws}.
Variable config : ExodusConfig.

Lemma reachable_good node_id private_key s0 ns :
  startable config node_id private_key s0 -> reachable config node_id private_key s0 ns ->
  good config True node_id ns.
Proof.
  intros [Hk Hn (chain & -> & Hs)] Hr. induction Hr as [|ns evs ns' Hr IH Hstep].
  - by apply good_new.
  - by eapply good_step.
Qed.

(** The executions in which the [i64] view counter has not reached the end of its range. *)
Inductive reachable_below (node_id : string) (private_key : bytes) (s0 : ChainStore) :
  ProtocolState * ChainStore -> Prop :=
| below_new :
    from_option cp_epoch 0 (head s0) < i64_max ->
    reachable_below node_id private_key s0
      (new config node_id private_key (hex (public_key_from_private private_key)) s0)
| below_step ns evs ns' :
    reachable_below node_id private_key s0 ns -> ps_view ns.1 < i64_max ->
    step config ns evs ns' -> reachable_below node_id private_key s0 ns'.

Lemma reachable_below_good node_id private_key s0 ns :
  startable config node_id private_key s0 -> reachable_below node_id private_key s0 ns ->
  good config False node_id ns.
Proof.
  intros [Hk Hn (chain & -> & Hs)] Hr. induction Hr as [He|ns evs ns' Hr IH Hv Hstep].
  - apply good_new; [done..|]. intros (h & Hl & Eh). rewrite head_of, Hl in He by apply Hs. cbn in He.
    unfold cp_epoch in He, Eh. rewrite stored_checkpoint_proposal in He. lia.
  - eapply good_step; [|exact IH|exact Hstep]. lia.
Qed.
End Reachable.
