(* ===== verification/ProtocolGrowth.v ===== *)
(** * Theory of the protocol: the ledger only grows

Outside a fork reorganisation every handler leaves the tables of the store as prefixes of
the tables it returns. *)

From S2P Require Import Prelude F64 Crypto Models Accounting Config Ledger LedgerTheory.
From S2P Require Import Validation Protocol ProtocolInv ProtocolSteps.

Section Growth.
Context `{Crypto} `{Serde} `{Env}.
Variable config : ExodusConfig.

Definition grows (s s' : ChainStore) : Prop :=
  tbl_blocks s `prefix_of` tbl_blocks s' /\ tbl_claims s `prefix_of` tbl_claims s'.

#[global] Instance grows_preorder : PreOrder grows.
Proof.
  split; [by intros s|]. intros s1 s2 s3 [? ?] [? ?]. split; by etrans.
Qed.

Lemma insert_claims_grows h claims s s' : insert_claims h claims s = Ok s' -> grows s s'.
Proof.
  revert s. induction claims as [|x claims IH]; intros s; cbn [insert_claims]; [by intros [= ->]|].
  intros (s1 & (_ & _ & _ & ->)%insert_claim_ok & Hr)%rbind_ok.
  etrans; [|by apply IH]. split; cbn; [done|]. by apply prefix_app_r.
Qed.

Lemma append_grows c s s' : append c s = Ok s' -> grows s s'.
Proof.
  unfold append. intros Ha. destruct (negb _); [done|].
  apply rbind_ok in Ha as (ep & _ & Ha). destruct (negb _); [done|]. destruct (_ <? _); [done|].
  apply rbind_ok in Ha as ([] & _ & Ha).
  apply rbind_ok in Ha as (s1 & (_ & _ & ->)%insert_block_ok & Ha).
  etrans; [|by eapply insert_claims_grows]. split; cbn; [by apply prefix_app_r|done].
Qed.

Lemma commit_local_grows c st s : grows s (commit_local c (st, s)).2.
Proof.
  unfold commit_local. destruct (not_above_head _ _); [done|].
  destruct (append c s) as [s'|e] eqn:E; [by apply append_grows in E|].
  by destruct (is_already_committed _ _).
Qed.

Lemma maybe_commit_grows p st s : grows s (maybe_commit config p (st, s)).2.
Proof.
  unfold maybe_commit. destruct (_ <? _); [done|].
  destruct (validate_checkpoint _ _ _ _ _ _).2; [|done]. apply commit_local_grows.
Qed.

Lemma on_proposal_grows p ns : grows ns.2 (on_proposal config p ns).2.
Proof.
  destruct ns as [st s]. unfold on_proposal. destruct (_ || _); [done|].
  destruct (not_above_head _ _); [done|]. destruct (negb _); [done|].
  destruct (validate_proposal _ _ _ _ _).2; [|done]. destruct (String.eqb _ _); [|done].
  apply maybe_commit_grows.
Qed.

Lemma on_signature_grows sh ns : grows ns.2 (on_signature config sh ns).2.
Proof.
  destruct ns as [st s]. unfold on_signature. destruct (negb _); [done|].
  destruct (ps_proposals st !! _); [|done]. apply maybe_commit_grows.
Qed.

Lemma flush_height_grows ns h : grows ns.2 (flush_height config ns h).2.
Proof.
  destruct ns as [st s]. unfold flush_height. destruct (negb _); [done|].
  destruct (ps_pending_commits st !! h); [|done]. cbv zeta.
  destruct (validate_checkpoint _ _ _ _ _ _).2; [|done]. apply commit_local_grows.
Qed.

Lemma flush_pending_grows ns : grows ns.2 (flush_pending_commits config ns).2.
Proof.
  destruct ns as [st s]. unfold flush_pending_commits. destruct (head s); [|done].
  change s with ((st, s).2) at 1. generalize (btree_keys (ps_pending_commits st)). intros hs.
  generalize (st, s). induction hs as [|h hs IH]; intros ns; cbn [foldl]; [done|].
  etrans; [apply (flush_height_grows ns h)|apply IH].
Qed.

Lemma on_commit_grows cm ns : grows ns.2 (on_commit config cm ns).2.
Proof.
  assert (Happ : forall c st s, grows s (apply_commit config c (st, s)).2).
  { intros c st s. unfold apply_commit. destruct (commit_reject_seen _ _); [done|].
    destruct (validate_checkpoint _ _ _ _ _ _) as [seen [u|e]]; [|done].
    etrans; [apply (commit_local_grows c)|apply flush_pending_grows]. }
  destruct ns as [st s]. unfold on_commit. destruct (head s).
  - destruct (_ <=? _); [done|]. destruct (_ <? _); [done|]. destruct (negb _); [done|]. apply Happ.
  - destruct (negb _); [done|]. apply Happ.
Qed.

Lemma propose_grows ns : grows ns.2 (propose_internal config ns).2.
Proof.
  destruct ns as [st s]. unfold propose_internal. destruct (negb _); [done|].
  destruct (head s); [|done]. destruct (existsb _ _); [done|]. destruct (bool_decide _); [done|].
  cbv zeta. destruct (validate_proposal _ _ _ _ _).2; [|done]. apply maybe_commit_grows.
Qed.

Lemma dispatch_grows topic m ns : grows ns.2 (dispatch config topic m ns).2.
Proof.
  unfold dispatch.
  repeat (destruct (String.eqb topic _); [destruct m; try done|]); try done.
  - apply on_proposal_grows.
  - apply on_signature_grows.
  - apply on_commit_grows.
  - destruct ns as [st s]. unfold on_heartbeat, now. destruct (String.eqb _ _); [done|].
    destruct (head s); [|done]. destruct (_ <? _); [done|]. by destruct (_ && _).
Qed.

Lemma run_grows handler ns st s evs :
  grows ns.2 (handler ns).2 -> run handler ns = (st, s, evs) -> grows ns.2 s.
Proof. unfold run. destruct (handler ns) as [st1 s1]. unfold drain. by intros Hg [= _ <- _]. Qed.

Lemma submit_store signed ns st s evs r :
  submit_claim config signed ns = (st, s, evs, r) -> s = ns.2.
Proof.
  destruct ns as [st0 s0]. unfold submit_claim, run. cbn [snd].
  repeat (destruct (negb _); [by intros [= _ <- _ _]|]).
  destruct (_ || _); unfold drain; by intros [= _ <- _ _].
Qed.

Lemma sync_request_store r ns st s evs : handle_sync_request r ns = (st, s, evs) -> s = ns.2.
Proof.
  destruct ns as [st0 s0]. unfold handle_sync_request, run, on_sync_request, drain.
  destruct (String.eqb _ _); [by intros [= _ <- _]|]. cbv zeta.
  destruct (omap _ _); by intros [= _ <- _].
Qed.

Lemma tick_store ns st s evs b : tick_locked config ns = (st, s, evs, b) -> s = ns.2.
Proof.
  destruct ns as [st0 s0]. unfold tick_locked, now, drain. cbv beta iota zeta.
  destruct (tick_view _ _ _ _). by intros [= _ <- _ _].
Qed.
End Growth.
