(* ===== verification/Committee.v ===== *)
(** * Committee, sealer rotation and quorums

Facts on [committee_members], [sealer_for_view] and [quorum_of] of the protocol. *)

From S2P Require Import Prelude F64 Crypto Models Accounting Config Ledger Validation Protocol.

Section Committee.
Context `{Crypto} `{Serde} `{Env}.
Variable config : ExodusConfig.

Lemma committee_elem st s x : x ∈ committee_members config st s <-> x ∈ committee_set config st s.
Proof. unfold committee_members, sort_strings. by rewrite elem_of_sort_by, elem_of_elements. Qed.

Lemma committee_self st s : ps_node_id st ∈ committee_members config st s.
Proof. rewrite committee_elem. unfold committee_set. set_solver. Qed.

Lemma committee_nodup st s : NoDup (committee_members config st s).
Proof. unfold committee_members, sort_strings. apply NoDup_sort_by, NoDup_elements. Qed.

(** The committee ordered by weight, from which [sealer_for_view] picks. *)
Definition ranked (st : ProtocolState) (s : ChainStore) : list string :=
  sort_by (weight_le s) (committee_members config st s).

Lemma ranked_perm st s : ranked st s ≡ₚ committee_members config st s.
Proof. apply sort_by_perm. Qed.

Lemma ranked_nonempty st s : (0 < length (ranked st s))%nat.
Proof.
  assert (ps_node_id st ∈ ranked st s) as Hin by (rewrite ranked_perm; apply committee_self).
  destruct (ranked st s); [by apply not_elem_of_nil in Hin|]. simpl. lia.
Qed.

Lemma sealer_lookup st s v :
  ranked st s !! Z.to_nat (v mod Z.of_nat (length (ranked st s))) =
  Some (sealer_for_view config st s v).
Proof.
  pose proof (ranked_nonempty st s) as Hn. unfold sealer_for_view. fold (ranked st s).
  assert (Hb : (Z.to_nat (v mod Z.of_nat (length (ranked st s))) < length (ranked st s))%nat).
  { pose proof (Z.mod_pos_bound v (Z.of_nat (length (ranked st s))) ltac:(lia)). lia. }
  destruct (lookup_lt_is_Some_2 _ _ Hb) as [x Hx]. rewrite Hx.
  by destruct (ranked st s).
Qed.

Lemma sealer_elem st s v : sealer_for_view config st s v ∈ committee_members config st s.
Proof.
  rewrite <- ranked_perm. apply list_elem_of_lookup. eexists. apply sealer_lookup.
Qed.

(** The sealers of as many consecutive views as there are members are the members. *)
Lemma sealer_rotation st s v :
  (fun k => sealer_for_view config st s (v + k)) <$>
    seqZ 0 (Z.of_nat (length (committee_members config st s)))
  ≡ₚ committee_members config st s.
Proof.
  pose proof (ranked_nonempty st s) as Hn. rewrite <- ranked_perm at 2.
  rewrite <- (Permutation_length (ranked_perm st s)).
  set (L := ranked st s) in *. set (n := Z.of_nat (length L)) in *.
  transitivity (rotate (Z.to_nat (v mod n)) L).
  2:{ unfold rotate. rewrite Permutation_app_comm. by rewrite take_drop. }
  assert (E : (fun k => sealer_for_view config st s (v + k)) <$> seqZ 0 n = rotate (Z.to_nat (v mod n)) L);
    [|by rewrite E].
  apply list_eq. intros i. rewrite list_lookup_fmap.
  destruct (decide (i < length L)%nat) as [Hi|Hi].
  - rewrite lookup_rotate_r, lookup_seqZ_lt by (done || lia). cbn [fmap option_fmap option_map].
    rewrite <- (sealer_lookup st s (v + (0 + Z.of_nat i))). fold L. fold n.
    unfold rotate_nat_add. fold n.
    pose proof (Z.mod_pos_bound v n ltac:(lia)). rewrite Z2Nat.id by lia.
    f_equal. f_equal. rewrite Z.add_0_l, Zplus_mod_idemp_l. done.
  - rewrite lookup_seqZ_ge by lia. rewrite lookup_ge_None_2; [done|]. rewrite length_rotate. lia.
Qed.

(** ** Quorums *)

Lemma quorum_of_le byz n : 1 <= n -> 1 <= quorum_of byz n <= n.
Proof.
  intros Hn. unfold quorum_of. destruct byz.
  - pose proof (Z.div_mod (n - 1) 3 ltac:(lia)). pose proof (Z.mod_pos_bound (n - 1) 3 ltac:(lia)). lia.
  - pose proof (Z.div_mod n 2 ltac:(lia)). pose proof (Z.mod_pos_bound n 2 ltac:(lia)). lia.
Qed.

(** Two subsets of a set overlap in at least the surplus of their sizes. *)
Lemma overlap (A B C : gset string) :
  A ⊆ C -> B ⊆ C ->
  Z.of_nat (size A) + Z.of_nat (size B) - Z.of_nat (size C) <= Z.of_nat (size (A ∩ B)).
Proof.
  intros HA HB.
  assert (E : size (A ∪ (B ∖ A)) = (size A + size (B ∖ A))%nat) by (apply size_union; set_solver).
  pose proof (size_difference_alt B A) as Ed.
  pose proof (subseteq_size (A ∪ (B ∖ A)) C ltac:(set_solver)).
  rewrite (intersection_comm_L A B). lia.
Qed.

End Committee.
