(* ===== verification/ProtocolSync.v ===== *)
(** * Theory of the protocol: catching up

The blocks a peer answers to a sync request, and what a node does with them. *)

From S2P Require Import Prelude F64 Crypto CryptoTheory Models Accounting Config Ledger.
From S2P Require Import LedgerTheory Validation ValidationTheory Protocol ProtocolTheory.
From S2P Require Import ProtocolInv ProtocolReorg.

Section Sync.
Context `{CL : CryptoLaws} `{SL : SerdeLaws} `{EL : EnvLaws}.
Variable config : ExodusConfig.

Local Abbreviation tol := (flops_tolerance config).
Local Abbreviation sound := (sound_chain tol).

(** ** Serving *)

(** The blocks [on_sync_request] collects. *)
Lemma served_blocks chain from :
  valid_chain chain -> -1 <= from < i64_max ->
  omap (get_block (store_of chain)) (zrange (wrap_i64 (from + 1)) (height (store_of chain))) =
  stored_checkpoint <$> drop (Z.to_nat (from + 1)) chain.
Proof.
  intros Hv Hf. rewrite wrap_i64_id by (apply in_i64_spec; unfold i64_min, i64_max in *; lia).
  apply saved_blocks; [done|lia].
Qed.

(** ** Applying a suffix *)

(** A node with nothing queued and nothing rejected, that has seen no claim of the blocks to
come. *)
Record idle (st : ProtocolState) (ahead : list Checkpoint) : Prop := {
  idle_commits : ps_pending_commits st = ∅;
  idle_rejects : ps_recent_commit_rejects st = [];
  idle_unseen : ids_of (chain_claims ahead) ## ps_committed_claim_ids st;
}.

Lemma settle_claims_frame claims st :
  ps_pending_commits (settle_claims claims st) = ps_pending_commits st /\
  ps_recent_commit_rejects (settle_claims claims st) = ps_recent_commit_rejects st.
Proof.
  unfold settle_claims. revert st. induction claims as [|x claims IH]; intros st; cbn [foldl]; [done|].
  destruct (IH (mark_committed (signed_id x) (forget_claim (signed_id x) st))) as [-> ->]. done.
Qed.

Lemma commit_local_fields chain st c :
  valid_chain chain -> extends chain c ->
  let ns := commit_local c (st, store_of chain) in
  ns.2 = store_of (chain ++ [c]) /\ ps_pending_commits ns.1 = ps_pending_commits st /\
  ps_recent_commit_rejects ns.1 = ps_recent_commit_rejects st /\
  ps_committed_claim_ids ns.1 = ids_of (cp_claims c) ∪ ps_committed_claim_ids st.
Proof.
  intros Hv He. split; [by apply commit_local_extends|]. unfold commit_local.
  rewrite not_above_head_of by (done || rewrite (ext_height _ _ He); done).
  rewrite (proj2 (append_ok_iff chain c (store_of (chain ++ [c])) Hv)) by done. cbn.
  destruct (settle_claims_frame (cp_claims c) st) as [-> ->].
  by rewrite settle_claims_committed.
Qed.

(** The next block of a longer sound chain is applied. *)
Lemma on_commit_next chain st c rest :
  sound (chain ++ [c]) -> chain <> [] -> idle st (c :: rest) ->
  NoDup (signed_id <$> cp_claims c ++ chain_claims rest) ->
  let ns := on_commit config (mkCommitMessage c) (st, store_of chain) in
  ns.2 = store_of (chain ++ [c]) /\ idle ns.1 rest.
Proof.
  intros [(Hv & He & Hw)%valid_chain_snoc_inv (Hse & Hb)%sealed_snoc] Hne [Hpc Hrej Hun] Hnd.
  destruct (head_facts _ Hv) as [Eh Ep]. unfold on_commit. cbn [cm_checkpoint].
  destruct (head (store_of chain)) as [h|] eqn:Ehd.
  2:{ rewrite head_of in Ehd by done. destruct (last chain) eqn:El; [done|].
      by apply last_None in El. }
  cbn in Eh, Ep. rewrite Eh, (ext_height _ _ He), Ep, (ext_prev _ _ He), String.eqb_refl. cbn [negb].
  rewrite (proj2 (Z.leb_gt _ _)), (proj2 (Z.ltb_ge _ _)) by lia.
  assert (Hval : validate_checkpoint c (store_of chain) tol (quorum_size config st (store_of chain)) false
            (Some (ps_committed_claim_ids st)) =
          (Some (ids_of (cp_claims c) ∪ ps_committed_claim_ids st), Ok tt)).
  { apply validate_checkpoint_iff; [done|]. right.
    destruct Hb as [[-> _]|[Ha Hc]]; [done|]. split_and!; [|destruct Ha; split; try done|done|done].
    - apply not_true_is_false. intros Hg%genesis_height. pose proof (ext_height _ _ He) as Hh.
      unfold cp_height in Hh. destruct chain; [done|]. cbn [length] in Hh. lia.
    - apply Forall_forall. intros x Hx Hin. cbn in Hin. apply (Hun (signed_id x)); [|done].
      unfold ids_of, chain_claims. cbn. rewrite fmap_app, list_to_set_app, elem_of_union. left.
      apply elem_of_list_to_set. by apply list_elem_of_fmap_2. }
  unfold apply_commit. unfold commit_reject_seen. rewrite Hrej. cbn [existsb]. rewrite Hval.
  cbv beta iota zeta. cbn [default from_option].
  set (st1 := with_committed _ st).
  destruct (commit_local_fields chain st1 c Hv He) as (E1 & E2 & E3 & E4).
  destruct (commit_local c (st1, store_of chain)) as [st2 s2]. cbn [fst snd] in E1, E2, E3, E4.
  assert (Hfl : flush_pending_commits config (st2, s2) = (st2, s2)).
  { unfold flush_pending_commits. destruct (head s2); [|done]. rewrite E2. cbn. by rewrite Hpc. }
  rewrite Hfl. cbn [fst snd]. split; [done|]. split.
  - rewrite E2. done.
  - rewrite E3. done.
  - rewrite E4. unfold st1. cbn [ps_committed_claim_ids with_committed].
    rewrite fmap_app in Hnd. apply NoDup_app in Hnd as (_ & Hd & _).
    assert (Hdc : ids_of (chain_claims rest) ## ids_of (cp_claims c)).
    { intros id Hr Hc. unfold ids_of in Hr, Hc. rewrite elem_of_list_to_set in Hr, Hc.
      by apply (Hd id). }
    assert (Hds : ids_of (chain_claims rest) ## ps_committed_claim_ids st).
    { intros id Hr Hc. apply (Hun id); [|done]. change (c :: rest) with ([c] ++ rest).
      rewrite chain_claims_app, ids_of_app. set_solver. }
    set_solver.
Qed.

(** A node that is behind applies all the missing blocks of a longer sound chain. *)
Lemma apply_suffix chain suffix st :
  sound (chain ++ suffix) -> chain <> [] -> idle st suffix ->
  (foldl (fun ns b => on_commit config (mkCommitMessage b) ns) (st, store_of chain) suffix).2 =
  store_of (chain ++ suffix).
Proof.
  revert chain st. induction suffix as [|c rest IH]; intros chain st Hs Hne Hid; cbn [foldl].
  { by rewrite app_nil_r. }
  assert (Hs1 : sound (chain ++ [c])).
  { apply (sound_take _ (length chain + 1)) in Hs. rewrite take_app_add in Hs. done. }
  assert (Hnd : NoDup (signed_id <$> cp_claims c ++ chain_claims rest)).
  { destruct Hs as [Hv _]. apply valid_chain_nodup in Hv as (Hn & _). change (c :: rest) with ([c] ++ rest) in Hn.
    rewrite !chain_claims_app, fmap_app in Hn. apply NoDup_app in Hn as (_ & _ & Hn).
    unfold chain_claims at 1 in Hn. cbn in Hn. by rewrite app_nil_r in Hn. }
  destruct (on_commit_next chain st c rest Hs1 Hne Hid Hnd) as [E Hid'].
  destruct (on_commit config _ _) as [st' s']. cbn [fst snd] in *. subst s'.
  replace (chain ++ c :: rest) with ((chain ++ [c]) ++ rest) in * by by rewrite <- app_assoc.
  apply IH; [done| |done]. by destruct chain.
Qed.
End Sync.
