(* ===== verification/ProtocolProps.v ===== *)
(** * Properties of the protocol

The theorems on the executions of a node, on its committee and quorums, on fork
reorganisation and on catching up, with witnesses on a concrete execution. *)

From S2P Require Import Prelude F64 Crypto CryptoTheory Models Accounting Instances Config.
From S2P Require Import Ledger LedgerTheory LedgerProps Validation ValidationTheory Protocol.
From S2P Require Import ProtocolTheory ProtocolInv ProtocolReorg ProtocolSteps ProtocolGrowth.
From S2P Require Import Committee ProtocolSync.

(** ** Executions *)

Section Executions.
Context `{CL : CryptoLaws} `{SL : SerdeLaws} `{EL : EnvLaws}.
Variable config : ExodusConfig.
Variable node_id : string.
Variable private_key : bytes.
Variable s0 : ChainStore.
Hypothesis Hstart : startable config node_id private_key s0.

(** C1: in every state a node can reach, whatever the network sends it, the ledger holds a
valid chain in which every block is a canonical genesis at height 0 or was admissible after
the blocks before it (height, link, advancing epoch, verified and plausible claims) and
carries its quorum of verified signatures by different signers; and the audit
[verify_chain] succeeds with the length of the chain. *)
Theorem reachable_ledger_sound ns :
  reachable config node_id private_key s0 ns ->
  exists chain, ns.2 = store_of chain /\ valid_chain chain /\
    (forall i c, chain !! i = Some c ->
       (i = 0%nat /\ is_canonical_genesis (cp_proposal c) = true) \/
       (admissible (take i chain) (cp_proposal c) ∅ (flops_tolerance config) false /\ certified c)) /\
    verify_chain ns.2 = Ok (Z.of_nat (length chain)).
Proof using CL SL EL Hstart.
  intros Hr. destruct (reachable_good _ _ _ _ _ Hstart Hr) as (chain & E & [Hv Hs] & _).
  exists chain. split_and!; [done|done| |rewrite E; by apply verify_chain_of].
  intros i c Hi. destruct (Hs i c Hi) as [[Hn Hg]|Hc]; [left|by right]. split; [|done].
  apply (f_equal length) in Hn. rewrite length_take in Hn. apply lookup_lt_Some in Hi.
  cbn [length] in Hn. lia.
Qed.

(** Epochs strictly increase with the height in every reachable ledger, so no two blocks
of a chain are sealed in the same view. *)
Theorem reachable_epochs_increase ns h1 h2 b1 b2 :
  reachable config node_id private_key s0 ns -> h1 < h2 ->
  get_block ns.2 h1 = Some b1 -> get_block ns.2 h2 = Some b2 -> cp_epoch b1 < cp_epoch b2.
Proof using CL SL EL Hstart.
  intros Hr Hlt. destruct (reachable_good _ _ _ _ _ Hstart Hr) as (chain & -> & [Hv Hs] & _).
  rewrite !get_block_of by done. destruct (decide (0 <= h1)); [|done].
  rewrite decide_True by lia.
  destruct (chain !! Z.to_nat h1) as [c1|] eqn:E1; [|done].
  destruct (chain !! Z.to_nat h2) as [c2|] eqn:E2; [|done]. cbn. intros [= <-] [= <-].
  unfold cp_epoch. rewrite !stored_checkpoint_proposal.
  apply (sealed_epochs (flops_tolerance config) chain (Z.to_nat h1) (Z.to_nat h2)); [done|lia|done..].
Qed.

(** the in-memory set of committed claim ids always covers the ledger, so the duplicate
checks of the handlers never miss a claim that is already stored. *)
Theorem reachable_committed_ids_cover ns :
  reachable config node_id private_key s0 ns ->
  all_committed_claim_ids ns.2 ⊆ ps_committed_claim_ids ns.1.
Proof using CL SL EL Hstart.
  intros Hr. destruct (reachable_good _ _ _ _ _ Hstart Hr) as (chain & -> & _ & Hi).
  rewrite all_ids_of. apply Hi.
Qed.

(** C24: the queues that the network feeds stay bounded: at most 1024 out-of-order commits and
at most 512 rejected hashes, none of them twice. *)
Theorem reachable_queues_bounded ns :
  reachable config node_id private_key s0 ns ->
  Z.of_nat (size (ps_pending_commits ns.1)) <= MAX_PENDING_COMMITS /\
  Z.of_nat (length (ps_recent_commit_rejects ns.1)) <= MAX_RECENT_COMMIT_REJECTS /\
  NoDup (ps_recent_commit_rejects ns.1).
Proof using CL SL EL Hstart.
  intros Hr. destruct (reachable_good _ _ _ _ _ Hstart Hr) as (chain & _ & _ & []). done.
Qed.

(** C23: what a node keeps is authentic: every queued claim is stored under its id and its
signature verifies, every proposal is stored under its hash, and every collected share
verifies for the proposal hash and the signer name it is stored under. *)
Theorem reachable_evidence_verifies ns :
  reachable config node_id private_key s0 ns ->
  (forall id x, ps_pending ns.1 !! id = Some x -> signed_id x = id /\ signed_verify x = true) /\
  (forall h p, ps_proposals ns.1 !! h = Some p -> proposal_hash p = h) /\
  (forall h m n sh, ps_signatures ns.1 !! h = Some m -> m !! n = Some sh ->
     ss_node_id sh = n /\ ss_proposal_hash sh = h /\ share_verify sh = true).
Proof using CL SL EL Hstart.
  intros Hr. destruct (reachable_good _ _ _ _ _ Hstart Hr) as (chain & _ & _ & Hi). split_and!.
  - intros id x Hx. by apply (ni_pending _ _ _ _ Hi) in Hx as (? & _ & ?).
  - intros h p Hp. by apply (ni_proposals _ _ _ _ Hi) in Hp as [? _].
  - intros h m n sh Hm Hn. apply (ni_shares _ _ _ _ Hi) in Hm. by apply Hm in Hn as (? & ? & _ & ?).
Qed.

(** as long as the [i64] view counter has not run to its end, the view of a node is above
the epoch of every block it holds (but a block of the last representable epoch), so a sealer
always proposes in an epoch that the chain accepts. *)
Theorem reachable_view_ahead ns h b :
  reachable_below config node_id private_key s0 ns ->
  get_block ns.2 h = Some b -> cp_epoch b < i64_max -> cp_epoch b < ps_view ns.1.
Proof using CL SL EL Hstart.
  intros Hr. destruct (reachable_below_good _ _ _ _ _ Hstart Hr) as (chain & -> & [Hv _] & Hi).
  rewrite get_block_of by done. destruct (decide (0 <= h)); [|done].
  destruct (chain !! Z.to_nat h) as [c|] eqn:Ec; [|done]. cbn. intros [= <-].
  unfold cp_epoch. rewrite stored_checkpoint_proposal.
  destruct (ni_view _ _ _ _ Hi) as [[]|Hf]. rewrite Forall_forall in Hf.
  apply Hf. by apply list_elem_of_lookup_2 in Ec.
Qed.

(** C3: everything a node publishes goes to the topic of its type and is in the node's own
name: claims and shares verify, a block is announced as committed only with its certificate
(or as canonical genesis), a fork alert shows two different hashes. *)
Theorem published_messages_authentic ns evs ns' topic m :
  reachable config node_id private_key s0 ns -> step config ns evs ns' -> Publish topic m ∈ evs ->
  topic = topic_of m /\ message_ok node_id m.
Proof using CL SL EL Hstart.
  intros Hr Hstep Hin. pose proof (reachable_good _ _ _ _ _ Hstart Hr) as Hg.
  destruct (good_step _ _ _ _ _ _ (fun _ => I) Hg Hstep) as [_ Hev].
  rewrite Forall_forall in Hev. by apply (Hev _ Hin).
Qed.
End Executions.

Section LedgerGrowth.
Context `{Crypto} `{Serde} `{Env}.
Variable config : ExodusConfig.

(** C5: the ledger is append-only but for fork reorganisation: a step that is not the
handling of a sync response keeps every row of both tables and only adds rows after them. *)
Theorem ledger_append_only ns evs ns' :
  step config ns evs ns' ->
  (exists r st s, wf_message (MSyncResponse r) = true /\
     handle_sync_response config r ns = (st, s, evs) /\ ns' = (st, s)) \/
  (tbl_blocks ns.2 `prefix_of` tbl_blocks ns'.2 /\ tbl_claims ns.2 `prefix_of` tbl_claims ns'.2).
Proof.
  intros [? ? ? ? ? ? Hw E|? ? ? ? ? ? Hw E|? ? ? ? ? E|? r st s ? Hw E|? ? ? ? ? E|? ? ? ? E].
  - right. by apply submit_store in E as ->.
  - right. eapply run_grows; [|exact E]. apply dispatch_grows.
  - right. by apply sync_request_store in E as ->.
  - left. by exists r, st, s.
  - right. by apply tick_store in E as ->.
  - right. eapply run_grows; [|exact E]. apply propose_grows.
Qed.
End LedgerGrowth.

(** ** Sealing *)

Section Sealing.
Context `{Crypto} `{Serde} `{Env}.
Variable config : ExodusConfig.

(** C4: [maybe_commit] changes the ledger only when it holds at least [quorum_size] shares for
the proposal, and then by one append: of the proposal with exactly these shares as
signatures, sorted by signer, and with the quorum frozen in the block. *)
Theorem commit_needs_quorum p st s :
  (maybe_commit config p (st, s)).2 <> s ->
  let shares := default ∅ (ps_signatures st !! proposal_hash p) in
  quorum_size config st s <= Z.of_nat (size shares) /\
  append (mkCheckpoint p (share_signature <$> sort_by share_le (map_to_list shares).*2)
            (quorum_size config st s)) s = Ok (maybe_commit config p (st, s)).2.
Proof.
  unfold maybe_commit. destruct (Z.ltb_spec (Z.of_nat (size (default ∅ (ps_signatures st !! proposal_hash p))))
    (quorum_size config st s)) as [Hlt|Hge]; [done|].
  destruct (validate_checkpoint _ _ _ _ _ _).2 eqn:Ev; [|done].
  unfold commit_local, seal. destruct (not_above_head _ _); [done|].
  destruct (append _ s) as [s'|e] eqn:Ea; [|by destruct (is_already_committed _ _)]. done.
Qed.

(** the sealer of every view is a member of the committee, and over as many consecutive
views as the committee has members every member is the sealer exactly once: no view change
sequence can starve a member or leave the committee. *)
Theorem sealer_rotation_fair st s v :
  sealer_for_view config st s v ∈ committee_members config st s /\
  (fun k => sealer_for_view config st s (v + k)) <$>
    seqZ 0 (Z.of_nat (length (committee_members config st s)))
  ≡ₚ committee_members config st s.
Proof. split; [apply sealer_elem|apply sealer_rotation]. Qed.

(** the committee list is strictly sorted, hence free of duplicates and independent of the
iteration order of the hash maps, and always contains the node itself. *)
Theorem committee_canonical st s :
  StronglySorted (fun a b => string_lt a b = true) (committee_members config st s) /\
  ps_node_id st ∈ committee_members config st s /\
  (forall l, NoDup l -> (forall x, x ∈ l <-> x ∈ committee_set config st s) ->
     sort_strings l = committee_members config st s).
Proof.
  split_and!; [|apply committee_self|].
  - pose proof (sort_strings_sorted (elements (committee_set config st s))) as Hs.
    pose proof (committee_nodup config st s) as Hn. fold (committee_members config st s) in Hs.
    induction Hs as [|x l Hs IH Hf]; [constructor|]. apply NoDup_cons in Hn as [Hx Hn].
    constructor; [by apply IH|]. rewrite Forall_forall in *. intros y Hy.
    destruct (proj1 (string_le_lt_eq x y) (Hf y Hy)) as [?| ->]; done.
  - intros l Hn Hl. apply sort_by_unique; [apply string_le_total|apply string_le_trans| |].
    + intros x y _ _. apply string_le_antisym.
    + apply NoDup_Permutation; [done|apply NoDup_elements|]. intros x. by rewrite elem_of_elements, Hl.
Qed.

(** C25: quorum arithmetic.  Two majority quorums of one committee always share a member.
Byzantine quorums share at least [f + 1] members, so a correct one, when the committee has
[3f + 1] members, and share a member unless it has 2, 3 or 6 members: for exactly these sizes
the quorum of the code is at most half of the committee, so that disjoint quorums exist. *)
Theorem quorum_intersection byz (C A B : gset string) :
  let n := Z.of_nat (size C) in
  1 <= n -> A ⊆ C -> B ⊆ C ->
  quorum_of byz n <= Z.of_nat (size A) -> quorum_of byz n <= Z.of_nat (size B) ->
  (if byz then
     (n mod 3 = 1 -> (n - 1) / 3 + 1 <= Z.of_nat (size (A ∩ B))) /\
     (~ (n = 2 \/ n = 3 \/ n = 6) -> 1 <= Z.of_nat (size (A ∩ B))) /\
     (2 * quorum_of true n <= n <-> n = 2 \/ n = 3 \/ n = 6)
   else 1 <= Z.of_nat (size (A ∩ B))).
Proof.
  cbv zeta. intros Hn HA HB HqA HqB. pose proof (overlap A B C HA HB).
  set (n := Z.of_nat (size C)) in *. unfold quorum_of in *. destruct byz.
  - pose proof (Z.div_mod n 3 ltac:(lia)). pose proof (Z.mod_pos_bound n 3 ltac:(lia)).
    pose proof (Z.div_mod (n - 1) 3 ltac:(lia)). pose proof (Z.mod_pos_bound (n - 1) 3 ltac:(lia)).
    split_and!; lia.
  - pose proof (Z.div_mod n 2 ltac:(lia)). pose proof (Z.mod_pos_bound n 2 ltac:(lia)). lia.
Qed.

(** a sync request leaves the node only when the configured interval has passed since the
last one (or is not positive); the time of the request is then recorded, so that requests
are spaced, and otherwise only the clock was read. *)
Theorem sync_requests_spaced h st :
  let t := clock (ps_clock_reads st) in
  let st' := request_sync h st in
  (st' = with_reads (S (ps_clock_reads st)) st /\
     f64_gt (ps_sync_interval_seconds st) f64_0 = true /\
     f64_lt (f64_sub t (ps_last_sync_request st)) (ps_sync_interval_seconds st) = true) \/
  (ps_outgoing st' = ps_outgoing st ++ [(SYNC, MSyncRequest (mkSyncRequest (ps_node_id st) h))] /\
     ps_last_sync_request st' = t /\
     (f64_gt (ps_sync_interval_seconds st) f64_0 = true ->
      f64_lt (f64_sub t (ps_last_sync_request st)) (ps_sync_interval_seconds st) = false)).
Proof.
  unfold request_sync, now. cbn. destruct (f64_gt _ _) eqn:E1; cbn [andb].
  - destruct (f64_lt _ _) eqn:E2; [by left|right]. done.
  - right. split_and!; done.
Qed.
End Sealing.

(** ** Forks and catching up *)

Section Forks.
Context `{CL : CryptoLaws} `{SL : SerdeLaws} `{EL : EnvLaws}.
Variable config : ExodusConfig.

(** C9: a fork reorganisation of a reachable node ends in one of three ways.  The blocks of
the ledger are unchanged (the peer chain was declined, or a block failed validation and the
old branch was restored); or the branch above the common ancestor is replaced by the peer's
and the chain is at least as long as before; or the same without the peer's last block, which
the ledger refused although it had passed validation, and then the chain may be one block
shorter. *)
Theorem reconcile_outcome node_id private_key s0 ns peer :
  startable config node_id private_key s0 -> reachable config node_id private_key s0 ns ->
  Forall (fun b => wf_checkpoint b = true) peer ->
  let bs := sort_by height_le peer in
  let a := common_ancestor ns.2 bs in
  let incoming := filter (fun b => a < cp_height b) bs in
  let base := take (Z.to_nat (a + 1)) (blocks ns.2) in
  let s' := (reconcile_chain config peer ns).2 in
  blocks s' = blocks ns.2 \/
  (blocks s' = base ++ (stored_checkpoint <$> incoming) /\ height ns.2 <= height s') \/
  (exists init b, incoming = init ++ [b] /\ blocks s' = base ++ (stored_checkpoint <$> init) /\
     is_ok (append b s') = false /\ height ns.2 - 1 <= height s').
Proof.
  intros Hstart Hr Hw. cbv zeta. destruct ns as [st s].
  destruct (reachable_good _ _ _ _ _ Hstart Hr) as (chain & E & Hs & Hi). cbn [fst snd] in *. subst s.
  pose proof (common_ancestor_range chain (sort_by height_le peer) (proj1 Hs)) as Ha.
  destruct (reconcile_cases config _ _ chain st peer Hs Hi Hw) as [->|[Hlen Ho]]; [by left|].
  cbv zeta in Hlen. set (a := common_ancestor _ _) in *. set (inc := filter _ _) in *.
  rewrite (blocks_of chain) by apply Hs. rewrite <- fmap_take.
  destruct Ho as [-> Hv| -> |init b Einc -> Hv Hne].
  - right. left. rewrite blocks_of, !height_of, fmap_app by (done || apply Hs). split; [done|].
    rewrite length_app, length_take. lia.
  - left. pose proof (sound_restored _ (Z.to_nat (a + 1)) chain Hs) as Hsr.
    rewrite blocks_of by apply Hsr. apply stored_restored.
  - right. right. exists init, b. rewrite blocks_of, !height_of, fmap_app by (done || apply Hs).
    rewrite Einc, length_app in Hlen. cbn [length] in Hlen.
    split_and!; [done|done| |rewrite length_app, length_take; lia].
    destruct (append b _) as [s1|e] eqn:Ea; [|done].
    by apply append_ok_iff in Ea as [? _].
Qed.

(** C13: a node that is behind catches up: the answer of a peer whose sound chain extends the
local one brings the ledger, block by block, to the peer's chain, when the node has nothing
queued, has rejected nothing, and has not seen the missing claims. *)
Theorem sync_catches_up chain suffix st r from peer_st :
  sound_chain (flops_tolerance config) (chain ++ suffix) -> chain <> [] -> suffix <> [] ->
  idle st suffix -> from = Z.of_nat (length chain) - 1 -> from < i64_max ->
  sq_node_id r <> ps_node_id peer_st -> sq_from_height r = from ->
  exists resp,
    ps_outgoing (on_sync_request r (peer_st, store_of (chain ++ suffix))).1 =
      ps_outgoing peer_st ++ [(SYNC, MSyncResponse resp)] /\
    blocks (on_sync_response config resp (st, store_of chain)).2 =
      blocks (store_of (chain ++ suffix)).
Proof.
  intros Hs Hne Hsn Hid -> Hmax Hn Hf.
  exists (mkSyncResponse (ps_node_id peer_st) (stored_checkpoint <$> suffix)).
  assert (Hl : (0 < length chain)%nat) by (destruct chain; [done|simpl; lia]).
  split.
  - unfold on_sync_request. rewrite (proj2 (String.eqb_neq _ _) Hn), Hf.
    rewrite served_blocks by (apply Hs || lia). rewrite drop_app_length' by lia.
    destruct suffix; [done|]. reflexivity.
  - assert (Hr : sound_chain (flops_tolerance config) (chain ++ (stored_checkpoint <$> suffix))).
    { pose proof (sound_restored _ (length chain) _ Hs) as Hr. unfold restored in Hr.
      by rewrite take_app_length, drop_app_length in Hr. }
    unfold on_sync_response. cbn [sp_blocks].
    replace (existsb _ _) with false.
    2:{ symmetry. apply not_true_is_false. intros (b & Hb & Eb)%existsb_exists.
        apply list_elem_of_In, list_elem_of_lookup in Hb as [i Hi].
        assert (Hh : (chain ++ (stored_checkpoint <$> suffix)) !! (length chain + i)%nat = Some b)
          by (rewrite lookup_app_r by lia; by replace (length chain + i - length chain)%nat with i by lia).
        pose proof (valid_chain_heights _ _ _ (proj1 Hr) Hh). lia. }
    rewrite apply_suffix; [|done|done|].
    + rewrite !blocks_of, !fmap_app by (apply Hs || apply Hr). f_equal.
      rewrite <- list_fmap_compose. apply list_fmap_ext. intros i c _. cbn. apply stored_idempotent.
    + destruct Hid as [? ? Hu]. split; [done..|].
      by rewrite <- (same_blocks_claims _ _ (same_blocks_stored suffix)).
Qed.
End Forks.

(** ** A concrete execution *)

Module ProtocolDemo.
#[local] Existing Instance Toy.crypto_inst.
#[local] Existing Instance Toy.serde_inst.

(** A clock that advances ten seconds per reading. *)
Definition env_inst : Env := {|
  clock := fun n => f64_of_Z (1000000 + 10 * Z.of_nat n);
  utcnow := fun n => "2026-08-05T00:01:00+00:00";
  hash_first := fun n m => fst <$> hd_error (map_to_list m);
  sql_sum := fun l => match l with
                      | [] => None
                      | _ => if is_nan (f64_sum l) then None else Some (f64_sum l)
                      end;
|}.

Lemma env_laws : @EnvLaws env_inst.
Proof.
  split.
  - intros n. vm_compute. reflexivity.
  - intros n m k. cbn. destruct (map_to_list m) as [|[k' x] l] eqn:E; cbn; [done|].
    intros [= <-]. exists x. apply elem_of_map_to_list. rewrite E. left.
  - intros n m Hm. cbn. destruct (map_to_list m) as [|[k' x] l] eqn:E; cbn; [|by eexists].
    by apply map_to_list_empty_iff in E.
  - done.
  - intros l x. cbn. destruct l; [done|]. destruct (is_nan _) eqn:E; [done|]. intros [= <-]. done.
Qed.

#[local] Existing Instance env_inst.
#[local] Existing Instance toy_crypto_laws.
#[local] Existing Instance toy_serde_laws.
#[local] Existing Instance env_laws.

Definition cfg : ExodusConfig := default_config "/data".

Definition start : ProtocolState * ChainStore :=
  new cfg Demo.node Demo.seed (hex (public_key_from_private Demo.seed)) empty_store.

(** The node submits a claim and then proposes: alone in its committee, it commits. *)
Definition submitted := submit_claim cfg (Demo.signed "c1" 1) start.
Definition ns1 : ProtocolState * ChainStore := (submitted.1.1.1, submitted.1.1.2).
Definition proposed := propose_now cfg ns1.
Definition ns2 : ProtocolState * ChainStore := (proposed.1.1, proposed.1.2).

Example run_commits :
  (height start.2, is_ok submitted.2, size (ps_pending ns1.1), height ns2.2, ps_view ns2.1,
   length proposed.2, size (ps_pending ns2.1)) = (0, true, 1%nat, 1, 2, 4%nat, 0%nat).
Proof. vm_compute. reflexivity. Qed.

Lemma startable_demo : startable cfg Demo.node Demo.seed empty_store.
Proof.
  split; [reflexivity|vm_compute; reflexivity|]. exists []. split; [reflexivity|apply sound_nil].
Qed.

Lemma reachable_ns1 : reachable cfg Demo.node Demo.seed empty_store ns1.
Proof.
  unfold ns1, submitted, start. eapply reach_step; [apply reach_new|].
  apply step_submit_claim. vm_compute. reflexivity.
Qed.

Lemma step_ns2 : step cfg ns1 proposed.2 ns2.
Proof. unfold ns2, proposed. apply step_propose_now. Qed.

Lemma reachable_ns2 : reachable cfg Demo.node Demo.seed empty_store ns2.
Proof. eapply reach_step; [apply reachable_ns1|apply step_ns2]. Qed.

Lemma below_ns2 : reachable_below cfg Demo.node Demo.seed empty_store ns2.
Proof.
  apply (below_step _ _ _ _ ns1 proposed.2); [|vm_compute; reflexivity|apply step_ns2].
  unfold ns1, submitted, start. eapply below_step; [apply below_new; vm_compute; reflexivity| |].
  - vm_compute. reflexivity.
  - apply step_submit_claim. vm_compute. reflexivity.
Qed.

(** A fork of one block: three claims of one node with the sequence numbers 5, 6, 5. *)
Definition fork_proposal (t : string) : CheckpointProposal :=
  mkProposal 1 1 (block_hash genesis_checkpoint) Demo.node
    [Demo.signed "e1" 5; Demo.signed "e2" 6; Demo.signed "e3" 5] t.
Definition fork_block (t : string) : Checkpoint :=
  mkCheckpoint (fork_proposal t) [Demo.endorse Demo.seed (fork_proposal t)] 1.

Definition fork_answer : SyncResponse :=
  mkSyncResponse Demo.node2 [genesis_checkpoint; fork_block "d"].

(** the restore path does not cover every failure.  A one-block fork that wins the
tie-break, passes validation (which remembers only the last sequence number of each node) and
is then refused by the unique index of the ledger leaves a reachable node with a shorter
chain than before the answer. *)
Theorem failed_reorg_shortens_chain :
  reachable cfg Demo.node Demo.seed empty_store ns2 /\
  wf_message (MSyncResponse fork_answer) = true /\
  height ns2.2 = 1 /\ height (handle_sync_response cfg fork_answer ns2).1.2 = 0.
Proof.
  split; [apply reachable_ns2|]. split_and!; vm_compute; reflexivity.
Qed.

(** ** Witnesses *)

Lemma reachable_ledger_sound_witness :
  height ns2.2 = 1 /\
  exists chain, ns2.2 = store_of chain /\ valid_chain chain /\ verify_chain ns2.2 = Ok (Z.of_nat (length chain)).
Proof.
  split; [vm_compute; reflexivity|].
  destruct (reachable_ledger_sound cfg Demo.node Demo.seed empty_store startable_demo ns2 reachable_ns2)
    as (chain & E & Hv & _ & Ha). exists chain. split; [exact E|split; [exact Hv|exact Ha]].
Defined.

Lemma reachable_committed_ids_cover_witness :
  all_committed_claim_ids ns2.2 ⊆ ps_committed_claim_ids ns2.1.
Proof.
  exact (reachable_committed_ids_cover cfg Demo.node Demo.seed empty_store startable_demo ns2 reachable_ns2).
Defined.

Lemma reachable_queues_bounded_witness :
  Z.of_nat (size (ps_pending_commits ns2.1)) <= MAX_PENDING_COMMITS.
Proof.
  exact (proj1 (reachable_queues_bounded cfg Demo.node Demo.seed empty_store startable_demo ns2
    reachable_ns2)).
Defined.

Lemma reachable_evidence_verifies_witness :
  size (ps_pending ns1.1) = 1%nat /\
  forall id x, ps_pending ns1.1 !! id = Some x -> signed_id x = id /\ signed_verify x = true.
Proof.
  split; [vm_compute; reflexivity|].
  exact (proj1 (reachable_evidence_verifies cfg Demo.node Demo.seed empty_store startable_demo ns1
    reachable_ns1)).
Defined.

Lemma published_messages_authentic_witness :
  Forall (fun e => match e with
                   | Publish t m => t = topic_of m /\ message_ok Demo.node m
                   | Notify _ _ => True
                   end) proposed.2.
Proof.
  apply Forall_forall. intros [t m|h b] Hin; [|exact I].
  exact (published_messages_authentic cfg Demo.node Demo.seed empty_store startable_demo ns1 proposed.2
    ns2 t m reachable_ns1 step_ns2 Hin).
Defined.

Lemma ledger_append_only_witness : tbl_blocks ns1.2 `prefix_of` tbl_blocks ns2.2 \/
  exists r st s, handle_sync_response cfg r ns1 = (st, s, proposed.2) /\ ns2 = (st, s).
Proof.
  destruct (ledger_append_only cfg ns1 proposed.2 ns2 step_ns2) as [(r & st & s & _ & H1 & H2)|[H1 _]].
  - right. exists r, st, s. split; [exact H1|exact H2].
  - left. exact H1.
Defined.

Lemma reachable_view_ahead_witness :
  match get_block ns2.2 1 with Some b => cp_epoch b < ps_view ns2.1 | None => False end.
Proof.
  assert (H1 : option_map (fun b => cp_epoch b <? i64_max) (get_block ns2.2 1) = Some true)
    by (vm_compute; reflexivity).
  destruct (get_block ns2.2 1) as [b|] eqn:E1; [|discriminate H1]. cbn in H1. injection H1 as H1.
  apply Z.ltb_lt in H1.
  exact (reachable_view_ahead cfg Demo.node Demo.seed empty_store startable_demo ns2 1 b below_ns2 E1 H1).
Defined.

Lemma commit_needs_quorum_witness :
  exists p st, quorum_size cfg st ns1.2 <=
    Z.of_nat (size (default ∅ (ps_signatures st !! proposal_hash p))) /\
    (maybe_commit cfg p (st, ns1.2)).2 <> ns1.2.
Proof.
  set (p := mkProposal 1 1 (block_hash genesis_checkpoint) Demo.node [Demo.signed "c1" 1] "now").
  set (st := accept_proposal p ns1.1).
  assert (Hc : (maybe_commit cfg p (st, ns1.2)).2 <> ns1.2).
  { intros E%(f_equal height). revert E. vm_compute. discriminate. }
  exists p, st. split; [|exact Hc].
  exact (proj1 (commit_needs_quorum cfg p st ns1.2 Hc)).
Defined.

Lemma quorum_intersection_witness :
  let C : gset string := {["a"; "b"; "c"; "d"]} in
  let A : gset string := {["a"; "b"; "c"]} in
  let B : gset string := {["b"; "c"; "d"]} in
  2 <= Z.of_nat (size (A ∩ B)).
Proof.
  intros C A B.
  refine (proj1 (quorum_intersection true C A B _ _ _ _ _) _); try (vm_compute; reflexivity || discriminate).
  - unfold A, C. set_solver.
  - unfold B, C. set_solver.
Defined.

Lemma wf_fork_answer : Forall (fun b => wf_checkpoint b = true) (sp_blocks fork_answer).
Proof.
  assert (Hb : forallb wf_checkpoint (sp_blocks fork_answer) = true) by (vm_compute; reflexivity).
  apply Forall_forall. intros b Hin%list_elem_of_In. by apply (proj1 (forallb_forall _ _) Hb).
Qed.

Lemma reconcile_outcome_witness :
  let s' := (reconcile_chain cfg (sp_blocks fork_answer) ns2).2 in
  height s' = 0 /\ height ns2.2 - 1 <= height s'.
Proof.
  intros s'. assert (E0 : height s' = 0) by (vm_compute; reflexivity).
  assert (E1 : height ns2.2 = 1) by (vm_compute; reflexivity).
  split; [exact E0|].
  destruct (reconcile_outcome cfg Demo.node Demo.seed empty_store ns2 (sp_blocks fork_answer)
              startable_demo reachable_ns2 wf_fork_answer) as [_|[[_ H]|(init & b & _ & _ & _ & H)]].
  - lia.
  - fold s' in H. lia.
  - exact H.
Defined.

(** The chain of a peer that is one block ahead. *)
Lemma sound_chain2 : sound_chain (flops_tolerance cfg) LedgerDemo.chain2.
Proof.
  apply sound_snoc; [apply sound_genesis|apply LedgerDemo.extends_block1|vm_compute; reflexivity|].
  assert (Hok : is_ok (validate_checkpoint Demo.block1 (store_of [genesis_checkpoint]) (flops_tolerance cfg)
            1 false None).2 = true) by (vm_compute; reflexivity).
  destruct (validate_checkpoint _ _ _ _ _ _).2 as [[]|] eqn:Ev in Hok; [|discriminate Hok].
  destruct (validated_offered cfg [genesis_checkpoint] Demo.block1 1 false None) as [[_ Hb]|[_ Hg]];
    [apply sound_genesis|vm_compute; reflexivity|reflexivity|exact Ev|exact Hb|].
  vm_compute in Hg. discriminate Hg.
Qed.

Lemma idle_start : idle start.1 [Demo.block1].
Proof.
  split; [reflexivity..|]. assert (E : ps_committed_claim_ids start.1 = ∅) by (vm_compute; reflexivity).
  rewrite E. set_solver.
Qed.

Lemma sync_catches_up_witness :
  exists resp, blocks (on_sync_response cfg resp (start.1, store_of [genesis_checkpoint])).2 =
    blocks (store_of LedgerDemo.chain2).
Proof.
  destruct (sync_catches_up cfg [genesis_checkpoint] [Demo.block1] start.1
    (mkSyncRequest Demo.node2 0) 0 start.1) as (resp & _ & E);
    [apply sound_chain2|discriminate|discriminate|apply idle_start|reflexivity|reflexivity
    |vm_compute; discriminate|reflexivity|].
  exists resp. exact E.
Defined.

(** ** The last epoch *)

(** A block of the last representable epoch, sealed by its own author. *)
Definition last_proposal : CheckpointProposal :=
  mkProposal i64_max 1 (block_hash genesis_checkpoint) Demo.node2 [Demo.signed "c9" 9] "t".
Definition last_block : Checkpoint :=
  mkCheckpoint last_proposal [Demo.endorse Demo.seed2 last_proposal] 1.

(** one accepted block can end the chain: a node accepts a block of epoch [i64::MAX] from
the network, and from then on no proposal at all (every epoch is an [i64]) passes
validation. *)
Theorem last_epoch_ends_chain p seen :
  let s := (receive cfg COMMITS (MCommitMessage (mkCommitMessage last_block)) start).1.2 in
  in_i64 (prop_epoch p) = true ->
  height s = 1 /\ is_ok (validate_proposal p s seen (flops_tolerance cfg) false).2 = false.
Proof.
  intros s Hp. assert (E1 : height s = 1) by (vm_compute; reflexivity). split; [exact E1|].
  assert (Eh : option_map cp_epoch (head s) = Some i64_max) by (vm_compute; reflexivity).
  unfold validate_proposal. destruct (head s) as [h|]; [|discriminate Eh].
  injection Eh as Eh. destruct (negb _); [done|]. destruct (negb _); [done|].
  rewrite Eh. apply in_i64_spec in Hp. by rewrite (proj2 (Z.leb_le _ _)) by lia.
Qed.

Lemma last_epoch_ends_chain_witness :
  let s := (receive cfg COMMITS (MCommitMessage (mkCommitMessage last_block)) start).1.2 in
  is_ok (validate_proposal (fork_proposal "x") s ∅ (flops_tolerance cfg) false).2 = false.
Proof. apply (last_epoch_ends_chain (fork_proposal "x") ∅). vm_compute. reflexivity. Defined.
End ProtocolDemo.
