(* ===== verification/Decode.v ===== *)
(** * Decoding of the wire messages ([src/models.rs], [src/coordinator.rs])

The payloads of the topics outside consensus, and [decode_message], which turns the JSON payload
of a topic into a typed message.  The code that the [Deserialize] derives of [models.rs] expand to
is the class [Decoders], so that the theorems on nodes hold of any decoders.  Module [Derived] is
what the attributes written on the structs ask of it: the fields by name and type, the defaults,
[deny_unknown_fields], and the two JSON forms [serde] documents for a struct (an object, or the
array of the fields in order). *)

From S2P Require Import Prelude F64 Crypto Models Accounting Instances Config Host Ledger Validation.
From S2P Require Import Protocol ProtocolInv.

(** ** Payloads outside consensus *)

Record InferenceTurn := mkInferenceTurn { it_role : string; it_content : string }.
Record InferenceRequest := mkInferenceRequest {
  iq_request_id : string;
  iq_origin : string;
  iq_model : string;
  iq_max_tokens : Z;
  iq_messages : list InferenceTurn;
}.
Record InferenceResponse := mkInferenceResponse {
  ir_request_id : string;
  ir_node_id : string;
  ir_reply : string;
  ir_error : option string;
}.
Record NodeStats := mkNodeStats {
  ns_node_id : string;
  ns_cpu_cores : Z;
  ns_mem_total_mb : Z;
  ns_processes : Z;
  ns_gpu_vram_mb : Z;
  ns_gpu_available : bool;
}.

Definition turn_to_value (t : InferenceTurn) : Value :=
  json_object [("role", VString (it_role t)); ("content", VString (it_content t))].

Definition infer_request_to_value (r : InferenceRequest) : Value :=
  json_object [
    ("request_id", VString (iq_request_id r));
    ("origin", VString (iq_origin r));
    ("model", VString (iq_model r));
    ("max_tokens", json_int (iq_max_tokens r));
    ("messages", VArray (map turn_to_value (iq_messages r)))].

Definition infer_response_to_value (r : InferenceResponse) : Value :=
  json_object [
    ("request_id", VString (ir_request_id r));
    ("node_id", VString (ir_node_id r));
    ("reply", VString (ir_reply r));
    ("error", json_option VString (ir_error r))].

Definition stats_to_value (s : NodeStats) : Value :=
  json_object [
    ("node_id", VString (ns_node_id s));
    ("cpu_cores", json_int (ns_cpu_cores s));
    ("mem_total_mb", json_int (ns_mem_total_mb s));
    ("processes", json_int (ns_processes s));
    ("gpu_vram_mb", json_int (ns_gpu_vram_mb s));
    ("gpu_available", VBool (ns_gpu_available s))].

(** ** Decoders *)

Class Decoders := {
  gossip_from_value : Value -> option ContributionGossip;
  proposal_from_value : Value -> option ProposalMessage;
  share_from_value : Value -> option SignatureShare;
  commit_from_value : Value -> option CommitMessage;
  heartbeat_from_value : Value -> option Heartbeat;
  fork_from_value : Value -> option ForkAlert;
  sync_request_from_value : Value -> option SyncRequest;
  sync_response_from_value : Value -> option SyncResponse;
  infer_request_from_value : Value -> option InferenceRequest;
  infer_response_from_value : Value -> option InferenceResponse;
  stats_from_value : Value -> option NodeStats;
}.

Section Decode.
Context `{Decoders}.

Definition decode_message (topic : string) (value : Value) : option Message :=
  if String.eqb topic CLAIMS then MContributionGossip <$> gossip_from_value value
  else if String.eqb topic PROPOSALS then MProposalMessage <$> proposal_from_value value
  else if String.eqb topic SIGNATURES then MSignatureShare <$> share_from_value value
  else if String.eqb topic COMMITS then MCommitMessage <$> commit_from_value value
  else if String.eqb topic HEARTBEATS then MHeartbeat <$> heartbeat_from_value value
  else if String.eqb topic FORKS then MForkAlert <$> fork_from_value value
  else if String.eqb topic SYNC then
    match sync_request_from_value value with
    | Some r => Some (MSyncRequest r)
    | None => MSyncResponse <$> sync_response_from_value value
    end
  else None.

(** C28: decoding is well typed: whatever payload arrives on a topic, the message it decodes to
belongs to that topic. *)
Theorem decoded_topic topic value m : decode_message topic value = Some m -> topic = topic_of m.
Proof.
  unfold decode_message. intros E.
  repeat match type of E with
  | (if String.eqb topic ?t then _ else _) = _ => destruct (String.eqb_spec topic t) as [->|]
  end; try done; try (apply fmap_Some in E as (x & _ & ->); done).
  destruct (sync_request_from_value value) as [r|]; [by injection E as <-|].
  apply fmap_Some in E as (x & _ & ->). done.
Qed.
End Decode.

(** Decoders only produce values of the Rust types: integers in range, UTF-8 strings, numbers
that JSON can carry. *)
Class TypedDecoders `{Decoders} := {
  decoded_wf topic value m : decode_message topic value = Some m -> wf_message m = true;
}.

(** ** The decoders the derives ask for *)

Module Derived.

(** *** The types of the fields *)

Definition de_string (v : Value) : option string := as_str v.
Definition de_bool (v : Value) : option bool := match v with VBool b => Some b | _ => None end.
(** A number written with a fraction or an exponent is no integer. *)
Definition de_integer (in_range : Z -> bool) (v : Value) : option Z :=
  match v with
  | VNumber (PosInt z) | VNumber (NegInt z) => if in_range z then Some z else None
  | _ => None
  end.
Definition de_i64 : Value -> option Z := de_integer in_i64.
Definition de_u64 : Value -> option Z := de_integer in_u64.
Definition de_f64 (v : Value) : option f64 := match v with VNumber n => as_f64 n | _ => None end.
Fixpoint de_all {A} (dec : Value -> option A) (l : list Value) : option (list A) :=
  match l with
  | [] => Some []
  | v :: l' => a ← dec v; rest ← de_all dec l'; Some (a :: rest)
  end.
Definition de_vec {A} (dec : Value -> option A) (v : Value) : option (list A) :=
  match v with VArray l => de_all dec l | _ => None end.
Definition de_option {A} (dec : Value -> option A) (v : Value) : option (option A) :=
  match v with VNull => Some None | _ => Some <$> dec v end.

(** A unit variant is its name, or an object from the name to [null]. *)
Definition de_variant {A} (named : string -> option A) (v : Value) : option A :=
  match v with
  | VString s | VObject [(s, VNull)] => named s
  | _ => None
  end.

(** [#[serde(rename_all = "snake_case")]] *)
Definition WorkType_named (s : string) : option WorkType :=
  assoc s [("text_generation", TextGeneration); ("embedding", Embedding);
           ("image_generation", ImageGeneration); ("audio_generation", AudioGeneration);
           ("generic", Generic)].
Definition Precision_named (s : string) : option Precision :=
  assoc s [("fp32", Fp32); ("fp16", Fp16); ("bf16", Bf16); ("fp8", Fp8); ("int8", Int8);
           ("int4", Int4); ("int2", Int2)].
Definition DeviceTier_named (s : string) : option DeviceTier :=
  assoc s [("cpu", Cpu); ("gpu_apple", GpuApple); ("gpu_nvidia", GpuNvidia); ("gpu_amd", GpuAmd);
           ("tpu", Tpu); ("other", Other)].

(** *** Structs *)

(** The named fields of a struct: [deny_unknown_fields] refuses an object with any other field,
and an array may not be longer than the struct. *)
Definition members (names : list string) (v : Value) : option (list (string * Value)) :=
  match v with
  | VObject fields =>
      if forallb (fun m => existsb (String.eqb m.1) names) fields then Some fields else None
  | VArray l => if (length l <=? length names)%nat then Some (zip names l) else None
  | _ => None
  end.

Definition required {A} (dec : Value -> option A) (k : string) (ms : list (string * Value)) : option A :=
  assoc k ms ≫= dec.
(** [#[serde(default)]] *)
Definition defaulted {A} (d : A) (dec : Value -> option A) (k : string) (ms : list (string * Value)) : option A :=
  match assoc k ms with Some v => dec v | None => Some d end.

Definition default_device_tier : DeviceTier := GpuApple.
Definition default_one : Z := 1.

Definition claim_of (v : Value) : option ContributionClaim :=
  ms ← members ["claim_id"; "node_id"; "seq"; "work_type"; "model_id"; "params_b"; "precision";
                "prompt_tokens"; "completion_tokens"; "compute_seconds"; "flops_estimate";
                "device_tier"; "started_at"; "ended_at"; "last_seen_checkpoint_height";
                "last_seen_checkpoint_hash"] v;
  claim_id ← required de_string "claim_id" ms;
  node_id ← required de_string "node_id" ms;
  seq ← required de_i64 "seq" ms;
  work_type ← required (de_variant WorkType_named) "work_type" ms;
  model_id ← required de_string "model_id" ms;
  params_b ← required de_f64 "params_b" ms;
  precision ← required (de_variant Precision_named) "precision" ms;
  prompt_tokens ← required de_i64 "prompt_tokens" ms;
  completion_tokens ← required de_i64 "completion_tokens" ms;
  compute_seconds ← required de_f64 "compute_seconds" ms;
  flops_estimate ← required de_f64 "flops_estimate" ms;
  device_tier ← defaulted default_device_tier (de_variant DeviceTier_named) "device_tier" ms;
  started_at ← required de_string "started_at" ms;
  ended_at ← required de_string "ended_at" ms;
  last_height ← required de_i64 "last_seen_checkpoint_height" ms;
  last_hash ← required de_string "last_seen_checkpoint_hash" ms;
  Some (mkClaim claim_id node_id seq work_type model_id params_b precision prompt_tokens
          completion_tokens compute_seconds flops_estimate device_tier started_at ended_at
          last_height last_hash).

Definition signed_of (v : Value) : option SignedContribution :=
  ms ← members ["claim"; "public_key_hex"; "signature_hex"] v;
  claim ← required claim_of "claim" ms;
  public_key_hex ← required de_string "public_key_hex" ms;
  signature_hex ← required de_string "signature_hex" ms;
  Some (mkSigned claim public_key_hex signature_hex).

Definition proposal_of (v : Value) : option CheckpointProposal :=
  ms ← members ["epoch"; "height"; "prev_hash"; "sealed_by"; "claims"; "created_at"] v;
  epoch ← required de_i64 "epoch" ms;
  height ← required de_i64 "height" ms;
  prev_hash ← required de_string "prev_hash" ms;
  sealed_by ← required de_string "sealed_by" ms;
  claims ← defaulted [] (de_vec signed_of) "claims" ms;
  created_at ← required de_string "created_at" ms;
  Some (mkProposal epoch height prev_hash sealed_by claims created_at).

Definition signature_of (v : Value) : option QuorumSignature :=
  ms ← members ["node_id"; "public_key_hex"; "signature_hex"] v;
  node_id ← required de_string "node_id" ms;
  public_key_hex ← required de_string "public_key_hex" ms;
  signature_hex ← required de_string "signature_hex" ms;
  Some (mkQuorumSignature node_id public_key_hex signature_hex).

(** A missing [quorum] is [usize::default()]. *)
Definition checkpoint_of (v : Value) : option Checkpoint :=
  ms ← members ["proposal"; "signatures"; "quorum"] v;
  proposal ← required proposal_of "proposal" ms;
  signatures ← defaulted [] (de_vec signature_of) "signatures" ms;
  quorum ← defaulted 0 de_u64 "quorum" ms;
  Some (mkCheckpoint proposal signatures quorum).

Definition gossip_of (v : Value) : option ContributionGossip :=
  ms ← members ["signed"] v; mkGossip <$> required signed_of "signed" ms.

Definition proposal_message_of (v : Value) : option ProposalMessage :=
  ms ← members ["proposal"] v; mkProposalMessage <$> required proposal_of "proposal" ms.

Definition share_of (v : Value) : option SignatureShare :=
  ms ← members ["proposal_hash"; "height"; "epoch"; "node_id"; "public_key_hex"; "signature_hex"] v;
  proposal_hash ← required de_string "proposal_hash" ms;
  height ← required de_i64 "height" ms;
  epoch ← required de_i64 "epoch" ms;
  node_id ← required de_string "node_id" ms;
  public_key_hex ← required de_string "public_key_hex" ms;
  signature_hex ← required de_string "signature_hex" ms;
  Some (mkShare proposal_hash height epoch node_id public_key_hex signature_hex).

Definition commit_of (v : Value) : option CommitMessage :=
  ms ← members ["checkpoint"] v; mkCommitMessage <$> required checkpoint_of "checkpoint" ms.

Definition heartbeat_of (v : Value) : option Heartbeat :=
  ms ← members ["node_id"; "height"; "block_hash"; "epoch"; "sealed_by"; "quorum_weight"] v;
  node_id ← required de_string "node_id" ms;
  height ← required de_i64 "height" ms;
  block_hash ← required de_string "block_hash" ms;
  epoch ← required de_i64 "epoch" ms;
  sealed_by ← required de_string "sealed_by" ms;
  quorum_weight ← defaulted default_one de_i64 "quorum_weight" ms;
  Some (mkHeartbeat node_id height block_hash epoch sealed_by quorum_weight).

Definition sync_request_of (v : Value) : option SyncRequest :=
  ms ← members ["node_id"; "from_height"] v;
  node_id ← required de_string "node_id" ms;
  from_height ← required de_i64 "from_height" ms;
  Some (mkSyncRequest node_id from_height).

Definition sync_response_of (v : Value) : option SyncResponse :=
  ms ← members ["node_id"; "blocks"] v;
  node_id ← required de_string "node_id" ms;
  blocks ← defaulted [] (de_vec checkpoint_of) "blocks" ms;
  Some (mkSyncResponse node_id blocks).

Definition fork_alert_of (v : Value) : option ForkAlert :=
  ms ← members ["node_id"; "height"; "observed_hash_a"; "observed_hash_b"] v;
  node_id ← required de_string "node_id" ms;
  height ← required de_i64 "height" ms;
  observed_hash_a ← required de_string "observed_hash_a" ms;
  observed_hash_b ← required de_string "observed_hash_b" ms;
  Some (mkForkAlert node_id height observed_hash_a observed_hash_b).

Definition turn_of (v : Value) : option InferenceTurn :=
  ms ← members ["role"; "content"] v;
  role ← required de_string "role" ms;
  content ← required de_string "content" ms;
  Some (mkInferenceTurn role content).

Definition infer_request_of (v : Value) : option InferenceRequest :=
  ms ← members ["request_id"; "origin"; "model"; "max_tokens"; "messages"] v;
  request_id ← required de_string "request_id" ms;
  origin ← required de_string "origin" ms;
  model ← required de_string "model" ms;
  max_tokens ← required de_i64 "max_tokens" ms;
  messages ← required (de_vec turn_of) "messages" ms;
  Some (mkInferenceRequest request_id origin model max_tokens messages).

Definition infer_response_of (v : Value) : option InferenceResponse :=
  ms ← members ["request_id"; "node_id"; "reply"; "error"] v;
  request_id ← required de_string "request_id" ms;
  node_id ← required de_string "node_id" ms;
  reply ← required de_string "reply" ms;
  error ← defaulted None (de_option de_string) "error" ms;
  Some (mkInferenceResponse request_id node_id reply error).

Definition stats_of (v : Value) : option NodeStats :=
  ms ← members ["node_id"; "cpu_cores"; "mem_total_mb"; "processes"; "gpu_vram_mb"; "gpu_available"] v;
  node_id ← required de_string "node_id" ms;
  cpu_cores ← required de_u64 "cpu_cores" ms;
  mem_total_mb ← required de_u64 "mem_total_mb" ms;
  processes ← required de_u64 "processes" ms;
  gpu_vram_mb ← required de_u64 "gpu_vram_mb" ms;
  gpu_available ← required de_bool "gpu_available" ms;
  Some (mkNodeStats node_id cpu_cores mem_total_mb processes gpu_vram_mb gpu_available).

#[export] Instance decoders : Decoders := {|
  gossip_from_value := gossip_of;
  proposal_from_value := proposal_message_of;
  share_from_value := share_of;
  commit_from_value := commit_of;
  heartbeat_from_value := heartbeat_of;
  fork_from_value := fork_alert_of;
  sync_request_from_value := sync_request_of;
  sync_response_from_value := sync_response_of;
  infer_request_from_value := infer_request_of;
  infer_response_from_value := infer_response_of;
  stats_from_value := stats_of;
|}.

(** *** Reading back what the [Serialize] derives wrote *)

Lemma WorkType_named_ser w : WorkType_named (WorkType_ser w) = Some w.
Proof. by destruct w. Qed.
Lemma Precision_named_name p : Precision_named (Precision_name p) = Some p.
Proof. by destruct p. Qed.
Lemma DeviceTier_named_ser d : DeviceTier_named (DeviceTier_ser d) = Some d.
Proof. by destruct d. Qed.

Lemma de_integer_json (range : Z -> bool) z : range z = true -> de_integer range (json_int z) = Some z.
Proof. intros Hz. unfold de_integer, json_int. destruct (z <? 0); by rewrite Hz. Qed.
Lemma de_i64_json z : in_i64 z = true -> de_i64 (json_int z) = Some z.
Proof. apply de_integer_json. Qed.
Lemma de_u64_json z : in_u64 z = true -> de_u64 (json_int z) = Some z.
Proof. apply de_integer_json. Qed.
Lemma de_f64_json f : is_finite f = true -> de_f64 (json_f64 f) = Some f.
Proof. unfold json_f64. by intros ->. Qed.

Lemma de_vec_map {A} (dec : Value -> option A) (enc : A -> Value) (wf : A -> bool) l :
  (forall a, wf a = true -> dec (enc a) = Some a) -> forallb wf l = true ->
  de_vec dec (VArray (map enc l)) = Some l.
Proof.
  intros Hd. cbn [de_vec]. induction l as [|a l IH]; cbn [map de_all forallb]; [done|].
  intros [Ha Hl]%andb_true_iff. by rewrite Hd, IH.
Qed.

(** Reduce the fields of a struct in an object literal. *)
Ltac struct_fields :=
  cbv [members required defaulted json_object foldl fst snd forallb existsb orb andb
       btree_insert String.compare Ascii.compare Ascii.N_of_ascii Ascii.N_of_digits N.compare
       Pos.compare Pos.compare_cont N.add N.mul Pos.add Pos.mul Pos.succ N.double N.succ_double
       assoc String.eqb Ascii.eqb Bool.eqb mbind option_bind fmap option_fmap option_map
       de_string as_str de_bool de_variant de_option];
  repeat first [rewrite de_i64_json by done | rewrite de_u64_json by done | rewrite de_f64_json by done
               |rewrite WorkType_named_ser | rewrite Precision_named_name | rewrite DeviceTier_named_ser];
  cbn [mbind option_bind].

Lemma claim_read c : wf_claim c = true -> claim_of (claim_to_value c) = Some c.
Proof.
  intros Hw. unfold wf_claim in Hw. cbn [forallb] in Hw. bool_prop. unfold claim_of, claim_to_value.
  struct_fields. by destruct c.
Qed.

Lemma signed_read s : wf_signed s = true -> signed_of (signed_to_value s) = Some s.
Proof.
  intros Hw. unfold wf_signed in Hw. bool_prop. unfold signed_of, signed_to_value.
  struct_fields. rewrite claim_read by done. by destruct s.
Qed.

Lemma signature_read s : signature_of (signature_to_value s) = Some s.
Proof. unfold signature_of, signature_to_value. struct_fields. by destruct s. Qed.

Lemma proposal_read p : wf_proposal p = true -> proposal_of (proposal_to_value p) = Some p.
Proof.
  intros Hw. unfold wf_proposal in Hw. bool_prop. unfold proposal_of, proposal_to_value.
  struct_fields. rewrite (de_vec_map _ _ wf_signed) by auto using signed_read. by destruct p.
Qed.

Lemma checkpoint_read c : wf_checkpoint c = true -> checkpoint_of (checkpoint_to_value c) = Some c.
Proof.
  intros Hw. unfold wf_checkpoint in Hw. bool_prop.
  unfold checkpoint_of, checkpoint_to_value, signatures_value. struct_fields.
  rewrite proposal_read by done. cbn [mbind option_bind].
  rewrite (de_vec_map _ _ wf_signature) by auto using signature_read. cbn [mbind option_bind].
  by destruct c.
Qed.

(** The message structs. *)
Ltac wf_hyps Hw :=
  cbn [wf_message cg_signed pm_proposal cm_checkpoint] in Hw; try unfold wf_share in Hw; bool_prop.

Lemma gossip_read g : wf_message (MContributionGossip g) = true ->
  gossip_of (message_to_value (MContributionGossip g)) = Some g.
Proof.
  intros Hw. wf_hyps Hw. unfold gossip_of, message_to_value. struct_fields.
  rewrite signed_read by done. by destruct g.
Qed.

Lemma proposal_message_read p : wf_message (MProposalMessage p) = true ->
  proposal_message_of (message_to_value (MProposalMessage p)) = Some p.
Proof.
  intros Hw. wf_hyps Hw. unfold proposal_message_of, message_to_value. struct_fields.
  rewrite proposal_read by done. by destruct p.
Qed.

Lemma share_read s : wf_message (MSignatureShare s) = true ->
  share_of (message_to_value (MSignatureShare s)) = Some s.
Proof.
  intros Hw. wf_hyps Hw. unfold share_of, message_to_value, share_to_value. struct_fields. by destruct s.
Qed.

Lemma commit_read c : wf_message (MCommitMessage c) = true ->
  commit_of (message_to_value (MCommitMessage c)) = Some c.
Proof.
  intros Hw. wf_hyps Hw. unfold commit_of, message_to_value. struct_fields.
  rewrite checkpoint_read by done. by destruct c.
Qed.

Lemma heartbeat_read h : wf_message (MHeartbeat h) = true ->
  heartbeat_of (message_to_value (MHeartbeat h)) = Some h.
Proof.
  intros Hw. wf_hyps Hw. unfold heartbeat_of, message_to_value, heartbeat_to_value.
  struct_fields. by destruct h.
Qed.

Lemma sync_request_read r : wf_message (MSyncRequest r) = true ->
  sync_request_of (message_to_value (MSyncRequest r)) = Some r.
Proof.
  intros Hw. wf_hyps Hw. unfold sync_request_of, message_to_value. struct_fields. by destruct r.
Qed.

Lemma sync_response_read r : wf_message (MSyncResponse r) = true ->
  sync_response_of (message_to_value (MSyncResponse r)) = Some r.
Proof.
  intros Hw. wf_hyps Hw. unfold sync_response_of, message_to_value. struct_fields.
  rewrite (de_vec_map _ _ wf_checkpoint) by auto using checkpoint_read. by destruct r.
Qed.

(** A response has no [from_height]. *)
Lemma sync_response_no_request r : sync_request_of (message_to_value (MSyncResponse r)) = None.
Proof. reflexivity. Qed.

Lemma fork_alert_read a : wf_message (MForkAlert a) = true ->
  fork_alert_of (message_to_value (MForkAlert a)) = Some a.
Proof.
  intros Hw. wf_hyps Hw. unfold fork_alert_of, message_to_value, fork_alert_to_value.
  struct_fields. by destruct a.
Qed.

Lemma turn_read t : turn_of (turn_to_value t) = Some t.
Proof. unfold turn_of, turn_to_value. struct_fields. by destruct t. Qed.

Lemma infer_request_read r :
  in_i64 (iq_max_tokens r) = true -> infer_request_of (infer_request_to_value r) = Some r.
Proof.
  intros Hw. unfold infer_request_of, infer_request_to_value. struct_fields.
  rewrite (de_vec_map _ _ (fun _ => true)); [by destruct r|by intros; apply turn_read|].
  by induction (iq_messages r).
Qed.

Lemma infer_response_read r : infer_response_of (infer_response_to_value r) = Some r.
Proof. destruct r as [? ? ? [e|]]; reflexivity. Qed.

(** *** A field too many *)

Definition with_field (k : string) (x v : Value) : Value :=
  match v with VObject fields => VObject ((k, x) :: fields) | _ => v end.

Lemma json_get_other k n v : json_get k v = None -> json_get n v <> None -> String.eqb k n = false.
Proof. intros Hk Hn. apply String.eqb_neq. by intros ->. Qed.

(** The same decoders, refusing what is not a value of the Rust type. *)
Definition typed {A} (mk : A -> Message) (f : Value -> option A) (v : Value) : option A :=
  x ← f v; if wf_message (mk x) then Some x else None.

Definition strict : Decoders := {|
  gossip_from_value := typed MContributionGossip gossip_of;
  proposal_from_value := typed MProposalMessage proposal_message_of;
  share_from_value := typed MSignatureShare share_of;
  commit_from_value := typed MCommitMessage commit_of;
  heartbeat_from_value := typed MHeartbeat heartbeat_of;
  fork_from_value := typed MForkAlert fork_alert_of;
  sync_request_from_value := typed MSyncRequest sync_request_of;
  sync_response_from_value := typed MSyncResponse sync_response_of;
  infer_request_from_value := infer_request_of;
  infer_response_from_value := infer_response_of;
  stats_from_value := stats_of;
|}.

Lemma typed_wf {A} (mk : A -> Message) f v m : mk <$> typed mk f v = Some m -> wf_message m = true.
Proof.
  unfold typed. destruct (f v) as [x|]; [|done]. cbn. destruct (wf_message (mk x)) eqn:E; [|done].
  by intros [= <-].
Qed.

Lemma strict_typed : @TypedDecoders strict.
Proof.
  split. intros topic value m E. unfold decode_message in E.
  repeat match type of E with (if ?b then _ else _) = _ => destruct b end;
    try done; try (by eapply typed_wf in E).
  destruct (sync_request_from_value value) as [r|] eqn:Er; [|by eapply typed_wf in E].
  apply (typed_wf MSyncRequest sync_request_of value). cbn in Er. by rewrite Er.
Qed.
End Derived.

Section Roundtrip.
Import Derived.

(** C27: the payload of every well-formed message, sent on the topic of its type, is decoded by the
receiver to that very message: the names and types the [Serialize] derives write are those the
[Deserialize] derives read, and a sync response is never taken for a request.  A payload with
any other field besides is refused on its topic, as [deny_unknown_fields] asks. *)
Theorem message_wire_roundtrip m :
  wf_message m = true ->
  decode_message (topic_of m) (message_to_value m) = Some m /\
  forall k x, json_get k (message_to_value m) = None ->
    decode_message (topic_of m) (with_field k x (message_to_value m)) = None.
Proof.
  intros Hw. split.
  - destruct m as [g|p|s|c|h|r|r|a]; unfold decode_message; cbn -[message_to_value wf_message].
    + by rewrite gossip_read.
    + by rewrite proposal_message_read.
    + by rewrite share_read.
    + by rewrite commit_read.
    + by rewrite heartbeat_read.
    + by rewrite sync_request_read.
    + rewrite sync_response_no_request. by rewrite sync_response_read.
    + by rewrite fork_alert_read.
  - intros k x Hk.
    assert (forall n, json_get n (message_to_value m) <> None -> String.eqb k n = false) as Hne
      by eauto using json_get_other.
    destruct m; unfold decode_message; cbn -[message_to_value with_field];
      cbv [gossip_of proposal_message_of share_of commit_of heartbeat_of sync_request_of
           sync_response_of fork_alert_of members with_field message_to_value share_to_value
           heartbeat_to_value fork_alert_to_value json_object];
      cbn -[String.eqb];
      repeat match goal with
      | |- context [String.eqb k ?n] => rewrite (Hne n) by discriminate
      end; try reflexivity.
    all: destruct (String.eqb k "blocks"), (String.eqb k "from_height"); reflexivity.
Qed.
End Roundtrip.



Module DecodeDemo.
#[local] Existing Instance Derived.decoders.

Lemma message_wire_roundtrip_witness :
  let m := MCommitMessage (mkCommitMessage Demo.block1) in
  decode_message COMMITS (message_to_value m) = Some m /\
  decode_message COMMITS (Derived.with_field "note" VNull (message_to_value m)) = None.
Proof.
  destruct (message_wire_roundtrip (MCommitMessage (mkCommitMessage Demo.block1))) as [E Hx].
  - vm_compute. reflexivity.
  - split; [exact E|]. apply Hx. vm_compute. reflexivity.
Defined.

Lemma decoded_topic_witness :
  SYNC = topic_of (MSyncRequest (mkSyncRequest "exda" 7)).
Proof.
  apply (decoded_topic SYNC (message_to_value (MSyncRequest (mkSyncRequest "exda" 7)))).
  vm_compute. reflexivity.
Defined.

(** Defaults, the array form of a struct, and what is refused. *)
Lemma decoding_examples :
  Derived.heartbeat_of (json_object [("node_id", VString "exda"); ("height", json_int 3);
     ("block_hash", VString "h"); ("epoch", json_int 4); ("sealed_by", VString "exdb")]) =
    Some (mkHeartbeat "exda" 3 "h" 4 "exdb" 1) /\
  decode_message SYNC (json_object [("node_id", VString "exda")]) =
    Some (MSyncResponse (mkSyncResponse "exda" [])) /\
  decode_message SYNC (VArray [VString "exda"; json_int 7]) =
    Some (MSyncRequest (mkSyncRequest "exda" 7)) /\
  decode_message SYNC (json_object [("node_id", VString "exda"); ("from_height", json_int (2 ^ 63))]) = None /\
  decode_message CLAIMS (message_to_value (MSyncRequest (mkSyncRequest "exda" 7))) = None.
Proof. vm_compute. auto 6. Qed.
End DecodeDemo.
