(* ===== verification/Rewards.v ===== *)
(** * The reward engine ([src/rewards.rs])

Rewards as a function of the committed ledger: credits, decay, priority tier, quota, and the
two JSON reports.  [powf] and [log2] have no bit-exact specification, the RFC 3339 parser is
[chrono]'s, and the identity that [Iterator::sum] starts from depends on the compiler
version: they are the fields of the class [RewardEnv].  An instant ([DateTime<Utc>]) is its
number of nanoseconds since the Unix epoch.  The functions that may read the wall clock take
the number of readings so far and return the new one. *)

From S2P Require Import Prelude F64 Crypto Models Accounting Config Ledger.
From Stdlib Require Import Floats.SpecFloat.

Class RewardEnv := {
  (** [f64::powf] *)
  powf : f64 -> f64 -> f64;
  (** [f64::log2] *)
  log2 : f64 -> f64;
  (** the value [Iterator::sum::<f64>] starts from *)
  sum_identity : f64;
  (** [DateTime::parse_from_rfc3339(..).with_timezone(&Utc)] *)
  parse_from_rfc3339 : string -> option Z;
  (** the [n]-th reading of [Utc::now] *)
  utc_now : nat -> Z;
  (** SQLite's [SUM] *)
  column_sum : list f64 -> option f64;
}.

Class RewardLaws `{RewardEnv} := {
  (** zero, of either sign *)
  sum_identity_zero : exists s, sum_identity = S754_zero s;
  (** the logarithm of a finite number of at least one is a number from zero to 1024 *)
  log2_range x : is_finite x = true -> f64_le f64_1 x = true ->
    0 <= f64_to_i64 (log2 x) <= 1024;
}.

(** ** Pure formulas *)

Section Formulas.
Context `{RewardEnv}.

Definition credit_curve (cu : f64) (config : ExodusConfig) : f64 :=
  if f64_le cu f64_0 then f64_0
  else f64_mul (credits_per_cu config) (powf cu (reward_diminishing config)).

Definition decay_factor (age_seconds halflife_seconds : f64) : f64 :=
  if f64_le halflife_seconds f64_0 then f64_1
  else powf (f64_lit 1 2) (f64_div (f64_max age_seconds f64_0) halflife_seconds).

(** The [i64] arithmetic wraps. *)
Definition priority_tier (credits : f64) (max_levels : Z) : Z :=
  if f64_le credits f64_0 then 0
  else
    let tier := wrap_i64 (f64_to_i64 (log2 (f64_add f64_1 (f64_div credits (f64_of_Z 100)))) + 1) in
    Z.min tier (Z.max (wrap_i64 (max_levels - 1)) 1).

Definition concurrency_quota (tier base_quota : Z) : Z :=
  Z.max (wrap_i64 (base_quota + tier)) base_quota.

Definition scheduling_priority (tier quota : Z) : f64 :=
  f64_add (f64_mul (f64_of_Z tier) (f64_of_Z 10)) (f64_of_Z quota).

(** An unparsable timestamp stands for the present. *)
Definition parse_utc (n : nat) (value : string) : Z * nat :=
  match parse_from_rfc3339 value with
  | Some dt => (dt, n)
  | None => (utc_now n, S n)
  end.

(** [DateTime::timestamp]: whole seconds, rounded down. *)
Definition timestamp (dt : Z) : Z := dt / 10 ^ 9.

End Formulas.

(** ** Queries over the ledger *)

Section Engine.
Context `{Crypto} `{Serde} `{RewardEnv}.
Variable config : ExodusConfig.

(** [*totals.entry(node).or_insert(0.0) += cu] *)
Definition add_units (totals : list (string * f64)) (claim : ClaimRecord) : list (string * f64) :=
  btree_insert (rec_node_id claim)
    (f64_add (default f64_0 (assoc (rec_node_id claim) totals)) (rec_cu claim)) totals.

Definition verified_cu_by_node (s : ChainStore) : list (string * f64) :=
  foldl add_units [] (all_claims s).

Definition ended_at_of (c : ClaimRecord) : option string :=
  json_get "ended_at" (rec_claim_json c) ≫= as_str.

Definition later_text (latest : option string) (c : ClaimRecord) : option string :=
  match ended_at_of c with
  | Some e =>
      Some (match latest with
            | Some cur => if string_lt e cur then cur else e
            | None => e
            end)
  | None => latest
  end.

Definition last_activity (s : ChainStore) (node_id : string) : option string :=
  foldl later_text None (claims_for_node s node_id).

Definition later_instant (acc : option Z * nat) (c : ClaimRecord) : option Z * nat :=
  let '(latest, n) := acc in
  match ended_at_of c with
  | Some e =>
      let '(dt, n) := parse_utc n e in
      (Some (match latest with
             | Some cur => if dt <? cur then cur else dt
             | None => dt
             end), n)
  | None => (latest, n)
  end.

Definition age_of_last_claim (s : ChainStore) (node_id : string) (now : option f64) (n : nat) :
  f64 * nat :=
  let '(latest, n) := foldl later_instant (None, n) (claims_for_node s node_id) in
  match latest with
  | None => (f64_0, n)
  | Some last =>
      let '(now, n) :=
        match now with
        | Some t => (t, n)
        | None => (f64_of_Z (timestamp (utc_now n)), S n)
        end in
      (f64_sub now (f64_of_Z (timestamp last)), n)
  end.

(** The sum [entitlement] starts with. *)
Definition entitlement_cu (s : ChainStore) (node_id : string) : f64 :=
  foldl f64_add sum_identity
    (rec_cu <$> filter (fun c => String.eqb (rec_node_id c) node_id = true) (all_claims s)).

Definition json_opt_string (o : option string) : Value :=
  match o with Some s => VString s | None => VNull end.

Definition entitlement (s : ChainStore) (node_id : string) (now : option f64) (n : nat) :
  Value * nat :=
  let cu := entitlement_cu s node_id in
  let credits_raw := credit_curve cu config in
  let '(age, n) := age_of_last_claim s node_id now n in
  let factor := decay_factor age (credit_halflife_seconds config) in
  let credits := f64_mul credits_raw factor in
  let tier := priority_tier credits (max_priority_levels config) in
  let quota := concurrency_quota tier 1 in
  let ai_time :=
    f64_add (free_quota_seconds config) (f64_mul credits (seconds_per_credit config)) in
  let priority := scheduling_priority tier quota in
  (json_object [
     ("node_id", VString node_id);
     ("verified_cu", json_f64 (round_f64 cu 6));
     ("credits_raw", json_f64 (round_f64 credits_raw 6));
     ("decay_factor", json_f64 (round_f64 factor 6));
     ("credits", json_f64 (round_f64 credits 6));
     ("ai_time_seconds", json_f64 (round_f64 ai_time 3));
     ("priority_tier", json_int tier);
     ("concurrency_quota", json_int quota);
     ("scheduling_priority", json_f64 (round_f64 priority 3));
     ("last_activity", json_opt_string (last_activity s node_id))], n).

(** The report order: more units first. *)
Definition units_le (a b : string * f64) : bool := negb (f64_lt a.2 b.2).

Fixpoint entitlements (s : ChainStore) (nodes : list (string * f64)) (n : nat) :
  list Value * nat :=
  match nodes with
  | [] => ([], n)
  | (id, _) :: rest =>
      let '(v, n) := entitlement s id None n in
      let '(vs, n) := entitlements s rest n in
      (v :: vs, n)
  end.

Definition network_report (s : ChainStore) (n : nat) : Value * nat :=
  let nodes := sort_by units_le (verified_cu_by_node s) in
  let '(participants, n) := entitlements s nodes n in
  (json_object [
     ("total_cu", json_f64 (round_f64 (total_cu column_sum s) 6));
     ("total_claims", json_int (usize_len (all_claims s)));
     ("participants", VArray participants);
     ("reward_parameters", json_object [
        ("credits_per_cu", json_f64 (credits_per_cu config));
        ("diminishing_exponent", json_f64 (reward_diminishing config));
        ("credit_halflife_seconds", json_f64 (credit_halflife_seconds config));
        ("free_quota_seconds", json_f64 (free_quota_seconds config));
        ("seconds_per_credit", json_f64 (seconds_per_credit config));
        ("max_priority_levels", json_int (max_priority_levels config))])], n).

End Engine.
