(* ===== verification/RewardsProps.v ===== *)
(** * Rewards: theorems

The reward engine replays the ledger: on the tables of a valid chain its totals are the
sums of the compute units of the chain's claims, node by node and in chain order. *)

From S2P Require Import Prelude F64 Crypto Models Accounting Instances Config Ledger.
From S2P Require Import LedgerTheory LedgerProps ModelsProps Rewards.
From Stdlib Require Import Floats.SpecFloat.

(** ** Ordered maps *)

Lemma assoc_btree_insert {V} k k' (v : V) m :
  strictly_sorted_keys m = true ->
  assoc k' (btree_insert k v m) = if String.eqb k' k then Some v else assoc k' m.
Proof.
  induction m as [|[k1 v1] m IH]; simpl; [done|]. intros Hs.
  destruct (String.compare k k1) eqn:E; simpl.
  - apply String.compare_eq_iff in E as <-. by destruct (String.eqb k' k).
  - done.
  - rewrite IH by (destruct m as [|[k2 v2] m]; [done|]; by apply andb_true_iff in Hs as [_ ?]).
    destruct (String.eqb k' k1) eqn:E1; [|done].
    apply String.eqb_eq in E1 as ->. destruct (String.eqb k1 k) eqn:E2; [|done].
    apply String.eqb_eq in E2 as ->. by rewrite string_compare_refl in E.
Qed.

Lemma sorted_keys_StronglySorted {V} (m : list (string * V)) :
  strictly_sorted_keys m = true ->
  StronglySorted (fun a b => string_lt a b = true) m.*1.
Proof.
  induction m as [|[k v] m IH]; intros Hs; [constructor|]. cbn.
  destruct m as [|[k' v'] m]; [by repeat constructor|].
  simpl in Hs. apply andb_true_iff in Hs as [Hlt Hs]. specialize (IH Hs).
  constructor; [done|]. constructor; [done|]. inversion IH as [|? ? _ Hall]; subst.
  eapply Forall_impl; [exact Hall|]. intros x. by apply string_lt_trans.
Qed.

Lemma increasing_NoDup l : StronglySorted (fun a b => string_lt a b = true) l -> NoDup l.
Proof.
  induction 1 as [|x l Hl IH Hall]; constructor; [|done]. intros Hx.
  rewrite Forall_forall in Hall. specialize (Hall _ Hx). by rewrite string_lt_irrefl in Hall.
Qed.

Lemma assoc_elem {V} k (m : list (string * V)) : is_Some (assoc k m) <-> k ∈ m.*1.
Proof.
  induction m as [|[k' v] m IH]; cbn; rewrite ?elem_of_nil, ?elem_of_cons.
  - split; [by intros [? ?]|done].
  - destruct (String.eqb k k') eqn:E; bool_prop.
    + subst. split; [by left|eauto].
    + rewrite IH. split; [by right|]. intros [->|?]; done.
Qed.

(** ** Sums from either zero *)

(** Equal, or both a zero. *)
Definition same_units (a b : f64) : Prop :=
  a = b \/ exists s1 s2, a = S754_zero s1 /\ b = S754_zero s2.

Lemma same_units_add a b x : same_units a b -> same_units (f64_add a x) (f64_add b x).
Proof.
  intros [->|(s1 & s2 & -> & ->)]; [by left|].
  unfold f64_add. destruct x as [s|s| |s m e]; simpl; [|by left..].
  right. destruct s1, s2, s; simpl; eauto.
Qed.

Lemma same_units_sum l a b : same_units a b -> same_units (foldl f64_add a l) (foldl f64_add b l).
Proof. revert a b. induction l as [|x l IH]; intros a b Hab; simpl; auto using same_units_add. Qed.

Section Replay.
Context `{Crypto} `{Serde} `{SL : !SerdeLaws}.

(** ** The claim rows of a valid chain *)

Lemma chain_rows_height chain r :
  valid_chain chain -> r ∈ chain_rows chain -> 0 <= cr_height r < Z.of_nat (length chain).
Proof.
  intros Hv (x & Hr & Hc)%list_elem_of_bind.
  apply list_elem_of_fmap in Hr as (c & -> & _). simpl.
  apply list_elem_of_lookup in Hc as [i Hi].
  rewrite (valid_chain_heights _ _ _ Hv Hi). apply lookup_lt_Some in Hi. lia.
Qed.

Lemma StronglySorted_snoc_all {A} (R : A -> A -> Prop) (l k : list A) :
  StronglySorted R l -> StronglySorted R k -> (forall x y, x ∈ l -> y ∈ k -> R x y) ->
  StronglySorted R (l ++ k).
Proof.
  induction 1 as [|x l Hl IH Hall]; intros Hk Hlk; simpl; [done|].
  constructor.
  - apply IH; [done|]. intros. apply Hlk; [by right|done].
  - apply Forall_app. split; [done|]. apply Forall_forall. intros y Hy. apply Hlk; [left|done].
Qed.

Lemma chain_rows_sorted chain :
  valid_chain chain ->
  StronglySorted (fun a b => (cr_height a <=? cr_height b) = true) (chain_rows chain).
Proof.
  induction 1 as [|chain c Hv IH He Hw]; [constructor|].
  rewrite chain_rows_app. apply StronglySorted_snoc_all; [done| |].
  - unfold chain_rows. simpl. rewrite app_nil_r. generalize (cp_claims c). clear.
    intros l. induction l as [|x l IH]; simpl; constructor; [done|].
    apply Forall_fmap, Forall_forall. intros y _. apply Z.leb_refl.
  - intros x y Hx Hy. apply chain_rows_height in Hx; [|done].
    unfold chain_rows in Hy. simpl in Hy. rewrite app_nil_r in Hy.
    apply list_elem_of_fmap in Hy as (z & -> & _). simpl. rewrite (ext_height _ _ He). lia.
Qed.

Lemma all_claims_of chain :
  valid_chain chain -> all_claims (store_of chain) = row_record <$> chain_rows chain.
Proof. intros Hv. unfold all_claims. simpl. by rewrite sort_by_id by by apply chain_rows_sorted. Qed.

(** The claims of one node, in chain order, and their units. *)
Definition node_claims (chain : list Checkpoint) (node : string) : list SignedContribution :=
  filter (fun x => String.eqb (claim_node_id (sc_claim x)) node = true) (chain_claims chain).
Definition node_units (chain : list Checkpoint) (node : string) : list f64 :=
  (fun x => compute_units (sc_claim x)) <$> node_claims chain node.

(** A row, as the triple of what the rewards use. *)
Lemma rows_units chain node :
  (rec_cu <$> filter (fun c => String.eqb (rec_node_id c) node = true)
                (row_record <$> chain_rows chain)) = node_units chain node.
Proof.
  unfold node_units, node_claims, chain_rows, chain_claims.
  induction chain as [|c chain IH]; [done|]. cbn [mbind list_bind].
  rewrite fmap_app, !filter_app, !fmap_app, IH. f_equal.
  generalize (cp_height c) (cp_claims c). clear. intros h l.
  induction l as [|x l IH]; [done|]. cbn [fmap list_fmap].
  destruct (String.eqb (claim_node_id (sc_claim x)) node) eqn:E.
  - rewrite !filter_cons_True by done. cbn. by rewrite IH.
  - rewrite !filter_cons_False by (cbn; congruence). done.
Qed.

(** ** Totals *)

Lemma add_units_sorted totals c :
  strictly_sorted_keys totals = true -> strictly_sorted_keys (add_units totals c) = true.
Proof. apply btree_insert_sorted. Qed.

Lemma assoc_add_units totals c node :
  strictly_sorted_keys totals = true ->
  assoc node (add_units totals c) =
  if String.eqb node (rec_node_id c)
  then Some (f64_add (default f64_0 (assoc (rec_node_id c) totals)) (rec_cu c))
  else assoc node totals.
Proof. apply assoc_btree_insert. Qed.

Lemma totals_spec records totals :
  strictly_sorted_keys totals = true ->
  let out := foldl add_units totals records in
  strictly_sorted_keys out = true /\
  forall node,
    let units := rec_cu <$> filter (fun c => String.eqb (rec_node_id c) node = true) records in
    assoc node out =
      match units with
      | [] => assoc node totals
      | _ => Some (foldl f64_add (default f64_0 (assoc node totals)) units)
      end.
Proof.
  revert totals. induction records as [|c records IH]; intros totals Hs; [done|].
  destruct (IH (add_units totals c) (add_units_sorted _ _ Hs)) as [Hs' Hv].
  split; [done|]. intros node. cbn [foldl]. specialize (Hv node). simpl in Hv.
  rewrite assoc_add_units in Hv by done.
  destruct (String.eqb (rec_node_id c) node) eqn:E.
  - rewrite filter_cons_True by done. apply String.eqb_eq in E as <-.
    rewrite String.eqb_refl in Hv. cbn. etrans; [exact Hv|].
    by match goal with |- match ?u with _ => _ end = _ => destruct u end.
  - rewrite filter_cons_False by congruence. rewrite String.eqb_sym, E in Hv. exact Hv.
Qed.

Lemma verified_cu_spec chain :
  valid_chain chain ->
  strictly_sorted_keys (verified_cu_by_node (store_of chain)) = true /\
  forall node, assoc node (verified_cu_by_node (store_of chain)) =
    match node_units chain node with
    | [] => None
    | units => Some (foldl f64_add f64_0 units)
    end.
Proof.
  intros Hv. unfold verified_cu_by_node. rewrite all_claims_of by done.
  destruct (totals_spec (row_record <$> chain_rows chain) [] eq_refl) as [Hs Ha].
  split; [done|]. intros node. specialize (Ha node). simpl in Ha.
  rewrite rows_units in Ha. rewrite Ha. by destruct (node_units chain node).
Qed.

Lemma node_units_nil chain node : node_units chain node = [] <-> node_claims chain node = [].
Proof. unfold node_units. by destruct (node_claims chain node). Qed.

Lemma verified_cu_nodes chain node :
  valid_chain chain ->
  node ∈ (verified_cu_by_node (store_of chain)).*1 <-> node_claims chain node <> [].
Proof.
  intros Hv. rewrite <- assoc_elem. destruct (verified_cu_spec _ Hv) as [_ ->].
  rewrite <- node_units_nil. destruct (node_units chain node); split; [by intros [? ?]|done|done|eauto].
Qed.

(** ** The claims of a node *)

Lemma wf_chain_claim chain x :
  valid_chain chain -> x ∈ chain_claims chain -> wf_claim (sc_claim x) = true.
Proof.
  intros Hv (c & Hx & Hc)%list_elem_of_bind. apply list_elem_of_lookup in Hc as [i Hi].
  pose proof (wf_of_valid _ _ _ Hv Hi) as Hwf. unfold wf_checkpoint, wf_proposal in Hwf.
  bool_prop. rewrite forallb_forall in *. apply list_elem_of_In in Hx.
  assert (Hs : wf_signed x = true) by auto. unfold wf_signed in Hs. by bool_prop.
Qed.

Lemma ended_at_stored h x :
  wf_claim (sc_claim x) = true ->
  ended_at_of (row_record (claim_row_of h x)) = Some (ended_at (sc_claim x)).
Proof.
  intros Hwf. unfold ended_at_of. cbn [row_record rec_claim_json claim_row_of cr_claim_json].
  rewrite json_text_roundtrip by by apply wf_claim_value. reflexivity.
Qed.

(** What the queries by node return, as texts. *)
Lemma claims_for_node_ended chain node :
  valid_chain chain ->
  (ended_at_of <$> claims_for_node (store_of chain) node) ≡ₚ
  (Some ∘ ended_at ∘ sc_claim <$> node_claims chain node).
Proof.
  intros Hv. unfold claims_for_node. simpl.
  change (map row_record) with (fmap (M := list) row_record).
  rewrite <- list_fmap_compose, sort_by_perm. unfold node_claims.
  assert (Hwf : forall x, x ∈ chain_claims chain -> wf_claim (sc_claim x) = true)
    by (intros; by eapply wf_chain_claim).
  clear Hv. match goal with |- ?a ≡ₚ ?b => cut (a = b); [by intros ->|] end.
  unfold chain_rows, chain_claims in *.
  induction chain as [|c chain IH]; [done|]. cbn [mbind list_bind] in *.
  rewrite !filter_app, !fmap_app, IH by (intros; apply Hwf, elem_of_app; auto). f_equal.
  assert (Hc : forall x, x ∈ cp_claims c -> wf_claim (sc_claim x) = true)
    by (intros; apply Hwf, elem_of_app; auto).
  revert Hc. generalize (cp_height c) (cp_claims c). clear -SL. intros h l Hc.
  induction l as [|x l IH]; [done|]. cbn [fmap list_fmap].
  assert (IH' := IH ltac:(intros; apply Hc; by right)).
  destruct (String.eqb (claim_node_id (sc_claim x)) node) eqn:E.
  - rewrite !filter_cons_True by done. cbn [fmap list_fmap]. rewrite IH'. f_equal.
    unfold compose. apply ended_at_stored, Hc. left.
  - rewrite !filter_cons_False by (cbn; congruence). done.
Qed.

End Replay.

(** ** Latest activity *)

Section Activity.
Context `{Crypto} `{Serde} `{SL : !SerdeLaws} `{RewardEnv}.

Lemma later_text_spec records :
  match foldl later_text None records with
  | None => forall e, Some e ∉ (ended_at_of <$> records)
  | Some e => Some e ∈ (ended_at_of <$> records) /\
              forall e', Some e' ∈ (ended_at_of <$> records) -> string_le e' e = true
  end.
Proof.
  induction records as [|c records IH] using rev_ind.
  { intros e He. by apply elem_of_nil in He. }
  rewrite foldl_snoc, fmap_app. set (seen := ended_at_of <$> records) in *.
  destruct (foldl later_text None records) as [cur|];
    unfold later_text; cbn [fmap list_fmap]; destruct (ended_at_of c) as [e|];
    setoid_rewrite elem_of_app; setoid_rewrite list_elem_of_singleton.
  - destruct IH as [Hin Hmax]. destruct (string_lt e cur) eqn:E.
    + split; [by left|]. intros e' [He'|[= ->]]; [by apply Hmax|].
      apply string_le_lt_eq. by left.
    + rewrite string_lt_le_false in E. apply negb_false_iff in E.
      split; [by right|]. intros e' [He'|[= ->]]; [|apply string_le_refl].
      eapply string_le_trans; [by apply Hmax|done].
  - destruct IH as [Hin Hmax]. split; [by left|]. intros e' [He'|[=]]. by apply Hmax.
  - split; [by right|]. intros e' [He'|[= ->]]; [by apply IH in He'|apply string_le_refl].
  - intros e [He|[=]]. by apply (IH e).
Qed.

(** Instants of the texts that parse; [None] when one does not. *)
Lemma later_instant_spec records n :
  (forall e, Some e ∈ (ended_at_of <$> records) -> is_Some (parse_from_rfc3339 e)) ->
  let times := omap (fun o => o ≫= parse_from_rfc3339) (ended_at_of <$> records) in
  (foldl later_instant (None, n) records).2 = n /\
  match (foldl later_instant (None, n) records).1 with
  | None => times = []
  | Some t => t ∈ times /\ forall t', t' ∈ times -> t' <= t
  end.
Proof.
  induction records as [|c records IH] using rev_ind; [done|].
  rewrite foldl_snoc, fmap_app, omap_app. cbn [fmap list_fmap]. intros Hp.
  destruct IH as [Hn IH]. { intros e He. apply Hp, elem_of_app. by left. }
  destruct (foldl later_instant (None, n) records) as [latest n'] eqn:Ef. simpl in Hn, IH. subst n'.
  set (times := omap _ (ended_at_of <$> records)) in *.
  unfold later_instant at 1 2. cbn [omap list_omap].
  destruct (ended_at_of c) as [e|] eqn:Ec; cbn [mbind option_bind].
  - destruct (Hp e) as [t Ht]. { rewrite elem_of_app. right. left. }
    unfold parse_utc. rewrite Ht. simpl. split; [done|].
    setoid_rewrite elem_of_app. setoid_rewrite list_elem_of_singleton.
    destruct latest as [cur|].
    + destruct IH as [Hin Hmax]. destruct (t <? cur) eqn:E; bool_prop.
      * split; [by left|]. intros t' [?| ->]; [auto|lia].
      * split; [by right|]. intros t' [Ht'| ->]; [|lia]. specialize (Hmax _ Ht'). lia.
    + rewrite IH. split; [by right|]. intros t' [[]%elem_of_nil| ->]. lia.
  - split; [done|]. rewrite app_nil_r. exact IH.
Qed.
End Activity.

(** ** Properties *)

Section RewardProperties.
Context `{Crypto} `{Serde} `{SL : !SerdeLaws} `{RewardEnv} `{RL : !RewardLaws}.
Variable config : ExodusConfig.

(** C26: rewards are a replay of the ledger.  On the tables of a valid chain,
[verified_cu_by_node] lists exactly the nodes with committed claims, in strictly increasing
order, each with the sum of the compute units of its claims in chain order; and the sum
[entitlement] computes for a node is the same (up to the sign of a zero). *)
Theorem rewards_replay_ledger chain node :
  valid_chain chain ->
  let totals := verified_cu_by_node (store_of chain) in
  StronglySorted (fun a b => string_lt a b = true) totals.*1 /\
  (node ∈ totals.*1 <-> node_claims chain node <> []) /\
  assoc node totals =
    (if bool_decide (node_claims chain node = []) then None
     else Some (foldl f64_add f64_0 (node_units chain node))) /\
  same_units (entitlement_cu (store_of chain) node) (default f64_0 (assoc node totals)).
Proof using RL SL.
  intros Hv totals. destruct (verified_cu_spec _ Hv) as [Hs Ha].
  assert (E : assoc node totals = if bool_decide (node_claims chain node = []) then None
     else Some (foldl f64_add f64_0 (node_units chain node))).
  { unfold totals. rewrite Ha. rewrite (bool_decide_ext _ _ (iff_sym (node_units_nil chain node))).
    by destruct (node_units chain node). }
  split_and!; [by apply sorted_keys_StronglySorted|by apply verified_cu_nodes|done|].
  unfold entitlement_cu. rewrite all_claims_of, rows_units by done.
  replace (default f64_0 (assoc node totals)) with (foldl f64_add f64_0 (node_units chain node)).
  - apply same_units_sum. destruct sum_identity_zero as [s ->]. right. unfold f64_0. eauto.
  - rewrite E. case_bool_decide as Hn; [|done]. by apply node_units_nil in Hn as ->.
Qed.

Lemma entitlements_each s nodes n :
  Forall2 (fun id v => exists k, v = (entitlement config s id None k).1) nodes.*1
    (entitlements config s nodes n).1.
Proof.
  revert n. induction nodes as [|[id cu] nodes IH]; intros n; simpl; [constructor|].
  destruct (entitlement config s id None n) as [v n1] eqn:Ev.
  specialize (IH n1). destruct (entitlements config s nodes n1) as [vs n2]. constructor; [|done].
  exists n. by rewrite Ev.
Qed.

(** the network report lists every node with committed claims exactly once, each with its
own entitlement, and counts the claims of the chain. *)
Theorem report_lists_contributors chain n :
  valid_chain chain ->
  let report := (network_report config (store_of chain) n).1 in
  json_get "total_claims" report = Some (json_int (usize_len (chain_claims chain))) /\
  exists ids participants,
    json_get "participants" report = Some (VArray participants) /\
    NoDup ids /\ (forall node, node ∈ ids <-> node_claims chain node <> []) /\
    Forall2 (fun id v => exists k, v = (entitlement config (store_of chain) id None k).1)
      ids participants.
Proof using SL.
  intros Hv report. unfold report, network_report.
  set (nodes := sort_by units_le _).
  pose proof (entitlements_each (store_of chain) nodes n) as Hall.
  destruct (entitlements config (store_of chain) nodes n) as [ps n'].
  split.
  - cbn [fst]. rewrite all_claims_of by done. unfold usize_len. rewrite length_fmap.
    replace (length (chain_rows chain)) with (length (chain_claims chain)); [reflexivity|].
    rewrite <- (length_fmap signed_id), <- chain_rows_ids. by rewrite length_fmap.
  - exists nodes.*1, ps. split_and!; [reflexivity| | |done].
    + unfold nodes. rewrite sort_by_perm.
      apply increasing_NoDup, sorted_keys_StronglySorted. by apply verified_cu_spec.
    + intros node. unfold nodes. rewrite sort_by_perm. by apply verified_cu_nodes.
Qed.

(** [last_activity] is the greatest end time, as text, among the committed claims of the
node; and when all these times parse, the age that drives the decay is measured from the
latest of them, without reading the clock for a missing time. *)
Theorem activity_is_latest chain node now n :
  valid_chain chain ->
  (forall x, x ∈ node_claims chain node -> is_Some (parse_from_rfc3339 (ended_at (sc_claim x)))) ->
  match last_activity (store_of chain) node with
  | None => node_claims chain node = [] /\
      age_of_last_claim (store_of chain) node (Some now) n = (f64_0, n)
  | Some e =>
      (exists x, x ∈ node_claims chain node /\ ended_at (sc_claim x) = e) /\
      (forall x, x ∈ node_claims chain node -> string_le (ended_at (sc_claim x)) e = true) /\
      exists x t, x ∈ node_claims chain node /\
        parse_from_rfc3339 (ended_at (sc_claim x)) = Some t /\
        (forall y t', y ∈ node_claims chain node ->
           parse_from_rfc3339 (ended_at (sc_claim y)) = Some t' -> t' <= t) /\
        age_of_last_claim (store_of chain) node (Some now) n =
          (f64_sub now (f64_of_Z (timestamp t)), n)
  end.
Proof using SL.
  intros Hv Hp. pose proof (claims_for_node_ended chain node Hv) as Hperm.
  assert (Hel : forall e, Some e ∈ (ended_at_of <$> claims_for_node (store_of chain) node) <->
            exists x, x ∈ node_claims chain node /\ ended_at (sc_claim x) = e).
  { intros e. rewrite Hperm, list_elem_of_fmap. unfold compose. naive_solver. }
  pose proof (later_text_spec (claims_for_node (store_of chain) node)) as Ht.
  destruct (later_instant_spec (claims_for_node (store_of chain) node) n) as [Hn Hi].
  { intros e (x & Hx & <-)%Hel. by apply Hp. }
  unfold last_activity, age_of_last_claim.
  destruct (foldl later_instant _ _) as [latest n']. simpl in Hn, Hi. subst n'.
  set (times := omap _ _) in *.
  assert (Htime : forall t, t ∈ times <-> exists x, x ∈ node_claims chain node /\
            parse_from_rfc3339 (ended_at (sc_claim x)) = Some t).
  { intros t. unfold times. rewrite list_elem_of_omap. split.
    - intros ([e|] & He & Hs); [|done]. apply Hel in He as (x & Hx & <-). eauto.
    - intros (x & Hx & Hs). exists (Some (ended_at (sc_claim x))). split; [apply Hel; eauto|done]. }
  destruct (foldl later_text _ _) as [e|].
  - destruct Ht as [He Hmax]. split; [by apply Hel|].
    split. { intros x Hx. apply Hmax, Hel. eauto. }
    destruct latest as [t|].
    + destruct Hi as [Hin Hle]. apply Htime in Hin as (x & Hx & Hxt). exists x, t.
      split_and!; [done..| |done]. intros y t' Hy Hyt. apply Hle, Htime. eauto.
    + apply Hel in He as (x & Hx & _). destruct (Hp x Hx) as [t Hxt].
      exfalso. assert (t ∈ times) as Hin by (apply Htime; eauto).
      rewrite Hi in Hin. by apply elem_of_nil in Hin.
  - assert (Hnil : node_claims chain node = []).
    { destruct (node_claims chain node) as [|x l] eqn:E; [done|].
      exfalso. eapply Ht, Hel. exists x. split; [left|done]. }
    split; [done|]. destruct latest as [t|]; [|done]. destruct Hi as [Hin _].
    apply Htime in Hin as (x & Hx & _). rewrite Hnil in Hx. by apply elem_of_nil in Hx.
Qed.

(** With at least two priority levels, credits that are a finite positive number give a
tier from 1 to the top level, and the quota is the base quota plus the tier; no credits, no
tier.  (The sum in the logarithm must not round below one, and must not overflow.) *)
Theorem tier_and_quota_bounds credits levels base :
  let arg := f64_add f64_1 (f64_div credits (f64_of_Z 100)) in
  f64_le f64_1 arg = true -> is_finite arg = true ->
  2 <= levels <= i64_max -> 0 <= base <= 2 ^ 32 ->
  let tier := priority_tier credits levels in
  (f64_le credits f64_0 = true -> tier = 0) /\
  (f64_le credits f64_0 = false -> 1 <= tier <= levels - 1) /\
  concurrency_quota tier base = base + tier.
Proof using RL.
  intros arg Harg Hfin Hl Hb tier. pose proof (log2_range _ Hfin Harg) as Hlog.
  unfold tier, priority_tier, concurrency_quota. fold arg. unfold i64_max in Hl.
  assert (W1 : wrap_i64 (levels - 1) = levels - 1) by (apply wrap_i64_id, in_i64_spec; unfold i64_min, i64_max; lia).
  assert (W2 : wrap_i64 (f64_to_i64 (log2 arg) + 1) = f64_to_i64 (log2 arg) + 1)
    by (apply wrap_i64_id, in_i64_spec; unfold i64_min, i64_max; lia).
  rewrite W1, W2. destruct (f64_le credits f64_0); split_and!; try lia; try done;
    rewrite wrap_i64_id by (apply in_i64_spec; unfold i64_min, i64_max; lia); lia.
Qed.
End RewardProperties.

(** ** Concrete environment *)

Module RewardsDemo.
#[local] Existing Instance Toy.crypto_inst.
#[local] Existing Instance Toy.serde_inst.
Import LedgerDemo.

(** The integer part of the logarithm, between 0 and 1024. *)
Definition floor_log2 (x : f64) : f64 :=
  match x with
  | S754_finite _ m e => f64_of_Z (Z.max 0 (Z.min 1024 (e + Z.log2 (Z.pos m))))
  | _ => x
  end.

Definition env_inst : RewardEnv := {|
  powf x y := if f64_eq y f64_0 then f64_1 else x;
  log2 := floor_log2;
  sum_identity := S754_zero true;
  parse_from_rfc3339 s := if String.eqb s "" then None else Some (str_len s * 10 ^ 9);
  utc_now n := (1000 + Z.of_nat n) * 10 ^ 9;
  column_sum l := match l with [] => None | _ => Some (f64_sum l) end;
|}.
#[local] Existing Instance env_inst.

Lemma small_integers_exact :
  forallb (fun k => f64_to_i64 (f64_of_Z k) =? k) (zrange 0 1024) = true.
Proof. vm_compute. reflexivity. Qed.

Lemma reward_laws : @RewardLaws env_inst.
Proof.
  split; [by exists true|]. intros x Hf Hx. simpl. unfold floor_log2.
  destruct x as [s|s| |s m e]; [|done..|].
  - by destruct s.
  - set (k := Z.max 0 _). pose proof small_integers_exact as Hk.
    rewrite forallb_forall in Hk. specialize (Hk k).
    rewrite Z.eqb_eq in Hk. rewrite Hk; [lia|]. apply list_elem_of_In, elem_of_zrange. lia.
Qed.
#[local] Existing Instance reward_laws.

Definition cfg : ExodusConfig := default_config "/var/lib/exodus".

Lemma rewards_replay_ledger_witness :
  length (node_claims chain2 Demo.node) = 2%nat /\
  (verified_cu_by_node (store_of chain2)).*1 = [Demo.node] /\
  same_units (entitlement_cu (store_of chain2) Demo.node)
    (default f64_0 (assoc Demo.node (verified_cu_by_node (store_of chain2)))).
Proof.
  split; [vm_compute; reflexivity|]. split; [vm_compute; reflexivity|].
  apply (rewards_replay_ledger (SL := toy_serde_laws) chain2 Demo.node chain2_valid).
Defined.

Lemma report_lists_contributors_witness :
  json_get "total_claims" (network_report cfg (store_of chain2) 0).1 = Some (VNumber (PosInt 2)).
Proof.
  rewrite (proj1 (report_lists_contributors (SL := toy_serde_laws) cfg chain2 0 chain2_valid)).
  vm_compute. reflexivity.
Defined.

Lemma activity_is_latest_witness :
  last_activity (store_of chain2) Demo.node = Some "2026-08-05T00:00:12+00:00" /\
  exists x, x ∈ node_claims chain2 Demo.node /\ ended_at (sc_claim x) = "2026-08-05T00:00:12+00:00".
Proof.
  assert (E : last_activity (store_of chain2) Demo.node = Some "2026-08-05T00:00:12+00:00")
    by (vm_compute; reflexivity).
  split; [exact E|].
  assert (Hp : forall x, x ∈ node_claims chain2 Demo.node ->
    is_Some (parse_from_rfc3339 (ended_at (sc_claim x)))).
  { apply Forall_forall. vm_compute. repeat constructor; eauto. }
  pose proof (activity_is_latest (SL := toy_serde_laws) chain2 Demo.node f64_0 0 chain2_valid Hp) as H.
  rewrite E in H. apply H.
Defined.

Lemma tier_and_quota_bounds_witness :
  1 <= priority_tier (f64_of_Z 1000) 5 <= 4 /\
  concurrency_quota (priority_tier (f64_of_Z 1000) 5) 1 = 1 + priority_tier (f64_of_Z 1000) 5.
Proof.
  assert (H := tier_and_quota_bounds (f64_of_Z 1000) 5 1 eq_refl eq_refl
                 ltac:(unfold i64_max; lia) ltac:(lia)).
  split; [apply H; vm_compute; reflexivity|apply H].
Defined.

(** infinite credits (which one claim with overflowing units brings) wrap the tier around:
instead of the top level the node gets the tier [i64::MIN], and no quota beyond the base. *)
Theorem infinite_credits_wrap_tier levels :
  2 <= levels <= i64_max ->
  let credits := credit_curve (compute_units (cheap_claim (f64_of_Z (10 ^ 300)) 1)) cfg in
  credits = S754_infinity false /\ priority_tier credits levels = i64_min /\
  concurrency_quota (priority_tier credits levels) 1 = 1.
Proof.
  intros Hl credits. assert (E : credits = S754_infinity false) by (vm_compute; reflexivity).
  rewrite E. unfold i64_max in Hl.
  assert (W1 : wrap_i64 (levels - 1) = levels - 1)
    by (apply wrap_i64_id, in_i64_spec; unfold i64_min, i64_max; lia).
  assert (T : priority_tier (S754_infinity false) levels = i64_min).
  { unfold priority_tier. rewrite W1.
    change (Z.min i64_min (Z.max (levels - 1) 1) = i64_min). unfold i64_min. lia. }
  rewrite T. split; [done|]. split; [done|]. vm_compute. reflexivity.
Qed.

Lemma infinite_credits_wrap_tier_witness :
  priority_tier (credit_curve (compute_units (cheap_claim (f64_of_Z (10 ^ 300)) 1)) cfg) 5 = i64_min.
Proof. apply (infinite_credits_wrap_tier 5). unfold i64_max. lia. Defined.
End RewardsDemo.
