(* ===== verification/Identity.v ===== *)
(** * Node identity ([src/identity.rs])

The key pair a node keeps in its identity file.  The file is its text, or [None] when it does
not exist.  [load_or_create_identity] is the operation on a working disk;
[load_or_create_on] takes the errors of the disk as an argument, a write that stops halfway
included.  The random seed that [SigningKey::generate] draws is an argument. *)

From S2P Require Import Prelude F64 Crypto Config.

Definition PRIVATE_KEY_BYTES : Z := 32.
Definition PUBLIC_KEY_BYTES : Z := 32.

Record NodeIdentity := mkIdentity {
  id_node_id : string;
  id_private_key : bytes;
  id_public_key_hex : string;
}.

Inductive IdentityError :=
| NotUtf8
| MalformedIdentityFile
| BadPrivateKey
| BadPublicKey
| BadPrivateKeyLength
| BadPublicKeyLength
| NoParentDir
| IdentityIoError (message : string).

(** ** [str::lines] *)

Definition LF : ascii := "010"%char.
Definition CR : ascii := "013"%char.

Fixpoint strip_cr (s : string) : string :=
  match s with
  | EmptyString => ""
  | String a EmptyString => if Ascii.eqb a CR then "" else s
  | String a s' => String a (strip_cr s')
  end.

(** A line ends with a line feed, and a carriage return before it is not part of the line; a
last line without a line feed is kept as it is unless it is empty. *)
Definition lines (s : string) : list string :=
  let parts := split_on LF s in
  let unfinished := List.last parts "" in
  map strip_cr (removelast parts) ++ (if String.eqb unfinished "" then [] else [unfinished]).

Section Identity.
Context `{Crypto}.

(** The key pair of a random seed. *)
Definition generate_key_pair (seed : bytes) : bytes * bytes := (seed, ed25519_public seed).

(** [NodeIdentity::public_key]; [None] is the panic of [expect]. *)
Definition identity_public_key (i : NodeIdentity) : option bytes := hex_decode (id_public_key_hex i).

Definition identity_payload (i : NodeIdentity) : string :=
  hex (id_private_key i) +:+ String LF
    (id_public_key_hex i +:+ String LF (id_node_id i +:+ String LF "")).

(** The identity and the text of the new file. *)
Definition create_identity (seed : bytes) : NodeIdentity * string :=
  let '(private, public) := generate_key_pair seed in
  let identity := mkIdentity (node_id_from_public_key public) private (hex public) in
  (identity, identity_payload identity).

Definition load_identity (text : string) : result NodeIdentity IdentityError :=
  if negb (valid_str text) then Err NotUtf8
  else
    let line (i : nat) := trim <$> lines text !! i in
    match line 0%nat with
    | None => Err MalformedIdentityFile
    | Some private_hex =>
        match line 1%nat with
        | None => Err MalformedIdentityFile
        | Some public_hex =>
            match hex_decode private_hex with
            | None => Err BadPrivateKey
            | Some private_key =>
                match hex_decode public_hex with
                | None => Err BadPublicKey
                | Some public_key =>
                    if negb (str_len private_key =? PRIVATE_KEY_BYTES) then Err BadPrivateKeyLength
                    else if negb (str_len public_key =? PUBLIC_KEY_BYTES) then Err BadPublicKeyLength
                    else Ok (mkIdentity (node_id_from_public_key public_key) private_key public_hex)
                end
            end
        end
    end.

(** The result, and the file afterwards. *)
Definition load_or_create_identity (seed : bytes) (file : option string) :
  result NodeIdentity IdentityError * option string :=
  match file with
  | Some text => (load_identity text, file)
  | None =>
      let '(identity, text) := create_identity seed in
      (Ok identity, Some text)
  end.

(** ** Errors of the disk *)

(** What the operating system answers: whether the path has a parent directory, the errors of creating
the directory, of creating the file and of reading it, and the write that stops after some bytes. *)
Record IdentityDisk := mkIdentityDisk {
  disk_parent : bool;
  disk_create_dir : option string;
  disk_open : option string;
  disk_write : option (nat * string);
  disk_read : option string;
}.

(** [create_identity]: the result, and the file it leaves ([create_new]: it did not exist). *)
Definition create_identity_on (disk : IdentityDisk) (seed : bytes) :
  result NodeIdentity IdentityError * option string :=
  if negb (disk_parent disk) then (Err NoParentDir, None)
  else
    match disk_create_dir disk with
    | Some e => (Err (IdentityIoError e), None)
    | None =>
        let '(identity, payload) := create_identity seed in
        match disk_open disk with
        | Some e => (Err (IdentityIoError e), None)
        | None =>
            match disk_write disk with
            | Some (n, e) => (Err (IdentityIoError e), Some (String.substring 0 n payload))
            | None => (Ok identity, Some payload)
            end
        end
    end.

Definition load_or_create_on (disk : IdentityDisk) (seed : bytes) (file : option string) :
  result NodeIdentity IdentityError * option string :=
  match file with
  | Some text =>
      (match disk_read disk with Some e => Err (IdentityIoError e) | None => load_identity text end, file)
  | None => create_identity_on disk seed
  end.

End Identity.
