(* ===== verification/IdentityProps.v ===== *)
(** * Node identity: theorems *)

From S2P Require Import Prelude F64 Crypto CryptoTheory Models Instances ModelsProps Config ConfigProps.
From S2P Require Import Identity.

(** ** Text without white space *)

(** ASCII characters that are not white space. *)
Definition plain_char (a : ascii) : bool := (32 <? byte_val a) && (byte_val a <? 128).

Lemma plain_char_spec a :
  plain_char a = true ->
  byte_val a < 128 /\ is_whitespace (byte_val a) = false /\ Ascii.eqb a LF = false /\ Ascii.eqb a CR = false.
Proof.
  unfold plain_char. intros Hp. bool_prop. split; [done|]. split.
  - unfold is_whitespace.
    repeat match goal with
    | |- context [(?x <=? ?y)%Z] => destruct (Z.leb_spec x y); try lia
    | |- context [(?x =? ?y)%Z] => destruct (Z.eqb_spec x y); try lia
    end; done.
  - split; apply Ascii.eqb_neq; intros ->; vm_compute in *; done.
Qed.

Lemma all_plain_ascii s : all_chars plain_char s = true -> all_ascii s = true.
Proof.
  induction s as [|a s IH]; [done|]. simpl. intros [Ha Hs]%andb_true_iff.
  apply plain_char_spec in Ha as (Ha & _). rewrite IH by done. apply Z.ltb_lt in Ha. by rewrite Ha.
Qed.

Lemma skip_whitespace_none l :
  Forall (fun c => is_whitespace c = false) l -> skip_whitespace l = l.
Proof. destruct 1 as [|c l Hc _]; simpl; [done|by rewrite Hc]. Qed.

Lemma trim_plain s : all_chars plain_char s = true -> trim s = s.
Proof.
  intros Hs. unfold trim, trim_chars. rewrite chars_ascii by by apply all_plain_ascii.
  assert (Hw : Forall (fun c => is_whitespace c = false) (byte_vals s)).
  { clear -Hs. induction s as [|a s IH]; simpl; [constructor|].
    simpl in Hs. apply andb_true_iff in Hs as [Ha Hs]. constructor; [|auto].
    by apply plain_char_spec. }
  rewrite (skip_whitespace_none _ Hw).
  rewrite skip_whitespace_none.
  - rewrite rev_involutive. by apply utf8_encode_ascii, all_plain_ascii.
  - by apply Forall_rev.
Qed.

Lemma split_on_plain s t :
  all_chars plain_char s = true -> split_on LF (s +:+ String LF t) = s :: split_on LF t.
Proof.
  induction s as [|a s IH]; [done|]. simpl. intros [Ha Hs]%andb_true_iff.
  apply plain_char_spec in Ha as (_ & _ & -> & _). by rewrite IH.
Qed.

Lemma strip_cr_plain s : all_chars plain_char s = true -> strip_cr s = s.
Proof.
  induction s as [|a s IH]; [done|]. simpl. intros [Ha Hs]%andb_true_iff.
  apply plain_char_spec in Ha as (_ & _ & _ & ->). destruct s; [done|]. by rewrite IH.
Qed.

(** The first two lines of a text. *)
Lemma lines_first_two a b tail :
  all_chars plain_char a = true -> all_chars plain_char b = true ->
  exists rest, lines (a +:+ String LF (b +:+ String LF tail)) = a :: b :: rest.
Proof.
  intros Ha Hb. unfold lines. rewrite !split_on_plain by done.
  pose proof (split_on_nonempty LF tail). destruct (split_on LF tail) as [|p ps]; [done|].
  cbn [removelast map app]. rewrite !strip_cr_plain by done. eauto.
Qed.

Lemma hex_digit_plain d : 0 <= d < 16 -> plain_char (hex_digit d) = true.
Proof.
  intros Hd. unfold plain_char. rewrite hex_digit_byte by done.
  apply andb_true_iff. rewrite !Z.ltb_lt. destruct (d <? 10); lia.
Qed.

Lemma hex_plain s : all_chars plain_char (hex s) = true.
Proof.
  induction s as [|a s IH]; [done|]. cbn [hex]. rewrite all_chars_app, IH, andb_true_r.
  pose proof (byte_val_range a). unfold hex_byte. cbn [all_chars]. rewrite !hex_digit_plain; [done|..].
  - apply Z.mod_pos_bound. lia.
  - split; [apply Z.div_pos; lia|apply Z.div_lt_upper_bound; lia].
Qed.

Lemma b32_lower_plain a : b32_lower a = true -> plain_char a = true.
Proof.
  destruct a as [[] [] [] [] [] [] [] []]; vm_compute; done.
Qed.

(** ** Texts cut short *)

Lemma lines_plain s : all_chars plain_char s = true -> lines s = if String.eqb s "" then [] else [s].
Proof.
  intros Hs. unfold lines. assert (E : split_on LF s = [s]).
  { induction s as [|a s IH]; [done|]. simpl in *. apply andb_true_iff in Hs as [Ha Hs].
    apply plain_char_spec in Ha as (_ & _ & -> & _). by rewrite IH. }
  by rewrite E.
Qed.

Lemma lines_plain_cons a s :
  all_chars plain_char a = true -> lines (a +:+ String LF s) = a :: lines s.
Proof.
  intros Ha. unfold lines. rewrite split_on_plain by done.
  pose proof (split_on_nonempty LF s). destruct (split_on LF s) as [|p ps]; [done|].
  cbn [removelast map app]. by rewrite strip_cr_plain.
Qed.

(** A prefix of a text ends in its first line or after it. *)
Lemma prefix_line x r a t :
  x +:+ r = a +:+ String LF t ->
  (exists r', a = x +:+ r') \/ (exists x', x = a +:+ String LF x' /\ x' +:+ r = t).
Proof.
  revert x. induction a as [|c a IH]; intros x E.
  - destruct x as [|d x]; [left; by exists ""|]. autorewrite with exodus_rw in E. injection E as -> E.
    right. by exists x.
  - destruct x as [|d x]; [left; eexists; reflexivity|]. autorewrite with exodus_rw in E. injection E as -> E.
    destruct (IH x E) as [[r' ->]|(x' & -> & Ex)]; [left; by exists r'|right; by exists x'].
Qed.

Lemma hex_pairs_length n s b :
  (String.length s <= n)%nat -> hex_pairs s = Some b ->
  (2 * String.length b <= String.length s <= 2 * String.length b + 1)%nat.
Proof.
  revert s b. induction n as [|n IH]; intros s b Hn Hs.
  - destruct s; [|simpl in Hn; lia]. simpl in Hs. injection Hs as <-. simpl. lia.
  - destruct s as [|c1 [|c2 s]]; simpl in Hs; [injection Hs as <-; simpl; lia..|].
    destruct (nib c1), (nib c2); try done. destruct (hex_pairs s) as [b'|] eqn:E; [|done].
    injection Hs as <-. simpl. apply IH in E; simpl in Hn; lia.
Qed.

Lemma hex_decode_length s b : hex_decode s = Some b -> String.length s = (2 * String.length b)%nat.
Proof.
  unfold hex_decode, str_len. destruct (Z.eqb_spec (Z.of_nat (String.length s) mod 2) 0) as [E|]; [|done].
  intros Hp. apply (hex_pairs_length (String.length s)) in Hp; [|lia].
  pose proof (Z.div_mod (Z.of_nat (String.length s)) 2 ltac:(lia)). lia.
Qed.

Lemma substring_prefix n s : exists r, String.substring 0 n s +:+ r = s.
Proof.
  revert n. induction s as [|a s IH]; intros [|n]; [by exists ""|by exists ""|eexists; reflexivity|].
  destruct (IH n) as [r Er]. exists r. cbn [String.substring]. autorewrite with exodus_rw. by rewrite Er.
Qed.

Section IdentityProperties.
Context `{Crypto} `{CL : !CryptoLaws}.

Lemma node_id_plain pk : all_chars plain_char (node_id_from_public_key pk) = true.
Proof.
  unfold node_id_from_public_key. rewrite all_chars_app. apply andb_true_iff. split; [done|].
  eapply all_chars_impl; [apply b32_lower_plain|]. rewrite to_lowercase_chars. apply b32_loop_ok.
Qed.

(** Loading a file whose first two lines are keys in hex. *)
Lemma load_plain sk pk tail :
  String.length sk = 32%nat -> String.length pk = 32%nat -> all_ascii tail = true ->
  load_identity (hex sk +:+ String LF (hex pk +:+ String LF tail)) =
  Ok (mkIdentity (node_id_from_public_key pk) sk (hex pk)).
Proof.
  intros Hsk Hpk Ht. unfold load_identity.
  destruct (lines_first_two (hex sk) (hex pk) tail) as [rest ->]; [apply hex_plain..|].
  rewrite valid_str_ascii.
  2:{ rewrite all_ascii_app, hex_ascii. cbn [all_ascii]. by rewrite all_ascii_app, hex_ascii. }
  cbn. rewrite !trim_plain, !hex_decode_hex by apply hex_plain.
  unfold str_len. by rewrite Hsk, Hpk.
Qed.

(** the identity persists: the first start creates it, and every later start, whatever
random seed it would have drawn, loads the same identity and leaves the file alone.  Its node
id is that of its key, so claims signed with it verify. *)
Theorem identity_persists seed seed' claim :
  String.length seed = 32%nat ->
  let '(r, file) := load_or_create_identity seed None in
  load_or_create_identity seed' file = (r, file) /\
  match r with
  | Ok i =>
      id_private_key i = seed /\ identity_public_key i = Some (public_key_from_private seed) /\
      (claim_node_id claim = id_node_id i ->
       signed_verify (signed_create claim (id_private_key i)) = true)
  | Err _ => False
  end.
Proof using CL.
  intros Hs. cbn [load_or_create_identity create_identity generate_key_pair].
  assert (Hp : public_key_from_private seed = ed25519_public seed)
    by (unfold public_key_from_private; by rewrite <- Hs, substring_all).
  unfold identity_payload. cbn [id_private_key id_public_key_hex id_node_id].
  rewrite load_plain; [|done|apply ed25519_public_length|].
  2:{ rewrite all_ascii_app. by rewrite (all_plain_ascii _ (node_id_plain _)). }
  split; [done|]. split; [done|]. split.
  - unfold identity_public_key. cbn. by rewrite hex_decode_hex, Hp.
  - intros Hc. cbn in *. by rewrite signed_create_spec, Hp, Hc, String.eqb_refl.
Qed.

(** A text that a write of the identity file left behind. *)
Lemma load_prefix seed text rest i :
  String.length seed = 32%nat -> text +:+ rest = (create_identity seed).2 ->
  load_identity text = Ok i -> i = (create_identity seed).1.
Proof using CL.
  intros Hs. cbn [create_identity generate_key_pair fst snd]. unfold identity_payload.
  cbn [id_private_key id_public_key_hex id_node_id]. set (pk := ed25519_public seed). intros E Hl.
  assert (Hpk : String.length pk = 32%nat) by apply ed25519_public_length.
  pose proof (hex_plain seed) as Ha. pose proof (hex_plain pk) as Hb. destruct (prefix_line _ _ _ _ E) as [[r Er]|(x & -> & Ex)].
  - exfalso. rewrite Er, all_chars_app in Ha. apply andb_true_iff in Ha as [Ha _].
    unfold load_identity in Hl. rewrite valid_str_ascii in Hl by by apply all_plain_ascii. cbn [negb] in Hl.
    rewrite lines_plain in Hl by done. by destruct (String.eqb text "").
  - destruct (prefix_line _ _ _ _ Ex) as [[r Er]|(y & -> & Ey)].
    + rewrite Er, all_chars_app in Hb. apply andb_true_iff in Hb as [Hb _]. unfold load_identity in Hl.
      rewrite valid_str_ascii in Hl.
      2:{ rewrite all_ascii_app, hex_ascii. cbn [all_ascii]. by apply all_plain_ascii. }
      cbn [negb] in Hl. rewrite lines_plain_cons, (lines_plain x) in Hl by (try done; apply hex_plain).
      destruct (String.eqb x ""); [done|]. cbn in Hl.
      rewrite !trim_plain, hex_decode_hex in Hl by (try done; apply hex_plain).
      destruct (hex_decode x) as [b|] eqn:Eb; [|done]. apply hex_decode_length in Eb as Hlen.
      unfold str_len in Hl. rewrite Hs in Hl. cbn [negb Z.eqb] in Hl.
      destruct (Z.eqb_spec (Z.of_nat (String.length b)) PUBLIC_KEY_BYTES) as [E32|]; [|by vm_compute in Hl].
      assert (String.length b = 32%nat) as Hb32 by (unfold PUBLIC_KEY_BYTES in E32; lia).
      assert (r = "") as ->.
      { apply (f_equal String.length) in Er. rewrite string_length_app, hex_length, Hpk in Er. destruct r; [done|simpl in Er; lia]. }
      rewrite string_app_nil_r in Er. rewrite <- Er, hex_decode_hex in Eb. injection Eb as <-. cbn in Hl. rewrite <- Er in Hl. by injection Hl.
    + rewrite load_plain in Hl; [by injection Hl|done|done|].
      assert (Hy : all_ascii (y +:+ rest) = true).
      { rewrite Ey, all_ascii_app. by rewrite (all_plain_ascii _ (node_id_plain _)). }
      rewrite all_ascii_app in Hy. by apply andb_true_iff in Hy as [-> _].
Qed.

(** C37: a torn identity file is never mistaken for another identity: when creating the identity fails,
at whatever point and after however many bytes were written, a later start either refuses to
start or loads exactly the identity that was being created; and when no file was left, it creates
a new one. *)
Theorem torn_identity_safe disk disk' seed seed' :
  String.length seed = 32%nat ->
  let '(r, file) := load_or_create_on disk seed None in
  (forall i, r = Ok i -> i = (create_identity seed).1 /\ file = Some (create_identity seed).2) /\
  match file with
  | Some _ => forall i, (load_or_create_on disk' seed' file).1 = Ok i -> i = (create_identity seed).1
  | None => load_or_create_on disk' seed' file = create_identity_on disk' seed'
  end.
Proof using CL.
  intros Hs. cbn [load_or_create_on]. unfold create_identity_on at 1.
  destruct (disk_parent disk); [cbn [negb]|done]. destruct (disk_create_dir disk); [done|].
  destruct (create_identity seed) as [identity payload] eqn:Ec. destruct (disk_open disk); [done|].
  assert (Hload : forall text rest i, text +:+ rest = payload -> (load_or_create_on disk' seed' (Some text)).1 = Ok i -> i = identity).
  { intros text rest i E Hl. cbn in Hl. destruct (disk_read disk'); [done|].
    pose proof (load_prefix seed text rest i Hs) as Hp. rewrite Ec in Hp. by apply Hp. }
  destruct (disk_write disk) as [[n e]|].
  - split; [done|]. intros i. destruct (substring_prefix n payload) as [rest Er]. by apply (Hload _ rest).
  - split; [by intros i [= <-]|]. intros i. apply (Hload payload ""). by rewrite string_app_nil_r.
Qed.

(** loading does not relate the two keys of the file: a file that pairs one private key
with the public key of another loads, the node takes the id of the public key, and then no
claim it signs in its own name verifies. *)
Theorem mismatched_identity_loads sk sk' claim :
  String.length sk = 32%nat -> String.length sk' = 32%nat ->
  let pk := public_key_from_private sk in
  let pk' := public_key_from_private sk' in
  node_id_from_public_key pk <> node_id_from_public_key pk' ->
  exists i,
    load_identity (hex sk +:+ String LF (hex pk' +:+ String LF "")) = Ok i /\
    id_node_id i = node_id_from_public_key pk' /\
    (claim_node_id claim = id_node_id i ->
     signed_verify (signed_create claim (id_private_key i)) = false).
Proof using CL.
  intros Hsk Hsk' pk pk' Hne. eexists. split.
  - apply load_plain; [done|apply public_key_length|done].
  - split; [done|]. cbn. intros E. rewrite signed_create_spec, E by done. by apply String.eqb_neq.
Qed.
End IdentityProperties.

Module IdentityDemo.
#[local] Existing Instance Toy.crypto_inst.

Lemma identity_persists_witness :
  let file := (load_or_create_identity Demo.seed None).2 in
  load_or_create_identity Demo.seed2 file = load_or_create_identity Demo.seed None.
Proof.
  exact (proj1 (identity_persists (CL := toy_crypto_laws) Demo.seed Demo.seed2
                  (Demo.claim "c1" Demo.node 1) eq_refl)).
Defined.

(** The disk fills up after the private key and half of the public key. *)
Definition full_disk : IdentityDisk := mkIdentityDisk true None None (Some (101%nat, "disk full")) None.
Definition good_disk : IdentityDisk := mkIdentityDisk true None None None None.

Lemma torn_identity_safe_witness :
  let '(r, file) := load_or_create_on full_disk Demo.seed None in
  r = Err (IdentityIoError "disk full") /\ (load_or_create_on good_disk Demo.seed2 file).1 = Err BadPublicKeyLength /\
  forall i, (load_or_create_on good_disk Demo.seed2 file).1 = Ok i -> i = (create_identity Demo.seed).1.
Proof.
  pose proof (torn_identity_safe (CL := toy_crypto_laws) full_disk good_disk Demo.seed Demo.seed2 eq_refl) as Ht.
  destruct (load_or_create_on full_disk Demo.seed None) as [r file] eqn:E. destruct Ht as [_ Ht].
  vm_compute in E. injection E as <- <-. split; [reflexivity|]. split; [vm_compute; reflexivity|]. exact Ht.
Defined.

Lemma mismatched_identity_loads_witness :
  exists i, id_node_id i = Demo.node2 /\
    signed_verify (signed_create (Demo.claim "c1" Demo.node2 1) (id_private_key i)) = false.
Proof.
  assert (Hne : node_id_from_public_key (public_key_from_private Demo.seed) <>
                node_id_from_public_key (public_key_from_private Demo.seed2))
    by (vm_compute; discriminate).
  destruct (mismatched_identity_loads (CL := toy_crypto_laws) Demo.seed Demo.seed2
              (Demo.claim "c1" Demo.node2 1) eq_refl eq_refl Hne) as (i & _ & Hn & Hv).
  exists i. rewrite Hn in Hv. split; [rewrite Hn; vm_compute; reflexivity|].
  apply Hv. vm_compute. reflexivity.
Defined.
End IdentityDemo.
