(* ===== verification/Network.v ===== *)
(** * Transports ([src/network/transport.rs], [local.rs], [tcp.rs])

The in-process transport and the shared state of the TCP transport: topic subscriptions,
framing, the window of message ids that stops forwarding loops, delivery and forwarding of
frames, and requests to connect.  A handler is a value of any type; calling handlers is the
list of calls.  The outgoing channel of a peer is the list of byte strings sent into it.  The
JSON text codec on bytes is [serde_json]'s and the message id is a fresh [Uuid]: they are the
fields of the class [Wire] and an argument.  The background tasks and whole networks are
in files of their own. *)

From S2P Require Import Prelude F64 Crypto Models Rewards.

Class Wire := {
  (** [serde_json::to_vec] *)
  to_vec : Value -> bytes;
  (** [serde_json::from_slice] *)
  from_slice : bytes -> option Value;
}.

Inductive TransportError :=
| NotRunning
| OwnAddress (addr : string).

Inductive connect_status :=
| AlreadyConnected (addr : string)
| AlreadyInProgress (addr : string)
| Connecting (addr : string).

Definition MAX_FRAME : Z := 64 * 1024 * 1024.
Definition LOOP_WINDOW : Z := 4096.

Section Network.
Context {H : Type} `{Wire}.

(** ** Subscriptions *)

Abbreviation handlers_map := (gmap string (list (Z * H))).

(** One handler call: handler, topic, payload. *)
Record call := mkCall { call_handler : H; call_topic : string; call_payload : Value }.

Definition add_handler (topic : string) (id : Z) (h : H) (m : handlers_map) : handlers_map :=
  <[topic := default [] (m !! topic) ++ [(id, h)]]> m.

(** [cancel]: the entry of the topic stays, possibly empty. *)
Definition remove_handler (topic : string) (id : Z) (m : handlers_map) : handlers_map :=
  match m !! topic with
  | Some l => <[topic := filter (fun p => (p.1 =? id) = false) l]> m
  | None => m
  end.

Definition calls_of (topic : string) (payload : Value) (m : handlers_map) : list call :=
  (fun p => mkCall p.2 topic payload) <$> default [] (m !! topic).

(** ** The in-process transport *)

Record LocalTransport := mkLocal {
  local_handlers : handlers_map;
  local_next_id : Z;
}.

Definition local_new : LocalTransport := mkLocal ∅ 0.

(** The subscription is the pair of topic and id; [None] is the panic of the assertion. *)
Definition local_subscribe (topic : string) (h : H) (t : LocalTransport) :
  option (LocalTransport * (string * Z)) :=
  if String.eqb topic "" then None
  else
    let id := local_next_id t in
    Some (mkLocal (add_handler topic id h (local_handlers t)) (wrap_u64 (id + 1)), (topic, id)).

Definition local_cancel (sub : string * Z) (t : LocalTransport) : LocalTransport :=
  mkLocal (remove_handler sub.1 sub.2 (local_handlers t)) (local_next_id t).

Definition local_publish (topic : string) (payload : Value) (t : LocalTransport) :
  result unit TransportError * list call :=
  (Ok tt, calls_of topic payload (local_handlers t)).

(** ** The TCP transport: shared state *)

Record Inner := mkInner {
  in_node_id : string;
  in_handlers : handlers_map;
  in_next_id : Z;
  (** the channel of each peer, with what was sent into it *)
  in_peers : gmap string (list bytes);
  (** addresses found by discovery that have a connection loop *)
  in_active_connects : gset string;
  (** the window of message ids: as a set, and in arrival order *)
  in_seen : gset string;
  in_order : list string;
  (** the runtime handle is set while the background thread runs *)
  in_runtime : bool;
  in_stopping : bool;
}.

Definition with_handlers (m : handlers_map) (n : Z) (i : Inner) : Inner :=
  mkInner (in_node_id i) m n (in_peers i) (in_active_connects i) (in_seen i) (in_order i) (in_runtime i) (in_stopping i).
Definition with_channels (p : gmap string (list bytes)) (i : Inner) : Inner :=
  mkInner (in_node_id i) (in_handlers i) (in_next_id i) p (in_active_connects i) (in_seen i) (in_order i)
    (in_runtime i) (in_stopping i).
Definition with_active (a : gset string) (i : Inner) : Inner :=
  mkInner (in_node_id i) (in_handlers i) (in_next_id i) (in_peers i) a (in_seen i) (in_order i)
    (in_runtime i) (in_stopping i).
Definition with_runtime (b : bool) (i : Inner) : Inner :=
  mkInner (in_node_id i) (in_handlers i) (in_next_id i) (in_peers i) (in_active_connects i) (in_seen i)
    (in_order i) b (in_stopping i).
Definition with_seen (s : gset string) (o : list string) (i : Inner) : Inner :=
  mkInner (in_node_id i) (in_handlers i) (in_next_id i) (in_peers i) (in_active_connects i) s o
    (in_runtime i) (in_stopping i).
Definition with_stopping (b : bool) (i : Inner) : Inner :=
  mkInner (in_node_id i) (in_handlers i) (in_next_id i) (in_peers i) (in_active_connects i) (in_seen i)
    (in_order i) (in_runtime i) b.

Definition make_frame (uuid topic : string) (payload : Value) (i : Inner) : Value :=
  json_object [("t", VString topic); ("p", payload); ("f", VString (in_node_id i));
               ("i", VString uuid)].

(** [u32::to_be_bytes] *)
Definition be_u32 (n : Z) : bytes :=
  String (byte_of (Z.shiftr n 24)) (String (byte_of (Z.shiftr n 16))
    (String (byte_of (Z.shiftr n 8)) (String (byte_of n) ""))).

(** [u32::from_be_bytes] *)
Definition of_be_u32 (b0 b1 b2 b3 : ascii) : Z :=
  byte_val b0 * 2 ^ 24 + byte_val b1 * 2 ^ 16 + byte_val b2 * 2 ^ 8 + byte_val b3.

Definition encode_wire (frame : Value) : bytes :=
  let body := to_vec frame in
  be_u32 (wrap_u32 (str_len body)) +:+ body.

(** Whether the id was in the window already, and the new window. *)
Definition note_seen (msg_id : string) (i : Inner) : bool * Inner :=
  if bool_decide (msg_id ∈ in_seen i) then (true, i)
  else
    let seen := {[msg_id]} ∪ in_seen i in
    let order := in_order i ++ [msg_id] in
    if LOOP_WINDOW <? Z.of_nat (length order) then
      match order with
      | old :: order' => (false, with_seen (seen ∖ {[old]}) order' i)
      | [] => (false, with_seen seen order i)
      end
    else (false, with_seen seen order i).

Definition deliver (topic : string) (payload : Value) (i : Inner) : list call :=
  calls_of topic payload (in_handlers i).

(** Send to the peers that pass a test. *)
Definition send_to (p : string -> bool) (raw : bytes) (i : Inner) : Inner :=
  with_channels
    (map_imap (fun k q => Some (if p k then q ++ [raw] else q)) (in_peers i)) i.

Definition broadcast (raw : bytes) (i : Inner) : Inner := send_to (fun _ => true) raw i.

Definition str_field (k : string) (frame : Value) : option string := json_get k frame ≫= as_str.

(** The part of [on_frame] after the two guards. *)
Definition accept_frame (frame : Value) (sender_key : string) (i : Inner) : Inner * list call :=
  match str_field "t" frame with
  | None => (i, [])
  | Some topic =>
      let payload := default VNull (json_get "p" frame) in
      (send_to (fun k => negb (String.eqb k sender_key)) (encode_wire frame) i,
       deliver topic payload i)
  end.

(** The new state, the handler calls, and whether the connection is kept. *)
Definition on_frame (frame : Value) (sender_key : string) (i : Inner) : Inner * list call * bool :=
  if match str_field "f" frame with
     | Some origin => String.eqb origin (in_node_id i)
     | None => false
     end
  then (i, [], false)
  else
    match str_field "i" frame with
    | Some id =>
        let '(known, i) := note_seen id i in
        if known then (i, [], true) else (accept_frame frame sender_key i, true)
    | None => (accept_frame frame sender_key i, true)
    end.

(** One turn of [read_loop] on the bytes that are there: the state, the handler calls and the
bytes after the frame, [None] when the loop ends. *)
Definition read_turn (stream : bytes) (key : string) (i : Inner) : Inner * list call * option bytes :=
  match stream with
  | String b0 (String b1 (String b2 (String b3 rest))) =>
      let len := of_be_u32 b0 b1 b2 b3 in
      if (len =? 0) || (MAX_FRAME <? len) then (i, [], None)
      else if str_len rest <? len then (i, [], None)
      else
        let n := Z.to_nat len in
        let body := String.substring 0 n rest in
        let rest := String.substring n (String.length rest - n) rest in
        match from_slice body with
        | None => (i, [], Some rest)
        | Some frame =>
            let '(i, calls, keep) := on_frame frame key i in
            (i, calls, if keep then Some rest else None)
        end
  | _ => (i, [], None)
  end.

(** [read_loop] on the bytes a connection delivers before it ends.  Every turn consumes at
least five bytes, so the length of the stream is enough [fuel]. *)
Fixpoint read_loop (fuel : nat) (stream : bytes) (key : string) (i : Inner) : Inner * list call :=
  match fuel with
  | O => (i, [])
  | S fuel' =>
      match read_turn stream key i with
      | (i, calls, Some rest) =>
          let '(i, calls') := read_loop fuel' rest key i in (i, calls ++ calls')
      | (i, calls, None) => (i, calls)
      end
  end.

(** ** The TCP transport: operations *)

Record TcpTransport := mkTcp {
  tcp_inner : Inner;
  tcp_host : string;
  tcp_port : Z;
  tcp_bootstrap : list string;
  tcp_discover : bool;
  tcp_manual_peers : gset string;
}.

Definition tcp_new (node_id host : string) (port : Z) (peers : list string) (discover : bool) :
  TcpTransport :=
  mkTcp (mkInner node_id ∅ 0 ∅ ∅ ∅ [] false false) host port peers discover ∅.

Definition with_inner (i : Inner) (t : TcpTransport) : TcpTransport :=
  mkTcp i (tcp_host t) (tcp_port t) (tcp_bootstrap t) (tcp_discover t) (tcp_manual_peers t).

Definition tcp_subscribe (topic : string) (h : H) (t : TcpTransport) :
  option (TcpTransport * (string * Z)) :=
  if String.eqb topic "" then None
  else
    let i := tcp_inner t in
    let id := in_next_id i in
    Some (with_inner (with_handlers (add_handler topic id h (in_handlers i)) (wrap_u64 (id + 1)) i) t,
          (topic, id)).

Definition tcp_cancel (sub : string * Z) (t : TcpTransport) : TcpTransport :=
  let i := tcp_inner t in
  with_inner (with_handlers (remove_handler sub.1 sub.2 (in_handlers i)) (in_next_id i) i) t.

(** The body of [publish], on the shared state. *)
Definition inner_publish (uuid topic : string) (payload : Value) (i : Inner) :
  Inner * result unit TransportError * list call :=
  if in_stopping i then (i, Err NotRunning, [])
  else (broadcast (encode_wire (make_frame uuid topic payload i)) i, Ok tt, deliver topic payload i).

Definition tcp_publish (uuid topic : string) (payload : Value) (t : TcpTransport) :
  TcpTransport * result unit TransportError * list call :=
  let '(i, r, calls) := inner_publish uuid topic payload (tcp_inner t) in
  (with_inner i t, r, calls).

Definition tcp_peer_count (t : TcpTransport) : Z := wrap_u64 (Z.of_nat (size (in_peers (tcp_inner t)))).

(** [close], up to joining the background thread. *)
Definition tcp_close (t : TcpTransport) : TcpTransport :=
  with_inner (with_channels ∅ (with_stopping true (tcp_inner t))) t.

Definition connect_peer (addr : string) (t : TcpTransport) :
  TcpTransport * result connect_status TransportError :=
  let port := pretty (tcp_port t) in
  let self_addrs := [tcp_host t +:+ ":" +:+ port; "127.0.0.1:" +:+ port; "localhost:" +:+ port] in
  if existsb (fun a => String.eqb a addr) self_addrs then (t, Err (OwnAddress addr))
  else if bool_decide (is_Some (in_peers (tcp_inner t) !! addr)) then (t, Ok (AlreadyConnected addr))
  else if bool_decide (addr ∈ tcp_manual_peers t) then (t, Ok (AlreadyInProgress addr))
  else if negb (in_runtime (tcp_inner t)) then (t, Err NotRunning)
  else
    (mkTcp (tcp_inner t) (tcp_host t) (tcp_port t) (tcp_bootstrap t) (tcp_discover t)
       ({[addr]} ∪ tcp_manual_peers t), Ok (Connecting addr)).

(** ** Connections *)

(** The entry and the exit of [register_connection] in the peer table. *)
Definition register_peer (key : string) (i : Inner) : Inner :=
  with_channels (<[key := []]> (in_peers i)) i.
Definition unregister_peer (key : string) (i : Inner) : Inner :=
  with_channels (delete key (in_peers i)) i.

End Network.

(** The last occurrence of a character, [rsplit_once]. *)
Fixpoint rsplit_at_char (c : ascii) (s : string) : option (string * string) :=
  match s with
  | EmptyString => None
  | String a s' =>
      match rsplit_at_char c s' with
      | Some (l, r) => Some (String a l, r)
      | None => if Ascii.eqb a c then Some ("", s') else None
      end
  end.

Definition parse_u16 : string -> option Z := parse_int 0 65535.

(** The host and the port that [connect_loop] connects to.  An unsigned parse refuses a
minus sign. *)
Definition connect_target (address : string) : string * Z :=
  match rsplit_at_char ":" address with
  | Some (h, p) =>
      (h, match p with
          | String a _ => if Ascii.eqb a "-" then 52514 else default 52514 (parse_u16 p)
          | EmptyString => 52514
          end)
  | None => (address, 52514)
  end.

(** The wait after a failed attempt, in seconds. *)
Definition next_backoff (backoff : Z) : Z := Z.min (backoff * 2) 30.
