(* ===== verification/NetworkProps.v ===== *)
(** * Transports: theorems

Framing, the window of message ids, delivery and forwarding. *)

From S2P Require Import Prelude F64 Crypto CryptoTheory Models Instances Rewards Network.

(** ** Framing *)

Lemma byte_val_shiftr n k : 0 <= n -> 0 <= k ->
  byte_val (byte_of (Z.shiftr n k)) = n / 2 ^ k mod 256.
Proof.
  intros Hn Hk. rewrite Z.shiftr_div_pow2 by done.
  unfold byte_of, byte_val. pose proof (Z.mod_pos_bound (n / 2 ^ k) 256 ltac:(lia)).
  rewrite N_ascii_embedding by lia. lia.
Qed.

Lemma be_u32_length n : String.length (be_u32 n) = 4%nat.
Proof. reflexivity. Qed.

Lemma of_be_u32_spec n : 0 <= n < 2 ^ 32 ->
  of_be_u32 (byte_of (Z.shiftr n 24)) (byte_of (Z.shiftr n 16)) (byte_of (Z.shiftr n 8)) (byte_of n) = n.
Proof.
  intros Hn. unfold of_be_u32. rewrite !byte_val_shiftr by lia.
  replace (byte_val (byte_of n)) with (n mod 256)
    by (rewrite <- (Z.shiftr_0_r n) at 2; rewrite byte_val_shiftr by lia; by rewrite Z.div_1_r).
  pose proof (Z.div_mod n 256 ltac:(lia)).
  assert (E1 : n / 2 ^ 8 = n / 256) by done.
  assert (E2 : n / 2 ^ 16 = n / 256 / 256) by (rewrite Z.div_div by lia; done).
  assert (E3 : n / 2 ^ 24 = n / 256 / 256 / 256) by (rewrite !Z.div_div by lia; done).
  rewrite E1, E2, E3. pose proof (Z.div_mod (n / 256) 256 ltac:(lia)).
  pose proof (Z.div_mod (n / 256 / 256) 256 ltac:(lia)).
  assert (n / 256 / 256 / 256 < 256).
  { rewrite !Z.div_div by lia. apply Z.div_lt_upper_bound; lia. }
  assert (0 <= n / 256 / 256 / 256) by (repeat apply Z.div_pos; lia).
  rewrite (Z.mod_small (n / 256 / 256 / 256)) by lia. lia.
Qed.

Section Frames.
Context {H : Type} `{Wire}.

(** A frame that can be sent: its JSON text parses back to it, is not empty and is at most
[MAX_FRAME] bytes long. *)
Definition sendable (frame : Value) : Prop :=
  from_slice (to_vec frame) = Some frame /\ 1 <= str_len (to_vec frame) <= MAX_FRAME.

Lemma encode_wire_shape frame : sendable frame ->
  exists b0 b1 b2 b3, encode_wire frame = String b0 (String b1 (String b2 (String b3 (to_vec frame)))) /\
    of_be_u32 b0 b1 b2 b3 = str_len (to_vec frame).
Proof.
  intros [_ Hl]. unfold encode_wire, be_u32.
  assert (Hw : wrap_u32 (str_len (to_vec frame)) = str_len (to_vec frame))
    by (apply Z.mod_small; unfold MAX_FRAME in Hl; lia).
  rewrite Hw. do 4 eexists. split; [reflexivity|]. apply of_be_u32_spec.
  unfold MAX_FRAME in Hl. lia.
Qed.

(** One turn of the loop on a frame at the front of the stream. *)
Lemma read_turn_frame frame rest key (i : @Inner H) :
  sendable frame ->
  read_turn (encode_wire frame +:+ rest) key i =
  let '(i', calls, keep) := on_frame frame key i in (i', calls, if keep then Some rest else None).
Proof.
  intros Hs. destruct (encode_wire_shape _ Hs) as (b0 & b1 & b2 & b3 & -> & Hl).
  destruct Hs as [Hwf Hb]. autorewrite with exodus_rw. unfold read_turn. rewrite Hl.
  replace (str_len (to_vec frame) =? 0) with false by (symmetry; apply Z.eqb_neq; lia).
  replace (MAX_FRAME <? str_len (to_vec frame)) with false by (symmetry; apply Z.ltb_ge; lia).
  replace (str_len (to_vec frame +:+ rest) <? str_len (to_vec frame)) with false
    by (symmetry; apply Z.ltb_ge; unfold str_len; rewrite string_length_app; lia).
  cbn [orb]. unfold str_len at 1 2 3. rewrite !Nat2Z.id, substring_app_l, string_length_app.
  replace (String.length (to_vec frame) + String.length rest - String.length (to_vec frame))%nat
    with (String.length rest) by lia.
  rewrite substring_app_r, Hwf. done.
Qed.

Lemma read_loop_frame fuel frame rest key (i : @Inner H) :
  sendable frame ->
  read_loop (S fuel) (encode_wire frame +:+ rest) key i =
  let '(i', calls, keep) := on_frame frame key i in
  if keep then let '(i'', calls') := read_loop fuel rest key i' in (i'', calls ++ calls')
  else (i', calls).
Proof.
  intros Hs. cbn [read_loop]. rewrite read_turn_frame by done.
  by destruct (on_frame frame key i) as [[i' calls] []].
Qed.

(** The frames of a list, one after the other, until one drops the connection. *)
Fixpoint on_frames (frames : list Value) (key : string) (i : @Inner H) : @Inner H * list call :=
  match frames with
  | [] => (i, [])
  | frame :: rest =>
      let '(i, calls, keep) := on_frame frame key i in
      if keep then let '(i, calls') := on_frames rest key i in (i, calls ++ calls')
      else (i, calls)
  end.

Fixpoint encode_all (frames : list Value) : bytes :=
  match frames with [] => "" | f :: rest => encode_wire f +:+ encode_all rest end.

Lemma read_loop_frames frames fuel key (i : @Inner H) :
  Forall sendable frames -> (length frames < fuel)%nat ->
  read_loop fuel (encode_all frames) key i = on_frames frames key i.
Proof.
  intros Hs. revert fuel i. induction Hs as [|f frames Hf _ IH]; intros fuel i Hl.
  { by destruct fuel. }
  destruct fuel as [|fuel]; [simpl in Hl; lia|]. cbn [encode_all on_frames].
  rewrite read_loop_frame by done. destruct (on_frame f key i) as [[i' calls] []]; [|done].
  rewrite IH by (simpl in Hl; lia). done.
Qed.

Lemma encode_all_length frames : Forall sendable frames -> (5 * length frames <= String.length (encode_all frames))%nat.
Proof.
  induction 1 as [|f frames Hf _ IH]; [done|]. cbn [encode_all length].
  rewrite string_length_app. destruct (encode_wire_shape _ Hf) as (b0 & b1 & b2 & b3 & -> & _).
  cbn. destruct Hf as [_ Hf]. unfold str_len in Hf. lia.
Qed.
End Frames.

(** ** The window of message ids *)

Section Window.
Context {H : Type} `{Wire}.

Record window_ok (i : @Inner H) : Prop := {
  win_set : in_seen i = list_to_set (in_order i);
  win_nodup : NoDup (in_order i);
  win_size : Z.of_nat (length (in_order i)) <= LOOP_WINDOW;
}.

(** What [note_seen] does to the window: nothing for a known id, and otherwise the id enters
at the back, the oldest leaving at the front when the window is full. *)
Lemma note_seen_spec id (i : @Inner H) : window_ok i ->
  let '(known, i') := note_seen id i in
  (known = true /\ id ∈ in_order i /\ i' = i) \/
  (known = false /\ id ∉ in_order i /\
   in_order i' = (if Z.of_nat (length (in_order i)) <? LOOP_WINDOW then in_order i
                  else drop 1 (in_order i)) ++ [id] /\
   window_ok i').
Proof.
  intros [Hs Hn Hl]. unfold note_seen. rewrite Hs. case_bool_decide as Hin.
  { left. rewrite elem_of_list_to_set in Hin. done. }
  rewrite elem_of_list_to_set in Hin. rewrite length_app. simpl.
  destruct (in_order i) as [|old order] eqn:Eo; cbn [length app] in *.
  - right. split_and!; [done..|]. constructor; simpl; [set_solver|repeat constructor; set_solver|done].
  - destruct (Z.ltb_spec LOOP_WINDOW (Z.of_nat (S (length order) + 1)));
      destruct (Z.ltb_spec (Z.of_nat (S (length order))) LOOP_WINDOW); try lia; right.
    + split_and!; [done..|]. inversion Hn as [|? ? Ho Hn']; subst.
      constructor; cbn [in_seen in_order with_seen].
      * apply set_eq. intros x.
        rewrite elem_of_difference, !elem_of_union, !elem_of_singleton, !elem_of_list_to_set.
        rewrite elem_of_cons in Hin. set_solver.
      * apply NoDup_snoc. set_solver.
      * rewrite length_app. simpl. lia.
    + split_and!; [done..|]. constructor; cbn [in_seen in_order with_seen].
      * apply set_eq. intros x. rewrite elem_of_union, elem_of_singleton, !elem_of_list_to_set.
        set_solver.
      * change (old :: order ++ [id]) with ((old :: order) ++ [id]). by apply NoDup_snoc.
      * simpl. rewrite length_app. simpl. lia.
Qed.

Lemma accept_frame_window frame key (i : @Inner H) :
  in_order (accept_frame frame key i).1 = in_order i /\ in_seen (accept_frame frame key i).1 = in_seen i.
Proof. unfold accept_frame. by destruct (str_field "t" frame). Qed.

(** The id is in the window, with at most [n] later ids. *)
Definition recent (n : nat) (id : string) (i : @Inner H) : Prop :=
  exists l1 l2, in_order i = l1 ++ id :: l2 /\ (length l2 <= n)%nat.

Lemma recent_mono n m id i : (n <= m)%nat -> recent n id i -> recent m id i.
Proof. intros Hnm (l1 & l2 & E & Hl). exists l1, l2. split; [done|lia]. Qed.

Lemma note_seen_recent n id id' (i : @Inner H) :
  window_ok i -> Z.of_nat n < LOOP_WINDOW - 1 -> recent n id i ->
  recent (S n) id (note_seen id' i).2.
Proof.
  intros Hw Hn (l1 & l2 & E & Hl). pose proof (note_seen_spec id' i Hw) as Hs.
  destruct (note_seen id' i) as [known i']. simpl.
  destruct Hs as [(_ & _ & ->)|(_ & _ & Ho & _)]; [exists l1, l2; split; [done|lia]|].
  rewrite E in Ho. destruct (Z.ltb_spec (Z.of_nat (length (l1 ++ id :: l2))) LOOP_WINDOW) as [|Hfull].
  - exists l1, (l2 ++ [id']). rewrite Ho, <- app_assoc, length_app. simpl. split; [done|lia].
  - rewrite length_app in Hfull. simpl in Hfull. destruct l1 as [|x l1]; [simpl in Hfull; lia|].
    exists l1, (l2 ++ [id']). rewrite Ho. simpl. rewrite drop_0, <- app_assoc, length_app.
    simpl. split; [done|lia].
Qed.

Lemma note_seen_window id (i : @Inner H) : window_ok i -> window_ok (note_seen id i).2.
Proof.
  intros Hw. pose proof (note_seen_spec id i Hw) as Hs. destruct (note_seen id i) as [known i'].
  destruct Hs as [(_ & _ & ->)|(_ & _ & _ & ?)]; done.
Qed.

(** Only [note_seen] touches the window. *)
Lemma on_frame_order frame key (i : @Inner H) :
  let i' := (on_frame frame key i).1.1 in
  (in_order i' = in_order i /\ in_seen i' = in_seen i) \/
  exists id, str_field "i" frame = Some id /\
    in_order i' = in_order (note_seen id i).2 /\ in_seen i' = in_seen (note_seen id i).2.
Proof.
  unfold on_frame. destruct (match str_field "f" frame with Some o => _ | None => _ end); [by left|].
  destruct (str_field "i" frame) as [id|]; [|left; apply accept_frame_window].
  right. exists id. split; [done|]. destruct (note_seen id i) as [known i1].
  destruct known; [done|]. apply accept_frame_window.
Qed.

Lemma window_ok_ext (i i' : @Inner H) :
  in_order i' = in_order i -> in_seen i' = in_seen i -> window_ok i -> window_ok i'.
Proof. intros Eo Es [? ? ?]. constructor; rewrite ?Eo, ?Es; done. Qed.

Lemma on_frame_window frame key (i : @Inner H) :
  window_ok i -> window_ok (on_frame frame key i).1.1.
Proof.
  intros Hw. destruct (on_frame_order frame key i) as [[Eo Es]|(id & _ & Eo & Es)];
    eauto using window_ok_ext, note_seen_window.
Qed.

Lemma on_frame_recent n id frame key (i : @Inner H) :
  window_ok i -> Z.of_nat n < LOOP_WINDOW - 1 -> recent n id i ->
  recent (S n) id (on_frame frame key i).1.1.
Proof.
  intros Hw Hn Hr. destruct (on_frame_order frame key i) as [[Eo _]|(id' & _ & Eo & _)].
  - apply (recent_mono n); [lia|]. destruct Hr as (l1 & l2 & E & Hl). exists l1, l2. by rewrite Eo.
  - destruct (note_seen_recent n id id' i Hw Hn Hr) as (l1 & l2 & E & Hl). exists l1, l2. by rewrite Eo.
Qed.

(** Frames from several connections, in the order they are handled. *)
Definition on_arrivals (arrivals : list (Value * string)) (i : @Inner H) : @Inner H :=
  foldl (fun i p => (on_frame p.1 p.2 i).1.1) i arrivals.

Lemma on_arrivals_window arrivals (i : @Inner H) : window_ok i -> window_ok (on_arrivals arrivals i).
Proof. revert i. induction arrivals as [|[f k] l IH]; intros i Hw; simpl; auto using on_frame_window. Qed.

Lemma on_arrivals_recent arrivals n id (i : @Inner H) :
  window_ok i -> Z.of_nat (n + length arrivals) <= LOOP_WINDOW - 1 -> recent n id i ->
  recent (n + length arrivals) id (on_arrivals arrivals i).
Proof.
  revert n i. induction arrivals as [|[f k] l IH]; intros n i Hw Hn Hr; cbn [length] in *.
  - by rewrite Nat.add_0_r.
  - replace (n + S (length l))%nat with (S n + length l)%nat in * by lia.
    apply IH; [by apply on_frame_window|done|]. apply on_frame_recent; [done|lia|done].
Qed.

Lemma seen_again frame key id n (i : @Inner H) :
  window_ok i -> str_field "i" frame = Some id -> recent n id i ->
  (on_frame frame key i).1 = (i, []).
Proof.
  intros Hw Hi (l1 & l2 & E & _). unfold on_frame.
  destruct (match str_field "f" frame with Some o => _ | None => _ end); [done|].
  rewrite Hi. unfold note_seen. rewrite (win_set _ Hw), bool_decide_true; [done|].
  rewrite elem_of_list_to_set, E, elem_of_app, elem_of_cons. auto.
Qed.

(** [note_seen] touches nothing but the window. *)
Lemma note_seen_rest id (i : @Inner H) :
  in_handlers (note_seen id i).2 = in_handlers i /\ in_peers (note_seen id i).2 = in_peers i.
Proof.
  unfold note_seen. destruct (bool_decide _); [done|]. destruct (LOOP_WINDOW <? _); [|done].
  by destruct (in_order i ++ [id]).
Qed.

Lemma on_frame_fresh frame key id (i : @Inner H) :
  window_ok i -> str_field "i" frame = Some id -> str_field "f" frame <> Some (in_node_id i) ->
  id ∉ in_order i -> on_frame frame key i = (accept_frame frame key (note_seen id i).2, true).
Proof.
  intros Hw Hi Hf Hn. unfold on_frame.
  replace (match str_field "f" frame with Some o => _ | None => _ end) with false.
  2:{ destruct (str_field "f" frame) as [o|]; [|done]. symmetry. apply String.eqb_neq. congruence. }
  rewrite Hi. pose proof (note_seen_spec id i Hw) as Hs. destruct (note_seen id i) as [known i'].
  by destruct Hs as [(_ & ? & _)|(-> & _)].
Qed.

Lemma accepted_recent frame key id (i : @Inner H) :
  window_ok i -> str_field "i" frame = Some id -> str_field "f" frame <> Some (in_node_id i) ->
  id ∉ in_order i -> recent 0 id (on_frame frame key i).1.1.
Proof.
  intros Hw Hi Hf Hn. rewrite (on_frame_fresh _ _ id) by done.
  pose proof (note_seen_spec id i Hw) as Hs. destruct (note_seen id i) as [known i'].
  destruct Hs as [(_ & ? & _)|(_ & _ & Ho & _)]; [done|]. cbn [fst snd].
  eexists _, []. split; [|done]. by rewrite (proj1 (accept_frame_window frame key i')), Ho.
Qed.

(** The fields of a frame the transport makes. *)
Lemma make_frame_fields uuid topic payload (i : @Inner H) :
  let f := make_frame uuid topic payload i in
  str_field "t" f = Some topic /\ str_field "f" f = Some (in_node_id i) /\
  str_field "i" f = Some uuid /\ json_get "p" f = Some payload.
Proof. split_and!; reflexivity. Qed.

Lemma send_to_lookup p raw (i : @Inner H) k :
  in_peers (send_to p raw i) !! k = (fun q => if p k then q ++ [raw] else q) <$> in_peers i !! k.
Proof. unfold send_to. cbn. rewrite map_lookup_imap. by destruct (in_peers i !! k). Qed.
End Window.

(** ** Properties *)

Section NetworkProperties.
Context {H : Type} `{Wire}.

(** framing is transparent: reading the concatenation of any frames (each at most 64 MiB
of text), as [encode_wire] writes them, processes exactly these frames in order, up to the
first that drops the connection; the length of the stream bounds the number of turns. *)
Theorem framing_transparent frames key (i : @Inner H) :
  Forall sendable frames ->
  read_loop (S (String.length (encode_all frames))) (encode_all frames) key i =
  on_frames frames key i.
Proof.
  intros Hs. apply read_loop_frames; [done|].
  pose proof (encode_all_length _ Hs). lia.
Qed.

(** forwarding loops are cut: after the first arrival of a message id, the id is
recognised during at least 4095 further arrivals, so that every copy of the message, from
whatever peer, is neither delivered nor forwarded; and the window never holds more than 4096
ids. *)
Theorem duplicate_frames_dropped (i : @Inner H) history first key id arrivals copy key' :
  in_order i = [] -> in_seen i = ∅ ->
  let i0 := on_arrivals history i in
  str_field "i" first = Some id -> str_field "f" first <> Some (in_node_id i0) ->
  id ∉ in_order i0 -> Z.of_nat (length arrivals) <= LOOP_WINDOW - 1 ->
  str_field "i" copy = Some id ->
  let i1 := on_arrivals ((first, key) :: arrivals) i0 in
  (on_frame copy key' i1).1 = (i1, []) /\ Z.of_nat (length (in_order i1)) <= LOOP_WINDOW.
Proof.
  intros Ho Hs i0 Hi Hf Hnew Hl Hc i1.
  assert (Hw : window_ok i0).
  { apply on_arrivals_window. constructor; rewrite ?Ho, ?Hs; [done|constructor|done]. }
  assert (Hw1 : window_ok i1) by by apply on_arrivals_window.
  split; [|apply Hw1].
  eapply seen_again; [done..|]. apply (on_arrivals_recent arrivals 0).
  - by apply on_frame_window.
  - done.
  - by apply accepted_recent.
Qed.

(** a published message arrives: the local subscribers are called, the peer's channel
gets exactly the bytes of the frame, and a peer with another node id that reads them and has
not seen the message id calls every subscriber of the topic with the payload, in subscription
order, and forwards the frame to all its peers but the sender. *)
Theorem published_message_delivered uuid topic payload (a : @TcpTransport H) (b : @Inner H) k key q :
  let i := tcp_inner a in
  let frame := make_frame uuid topic payload i in
  in_stopping i = false -> in_peers i !! k = Some q -> window_ok b ->
  sendable frame -> in_node_id i <> in_node_id b -> uuid ∉ in_order b ->
  let '(a', r, calls) := tcp_publish uuid topic payload a in
  r = Ok tt /\ calls = calls_of topic payload (in_handlers i) /\
  in_peers (tcp_inner a') !! k = Some (q ++ [encode_wire frame]) /\
  let '(b', calls') := read_loop (S (String.length (encode_wire frame))) (encode_wire frame) key b in
  calls' = calls_of topic payload (in_handlers b) /\
  forall k', in_peers b' !! k' =
    (fun q => if String.eqb k' key then q else q ++ [encode_wire frame]) <$> in_peers b !! k'.
Proof.
  intros i frame Hst Hq Hw Hs Hne Hnew. unfold tcp_publish, inner_publish. fold i. rewrite Hst.
  split; [done|]. split; [done|].
  split. { change (in_peers (broadcast (encode_wire frame) i) !! k = Some (q ++ [encode_wire frame])).
           unfold broadcast. by rewrite send_to_lookup, Hq. }
  pose proof (read_loop_frame (String.length (encode_wire frame)) frame "" key b Hs) as E.
  rewrite string_app_nil_r in E. rewrite E. clear E.
  destruct (make_frame_fields uuid topic payload i) as (Ht & Hf & Hi & Hp). fold frame in Ht, Hf, Hi, Hp.
  rewrite (on_frame_fresh frame key uuid b) by (rewrite ?Hf; congruence).
  destruct (note_seen_rest uuid b) as [Eh Ep]. unfold accept_frame. rewrite Ht, Hp.
  replace (read_loop _ "" key _) with
    (send_to (fun k => negb (String.eqb k key)) (encode_wire frame) (note_seen uuid b).2, @nil (@call H))
    by by destruct (String.length (encode_wire frame)).
  unfold deliver. rewrite Eh, app_nil_r. split; [done|]. intros k'. rewrite send_to_lookup, Ep.
  by destruct (String.eqb k' key).
Qed.
End NetworkProperties.

(** ** Two concrete nodes *)

Module NetworkDemo.
#[local] Existing Instance Toy.crypto_inst.

Definition a0 : @TcpTransport nat := tcp_new "exda" "10.0.0.1" 52514 [] false.
Definition a1 : @TcpTransport nat := with_inner (register_peer "10.0.0.2:52514" (tcp_inner a0)) a0.
Definition payload : Value := VString "hello".
Definition frame : Value := make_frame "id-1" "exodus/claims" payload (tcp_inner a1).

(** A codec that knows one text. *)
Definition wire_inst : Wire := {|
  to_vec := canonical_json;
  from_slice b := if String.eqb b (canonical_json frame) then Some frame else None;
|}.
#[local] Existing Instance wire_inst.

(** The peer: one subscriber and two connections. *)
Definition b1 : @Inner nat :=
  let b0 := tcp_inner (tcp_new "exdb" "10.0.0.2" 52514 [] false) in
  register_peer "10.0.0.3:52514"
    (register_peer "10.0.0.1:1234" (with_handlers (add_handler "exodus/claims" 0 7%nat ∅) 1 b0)).

Lemma frame_sendable : sendable frame.
Proof. split; [vm_compute; reflexivity|]. vm_compute. split; discriminate. Qed.

Lemma framing_transparent_witness :
  (read_loop (S (String.length (encode_all [frame; frame]))) (encode_all [frame; frame])
     "10.0.0.1:1234" b1).2 = [mkCall 7%nat "exodus/claims" payload].
Proof.
  rewrite (framing_transparent [frame; frame] "10.0.0.1:1234" b1)
    by (repeat constructor; apply frame_sendable).
  vm_compute. reflexivity.
Defined.

Lemma duplicate_frames_dropped_witness :
  let i1 := on_arrivals [(frame, "10.0.0.1:1234")] b1 in
  (on_frame frame "10.0.0.3:52514" i1).1 = (i1, []).
Proof.
  apply (duplicate_frames_dropped b1 [] frame "10.0.0.1:1234" "id-1" [] frame "10.0.0.3:52514").
  - reflexivity.
  - reflexivity.
  - reflexivity.
  - vm_compute. discriminate.
  - vm_compute. apply not_elem_of_nil.
  - vm_compute. discriminate.
  - reflexivity.
Defined.

Lemma b1_window : window_ok b1.
Proof. constructor; [reflexivity|constructor|vm_compute; discriminate]. Qed.

Lemma published_message_delivered_witness :
  (tcp_publish "id-1" "exodus/claims" payload a1).1.2 = Ok tt /\
  (read_loop (S (String.length (encode_wire frame))) (encode_wire frame) "10.0.0.1:1234" b1).2 =
  [mkCall 7%nat "exodus/claims" payload].
Proof.
  pose proof (published_message_delivered "id-1" "exodus/claims" payload a1 b1 "10.0.0.2:52514"
    "10.0.0.1:1234" [] eq_refl ltac:(vm_compute; reflexivity) b1_window frame_sendable
    ltac:(vm_compute; discriminate) ltac:(vm_compute; apply not_elem_of_nil)) as Hd.
  fold frame in Hd. destruct (tcp_publish "id-1" "exodus/claims" payload a1) as [[a' r] calls].
  destruct (read_loop _ _ _ b1) as [b' calls'].
  destruct Hd as (-> & _ & _ & -> & _). split; [reflexivity|vm_compute; reflexivity].
Defined.
End NetworkDemo.
