(* ===== verification/Gossip.v ===== *)
(** * Gossip over a network of nodes ([src/network/tcp.rs])

Several TCP transports wired to each other.  A connection joins two endpoints, each the entry of
a peer in the table of a node: the server registers the peer under the address it accepted
([run_server]), the client under the address it dialled ([connect_loop]).  In one step the write
task of an endpoint takes the next message out of its channel and the reader at the other end
handles it ([register_connection], [read_loop]); steps of different connections interleave in
any order, and what is sent over one connection stays in order.  A reader whose loop has ended
reads nothing more, while its endpoint stays in the table and is still written to
([register_connection] waits for the write task before it removes the entry).

The theorems: a message floods the network, in a bounded number of transmissions and whatever the
order of delivery, and every node that is connected to the origin delivers it exactly once.  Two
things that the flooding depends on are shown at a ring of three nodes: message ids, without which
a frame circulates for ever, and readers that keep reading, which an echo of one's own message
stops. *)

From S2P Require Import Prelude F64 Crypto CryptoTheory Models Instances Rewards Network NetworkProps.

Section Gossip.
Context {H : Type} `{Wire}.

(** A node, and the key of one of its peers. *)
Abbreviation endpoint := (string * string)%type.

Record Net := mkNet {
  net_nodes : gmap string (@Inner H);
  (** the endpoint at the other end of a connection *)
  net_wiring : gmap endpoint endpoint;
  (** the endpoints whose reader has ended *)
  net_deaf : gset endpoint;
  (** what was delivered to handlers, and where *)
  net_log : list (string * @call H);
}.

(** ** Connections *)

(** The key of an accepted connection. *)
Definition server_key (ip : string) (port : Z) : string := ip +:+ ":" +:+ pretty port.

(** A connection that [a] opens to [b]: [a] knows it by the address it dialled and [b] by the address it
accepted. *)
Definition connect_nodes (a ka b kb : string) (n : Net) : Net :=
  mkNet (alter (register_peer kb) b (alter (register_peer ka) a (net_nodes n)))
    (<[(a, ka) := (b, kb)]> (<[(b, kb) := (a, ka)]> (net_wiring n)))
    (net_deaf n ∖ {[(a, ka); (b, kb)]}) (net_log n).

(** ** Steps *)

(** What is waiting in the channel of an endpoint. *)
Definition channel (n : Net) (e : endpoint) : list bytes :=
  default [] (net_nodes n !! e.1 ≫= fun i => in_peers i !! e.2).

Definition set_channel (k : string) (q : list bytes) (i : @Inner H) : @Inner H :=
  with_channels (<[k := q]> (in_peers i)) i.

(** The reader of the endpoint gets the bytes of one message. *)
Definition reader_gets (raw : bytes) (e : endpoint) (n : Net) : Net :=
  match net_nodes n !! e.1 with
  | None => n
  | Some i =>
      if bool_decide (e ∈ net_deaf n) then n
      else
        let '(i', calls, rest) := read_turn raw e.2 i in
        mkNet (<[e.1 := i']> (net_nodes n)) (net_wiring n)
          (match rest with Some _ => net_deaf n | None => {[e]} ∪ net_deaf n end)
          (net_log n ++ map (pair e.1) calls)
  end.

(** The write task of the endpoint sends the next message; [None] when there is none. *)
Definition transmit (e : endpoint) (n : Net) : option Net :=
  match channel n e with
  | [] => None
  | raw :: q =>
      let n' := mkNet (alter (set_channel e.2 q) e.1 (net_nodes n)) (net_wiring n) (net_deaf n) (net_log n) in
      Some (match net_wiring n !! e with Some e' => reader_gets raw e' n' | None => n' end)
  end.

(** A sequence of transmissions. *)
Fixpoint transmissions (es : list endpoint) (n : Net) : option Net :=
  match es with
  | [] => Some n
  | e :: es' => transmit e n ≫= transmissions es'
  end.

Lemma transmissions_app es es' n : transmissions (es ++ es') n = transmissions es n ≫= transmissions es'.
Proof. revert n. induction es as [|e es IH]; intros n; cbn; [done|]. destruct (transmit e n); cbn; [apply IH|done]. Qed.

(** A node publishes; its own handlers are called at once. *)
Definition publish_at (o uuid topic : string) (payload : Value) (n : Net) : Net :=
  match net_nodes n !! o with
  | None => n
  | Some i =>
      let '(i', _, calls) := inner_publish uuid topic payload i in
      mkNet (<[o := i']> (net_nodes n)) (net_wiring n) (net_deaf n) (net_log n ++ map (pair o) calls)
  end.

(** The calls of one node, in order. *)
Definition calls_at (v : string) (n : Net) : list (@call H) :=
  (filter (fun p => p.1 = v) (net_log n)).*2.

Definition quiet (n : Net) : Prop := forall e, channel n e = [].
End Gossip.

(** ** Sums over the nodes *)

Section Totals.
Context {A : Type}.
Implicit Types m : gmap string A.

Definition total (f : string -> A -> nat) (m : gmap string A) : nat :=
  map_fold (fun k x acc => (f k x + acc)%nat) 0%nat m.

Lemma total_insert_fresh f m k x : m !! k = None -> total f (<[k := x]> m) = (f k x + total f m)%nat.
Proof. intros Hk. unfold total. rewrite map_fold_insert_L; [done|intros; lia|done]. Qed.

Lemma total_lookup f m k x : m !! k = Some x -> total f m = (f k x + total f (delete k m))%nat.
Proof.
  intros Hk. rewrite <- (insert_delete_id m k x Hk) at 1. apply total_insert_fresh, lookup_delete_eq.
Qed.

Lemma total_insert f m k x y :
  m !! k = Some x -> (total f (<[k := y]> m) + f k x = total f m + f k y)%nat.
Proof.
  intros Hk. rewrite (total_lookup f m k x Hk), (total_lookup f (<[k := y]> m) k y) by apply lookup_insert_eq.
  rewrite delete_insert_eq. lia.
Qed.

Lemma total_ext f g m : (forall k x, m !! k = Some x -> f k x = g k x) -> total f m = total g m.
Proof.
  induction m as [|k x m Hk IH] using map_ind; [done|]. intros Hfg.
  rewrite !total_insert_fresh by done. rewrite Hfg by apply lookup_insert_eq. f_equal. apply IH.
  intros k' x' Hk'. apply Hfg. rewrite lookup_insert_ne; congruence.
Qed.

Lemma total_le f g m : (forall k x, m !! k = Some x -> (f k x <= g k x)%nat) -> (total f m <= total g m)%nat.
Proof.
  induction m as [|k x m Hk IH] using map_ind; [done|]. intros Hfg.
  rewrite !total_insert_fresh by done. apply Nat.add_le_mono.
  - apply Hfg, lookup_insert_eq.
  - apply IH. intros k' x' Hk'. apply Hfg. rewrite lookup_insert_ne; congruence.
Qed.
End Totals.

Section Channels.
Context {H : Type} `{Wire}.

(** The messages that wait in the channels of a node. *)
Definition waiting (i : @Inner H) : nat := total (fun _ q => length q) (in_peers i).
Definition degree (i : @Inner H) : nat := total (fun _ _ => 1%nat) (in_peers i).

Lemma waiting_set k q q' (i : @Inner H) :
  in_peers i !! k = Some q -> (waiting (set_channel k q' i) + length q = waiting i + length q')%nat.
Proof. intros Hk. unfold waiting, set_channel. cbn. by apply (total_insert (fun _ => length)). Qed.

Lemma send_to_ind p raw (i : @Inner H) :
  (waiting (send_to p raw i) <= waiting i + degree i)%nat /\ degree (send_to p raw i) = degree i.
Proof.
  unfold waiting, degree, send_to. cbn. generalize (in_peers i). clear i. intros m.
  induction m as [|k q m Hk [IH1 IH2]] using map_ind; [done|].
  rewrite map_imap_insert, !total_insert_fresh by (rewrite ?map_lookup_imap, ?Hk; done).
  destruct (p k); rewrite ?length_app; cbn [length]; lia.
Qed.

Lemma channel_lookup (n : @Net H) v k i q :
  net_nodes n !! v = Some i -> in_peers i !! k = Some q -> channel n (v, k) = q.
Proof. intros Hv Hk. unfold channel. cbn. by rewrite Hv; cbn; rewrite Hk. Qed.

Lemma channel_some (n : @Net H) e raw q :
  channel n e = raw :: q ->
  exists i, net_nodes n !! e.1 = Some i /\ in_peers i !! e.2 = Some (raw :: q).
Proof.
  unfold channel. destruct (net_nodes n !! e.1) as [i|]; [|done]. cbn.
  destruct (in_peers i !! e.2) eqn:E; [|done]. cbn. intros ->. by exists i.
Qed.
End Channels.

(** ** The flood of one message *)

Section Flood.
Context {H : Type} `{Wire}.
Variables (o uuid topic : string) (payload : Value) (n0 : @Net H) (i0 : @Inner H).
Abbreviation endpoint := (string * string)%type.

Definition flood_frame : Value := make_frame uuid topic payload i0.
Definition flood_raw : bytes := encode_wire flood_frame.

(** A network at rest: nodes under their ids, connections in both tables and read at both ends, an
id that no node has seen. *)
Record ready : Prop := {
  rd_origin : net_nodes n0 !! o = Some i0;
  rd_running : in_stopping i0 = false;
  rd_frame : sendable flood_frame;
  rd_node v i : net_nodes n0 !! v = Some i -> in_node_id i = v /\ window_ok i /\ uuid ∉ in_order i;
  rd_wired v i k q : net_nodes n0 !! v = Some i -> in_peers i !! k = Some q ->
    exists e, net_wiring n0 !! (v, k) = Some e;
  rd_back e e' : net_wiring n0 !! e = Some e' -> net_wiring n0 !! e' = Some e /\
    exists i q, net_nodes n0 !! e.1 = Some i /\ in_peers i !! e.2 = Some q;
  rd_quiet : quiet n0;
  rd_deaf : net_deaf n0 = ∅;
}.

(** The node has the message. *)
Definition informed (n : @Net H) (v : string) : bool :=
  String.eqb v o ||
  match net_nodes n !! v with Some i => bool_decide (uuid ∈ in_order i) | None => false end.

(** What stays the same at a node. *)
Record same_node (i i' : @Inner H) : Prop := {
  sn_id : in_node_id i' = in_node_id i;
  sn_handlers : in_handlers i' = in_handlers i;
  sn_keys k : is_Some (in_peers i' !! k) <-> is_Some (in_peers i !! k);
  sn_window : window_ok i';
}.

(** What is delivered at a node when the message is there. *)
Definition delivery (v : string) : list (@call H) :=
  match net_nodes n0 !! v with Some i => calls_of topic payload (in_handlers i) | None => [] end.

(** Two nodes that a connection joins. *)
Definition linked (v w : string) : Prop := exists k k', net_wiring n0 !! (v, k) = Some (w, k').

Record flooding (n : @Net H) : Prop := {
  fl_wiring : net_wiring n = net_wiring n0;
  fl_node v i : net_nodes n0 !! v = Some i -> exists i', net_nodes n !! v = Some i' /\ same_node i i';
  fl_back v i : net_nodes n !! v = Some i -> exists i', net_nodes n0 !! v = Some i';
  fl_copies e : Forall (eq flood_raw) (channel n e);
  fl_sender e : channel n e <> [] -> informed n e.1 = true;
  fl_cover e e' : net_wiring n0 !! e = Some e' -> informed n e.1 = true ->
    informed n e'.1 = true \/ channel n e <> [];
  fl_deaf e : e ∈ net_deaf n -> e.1 = o;
  fl_calls v : calls_at v n = calls_at v n0 ++ (if informed n v then delivery v else []);
  fl_reach v : informed n v = true -> rtc linked o v;
}.

(** The messages under way, and those that a node would still forward. *)
Definition weight (n : @Net H) (v : string) (i : @Inner H) : nat :=
  (waiting i + if informed n v then 0 else degree i)%nat.
Definition pending_work (n : @Net H) : nat := total (weight n) (net_nodes n).

(** Twice the number of connections. *)
Definition all_endpoints : nat := total (fun _ i => degree i) (net_nodes n0).

Hypothesis Hready : ready.

Lemma calls_at_app v n (l : list (string * @call H)) nodes w d :
  calls_at v (mkNet nodes w d (net_log n ++ l)) = calls_at v n ++ (filter (fun p => p.1 = v) l).*2.
Proof. unfold calls_at. cbn. by rewrite filter_app, fmap_app. Qed.

Lemma filter_pair v w (l : list (@call H)) :
  (filter (fun p => p.1 = v) (map (pair w) l)).*2 = if String.eqb w v then l else [].
Proof.
  induction l as [|c l IH]; cbn [map]; [by destruct (String.eqb w v)|]. rewrite filter_cons.
  destruct (String.eqb_spec w v) as [->|Hne].
  - rewrite decide_True by done. by rewrite fmap_cons, IH.
  - by rewrite decide_False.
Qed.

Lemma quiet_waiting v i : net_nodes n0 !! v = Some i -> waiting i = 0%nat.
Proof.
  intros Hv. unfold waiting. rewrite (total_ext _ (fun _ _ => 0%nat)).
  - induction (in_peers i) as [|k q m Hk IH] using map_ind; [done|]. by rewrite total_insert_fresh.
  - intros k q Hk. by rewrite <- (channel_lookup n0 v k i q Hv Hk), (rd_quiet Hready).
Qed.

(** Publishing starts the flood. *)
Lemma published_flooding :
  flooding (publish_at o uuid topic payload n0) /\
  (pending_work (publish_at o uuid topic payload n0) <= all_endpoints)%nat.
Proof.
  unfold publish_at, inner_publish. rewrite (rd_origin Hready), (rd_running Hready).
  fold flood_frame flood_raw.
  set (n := mkNet _ _ _ _).
  assert (Hch : forall e, channel n e = if String.eqb e.1 o then
      (if bool_decide (is_Some (in_peers i0 !! e.2)) then [flood_raw] else []) else []).
  { intros [v k]. pose proof (rd_quiet Hready (v, k)) as Hq. unfold channel, n in *.
    cbn [net_nodes fst snd] in *. destruct (String.eqb_spec v o) as [->|Hne].
    - rewrite (rd_origin Hready) in Hq. rewrite lookup_insert_eq. cbn [mbind option_bind] in *.
      unfold broadcast. rewrite send_to_lookup. destruct (in_peers i0 !! k) as [q|]; cbn in *; [subst q|]; done.
    - by rewrite lookup_insert_ne. }
  assert (Hinf : forall v, informed n v = String.eqb v o).
  { intros v. unfold informed, n. cbn. destruct (String.eqb_spec v o) as [|Hne]; [done|]. cbn.
    rewrite lookup_insert_ne by done. destruct (net_nodes n0 !! v) as [i|] eqn:Ev; [|done].
    by apply bool_decide_false, (rd_node Hready v i). }
  split.
  - constructor.
    + done.
    + intros v i Hv. destruct (decide (v = o)) as [->|Hne].
      * rewrite (rd_origin Hready) in Hv. injection Hv as <-. eexists. split; [apply lookup_insert_eq|].
        constructor; [done|done|intros k; unfold broadcast; rewrite send_to_lookup; apply fmap_is_Some|].
        apply (window_ok_ext i0); [done|done|]. apply (rd_node Hready o), (rd_origin Hready).
      * exists i. split; [cbn; by rewrite lookup_insert_ne|]. constructor; try done. by apply (rd_node Hready v).
    + intros v i Hv. destruct (decide (v = o)) as [->|Hne]; [exists i0; apply (rd_origin Hready)|].
      exists i. cbn in Hv. by rewrite lookup_insert_ne in Hv.
    + intros e. rewrite Hch. destruct (String.eqb _ _); [case_bool_decide|]; repeat constructor.
    + intros e He. rewrite Hinf. rewrite Hch in He. by destruct (String.eqb e.1 o).
    + intros e e' He Hi. right. rewrite Hinf in Hi. rewrite Hch, Hi.
      apply (rd_back Hready) in He as (_ & i & q & Hv & Hk). apply String.eqb_eq in Hi. rewrite Hi in Hv.
      rewrite (rd_origin Hready) in Hv. injection Hv as <-. by rewrite bool_decide_true by eauto.
    + intros e He. unfold n in He. cbn in He. rewrite (rd_deaf Hready) in He. set_solver.
    + intros v. unfold n. rewrite calls_at_app, filter_pair. rewrite Hinf, String.eqb_sym.
      unfold delivery. destruct (String.eqb_spec v o) as [->|]; [|done]. by rewrite (rd_origin Hready).
    + intros v Hv. rewrite Hinf in Hv. by apply String.eqb_eq in Hv as ->.
  - unfold pending_work, all_endpoints. cbn [net_nodes n].
    rewrite (total_lookup _ (<[_ := _]> _) o _ (lookup_insert_eq _ _ _)), delete_insert_eq.
    rewrite (total_lookup _ (net_nodes n0) o i0) by apply (rd_origin Hready). apply Nat.add_le_mono.
    + unfold weight. rewrite Hinf, String.eqb_refl. pose proof (send_to_ind (fun _ => true) flood_raw i0) as [Hs _].
      rewrite (quiet_waiting o i0) in Hs by apply (rd_origin Hready). unfold broadcast. lia.
    + apply total_le. intros v i Hv. rewrite lookup_delete_Some in Hv. destruct Hv as [_ Hv]. unfold weight.
      rewrite (quiet_waiting v i Hv). destruct (informed n v); lia.
Qed.

(** *** One transmission *)

Definition popped (e : endpoint) (q : list bytes) (d : gset endpoint) (n : @Net H) : @Net H :=
  mkNet (alter (set_channel e.2 q) e.1 (net_nodes n)) (net_wiring n) d (net_log n).

Lemma popped_informed e q d n v : informed (popped e q d n) v = informed n v.
Proof.
  unfold informed, popped. cbn. destruct (decide (e.1 = v)) as [<-|Hne].
  - rewrite lookup_alter_eq. by destruct (net_nodes n !! e.1).
  - by rewrite lookup_alter_ne.
Qed.

Lemma popped_channel e q d n x :
  channel n e <> [] -> channel (popped e q d n) x = if decide (x = e) then q else channel n x.
Proof.
  intros He. destruct (channel n e) as [|raw q'] eqn:Ec; [done|].
  destruct (channel_some _ _ _ _ Ec) as (i & Hv & Hk). destruct e as [v k], x as [v' k']. cbn in *.
  unfold channel, popped. cbn. destruct (decide (v = v')) as [<-|Hne].
  - rewrite lookup_alter_eq, Hv. cbn. destruct (decide (k = k')) as [<-|Hk'].
    + by rewrite lookup_insert_eq, decide_True.
    + rewrite lookup_insert_ne by done. rewrite decide_False by congruence. done.
  - rewrite lookup_alter_ne by done. by rewrite decide_False by congruence.
Qed.

Lemma popped_node e q d n v i :
  flooding n -> channel n e <> [] -> net_nodes n0 !! v = Some i ->
  exists i', net_nodes (popped e q d n) !! v = Some i' /\ same_node i i'.
Proof.
  intros Hf He Hv. destruct (fl_node _ Hf v i Hv) as (i' & Hi' & Hs). cbn.
  destruct (decide (e.1 = v)) as [<-|Hne]; [|rewrite lookup_alter_ne by done; eauto].
  rewrite lookup_alter_eq, Hi'. eexists. split; [done|]. destruct (channel n e) as [|raw q'] eqn:Ec; [done|].
  destruct (channel_some _ _ _ _ Ec) as (i1 & Hv1 & Hk1). rewrite Hi' in Hv1. injection Hv1 as <-.
  destruct Hs as [? ? Hk Hw]. constructor; [done|done| |by apply (window_ok_ext i')].
  intros k. rewrite <- Hk. cbn. destruct (decide (e.2 = k)) as [<-|].
  - rewrite lookup_insert_eq, Hk1. naive_solver.
  - by rewrite lookup_insert_ne.
Qed.

Lemma popped_work e raw q d n :
  channel n e = raw :: q -> S (pending_work (popped e q d n)) = pending_work n.
Proof.
  intros Ec. destruct (channel_some _ _ _ _ Ec) as (i & Hv & Hk). unfold pending_work.
  rewrite (total_ext (weight (popped e q d n)) (weight n)) by (intros v i' _; unfold weight; by rewrite popped_informed).
  cbn [popped net_nodes]. rewrite (alter_insert_lookup) || idtac.
  replace (alter (set_channel e.2 q) e.1 (net_nodes n)) with (<[e.1 := set_channel e.2 q i]> (net_nodes n)).
  2:{ apply map_eq. intros v. destruct (decide (e.1 = v)) as [<-|Hne].
      - by rewrite lookup_insert_eq, lookup_alter_eq, Hv.
      - by rewrite lookup_insert_ne, lookup_alter_ne. }
  pose proof (total_insert (weight n) _ _ _ (set_channel e.2 q i) Hv) as E. unfold weight in E at 2 4.
  pose proof (waiting_set e.2 (raw :: q) q i Hk) as Ew. cbn [length] in Ew.
  assert (Ed : degree (set_channel e.2 q i) = degree i).
  { unfold degree, set_channel. cbn. pose proof (total_insert (fun _ _ => 1%nat) _ _ _ q Hk). lia. }
  rewrite Ed in E. lia.
Qed.

Lemma popped_flooding e e' raw q d n :
  flooding n -> channel n e = raw :: q -> net_wiring n0 !! e = Some e' -> informed n e'.1 = true ->
  (forall x, x ∈ d -> x.1 = o) -> flooding (popped e q d n).
Proof.
  intros Hf Ec He Hi Hd. assert (Hne : channel n e <> []) by (by rewrite Ec). constructor.
  - apply Hf.
  - intros v i. by apply popped_node.
  - intros v i Hv. cbn in Hv. rewrite lookup_alter_Some in Hv.
    destruct Hv as [(<- & i1 & Hv & _)|[_ Hv]]; by eapply (fl_back _ Hf).
  - intros x. rewrite popped_channel by done. case_decide; [|apply Hf].
    pose proof (fl_copies _ Hf e) as Hc. rewrite Ec in Hc. by inversion Hc.
  - intros x Hx. rewrite popped_informed. apply (fl_sender _ Hf). rewrite popped_channel in Hx by done.
    case_decide; [by subst|done].
  - intros x x' Hx. rewrite !popped_informed, popped_channel by done. intros Hxi. case_decide as E.
    + subst x. left. congruence.
    + by apply (fl_cover _ Hf x x').
  - exact Hd.
  - intros v. rewrite popped_informed. apply (fl_calls _ Hf v).
  - intros v. rewrite popped_informed. apply (fl_reach _ Hf v).
Qed.

(** The node [b] at the endpoint [e'] takes the message in. *)
Definition forwarder (e' : endpoint) (b : @Inner H) : @Inner H :=
  send_to (fun k => negb (String.eqb k e'.2)) flood_raw (note_seen uuid b).2.
Definition accepted (e e' : endpoint) (q : list bytes) (b : @Inner H) (n : @Net H) : @Net H :=
  mkNet (<[e'.1 := forwarder e' b]> (alter (set_channel e.2 q) e.1 (net_nodes n))) (net_wiring n) (net_deaf n)
    (net_log n ++ map (pair e'.1) (calls_of topic payload (in_handlers b))).

Section Accept.
Variables (n : @Net H) (e e' : endpoint) (raw : bytes) (q : list bytes) (b : @Inner H).
Hypotheses (Hf : flooding n) (Hc : channel n e = raw :: q) (Hw : net_wiring n0 !! e = Some e')
  (Hb : net_nodes n !! e'.1 = Some b) (Hi : informed n e'.1 = false).

#[local] Lemma sender_informed : informed n e.1 = true.
Proof. apply (fl_sender _ Hf). by rewrite Hc. Qed.

#[local] Lemma sender_differs : e.1 <> e'.1.
Proof. intros E. pose proof sender_informed as Hs. congruence. Qed.

#[local] Lemma uninformed_node : exists b0, net_nodes n0 !! e'.1 = Some b0 /\ same_node b0 b /\ uuid ∉ in_order b.
Proof.
  destruct (fl_back _ Hf _ _ Hb) as (b0 & Hb0). exists b0.
  destruct (fl_node _ Hf _ _ Hb0) as (b' & Hb' & Hs). rewrite Hb in Hb'. injection Hb' as <-.
  split_and!; [done|done|]. unfold informed in Hi. rewrite Hb in Hi. apply orb_false_iff in Hi as [_ Hi'].
  by apply bool_decide_eq_false in Hi'.
Qed.

#[local] Lemma forwarder_order : window_ok (forwarder e' b) /\ uuid ∈ in_order (forwarder e' b).
Proof.
  destruct uninformed_node as (b0 & _ & Hs & Hn). pose proof (note_seen_spec uuid b (sn_window _ _ Hs)) as Hns.
  unfold forwarder. destruct (note_seen uuid b) as [known b']. cbn [snd].
  destruct Hns as [(_ & ? & _)|(_ & _ & Ho & Hw')]; [done|]. split; [by apply (window_ok_ext b')|].
  change (in_order (send_to _ _ b')) with (in_order b'). rewrite Ho. set_solver.
Qed.

#[local] Lemma accepted_informed v : informed (accepted e e' q b n) v = String.eqb v e'.1 || informed n v.
Proof.
  destruct (String.eqb_spec v e'.1) as [->|Hne].
  - unfold informed, accepted. cbn [net_nodes]. rewrite lookup_insert_eq.
    rewrite bool_decide_true by apply forwarder_order. by rewrite orb_true_r.
  - transitivity (informed (popped e q (net_deaf n) n) v); [|apply popped_informed].
    unfold informed, accepted, popped. cbn [net_nodes]. by rewrite lookup_insert_ne.
Qed.

#[local] Lemma accepted_channel x :
  channel (accepted e e' q b n) x =
  if String.eqb x.1 e'.1 then
    if bool_decide (is_Some (in_peers b !! x.2)) && negb (String.eqb x.2 e'.2) then [flood_raw] else []
  else if decide (x = e) then q else channel n x.
Proof.
  destruct (String.eqb_spec x.1 e'.1) as [E|Hne].
  - assert (Hx : channel n x = []).
    { destruct (channel n x) eqn:Ex; [done|]. rewrite <- E in Hi. rewrite (fl_sender _ Hf x) in Hi; [done|by rewrite Ex]. }
    unfold channel in Hx |- *. rewrite E in Hx |- *. cbn [accepted net_nodes]. rewrite lookup_insert_eq.
    rewrite Hb in Hx. cbn [mbind option_bind] in *. unfold forwarder.
    rewrite send_to_lookup, (proj2 (note_seen_rest uuid b)).
    destruct (in_peers b !! x.2) as [q'|]; cbn in *; [subst q'|done]. by destruct (String.eqb x.2 e'.2).
  - rewrite <- (popped_channel e q (net_deaf n)) by (by rewrite Hc).
    unfold channel, accepted, popped. cbn [net_nodes]. by rewrite lookup_insert_ne.
Qed.

#[local] Lemma accepted_work : (pending_work (accepted e e' q b n) < pending_work n)%nat.
Proof.
  rewrite <- (popped_work e raw q (net_deaf n) n Hc). apply Nat.lt_succ_r. unfold pending_work.
  cbn [accepted popped net_nodes]. rewrite (total_lookup _ (<[_ := _]> _) e'.1 _ (lookup_insert_eq _ _ _)).
  rewrite delete_insert_eq.
  rewrite (total_lookup _ (alter _ _ _) e'.1 b) by (rewrite lookup_alter_ne; [done|apply sender_differs]).
  apply Nat.add_le_mono.
  - unfold weight. rewrite accepted_informed, String.eqb_refl, popped_informed, Hi. cbn [orb].
    unfold forwarder. destruct (send_to_ind (fun k => negb (String.eqb k e'.2)) flood_raw (note_seen uuid b).2) as [Hs _].
    unfold waiting, degree in *. rewrite !(proj2 (note_seen_rest uuid b)) in Hs. lia.
  - apply total_le. intros v i Hv. rewrite lookup_delete_Some in Hv. destruct Hv as [Hv _]. unfold weight.
    rewrite accepted_informed, popped_informed. by destruct (String.eqb_spec v e'.1).
Qed.

#[local] Lemma accepted_flooding : flooding (accepted e e' q b n).
Proof.
  pose proof sender_differs as Hd. destruct uninformed_node as (b0 & Hb0 & Hs & Hn).
  destruct (rd_back Hready _ _ Hw) as [Hw' _]. constructor.
  - apply Hf.
  - intros v i Hv. destruct (decide (v = e'.1)) as [->|Hne].
    + rewrite Hb0 in Hv. injection Hv as <-. eexists. split; [apply lookup_insert_eq|].
      destruct Hs as [Hid Hh Hk _]. destruct (note_seen_rest uuid b) as [Eh Ep]. constructor.
      * rewrite <- Hid. unfold forwarder, note_seen. cbn. by repeat case_match.
      * rewrite <- Hh. by rewrite <- Eh.
      * intros k. unfold forwarder. by rewrite send_to_lookup, fmap_is_Some, Ep.
      * apply forwarder_order.
    + destruct (popped_node e q (net_deaf n) n v i Hf ltac:(by rewrite Hc) Hv) as (i' & Hi' & Hs').
      exists i'. split; [|done]. cbn in Hi' |- *. by rewrite lookup_insert_ne.
  - intros v i Hv. cbn in Hv. rewrite lookup_insert_Some in Hv. destruct Hv as [[<- _]|[_ Hv]]; [eauto|].
    rewrite lookup_alter_Some in Hv. destruct Hv as [(<- & i1 & Hv & _)|[_ Hv]]; by eapply (fl_back _ Hf).
  - intros x. rewrite accepted_channel. destruct (String.eqb x.1 e'.1).
    { destruct (bool_decide _ && _); repeat constructor. }
    case_decide; [|apply Hf]. pose proof (fl_copies _ Hf e) as Hcp. rewrite Hc in Hcp. by inversion Hcp.
  - intros x. rewrite accepted_channel, accepted_informed. destruct (String.eqb x.1 e'.1); [done|].
    case_decide; [subst x; intros _; apply sender_informed|apply (fl_sender _ Hf)].
  - intros x x' Hx. rewrite !accepted_informed, accepted_channel.
    destruct (String.eqb_spec x.1 e'.1) as [E|Hne]; cbn [orb].
    + intros _. destruct (String.eqb_spec x.2 e'.2) as [E2|Hne2].
      * left. assert (x = e') as -> by (destruct x, e'; cbn in *; congruence).
        rewrite Hw' in Hx. injection Hx as <-. rewrite sender_informed. apply orb_true_r.
      * right. destruct (rd_back Hready _ _ Hx) as (_ & i & q' & Hv & Hk). rewrite E, Hb0 in Hv. injection Hv as <-.
        rewrite bool_decide_true; [done|]. apply (sn_keys _ _ Hs). eauto.
    + intros Hxi. destruct (fl_cover _ Hf x x' Hx Hxi) as [Hl|Hr].
      { left. rewrite Hl. apply orb_true_r. }
      case_decide as Ee; [|by right]. subst x. left. rewrite Hw in Hx. injection Hx as <-. by rewrite String.eqb_refl.
  - apply Hf.
  - intros v. unfold accepted. rewrite calls_at_app, filter_pair. fold (accepted e e' q b n). rewrite accepted_informed, (fl_calls _ Hf v).
    rewrite String.eqb_sym. destruct (String.eqb_spec v e'.1) as [->|]; cbn [orb]; [|by rewrite app_nil_r].
    rewrite Hi, app_nil_r. unfold delivery. by rewrite Hb0, (sn_handlers _ _ Hs).
  - intros v. rewrite accepted_informed. destruct (String.eqb_spec v e'.1) as [->|]; cbn [orb]; [|apply (fl_reach _ Hf)].
    intros _. eapply rtc_r; [apply (fl_reach _ Hf), sender_informed|]. exists e.2, e'.2. by rewrite <- !surjective_pairing.
Qed.
End Accept.

(** What the reader of a node does with the message. *)
Lemma flood_turn k (i : @Inner H) :
  read_turn flood_raw k i =
  let '(i', calls, keep) := on_frame flood_frame k i in (i', calls, if keep then Some "" else None).
Proof.
  rewrite <- (read_turn_frame flood_frame "" k i) by apply (rd_frame Hready). by rewrite string_app_nil_r.
Qed.

Lemma flood_fields :
  str_field "t" flood_frame = Some topic /\ str_field "f" flood_frame = Some o /\
  str_field "i" flood_frame = Some uuid /\ json_get "p" flood_frame = Some payload.
Proof.
  destruct (make_frame_fields uuid topic payload i0) as (Ht & Hf & Hi & Hp).
  destruct (rd_node Hready o i0 (rd_origin Hready)) as [Ho _]. rewrite Ho in Hf. done.
Qed.

Lemma flood_on_frame v k (i : @Inner H) :
  in_node_id i = v -> window_ok i ->
  on_frame flood_frame k i =
  if String.eqb v o then (i, [], false)
  else if bool_decide (uuid ∈ in_order i) then (i, [], true)
  else (forwarder (v, k) i, calls_of topic payload (in_handlers i), true).
Proof.
  destruct flood_fields as (Ht & Hf & Hi & Hp). intros Hv Hw. destruct (String.eqb_spec v o) as [->|Hne].
  - unfold on_frame. by rewrite Hf, Hv, String.eqb_refl.
  - case_bool_decide as Hin.
    + unfold on_frame. rewrite Hf, Hi, Hv. replace (String.eqb o v) with false by (symmetry; by apply String.eqb_neq).
      pose proof (note_seen_spec uuid i Hw) as Hs. destruct (note_seen uuid i) as [known i'].
      by destruct Hs as [(-> & _ & ->)|(_ & ? & _)].
    + rewrite (on_frame_fresh flood_frame k uuid i) by (rewrite ?Hf; congruence).
      unfold accept_frame. rewrite Ht, Hp. unfold deliver. by rewrite (proj1 (note_seen_rest uuid i)).
Qed.

Lemma transmit_flooding n e n' :
  flooding n -> transmit e n = Some n' -> flooding n' /\ (pending_work n' < pending_work n)%nat.
Proof.
  intros Hf. unfold transmit. destruct (channel n e) as [|raw q] eqn:Ec; [done|]. intros [= <-].
  pose proof (fl_copies _ Hf e) as Hcp. rewrite Ec in Hcp. apply Forall_cons in Hcp as [<- _].
  destruct (channel_some _ _ _ _ Ec) as (a & Ha & Hka). destruct (fl_back _ Hf _ _ Ha) as (a0 & Ha0).
  destruct (fl_node _ Hf _ _ Ha0) as (a' & Ha' & Hsa). rewrite Ha in Ha'. injection Ha' as <-.
  destruct (proj1 (sn_keys _ _ Hsa e.2) ltac:(eauto)) as [qa Hqa].
  destruct (rd_wired Hready _ _ _ _ Ha0 Hqa) as [e' He]. rewrite <- surjective_pairing in He.
  rewrite (fl_wiring _ Hf), He. destruct (rd_back Hready _ _ He) as [Hback _].
  destruct (rd_back Hready _ _ Hback) as (_ & b0 & _ & Hb0 & _).
  rewrite <- (fl_wiring _ Hf). fold (popped e q (net_deaf n) n).
  destruct (popped_node e q (net_deaf n) n e'.1 b0 Hf ltac:(by rewrite Ec) Hb0) as (b & Hb & Hsb).
  unfold reader_gets. rewrite Hb. case_bool_decide as Hdeaf.
  { split; [|pose proof (popped_work e _ q (net_deaf n) n Ec); lia]. apply (popped_flooding e e' flood_raw); try done.
    - rewrite (fl_deaf _ Hf e' Hdeaf). unfold informed. by rewrite String.eqb_refl.
    - apply Hf. }
  rewrite flood_turn, (flood_on_frame e'.1).
  2:{ rewrite (sn_id _ _ Hsb). by apply (rd_node Hready). }
  2:{ apply Hsb. }
  assert (Hinf : informed n e'.1 = String.eqb e'.1 o || bool_decide (uuid ∈ in_order b)).
  { rewrite <- (popped_informed e q (net_deaf n)). unfold informed. by rewrite Hb. }
  assert (Hpop : forall d, (forall x, x ∈ d -> x.1 = o) -> informed n e'.1 = true ->
    let n' := mkNet (<[e'.1 := b]> (net_nodes (popped e q (net_deaf n) n))) (net_wiring n) d (net_log n ++ []) in
    flooding n' /\ (pending_work n' < pending_work n)%nat).
  { intros d Hd Hi. cbn zeta. rewrite insert_id, app_nil_r by done.
    change (mkNet _ _ _ _) with (popped e q d n).
    split; [by apply (popped_flooding e e' flood_raw)|]. pose proof (popped_work e _ q d n Ec). lia. }
  destruct (String.eqb_spec e'.1 o) as [Eo|Ho].
  { apply Hpop; [|done]. intros x. rewrite elem_of_union, elem_of_singleton.
    intros [->|Hx]; [done|by apply (fl_deaf _ Hf)]. }
  case_bool_decide as Hin.
  { apply Hpop; [apply Hf|done]. }
  assert (Hbn : net_nodes n !! e'.1 = Some b).
  { cbn in Hb. rewrite lookup_alter_ne in Hb; [done|]. intros E. rewrite <- E in Hinf.
    rewrite (fl_sender _ Hf) in Hinf; [done|by rewrite Ec]. }
  rewrite <- surjective_pairing. change (mkNet _ _ _ _) with (accepted e e' q b n).
  split; [by apply (accepted_flooding n e e' flood_raw)|by apply (accepted_work n e e' flood_raw)].
Qed.

Lemma transmissions_flooding es n n' :
  flooding n -> transmissions es n = Some n' ->
  flooding n' /\ (length es + pending_work n' <= pending_work n)%nat.
Proof.
  revert n. induction es as [|e es IH]; intros n Hf; cbn; [intros [= <-]; split; [done|lia]|].
  destruct (transmit e n) as [n1|] eqn:E; [|done]. intros Hr. cbn in Hr.
  destruct (transmit_flooding _ _ _ Hf E) as [Hf1 Hl]. destruct (IH n1 Hf1 Hr). split; [done|lia].
Qed.

(** Whether something is under way is decided by looking at all endpoints. *)
Definition endpoints (n : @Net H) : list endpoint :=
  map_to_list (net_nodes n) ≫= fun p => (fun q => (p.1, q.1)) <$> map_to_list (in_peers p.2).

Lemma endpoints_complete (n : @Net H) e : channel n e <> [] -> e ∈ endpoints n.
Proof.
  intros He. destruct (channel n e) as [|raw q] eqn:Ec; [done|].
  destruct (channel_some _ _ _ _ Ec) as (i & Hv & Hk).
  unfold endpoints. apply list_elem_of_bind. exists (e.1, i). split; [|by apply elem_of_map_to_list].
  apply list_elem_of_fmap. exists (e.2, raw :: q). split; [by destruct e|by apply elem_of_map_to_list].
Qed.

Lemma quiet_check (n : @Net H) :
  forallb (fun e => match channel n e with [] => true | _ => false end) (endpoints n) = true -> quiet n.
Proof.
  rewrite forallb_forall. intros Hall e. destruct (channel n e) as [|raw q] eqn:Ec; [done|].
  specialize (Hall e). rewrite Ec in Hall. exfalso. discriminate Hall. apply list_elem_of_In, endpoints_complete. by rewrite Ec.
Qed.

Lemma quiet_or_waiting (n : @Net H) : quiet n \/ exists e n', transmit e n = Some n'.
Proof.
  destruct (decide (Exists (fun e => channel n e <> []) (endpoints n))) as [Hex|Hno].
  - apply Exists_exists in Hex as (e & _ & He). right. exists e. unfold transmit.
    destruct (channel n e) as [|raw q]; [done|eauto].
  - left. intros e. destruct (channel n e) as [|raw q] eqn:Ec; [done|]. destruct Hno. apply Exists_exists.
    exists e. split; [apply endpoints_complete|]; by rewrite Ec.
Qed.

Lemma flooding_ends n : flooding n -> exists es n', transmissions es n = Some n' /\ quiet n'.
Proof.
  induction n as [n IH] using (induction_ltof1 _ pending_work). intros Hf.
  destruct (quiet_or_waiting n) as [Hq|(e & n1 & He)]; [by exists [], n|].
  destruct (transmit_flooding _ _ _ Hf He) as [Hf1 Hl]. destruct (IH n1 Hl Hf1) as (es & n' & Hes & Hq).
  exists (e :: es), n'. split; [|done]. cbn. by rewrite He.
Qed.

(** When nothing is under way the message has reached whatever is connected. *)
Lemma quiet_informed n v : flooding n -> quiet n -> rtc linked o v -> informed n v = true.
Proof.
  intros Hf Hq Hr. revert v Hr. apply rtc_ind_r.
  - unfold informed. by rewrite String.eqb_refl.
  - intros v w _ (k & k' & Hw) IH. destruct (fl_cover _ Hf _ _ Hw IH) as [?|Hc]; [done|]. by rewrite Hq in Hc.
Qed.
End Flood.

(** ** Properties *)

Section GossipProperties.
Context {H : Type} `{Wire}.

(** C19: gossip terminates: however the transmissions of a published message interleave, there are
at most as many of them as there are endpoints, that is twice the number of connections, and
they can be completed until nothing is under way. *)
Theorem gossip_terminates o uuid topic payload (n : @Net H) i :
  ready o uuid topic payload n i ->
  let start := publish_at o uuid topic payload n in
  (forall es n', transmissions es start = Some n' -> (length es <= all_endpoints n)%nat) /\
  (forall es n', transmissions es start = Some n' ->
     exists es' n'', transmissions es' n' = Some n'' /\ quiet n'').
Proof.
  intros Hr start. destruct (published_flooding _ _ _ _ _ _ Hr) as [Hf Hw]. split; intros es n' He;
    destruct (transmissions_flooding _ _ _ _ _ _ Hr es _ n' Hf He) as [Hf' Hl].
  - fold start in Hw, Hl. lia.
  - by apply (flooding_ends _ _ _ _ _ _ Hr).
Qed.

(** C18: gossip delivers exactly once on a network at rest.  The conditions are those of [ready]: no
message waits on any connection, every connection is in the tables of both its ends, every reader
still reads, the origin is not stopping, the frame is small enough to be sent and no node has seen
its id.  Then, when the transmissions of the published message are over, whatever their order,
every node that some path of connections joins to the origin, the origin included, has called each
of its subscribers of the topic once with the payload, every other node none; and at no time in
between has a node called them more than once.  (That the readers read is needed: an echo can end
one, as [echoes_deafen_origin] shows.) *)
Theorem gossip_delivers_once o uuid topic payload (n : @Net H) i es n' v :
  ready o uuid topic payload n i ->
  transmissions es (publish_at o uuid topic payload n) = Some n' ->
  (exists b : bool, calls_at v n' = calls_at v n ++ if b then delivery topic payload n v else []) /\
  (quiet n' -> rtc (linked n) o v -> calls_at v n' = calls_at v n ++ delivery topic payload n v) /\
  (~ rtc (linked n) o v -> calls_at v n' = calls_at v n).
Proof.
  intros Hr He. destruct (published_flooding _ _ _ _ _ _ Hr) as [Hf _].
  destruct (transmissions_flooding _ _ _ _ _ _ Hr es _ n' Hf He) as [Hf' _]. split_and!.
  - exists (informed o uuid n' v). apply Hf'.
  - intros Hq Hl. rewrite (fl_calls _ _ _ _ _ _ _ Hf').
    by rewrite (quiet_informed _ _ _ _ _ _ n' v Hf' Hq Hl).
  - intros Hl. rewrite (fl_calls _ _ _ _ _ _ _ Hf'). destruct (informed o uuid n' v) eqn:Ei; [|apply app_nil_r].
    by apply (fl_reach _ _ _ _ _ _ _ Hf') in Ei.
Qed.
End GossipProperties.

(** ** A ring of three nodes *)

Module GossipDemo.
#[local] Existing Instance Toy.crypto_inst.

(** A node with one subscriber. *)
Definition fresh_node (name : string) (h : nat) : @Inner nat :=
  with_handlers (add_handler "exodus/claims" 0 h ∅) 1 (tcp_inner (tcp_new name "0.0.0.0" 52514 [] false)).

Definition nobody_connected : @Net nat :=
  mkNet (list_to_map [("a", fresh_node "a" 1); ("b", fresh_node "b" 2); ("c", fresh_node "c" 3)]) ∅ ∅ [].

Definition ab : string * string := ("a", "10.0.0.2:52514").
Definition ba : string * string := ("b", server_key "10.0.0.1" 40001).
Definition ac : string * string := ("a", "10.0.0.3:52514").
Definition ca : string * string := ("c", server_key "10.0.0.1" 40002).
Definition bc : string * string := ("b", "10.0.0.3:52514").
Definition cb : string * string := ("c", server_key "10.0.0.2" 40003).

Definition ring : @Net nat :=
  connect_nodes "b" bc.2 "c" cb.2 (connect_nodes "a" ac.2 "c" ca.2
    (connect_nodes "a" ab.2 "b" ba.2 nobody_connected)).

Definition payload : Value := VString "hello".
Definition frame_of (origin uuid : string) : Value :=
  make_frame uuid "exodus/claims" payload (fresh_node origin 0).

(** A frame of another implementation, without an id. *)
Definition anonymous : Value := json_object [("t", VString "exodus/claims"); ("p", payload)].

(** A codec that knows the texts of these frames. *)
Definition known_frames : list Value :=
  [frame_of "a" "m1"; frame_of "a" "m2"; frame_of "c" "m3"; anonymous].
Definition codec : Wire := {|
  to_vec := canonical_json;
  from_slice t := find_first (fun f => String.eqb (canonical_json f) t) known_frames;
|}.
#[local] Existing Instance codec.

(** The ring, written out. *)
Definition node_with (name : string) (h : nat) (keys : list string) : @Inner nat :=
  with_channels (list_to_map (map (fun k => (k, [])) keys)) (fresh_node name h).
Definition ring_nodes : list (string * @Inner nat) :=
  [("a", node_with "a" 1 [ab.2; ac.2]); ("b", node_with "b" 2 [ba.2; bc.2]);
   ("c", node_with "c" 3 [ca.2; cb.2])].
Definition ring_wiring : list ((string * string) * (string * string)) :=
  [(ab, ba); (ba, ab); (ac, ca); (ca, ac); (bc, cb); (cb, bc)].

Lemma ring_eq : ring = mkNet (list_to_map ring_nodes) (list_to_map ring_wiring) ∅ [].
Proof. vm_compute. reflexivity. Qed.

Lemma ring_node v i : net_nodes ring !! v = Some i -> (v, i) ∈ ring_nodes.
Proof. rewrite ring_eq. apply elem_of_list_to_map_2. Qed.

Ltac ring_cases H :=
  repeat (apply elem_of_cons in H as [[= -> ->]|H]); [..|by apply not_elem_of_nil in H].

Lemma ring_ready : ready "a" "m1" "exodus/claims" payload ring (node_with "a" 1 [ab.2; ac.2]).
Proof.
  constructor.
  - vm_compute. reflexivity.
  - reflexivity.
  - split; [vm_compute; reflexivity|]. vm_compute. split; discriminate.
  - intros v i Hv%ring_node. unfold ring_nodes in Hv. ring_cases Hv;
      (split; [reflexivity|split; [constructor; [reflexivity|constructor|vm_compute; discriminate]|apply not_elem_of_nil]]).
  - intros v i k q Hv%ring_node Hk. unfold ring_nodes in Hv.
    ring_cases Hv; cbn [in_peers node_with with_channels] in Hk; apply elem_of_list_to_map_2 in Hk; cbn [map] in Hk; ring_cases Hk;
      eexists; vm_compute; reflexivity.
  - intros e e' He. rewrite ring_eq in He. apply elem_of_list_to_map_2 in He. unfold ring_wiring in He.
    ring_cases He; (split; [vm_compute; reflexivity|]); do 2 eexists; split; vm_compute; reflexivity.
  - intros [v k]. unfold channel. cbn [fst snd]. destruct (net_nodes ring !! v) as [i|] eqn:Hv; [|done].
    cbn [mbind option_bind]. destruct (in_peers i !! k) as [q|] eqn:Hk; [|done]. apply ring_node in Hv.
    unfold ring_nodes in Hv. ring_cases Hv; cbn [in_peers node_with with_channels] in Hk; apply elem_of_list_to_map_2 in Hk; cbn [map] in Hk; ring_cases Hk; done.
  - vm_compute. reflexivity.
Qed.

(** The message of [a] reaches [c] through [b] first, and an echo of it comes back to [a]. *)
Definition around : list (string * string) := [ab; bc; ca; ac].

Lemma gossip_terminates_witness :
  (length around <= 6)%nat /\
  exists es' n'', transmissions es' (default ring (transmissions around (publish_at "a" "m1" "exodus/claims" payload ring)))
    = Some n'' /\ quiet n''.
Proof.
  destruct (gossip_terminates "a" "m1" "exodus/claims" payload ring _ ring_ready) as [Hlen Hend].
  destruct (transmissions around (publish_at "a" "m1" "exodus/claims" payload ring)) as [n'|] eqn:E;
    [|vm_compute in E; discriminate].
  split; [exact (Hlen _ _ E)|exact (Hend _ _ E)].
Defined.

Lemma gossip_delivers_once_witness :
  calls_at "c" (default ring (transmissions around (publish_at "a" "m1" "exodus/claims" payload ring))) =
  [mkCall 3%nat "exodus/claims" payload].
Proof.
  destruct (transmissions around (publish_at "a" "m1" "exodus/claims" payload ring)) as [n'|] eqn:E;
    [|vm_compute in E; discriminate].
  destruct (gossip_delivers_once "a" "m1" "exodus/claims" payload ring _ around n' "c" ring_ready E) as (_ & Hd & _).
  change (default ring (Some n')) with n'. rewrite Hd.
  - vm_compute. reflexivity.
  - vm_compute in E. injection E as <-. apply quiet_check. vm_compute. reflexivity.
  - apply rtc_once. exists ac.2, ca.2. vm_compute. reflexivity.
Defined.

(** The connections on which a node reads. *)
Definition hears (v : string) (n : @Net nat) : list string :=
  (filter (fun e => e.1 = v /\ e ∉ net_deaf n) (map fst ring_wiring)).*2.

(** The ring with a frame without an id under way from [a]. *)
Definition circling : @Net nat := reader_gets (encode_wire anonymous) ("a", "10.0.0.9:52514") ring.

Lemma circle log :
  let at_log l := mkNet (net_nodes circling) (net_wiring circling) (net_deaf circling) l in
  transmissions [ab; bc; ca] (at_log log) =
  Some (at_log (log ++ map (fun p => (p.1, mkCall p.2 "exodus/claims" payload)) [("b", 2%nat); ("c", 3%nat); ("a", 1%nat)])).
Proof.
  cbn zeta. replace (log ++ map _ _) with (((log ++ [("b", mkCall 2%nat "exodus/claims" payload)]) ++
    [("c", mkCall 3%nat "exodus/claims" payload)]) ++ [("a", mkCall 1%nat "exodus/claims" payload)])
    by by rewrite <- !app_assoc.
  vm_compute. reflexivity.
Qed.

(** A frame without an id never comes to rest: on the ring it goes around as often as one likes, and
every node delivers it again each time. *)
Theorem anonymous_frames_circulate k :
  exists n', transmissions (mjoin (replicate k [ab; bc; ca])) circling = Some n' /\
    length (calls_at "b" n') = k.
Proof.
  assert (Hgen : forall log, exists n',
    transmissions (mjoin (replicate k [ab; bc; ca]))
      (mkNet (net_nodes circling) (net_wiring circling) (net_deaf circling) log) = Some n' /\
    length (calls_at "b" n') = (length (filter (fun p => p.1 = "b") log) + k)%nat).
  { induction k as [|k IH]; intros log.
    - eexists. split; [reflexivity|]. unfold calls_at. cbn [net_log]. rewrite length_fmap. lia.
    - change (mjoin (replicate (S k) [ab; bc; ca])) with ([ab; bc; ca] ++ mjoin (replicate k [ab; bc; ca])).
      destruct (IH (log ++ map (fun p => (p.1, mkCall p.2 "exodus/claims" payload)) [("b", 2%nat); ("c", 3%nat); ("a", 1%nat)]))
        as (n' & Hn' & Hl). exists n'. split.
      + rewrite transmissions_app. by rewrite circle.
      + rewrite Hl, filter_app, length_app. change (length (filter _ (map _ _))) with 1%nat. lia. }
  destruct (Hgen (net_log circling)) as (n' & Hn' & Hl). exists n'. split; [exact Hn'|]. rewrite Hl. reflexivity.
Qed.

(** The keys of the peers of a node. *)
Definition peers_of (v : string) (n : @Net nat) : option (list string) :=
  (fun i => (map_to_list (in_peers i)).*1) <$> net_nodes n !! v.

Definition spread (o uuid : string) (es : list (string * string)) (n : @Net nat) : option (@Net nat) :=
  transmissions es (publish_at o uuid "exodus/claims" payload n).

Definition three_messages : option (@Net nat) :=
  (spread "a" "m1" around ring ≫= spread "a" "m2" [ac; cb; ba; ab]) ≫= spread "c" "m3" [cb; ca; ba].

(** Two messages of [a] whose echoes come back to it, one over each connection, leave it deaf: the
guard against self-connections stops the reader of a connection that brings one's own message.  A
third message, of [c], does not reach [a], although the peers of [a] are the same as before. *)
Theorem echoes_deafen_origin :
  match three_messages with
  | Some n =>
      quiet n /\ hears "a" ring = [ab.2; ac.2] /\ hears "a" n = [] /\ peers_of "a" n = peers_of "a" ring /\
      length (calls_at "a" n) = 2%nat /\ length (calls_at "b" n) = 3%nat /\ length (calls_at "c" n) = 3%nat
  | None => False
  end.
Proof.
  assert (Hq : forallb (fun n => forallb (fun e => match channel n e with [] => true | _ => false end) (endpoints n))
    (option_list three_messages) = true)
    by (vm_compute; reflexivity).
  destruct three_messages as [n|] eqn:E; [|vm_compute in E; discriminate].
  split; [apply quiet_check; cbn [option_list forallb] in Hq; by apply andb_true_iff in Hq as [Hq _]|].
  vm_compute in E. injection E as <-. split_and!; vm_compute; reflexivity.
Qed.
End GossipDemo.
