(* ===== verification/Discovery.v ===== *)
(** * Finding and reaching peers ([src/network/tcp.rs])

The background tasks of the TCP transport: what [start] spawns, the loop that announces this
node and picks up the announcements of others, and the loop that connects to an address and
reconnects.  One turn of a loop takes what its socket reported as an argument. *)

From S2P Require Import Prelude F64 Crypto Models Config Text Network.

Definition DEFAULT_DISCOVERY_GROUP : string := "239.255.60.42".
Definition DEFAULT_DISCOVERY_PORT : Z := 52513.

(** The tasks of a transport. *)
Inductive Task :=
| Discovery
| Server (host : string) (port : Z)
| Connect (addr : string).

Section Discovery.
Context {H : Type} `{Wire}.

(** [start]: the tasks it spawns; nothing when it already runs. *)
Definition tcp_start (t : @TcpTransport H) : @TcpTransport H * list Task :=
  if in_runtime (tcp_inner t) then (t, [])
  else
    (with_inner (with_runtime true (tcp_inner t)) t,
     (if tcp_discover t then [Discovery] else []) ++ [Server (tcp_host t) (tcp_port t)] ++
     map Connect (tcp_bootstrap t)).

(** ** Announcements *)

Definition usable_host (h : string) : bool :=
  negb (String.eqb h "") && negb (String.eqb h "0.0.0.0") && negb (String.eqb h "::").

(** The address an announcement of another node names; [src] is the address it came from. *)
Definition announced_addr (own src : string) (v : Value) : option string :=
  match json_get "node" v ≫= as_str with
  | None => None
  | Some nid =>
      if String.eqb nid own then None
      else
        let host :=
          match json_get "host" v ≫= as_str with
          | Some h => if usable_host h then h else src
          | None => src
          end in
        let port :=
          match json_get "port" v with
          | Some (VNumber n) => default 52514 (as_u64 n)
          | _ => 52514
          end in
        Some (host +:+ ":" +:+ pretty port)
  end.

(** What a datagram leads to: the address of the connection loop it starts, if any.  An address
that is connected, or that has such a loop, is left alone.  The address is noted before the
runtime is asked. *)
Definition on_announcement (src : string) (datagram : bytes) (i : @Inner H) :
  @Inner H * option string :=
  match from_slice datagram ≫= announced_addr (in_node_id i) src with
  | None => (i, None)
  | Some addr =>
      if bool_decide (is_Some (in_peers i !! addr)) then (i, None)
      else if bool_decide (addr ∈ in_active_connects i) then (i, None)
      else
        (with_active ({[addr]} ∪ in_active_connects i) i,
         if in_runtime i then Some addr else None)
  end.

(** Whether the rest of the turn is skipped ([continue]). *)
Definition announcement_skips (src : string) (datagram : bytes) (i : @Inner H) : bool :=
  match from_slice datagram ≫= announced_addr (in_node_id i) src with
  | None => true
  | Some addr =>
      bool_decide (is_Some (in_peers i !! addr)) || bool_decide (addr ∈ in_active_connects i)
  end.

(** The end of a connection loop that discovery started. *)
Definition connect_ended (addr : string) (i : @Inner H) : @Inner H :=
  with_active (in_active_connects i ∖ {[addr]}) i.

Definition announcement (i : @Inner H) : Value :=
  json_object [("node", VString (in_node_id i)); ("host", VString "0.0.0.0"); ("port", json_int 52514)].

Definition announce_interval : Z := 2500.

(** One turn: [None] when the transport stops; [received] is a datagram with its sender, [elapsed]
the milliseconds since the last announcement.  The turn gives the loop it starts and whether
it announced this node. *)
Definition discovery_turn (received : option (bytes * string)) (elapsed : Z) (i : @Inner H) :
  option (@Inner H * option string * bool) :=
  if in_stopping i then None
  else
    match received with
    | Some (datagram, src) =>
        let '(i', started) := on_announcement src datagram i in
        if announcement_skips src datagram i then Some (i', started, false)
        else Some (i', started, announce_interval <=? elapsed)
    | None => Some (i, None, announce_interval <=? elapsed)
    end.
End Discovery.

(** ** Connecting *)

Inductive Attempt := Connected | Refused.

Inductive ConnectAction :=
| Register (key : string)
| Sleep (seconds : Z).

Definition connect_key (address : string) : string :=
  let '(host, port) := connect_target address in host +:+ ":" +:+ pretty port.

(** The loop, as long as the transport runs: one attempt a turn.  A connection is served until it
ends before the loop goes on. *)
Fixpoint connect_loop (address : string) (backoff : Z) (attempts : list Attempt) : list ConnectAction :=
  match attempts with
  | [] => []
  | Connected :: rest => [Register (connect_key address); Sleep 2] ++ connect_loop address 2 rest
  | Refused :: rest => [Sleep backoff; Sleep 2] ++ connect_loop address (next_backoff backoff) rest
  end.

(** The key of a connection the server accepted. *)
Definition accepted_key (ip : string) (port : Z) : string := ip +:+ ":" +:+ pretty port.

(** ** Properties *)

Section DiscoveryTheorems.
Context {H : Type} `{Wire}.

(** [discovery_run i0 i loops]: from the state of a started transport, after turns of the
discovery loop, ends of the loops it started, and changes of the rest of the state; [loops] are
the addresses of the connection loops that run. *)
Inductive discovery_run (i0 : @Inner H) : @Inner H -> list string -> Prop :=
| disc_start : discovery_run i0 i0 []
| disc_turn i loops received elapsed i' started announced :
    discovery_run i0 i loops ->
    discovery_turn received elapsed i = Some (i', started, announced) ->
    discovery_run i0 i' (match started with Some addr => addr :: loops | None => loops end)
| disc_ended i loops1 addr loops2 :
    discovery_run i0 i (loops1 ++ addr :: loops2) -> discovery_run i0 (connect_ended addr i) (loops1 ++ loops2)
| disc_other i loops i' :
    discovery_run i0 i loops -> in_active_connects i' = in_active_connects i -> in_runtime i' = in_runtime i ->
    discovery_run i0 i' loops.

Lemma on_announcement_active src datagram (i i' : @Inner H) started :
  in_runtime i = true -> on_announcement src datagram i = (i', started) ->
  in_runtime i' = true /\
  match started with
  | Some addr => addr ∉ in_active_connects i /\ in_active_connects i' = {[addr]} ∪ in_active_connects i
  | None => in_active_connects i' = in_active_connects i
  end.
Proof.
  intros Hrt. unfold on_announcement. destruct (_ ≫= _) as [addr|]; [|by intros [= <- <-]].
  case_bool_decide; [by intros [= <- <-]|]. case_bool_decide as Hin; [by intros [= <- <-]|].
  rewrite Hrt. by intros [= <- <-].
Qed.

(** The loops that run are, without repetition, the noted addresses. *)
Lemma discovery_run_loops (i0 i : @Inner H) loops :
  in_runtime i0 = true -> in_active_connects i0 = ∅ -> discovery_run i0 i loops ->
  in_runtime i = true /\ NoDup loops /\ in_active_connects i = list_to_set loops.
Proof.
  intros Hrt Hact. induction 1 as [|i loops received elapsed i' started announced Hr IH E
    |i l1 addr l2 Hr IH|i loops i' Hr IH Ea Er].
  - split_and!; [done|constructor|done].
  - destruct IH as (Hri & Hnd & Ha). unfold discovery_turn in E. destruct (in_stopping i); [done|].
    destruct received as [[datagram src]|]; [|by injection E as <- <- _].
    destruct (on_announcement src datagram i) as [i1 st1] eqn:Eo.
    apply on_announcement_active in Eo as [Hr1 Hs]; [|done].
    assert (i1 = i' /\ st1 = started) as [-> ->] by (destruct (announcement_skips _ _ _); by injection E as <- <- _).
    split; [done|]. destruct started as [addr|]; [|by rewrite Hs].
    destruct Hs as [Hn Hs]. rewrite Hs, Ha in *. split; [|done]. constructor; [|done].
    intros Hin. apply Hn. by apply elem_of_list_to_set.
  - destruct IH as (Hri & Hnd & Ha). split_and!; [done| |].
    + apply NoDup_app in Hnd as (H1 & H2 & H3). apply NoDup_cons in H3 as [H3 H4].
      apply NoDup_app. split_and!; [done| |done]. intros x Hx Hx2. by apply (H2 x Hx); right.
    + cbn. rewrite Ha. apply NoDup_app in Hnd as (H1 & H2 & H3). apply NoDup_cons in H3 as [H3 H4].
      apply set_eq. intros x. rewrite elem_of_difference, elem_of_singleton, !elem_of_list_to_set, !elem_of_app, elem_of_cons.
      split; [tauto|]. intros [Hx|Hx]; (split; [tauto|]); intros ->; [by apply (H2 addr Hx); left|done].
  - by rewrite Ea, Er.
Qed.

(** discovery keeps one connection loop per address: while the transport runs, however often
a peer announces itself, the addresses of the running loops are without repetition and exactly
the noted ones, so another announcement of one of them starts nothing. *)
Theorem one_loop_per_address (i0 i : @Inner H) loops received elapsed i' addr announced :
  in_runtime i0 = true -> in_active_connects i0 = ∅ -> discovery_run i0 i loops ->
  discovery_turn received elapsed i = Some (i', Some addr, announced) ->
  NoDup loops /\ addr ∉ loops /\ in_peers i !! addr = None.
Proof.
  intros Hrt Hact Hr E. destruct (discovery_run_loops _ _ _ Hrt Hact Hr) as (Hri & Hnd & Ha).
  split; [done|]. unfold discovery_turn in E. destruct (in_stopping i); [done|].
  destruct received as [[datagram src]|]; [|done].
  destruct (on_announcement src datagram i) as [i1 st1] eqn:Eo.
  assert (st1 = Some addr) as -> by (destruct (announcement_skips _ _ _); by injection E as _ -> _).
  unfold on_announcement in Eo. destruct (_ ≫= _) as [a|]; [|done].
  case_bool_decide as Hp; [done|]. case_bool_decide as Hin; [done|]. rewrite Hri in Eo.
  injection Eo as _ ->. split.
  - intros Hl. apply Hin. rewrite Ha. by apply elem_of_list_to_set.
  - destruct (in_peers i !! addr) eqn:El; [|done]. exfalso. apply Hp. by eexists.
Qed.

(** A turn that receives an announcement of this node, or of a peer that is connected or being
connected to, does not announce this node, however long the last announcement is ago: on a
network where such datagrams keep coming the node falls silent. *)
Theorem known_announcements_starve datagram src elapsed (i : @Inner H) :
  in_stopping i = false -> announcement_skips src datagram i = true ->
  exists i', discovery_turn (Some (datagram, src)) elapsed i = Some (i', None, false) /\ i' = i.
Proof.
  intros Hs Hk. unfold discovery_turn. rewrite Hs, Hk. exists i. split; [|done].
  unfold on_announcement. unfold announcement_skips in Hk. destruct (_ ≫= _) as [a|]; [|done].
  case_bool_decide; [done|]. case_bool_decide; [done|]. done.
Qed.
End DiscoveryTheorems.

(** The wait after the [k]-th failure in a row, starting at 2 seconds. *)
Definition backoff_after (k : nat) : Z := Nat.iter k next_backoff 2.

Lemma backoff_after_eq k : backoff_after k = Z.min (2 ^ (Z.of_nat k + 1)) 30.
Proof.
  induction k as [|k IH]; [done|]. change (backoff_after (S k)) with (next_backoff (backoff_after k)). rewrite IH.
  unfold next_backoff. rewrite (Nat2Z.inj_succ k). replace (Z.succ (Z.of_nat k) + 1) with (Z.succ (Z.of_nat k + 1)) by lia.
  rewrite Z.pow_succ_r by lia. pose proof (Z.pow_pos_nonneg 2 (Z.of_nat k + 1)). lia.
Qed.

Lemma connect_loop_refused address k n rest :
  connect_loop address (backoff_after k) (replicate n Refused ++ rest) =
  (seq k n ≫= (fun j => [Sleep (backoff_after j); Sleep 2])) ++ connect_loop address (backoff_after (k + n)) rest.
Proof.
  revert k. induction n as [|n IH]; intros k; cbn -[backoff_after]; [by rewrite Nat.add_0_r|].
  change (next_backoff (backoff_after k)) with (backoff_after (S k)). rewrite IH.
  by replace (S k + n)%nat with (k + S n)%nat by lia.
Qed.

(** reconnection backs off and recovers: after a connection ends, the [j]-th failed attempt in
a row is followed by a wait of two, four, eight, ... but at most thirty seconds (and the two
seconds of every turn), and the next success starts over. *)
Theorem reconnect_backoff address n rest :
  connect_loop address 2 (replicate n Refused ++ Connected :: rest) =
  (seq 0 n ≫= (fun j => [Sleep (Z.min (2 ^ (Z.of_nat j + 1)) 30); Sleep 2])) ++
  [Register (connect_key address); Sleep 2] ++ connect_loop address 2 rest.
Proof.
  change 2 with (backoff_after 0) at 1. rewrite connect_loop_refused. cbn [connect_loop]. f_equal.
  apply bind_ext_elem. intros j _. by rewrite backoff_after_eq.
Qed.
