(* ===== verification/Transport.v ===== *)
(** * The transport interface ([src/network/transport.rs])

The trait [Transport] as a class of operations, with the two transports of the program as instances.
[TransportLaws] states what a client may rely on; both transports keep it.  The client is the
subscription of a node to its topics ([connect] and [disconnect] of [src/coordinator.rs]), whose
theorem is proved from the interface alone. *)

From S2P Require Import Prelude F64 Crypto Models Instances Rewards Network NetworkProps Discovery.

Class Transport (T H : Type) := {
  (** [None] is the panic on an empty topic; a subscription is its topic and id *)
  tr_subscribe : string -> H -> T -> option (T * (string * Z));
  tr_cancel : string * Z -> T -> T;
  (** the first argument is the fresh id of the message *)
  tr_publish : string -> string -> Value -> T -> T * result unit TransportError * list (@call H);
  tr_peer_count : T -> Z;
  tr_start : T -> T;
  tr_close : T -> T;
  tr_running : T -> bool;
  tr_connect_peer : string -> T -> T * result connect_status TransportError;
}.

(** The default of the trait for a transport without addresses. *)
Definition default_connect_peer {T} (addr : string) (t : T) : T * result connect_status TransportError :=
  (t, Ok (Connecting addr)).

(** [LocalTransport]: nothing to start, nothing to close, always running. *)
Definition local_peer_count {H} (_ : @LocalTransport H) : Z := 0.
Definition local_start {H} (t : @LocalTransport H) : @LocalTransport H := t.
Definition local_close {H} (t : @LocalTransport H) : @LocalTransport H := t.
Definition local_running {H} (_ : @LocalTransport H) : bool := true.

Definition tcp_running {H} (t : @TcpTransport H) : bool := in_runtime (tcp_inner t).

#[export] Instance local_transport {H} : Transport (@LocalTransport H) H := {|
  tr_subscribe := local_subscribe;
  tr_cancel := local_cancel;
  tr_publish _ topic payload t := (t, (local_publish topic payload t).1, (local_publish topic payload t).2);
  tr_peer_count := local_peer_count;
  tr_start := local_start;
  tr_close := local_close;
  tr_running := local_running;
  tr_connect_peer := default_connect_peer;
|}.

#[export] Instance tcp_transport {H} `{Wire} : Transport (@TcpTransport H) H := {|
  tr_subscribe := tcp_subscribe;
  tr_cancel := tcp_cancel;
  tr_publish := tcp_publish;
  tr_peer_count := tcp_peer_count;
  tr_start t := (tcp_start t).1;
  tr_close := tcp_close;
  tr_running := tcp_running;
  tr_connect_peer := connect_peer;
|}.

(** ** What a client relies on *)

Class TransportLaws (T H : Type) `{Transport T H} := {
  (** the subscriptions of a topic, in order; the number of ids given out; whether it delivers *)
  subscribers : string -> T -> list (Z * H);
  ids_used : T -> Z;
  delivering : T -> bool;
  subscribe_law topic h t :
    topic <> "" -> 0 <= ids_used t < 2 ^ 64 - 1 ->
    exists t', tr_subscribe topic h t = Some (t', (topic, ids_used t)) /\
      ids_used t' = ids_used t + 1 /\ delivering t' = delivering t /\
      forall topic', subscribers topic' t' =
        subscribers topic' t ++ if String.eqb topic topic' then [(ids_used t, h)] else [];
  cancel_law sub t :
    ids_used (tr_cancel sub t) = ids_used t /\ delivering (tr_cancel sub t) = delivering t /\
    forall topic, subscribers topic (tr_cancel sub t) =
      if String.eqb sub.1 topic then filter (fun p => p.1 <> sub.2) (subscribers topic t)
      else subscribers topic t;
  publish_law uuid topic payload t :
    delivering t = true ->
    let '(t', r, calls) := tr_publish uuid topic payload t in
    r = Ok tt /\ calls = map (fun p => mkCall p.2 topic payload) (subscribers topic t) /\
    ids_used t' = ids_used t /\ delivering t' = true /\
    forall topic', subscribers topic' t' = subscribers topic' t;
}.

Lemma filter_neq {H} (l : list (Z * H)) id :
  filter (fun p => (p.1 =? id) = false) l = filter (fun p => p.1 <> id) l.
Proof. apply list_filter_iff. intros p. apply Z.eqb_neq. Qed.

Lemma add_handler_subscribers {H} topic topic' id (h : H) m :
  default [] (add_handler topic id h m !! topic') =
  default [] (m !! topic') ++ if String.eqb topic topic' then [(id, h)] else [].
Proof.
  unfold add_handler. destruct (String.eqb_spec topic topic') as [->|Hne].
  - by rewrite lookup_insert_eq.
  - by rewrite lookup_insert_ne, app_nil_r.
Qed.

Lemma remove_handler_subscribers {H} (sub : string * Z) topic (m : gmap string (list (Z * H))) :
  default [] (remove_handler sub.1 sub.2 m !! topic) =
  if String.eqb sub.1 topic then filter (fun p => p.1 <> sub.2) (default [] (m !! topic))
  else default [] (m !! topic).
Proof.
  unfold remove_handler. destruct (String.eqb_spec sub.1 topic) as [<-|Hne].
  - destruct (m !! sub.1) as [l|] eqn:E; [|by rewrite E]. rewrite lookup_insert_eq. cbn. apply filter_neq.
  - destruct (m !! sub.1); [|done]. by rewrite lookup_insert_ne.
Qed.

#[export] Instance local_laws {H} : TransportLaws (@LocalTransport H) H.
Proof.
  refine {| subscribers topic t := default [] (local_handlers t !! topic);
            ids_used := local_next_id; delivering _ := true |}.
  - intros topic h t Ht Hid. cbn. unfold local_subscribe. rewrite (proj2 (String.eqb_neq _ _) Ht). eexists.
    split; [done|]. cbn. unfold wrap_u64. rewrite Z.mod_small by lia. split_and!; [done|done|].
    intros topic'. apply add_handler_subscribers.
  - intros sub t. split_and!; [done|done|]. intros topic. apply remove_handler_subscribers.
  - intros uuid topic payload t _. done.
Defined.

#[export] Instance tcp_laws {H} `{Wire} : TransportLaws (@TcpTransport H) H.
Proof.
  refine {| subscribers topic t := default [] (in_handlers (tcp_inner t) !! topic);
            ids_used t := in_next_id (tcp_inner t); delivering t := negb (in_stopping (tcp_inner t)) |}.
  - intros topic h t Ht Hid. cbn. unfold tcp_subscribe. rewrite (proj2 (String.eqb_neq _ _) Ht). eexists.
    split; [done|]. cbn. unfold wrap_u64. rewrite Z.mod_small by lia. split_and!; [done|done|].
    intros topic'. apply add_handler_subscribers.
  - intros sub t. split_and!; [done|done|]. intros topic. apply remove_handler_subscribers.
  - intros uuid topic payload t Hd. cbn. unfold tcp_publish, inner_publish.
    destruct (in_stopping (tcp_inner t)) eqn:Es; [done|]. split_and!; [done|done|done|cbn; by rewrite Es|done].
Defined.

(** ** The client *)

Section Client.
Context {T H : Type} `{TL : TransportLaws T H}.

(** [connect]: one subscription after the other, kept in a list. *)
Fixpoint attach (l : list (string * H)) (t : T) : option (T * list (string * Z)) :=
  match l with
  | [] => Some (t, [])
  | (topic, h) :: rest =>
      match tr_subscribe topic h t with
      | None => None
      | Some (t, sub) =>
          match attach rest t with
          | None => None
          | Some (t, subs) => Some (t, sub :: subs)
          end
      end
  end.

(** [disconnect] *)
Definition detach (subs : list (string * Z)) (t : T) : T := foldl (fun t sub => tr_cancel sub t) t subs.

(** The handlers of a topic among those of a list. *)
Definition wanted (topic : string) (l : list (string * H)) : list H :=
  (filter (fun p => p.1 = topic) l).*2.

Definition ids_below (t : T) : Prop := forall topic p, p ∈ subscribers topic t -> p.1 < ids_used t.

Lemma attach_spec l t :
  Forall (fun p => p.1 <> "") l -> 0 <= ids_used t -> ids_used t + Z.of_nat (length l) < 2 ^ 64 ->
  exists t' subs, attach l t = Some (t', subs) /\ delivering t' = delivering t /\
    ids_used t' = ids_used t + Z.of_nat (length l) /\
    Forall (fun sub => ids_used t <= sub.2) subs /\
    forall topic, exists new, subscribers topic t' = subscribers topic t ++ new /\ new.*2 = wanted topic l /\
      Forall (fun p => (topic, p.1) ∈ subs) new.
Proof.
  intros Hl. revert t. induction Hl as [|[topic h] l Ht Hl IH]; intros t Hp Hb; cbn [attach length] in *.
  { exists t, []. split_and!; [done|done|lia|constructor|]. intros topic. exists []. rewrite app_nil_r. done. }
  assert (Hroom : 0 <= ids_used t < 2 ^ 64 - 1) by lia.
  destruct (subscribe_law topic h t Ht Hroom) as (t1 & -> & Hu & Hd & Hs).
  destruct (IH t1) as (t2 & subs & -> & Hd2 & Hu2 & Hsubs & Hs2); [lia..|].
  exists t2, ((topic, ids_used t) :: subs). split_and!; [done|congruence|lia| |].
  { constructor; [cbn; lia|]. eapply Forall_impl; [exact Hsubs|]. cbn. lia. }
  intros topic'. destruct (Hs2 topic') as (new & E & Ew & Hin). rewrite Hs in E.
  exists ((if String.eqb topic topic' then [(ids_used t, h)] else []) ++ new).
  rewrite E, <- app_assoc. split; [done|]. unfold wanted in *. rewrite filter_cons. cbn [fst].
  assert (Hin' : Forall (fun p => (topic', p.1) ∈ (topic, ids_used t) :: subs) new)
    by (eapply Forall_impl; [exact Hin|]; set_solver).
  destruct (String.eqb_spec topic topic') as [->|Hne].
  - rewrite decide_True by done. rewrite fmap_cons. cbn. rewrite Ew. split; [done|]. constructor; [set_solver|done].
  - rewrite decide_False by done. cbn. done.
Qed.

Lemma detach_spec subs t :
  delivering (detach subs t) = delivering t /\
  forall topic, subscribers topic (detach subs t) = filter (fun p => (topic, p.1) ∉ subs) (subscribers topic t).
Proof.
  revert t. induction subs as [|sub subs IH]; intros t; cbn [detach foldl].
  - split; [done|]. intros topic. symmetry. apply filter_all. apply Forall_forall. intros p _. apply not_elem_of_nil.
  - destruct (IH (tr_cancel sub t)) as [Hd Hs]. destruct (cancel_law sub t) as (_ & Hd' & Hc).
    split; [unfold detach in Hd; congruence|]. intros topic. unfold detach in Hs. rewrite Hs, Hc. destruct sub as [tp id]. cbn [fst snd].
    destruct (String.eqb_spec tp topic) as [->|Hne].
    + rewrite list_filter_filter. apply list_filter_iff. intros p. rewrite not_elem_of_cons. split; [intros [? ?]|intros [? ?]]; split; try done; naive_solver.
    + apply list_filter_iff. intros p. rewrite not_elem_of_cons. split; [|naive_solver]. intros Hp. split; [congruence|done].
Qed.
End Client.

(** ** The subscriptions of a node *)

(** What is called: the consensus, the two sides of distributed inference, the telemetry. *)
Inductive NodeHandler := OnConsensus | OnInferRequest | OnInferResponse | OnNodeStats.

Definition node_subscriptions : list (string * NodeHandler) :=
  map (fun topic => (topic, OnConsensus)) ALL_TOPICS ++
  [(INFER_REQUESTS, OnInferRequest); (INFER_RESPONSES, OnInferResponse); (HEALTH, OnNodeStats)].

(** Which handler a topic is meant for, topic by topic. *)
Definition handler_of (topic : string) : option NodeHandler :=
  if existsb (fun t => String.eqb t topic)
       ["exodus/claims"; "exodus/proposals"; "exodus/signatures"; "exodus/commits";
        "exodus/heartbeats"; "exodus/sync"; "exodus/forks"] then Some OnConsensus
  else if String.eqb "exodus/infer/requests" topic then Some OnInferRequest
  else if String.eqb "exodus/infer/responses" topic then Some OnInferResponse
  else if String.eqb "exodus/health" topic then Some OnNodeStats
  else None.

Lemma handler_found topic :
  snd <$> find_first (fun p => String.eqb p.1 topic) node_subscriptions = handler_of topic.
Proof.
  unfold handler_of, node_subscriptions, ALL_TOPICS, CLAIMS, PROPOSALS, SIGNATURES, COMMITS, HEARTBEATS, SYNC, FORKS,
    INFER_REQUESTS, INFER_RESPONSES, HEALTH. cbn -[String.eqb].
  repeat match goal with |- context [String.eqb ?a topic] => destruct (String.eqb a topic) end; reflexivity.
Qed.

Lemma wanted_find {H} topic (l : list (string * H)) :
  NoDup (l.*1) -> wanted topic l = option_list (snd <$> find_first (fun p => String.eqb p.1 topic) l).
Proof.
  unfold wanted. induction l as [|[tp h] l IH]; [done|].
  rewrite fmap_cons, NoDup_cons. intros [Hnot Hn]. rewrite filter_cons. cbn [fst find_first].
  destruct (String.eqb_spec tp topic) as [->|Hne].
  - rewrite decide_True by done. rewrite filter_none; [done|]. apply Forall_forall. intros [tp' h'] Hin Heq. cbn in Heq.
    subst. apply Hnot. apply list_elem_of_fmap. by exists (topic, h').
  - rewrite decide_False by done. by apply IH.
Qed.

Lemma wanted_handler topic : wanted topic node_subscriptions = option_list (handler_of topic).
Proof.
  rewrite wanted_find, handler_found; [done|]. apply (bool_decide_unpack (NoDup _)). vm_compute. exact I.
Qed.

Section NodeSubscriptions.
Context {T : Type} `{TL : TransportLaws T NodeHandler}.

(** C39: over any transport that keeps the interface, the one in memory as well as TCP, that delivers
and has ids left for ten subscriptions, a node that connects hears every topic of the program
exactly once, the seven of the consensus with the handler of the consensus, requests and responses
of distributed inference and the telemetry each with its own, after those who subscribed before
it, and no other topic; and after it disconnects, publishing calls exactly who was called before it
connected. *)
Theorem node_hears_its_topics (t : T) :
  0 <= ids_used t -> ids_used t + 10 < 2 ^ 64 -> ids_below t -> delivering t = true ->
  exists t' subs, attach node_subscriptions t = Some (t', subs) /\
    forall uuid topic payload,
      (tr_publish uuid topic payload t').2 = (tr_publish uuid topic payload t).2 ++
        map (fun h => mkCall h topic payload) (option_list (handler_of topic)) /\
      (tr_publish uuid topic payload (detach subs t')).2 = (tr_publish uuid topic payload t).2.
Proof.
  intros H1 H2 Hids Hd.
  destruct (attach_spec node_subscriptions t) as (t' & subs & E & Hd' & _ & Hsubs & Hs); [|done|cbn; lia|].
  { apply Forall_forall. intros p Hp. unfold node_subscriptions in Hp. cbn in Hp.
    repeat (apply elem_of_cons in Hp as [->|Hp]; [discriminate|]). by apply not_elem_of_nil in Hp. }
  exists t', subs. split; [done|]. intros uuid topic payload.
  assert (Hcalls : forall t, delivering t = true ->
    (tr_publish uuid topic payload t).2 = map (fun p => mkCall p.2 topic payload) (subscribers topic t)).
  { intros u Hu. pose proof (publish_law uuid topic payload u Hu) as Hp.
    destruct (tr_publish uuid topic payload u) as [[u' r] calls]. by destruct Hp as (_ & -> & _). }
  destruct (Hs topic) as (new & En & Ew & Hin). destruct (detach_spec subs t') as [Hdd Hds].
  rewrite !Hcalls by congruence. rewrite Hds, En. split.
  - rewrite map_app. f_equal. rewrite <- wanted_handler, <- Ew. by rewrite map_map.
  - f_equal. rewrite filter_app, (filter_all _ (subscribers topic t)), filter_none; [apply app_nil_r|..].
    + eapply Forall_impl; [exact Hin|]. intros p Hp Hno. by apply Hno.
    + apply Forall_forall. intros p Hp Hbad. rewrite Forall_forall in Hsubs. specialize (Hsubs _ Hbad). cbn in Hsubs.
      specialize (Hids _ _ Hp). lia.
Qed.
End NodeSubscriptions.

Module TransportDemo.
Lemma node_hears_its_topics_witness :
  exists t' subs, attach node_subscriptions (@local_new NodeHandler) = Some (t', subs) /\
    (tr_publish "u1" HEALTH VNull t').2 = [mkCall OnNodeStats HEALTH VNull] /\
    (tr_publish "u1" HEALTH VNull (detach subs t')).2 = [].
Proof.
  destruct (node_hears_its_topics (@local_new NodeHandler)) as (t' & subs & E & Hc).
  - vm_compute. discriminate.
  - vm_compute. reflexivity.
  - intros topic p Hp. cbn in Hp. rewrite lookup_empty in Hp. by apply not_elem_of_nil in Hp.
  - reflexivity.
  - exists t', subs. split; [exact E|]. destruct (Hc "u1" HEALTH VNull) as [H1 H2]. rewrite H1, H2. split; reflexivity.
Defined.
End TransportDemo.
