(* ===== verification/Coordinator.v ===== *)
(** * The coordinator ([src/coordinator.rs])

One node: identity, ledger, consensus, rewards, host probes and the inference backends, tied to
the transport.  [Coordinator] is the state of [ExodusCoordinator]; an operation returns the new
state and what it hands to the outside ([co_event]): payloads published on the transport,
calls of the commit hooks, and the workers started for inbound requests.  Time, random identifiers and the inference backend's observations
are arguments of the operations that use them. *)

From S2P Require Import Prelude F64 Crypto Models Accounting Config Text Host Inference Http LlamaServer.
From S2P Require Import Ledger Validation Protocol Decode Rewards Identity.
From Stdlib Require Import Floats.SpecFloat.

Inductive co_event :=
| Sent (topic : string) (payload : Value)
| HookCalled (name : string) (height : Z) (block_hash : string)
| WorkerStarted (request : InferenceRequest).

Section State.
Context `{Serde}.

Record Coordinator := mkCoordinator {
  co_identity : NodeIdentity;
  co_protocol : ProtocolState;
  co_store : ChainStore;
  co_subscriptions : list string;
  co_seq : Z;
  co_hooks : list string;
  co_gpu_cache : option GpuInfo;
  (** the responses waiting in each open channel *)
  co_infer_tx : gmap string (list InferenceResponse);
  (** free permits of the semaphore *)
  co_infer_slots : Z;
  co_sampler : CpuSampler;
  (** the telemetry of each peer and when it arrived, in nanoseconds *)
  co_peer_stats : gmap string (NodeStats * Z);
  co_llama : LlamaServer;
  co_server : ServerState;
}.

Definition with_consensus (ns : ProtocolState * ChainStore) (c : Coordinator) : Coordinator :=
  mkCoordinator (co_identity c) ns.1 ns.2 (co_subscriptions c) (co_seq c) (co_hooks c)
    (co_gpu_cache c) (co_infer_tx c) (co_infer_slots c) (co_sampler c) (co_peer_stats c)
    (co_llama c) (co_server c).
Definition with_subscriptions (x : list string) (c : Coordinator) : Coordinator :=
  mkCoordinator (co_identity c) (co_protocol c) (co_store c) x (co_seq c) (co_hooks c)
    (co_gpu_cache c) (co_infer_tx c) (co_infer_slots c) (co_sampler c) (co_peer_stats c)
    (co_llama c) (co_server c).
Definition with_seq (x : Z) (c : Coordinator) : Coordinator :=
  mkCoordinator (co_identity c) (co_protocol c) (co_store c) (co_subscriptions c) x (co_hooks c)
    (co_gpu_cache c) (co_infer_tx c) (co_infer_slots c) (co_sampler c) (co_peer_stats c)
    (co_llama c) (co_server c).
Definition with_hooks (x : list string) (c : Coordinator) : Coordinator :=
  mkCoordinator (co_identity c) (co_protocol c) (co_store c) (co_subscriptions c) (co_seq c) x
    (co_gpu_cache c) (co_infer_tx c) (co_infer_slots c) (co_sampler c) (co_peer_stats c)
    (co_llama c) (co_server c).
Definition with_gpu_cache (x : option GpuInfo) (c : Coordinator) : Coordinator :=
  mkCoordinator (co_identity c) (co_protocol c) (co_store c) (co_subscriptions c) (co_seq c)
    (co_hooks c) x (co_infer_tx c) (co_infer_slots c) (co_sampler c) (co_peer_stats c)
    (co_llama c) (co_server c).
Definition with_infer_tx (x : gmap string (list InferenceResponse)) (c : Coordinator) : Coordinator :=
  mkCoordinator (co_identity c) (co_protocol c) (co_store c) (co_subscriptions c) (co_seq c)
    (co_hooks c) (co_gpu_cache c) x (co_infer_slots c) (co_sampler c) (co_peer_stats c)
    (co_llama c) (co_server c).
Definition with_slots (x : Z) (c : Coordinator) : Coordinator :=
  mkCoordinator (co_identity c) (co_protocol c) (co_store c) (co_subscriptions c) (co_seq c)
    (co_hooks c) (co_gpu_cache c) (co_infer_tx c) x (co_sampler c) (co_peer_stats c)
    (co_llama c) (co_server c).
Definition with_sampler (x : CpuSampler) (c : Coordinator) : Coordinator :=
  mkCoordinator (co_identity c) (co_protocol c) (co_store c) (co_subscriptions c) (co_seq c)
    (co_hooks c) (co_gpu_cache c) (co_infer_tx c) (co_infer_slots c) x (co_peer_stats c)
    (co_llama c) (co_server c).
Definition with_peer_stats (x : gmap string (NodeStats * Z)) (c : Coordinator) : Coordinator :=
  mkCoordinator (co_identity c) (co_protocol c) (co_store c) (co_subscriptions c) (co_seq c)
    (co_hooks c) (co_gpu_cache c) (co_infer_tx c) (co_infer_slots c) (co_sampler c) x
    (co_llama c) (co_server c).
Definition with_server (x : ServerState) (c : Coordinator) : Coordinator :=
  mkCoordinator (co_identity c) (co_protocol c) (co_store c) (co_subscriptions c) (co_seq c)
    (co_hooks c) (co_gpu_cache c) (co_infer_tx c) (co_infer_slots c) (co_sampler c) (co_peer_stats c)
    (co_llama c) x.

End State.

(** [cfg.max_tokens = n] on a clone of the configuration. *)
Definition with_max_tokens (n : Z) (c : ExodusConfig) : ExodusConfig :=
  mkConfig (data_dir c) (node_name c) (model_dir c) (gpu_layers c) (llama_bin c) (inference c) n
    (inference_timeout_seconds c) (max_concurrent_inference c) (distributed_inference c)
    (distributed_timeout_seconds c) (inference_backend c) (llama_server_bin c)
    (llama_server_host c) (llama_server_port c) (llama_server_parallel c) (epoch_seconds c)
    (election_timeout_seconds c) (byzantine c) (max_faulty c) (claim_dedup_window c)
    (active_peer_window c) (heartbeat_seconds c) (sync_request_interval_seconds c) (node_host c)
    (node_port c) (peers_cfg c) (discover c) (api_host c) (api_port c) (flops_tolerance c)
    (credits_per_cu c) (reward_diminishing c) (credit_halflife_seconds c) (free_quota_seconds c)
    (seconds_per_credit c) (max_priority_levels c).

(** [i64::clamp]: panics when the upper bound is below the lower one. *)
Definition clamp (v lo hi : Z) : option Z :=
  if hi <? lo then None else Some (Z.max lo (Z.min v hi)).

(** The permits of a semaphore of the configured size. *)
Definition slot_count (config : ExodusConfig) : Z := Z.max (max_concurrent_inference config) 1.

Definition sum_u64 (l : list Z) : Z := foldl (fun acc x => wrap_u64 (acc + x)) 0 l.

(** The errors of the entry points that return a text. *)
Definition submit_error_text (e : ValidationError) : string :=
  match e with
  | SubmitForeignClaim => "can only submit claims for this node"
  | SubmitBadSignature => "claim signature does not verify"
  | SubmitImplausible => "claim fails FLOPS sanity check"
  | _ => ""
  end.

Section Coordinator.
Context `{Crypto} `{Serde} `{Env} `{RewardEnv} `{HostOs} `{ProcessEnv} `{Unicode} `{JsonText}.
Context `{Runtime} `{Decoders}.
Variable config : ExodusConfig.

(** ** Construction ([new]) *)

(** [new] panics when the inference timeout is not a duration. *)
Definition coordinator_new (identity : NodeIdentity) (s : ChainStore) (on_commit : bool) :
  option Coordinator :=
  let ns := new config (id_node_id identity) (id_private_key identity) (id_public_key_hex identity) s in
  let gpu := detect (gpu_layers config) in
  let layers := default (if gpu_available gpu then 99 else 0) (gpu_layers config) in
  match duration_ns (f64_max (inference_timeout_seconds config) f64_1) with
  | None => None
  | Some _ =>
      let '(llama, server) :=
        new_server (llama_server_bin config) (llama_server_host config) (llama_server_port config)
          (llama_server_parallel config) layers in
      Some (mkCoordinator identity ns.1 ns.2 [] 0 (if on_commit then ["caller"] else []) None ∅
              (slot_count config) new_sampler ∅ llama server)
  end.

(** ** Events of consensus: payloads to the transport, commits to every hook *)

Definition co_events (hooks : list string) (evs : list event) : list co_event :=
  evs ≫= (fun e =>
    match e with
    | Publish topic m => [Sent topic (message_to_value m)]
    | Notify h hash => map (fun name => HookCalled name h hash) hooks
    end).

(** Run an entry point of the protocol. *)
Definition on_consensus (f : ProtocolState * ChainStore -> ProtocolState * ChainStore * list event)
  (c : Coordinator) : Coordinator * list co_event :=
  let '(st, s, evs) := f (co_protocol c, co_store c) in
  (with_consensus (st, s) c, co_events (co_hooks c) evs).

(** ** Lifecycle *)

Definition connect (c : Coordinator) : Coordinator :=
  with_subscriptions (co_subscriptions c ++ ALL_TOPICS ++ [INFER_REQUESTS; INFER_RESPONSES; HEALTH]) c.
Definition disconnect (c : Coordinator) : Coordinator := with_subscriptions [] c.
Definition close (c : Coordinator) : Coordinator := disconnect c.

Definition add_commit_hook (name : string) (c : Coordinator) : Coordinator :=
  with_hooks (co_hooks c ++ [name]) c.

Fixpoint remove_first (name : string) (l : list string) : list string :=
  match l with
  | [] => []
  | x :: l' => if String.eqb x name then l' else x :: remove_first name l'
  end.
Definition remove_commit_hook (name : string) (c : Coordinator) : Coordinator :=
  with_hooks (remove_first name (co_hooks c)) c.

Definition gpu_info (c : Coordinator) : GpuInfo * Coordinator :=
  match co_gpu_cache c with
  | Some g => (g, c)
  | None => let g := detect (gpu_layers config) in (g, with_gpu_cache (Some g) c)
  end.

(** ** Telemetry *)

Definition value_as_u64 (v : Value) : option Z :=
  match v with VNumber n => as_u64 n | _ => None end.

Definition vram_total (g : GpuInfo) : Z := sum_u64 (map gd_memory_total_mb (gpu_devices g)).

Definition process_slots (g : GpuInfo) : Z :=
  wrap_u64 (Z.max (usize_len (gpu_devices g)) 1 + max_concurrent_inference config).

Definition node_telemetry (c : Coordinator) : Value * Coordinator :=
  let mem := memory in
  let '(gpu, c) := gpu_info c in
  let usage := live_usage gpu in
  let vram_used :=
    match json_index "devices" usage with
    | VArray l => sum_u64 (map (fun d => default 0 (value_as_u64 (json_index "memory_used_mb" d))) l)
    | _ => 0
    end in
  let '(cpu, sampler) := percent (co_sampler c) in
  (json_object [
     ("cpu_percent", json_f64 cpu);
     ("cpu_cores", json_int cpu_cores);
     ("mem_total_mb", json_int (default 0 (value_as_u64 (json_index "total_mb" mem))));
     ("mem_used_mb", json_option json_int (value_as_u64 (json_index "used_mb" mem)));
     ("mem_percent", json_index "percent" mem);
     ("process_rss_mb", json_int (default 0 (value_as_u64 (json_index "process_rss_mb" mem))));
     ("processes", json_int (process_slots gpu));
     ("gpu", usage);
     ("gpu_vram_mb", json_int (vram_total gpu));
     ("gpu_vram_used_mb", json_int vram_used)],
   with_sampler sampler c).

Definition local_stats (g : GpuInfo) (c : Coordinator) : NodeStats :=
  mkNodeStats (id_node_id (co_identity c)) cpu_cores
    (default 0 (value_as_u64 (json_index "total_mb" memory))) (process_slots g) (vram_total g)
    (gpu_available g).

Definition announce_telemetry (c : Coordinator) : Coordinator * list co_event :=
  let '(gpu, c) := gpu_info c in (c, [Sent HEALTH (stats_to_value (local_stats gpu c))]).

(** Three cadences, at least fifteen seconds; not a duration when the cadence is infinite. *)
Definition telemetry_ttl : option Z :=
  let cadence := f64_min (heartbeat_seconds config) (epoch_seconds config) in
  duration_ns (f64_max (f64_mul cadence (f64_of_Z 3)) (f64_of_Z 15)).

Definition retain_fresh (cutoff : Z) (m : gmap string (NodeStats * Z)) : gmap string (NodeStats * Z) :=
  filter (fun p => cutoff < p.2.2) m.

Definition prune_peer_stats (now : Z) (c : Coordinator) : outcome Coordinator :=
  match telemetry_ttl with
  | None => Panics
  | Some ttl => Done (with_peer_stats (retain_fresh (now - ttl) (co_peer_stats c)) c)
  end.

Definition on_node_stats (value : Value) (now : Z) (c : Coordinator) : outcome Coordinator :=
  match stats_from_value value with
  | None => Done c
  | Some stats =>
      if String.eqb (ns_node_id stats) (id_node_id (co_identity c)) then Done c
      else prune_peer_stats now
             (with_peer_stats (<[ns_node_id stats := (stats, now)]> (co_peer_stats c)) c)
  end.

(** The aggregate; [order] is the order a [HashMap] iteration yields its values in. *)
Definition distributed_capacity (order : gmap string (NodeStats * Z) -> list NodeStats)
  (now : Z) (c : Coordinator) : outcome (Value * Coordinator) :=
  let '(gpu, c) := gpu_info c in
  let local := local_stats gpu c in
  match prune_peer_stats now c with
  | Panics => Panics
  | Waiting => Waiting
  | Done c =>
      let nodes := local :: order (co_peer_stats c) in
      Done (json_object [
        ("node_count", json_int (usize_len nodes));
        ("cpu_cores", json_int (sum_u64 (map ns_cpu_cores nodes)));
        ("mem_total_mb", json_int (sum_u64 (map ns_mem_total_mb nodes)));
        ("processes", json_int (sum_u64 (map ns_processes nodes)));
        ("gpu_vram_mb", json_int (sum_u64 (map ns_gpu_vram_mb nodes)));
        ("gpu_nodes", json_int (usize_len (filter (fun n => ns_gpu_available n = true) nodes)));
        ("nodes", VArray (map stats_to_value nodes))], c)
  end.

(** ** Contributions *)

(** What the caller of [submit_contribution] gives. *)
Record Contribution := mkContribution {
  ct_model_id : string;
  ct_params_b : f64;
  ct_precision : string;
  ct_prompt_tokens : Z;
  ct_completion_tokens : Z;
  ct_compute_seconds : f64;
  ct_flops_estimate : f64;
  ct_device_tier : string;
  ct_work_type : string;
  ct_started_at : option string;
  ct_ended_at : option string;
}.

(** The claim a contribution becomes, under a fresh identifier, at a time and a sequence number. *)
Definition contribution_claim (x : Contribution) (prec : Precision) (tier : DeviceTier)
  (wt : WorkType) (uuid now : string) (seq : Z) (c : Coordinator) : ContributionClaim :=
  mkClaim uuid (id_node_id (co_identity c)) seq wt (ct_model_id x) (ct_params_b x) prec
    (ct_prompt_tokens x) (ct_completion_tokens x) (ct_compute_seconds x) (ct_flops_estimate x) tier
    (default now (ct_started_at x)) (default now (ct_ended_at x)) (height (co_store c))
    (match head (co_store c) with Some h => block_hash h | None => "" end).

Definition submit_contribution (x : Contribution) (uuid now : string) (c : Coordinator) :
  Coordinator * list co_event * result string string :=
  match Precision_from_str (ct_precision x) with
  | Err e => (c, [], Err e)
  | Ok prec =>
      match DeviceTier_from_str (ct_device_tier x) with
      | Err e => (c, [], Err e)
      | Ok tier =>
          match WorkType_from_str (ct_work_type x) with
          | Err e => (c, [], Err e)
          | Ok wt =>
              let seq := wrap_i64 (co_seq c + 1) in
              let c := with_seq seq c in
              let claim := contribution_claim x prec tier wt uuid now seq c in
              let signed := signed_create claim (id_private_key (co_identity c)) in
              let '(st, s, evs, r) := submit_claim config signed (co_protocol c, co_store c) in
              (with_consensus (st, s) c, co_events (co_hooks c) evs,
               match r with
               | Ok _ => Ok (claim_id (sc_claim signed))
               | Err e => Err (submit_error_text e)
               end)
          end
      end
  end.

Definition record_inference_claim (model : string) (prompt_chars reply_chars : Z) (seconds : f64)
  (uuid now : string) (c : Coordinator) : Coordinator * list co_event :=
  if negb (inference config) then (c, [])
  else
    match model_params_b model with
    | None => (c, [])
    | Some params =>
        let prec := model_precision model in
        let prompt_tokens := estimate_tokens prompt_chars in
        let completion_tokens := estimate_tokens reply_chars in
        let flops := estimated_flops params prec prompt_tokens completion_tokens in
        let '(gpu, c) := gpu_info c in
        let '(c, evs, _) :=
          submit_contribution
            (mkContribution model params (Precision_name prec) prompt_tokens completion_tokens
               (f64_max seconds (f64_lit 1 1000)) flops (tier_string gpu) "text_generation" None None)
            uuid now c in
        (c, evs)
    end.

(** ** Distributed inference *)

(** A request opens a channel under its identifier; one that was open is replaced. *)
Definition request_inference (request_id model : string) (max_tokens : Z)
  (messages : list InferenceTurn) (c : Coordinator) : Coordinator * list co_event :=
  (with_infer_tx (<[request_id := []]> (co_infer_tx c)) c,
   [Sent INFER_REQUESTS (infer_request_to_value
      (mkInferenceRequest request_id (id_node_id (co_identity c)) model max_tokens messages))]).

Definition drop_inference (request_id : string) (c : Coordinator) : Coordinator :=
  with_infer_tx (delete request_id (co_infer_tx c)) c.

Definition on_infer_response (value : Value) (c : Coordinator) : Coordinator :=
  match infer_response_from_value value with
  | None => c
  | Some response =>
      if String.eqb (ir_node_id response) (id_node_id (co_identity c)) then c
      else match co_infer_tx c !! ir_request_id response with
           | Some q => with_infer_tx (<[ir_request_id response := q ++ [response]]> (co_infer_tx c)) c
           | None => c
           end
  end.

(** The request an inbound payload starts a worker for. *)
Definition on_infer_request (value : Value) (c : Coordinator) : option InferenceRequest :=
  match infer_request_from_value value with
  | None => None
  | Some request =>
      if String.eqb (iq_origin request) (id_node_id (co_identity c)) then None else Some request
  end.

Definition respond (request : InferenceRequest) (reply : string) (error : option string)
  (c : Coordinator) : co_event :=
  Sent INFER_RESPONSES (infer_response_to_value
    (mkInferenceResponse (iq_request_id request) (id_node_id (co_identity c)) reply error)).

(** The first half of [run_inference_request]: take a permit or answer that the node is busy. *)
Definition begin_inference (request : InferenceRequest) (c : Coordinator) :
  Coordinator * list co_event * bool :=
  if 0 <? co_infer_slots c then (with_slots (co_infer_slots c - 1) c, [], true)
  else (c, [respond request "" (Some "node busy: too many concurrent inferences") c], false).

(** The second half: answer with the result, record the work, give the permit back. *)
Definition finish_inference (request : InferenceRequest) (r : result string string) (elapsed : f64)
  (uuid now : string) (c : Coordinator) : Coordinator * list co_event :=
  let '(reply, error) :=
    match r with Ok reply => (reply, None) | Err e => ("", Some e) end in
  let answer := respond request reply error c in
  let '(c, evs) :=
    if match error with None => true | Some _ => false end && inference config then
      record_inference_claim (iq_model request)
        (foldr (fun m acc => usize_len (chars (it_content m)) + acc) 0 (iq_messages request))
        (usize_len (chars reply)) elapsed uuid now c
    else (c, []) in
  (with_slots (co_infer_slots c + 1) c, answer :: evs).

(** The name of a requested model is a plain file name. *)
Definition model_name_refused (model : string) : bool :=
  String.eqb model "" || str_contains "/" model || str_contains (String backslash "") model ||
  starts_with "." model.

(** What a request asks the backend for: the model's path and the token limit. *)
Definition requested_run (request : InferenceRequest) : outcome (result (string * Z) string) :=
  if model_name_refused (iq_model request) then
    Done (Err ("invalid model name '" +:+ iq_model request +:+ "'"))
  else
    let path := path_join (models_dir config) (iq_model request) in
    if negb (path_is_file path) then Done (Err ("model file not present: " +:+ path))
    else match clamp (iq_max_tokens request) 1 (max_tokens config) with
         | None => Panics
         | Some n => Done (Ok (path, n))
         end.

(** [complete_local]; [ob] and [post] are what the server backend observes. *)
Definition complete_local (path : string) (turns : list ChatTurn) (limit : Z) (ob : Observed)
  (post : Z -> bytes -> result bytes string) (c : Coordinator) :
  outcome (result string string) * Coordinator * list Action :=
  match clamp limit 1 (max_tokens config) with
  | None => (Panics, c, [])
  | Some n =>
      if String.eqb (inference_backend config) "server" then
        let '(r, server, acts) := chat (co_llama c) path turns n ob post (co_server c) in
        (r, with_server server c, acts)
      else
        let '(gpu, c) := gpu_info c in
        (complete (with_max_tokens n config) gpu path turns, c, [])
  end.

Definition complete_for_request (request : InferenceRequest) (ob : Observed)
  (post : Z -> bytes -> result bytes string) (c : Coordinator) :
  outcome (result string string) * Coordinator * list Action :=
  if negb (inference config) then
    (Done (Ok ("[node:" +:+ id_node_id (co_identity c) +:+ "] distributed stub (inference disabled)")), c, [])
  else
    match requested_run request with
    | Panics => (Panics, c, [])
    | Waiting => (Waiting, c, [])
    | Done (Err e) => (Done (Err e), c, [])
    | Done (Ok (path, n)) =>
        complete_local path (map (fun m => mkTurn (it_role m) (it_content m)) (iq_messages request))
          n ob post c
    end.

(** ** Deliveries of the transport ([connect]'s handlers) *)

Definition on_delivery (topic : string) (value : Value) (now : Z) (c : Coordinator) :
  outcome (Coordinator * list co_event) :=
  if String.eqb topic INFER_REQUESTS then
    Done (c, match on_infer_request value c with Some r => [WorkerStarted r] | None => [] end)
  else if String.eqb topic INFER_RESPONSES then Done (on_infer_response value c, [])
  else if String.eqb topic HEALTH then
    match on_node_stats value now c with
    | Done c => Done (c, [])
    | Panics => Panics
    | Waiting => Waiting
    end
  else if String.eqb topic SYNC then
    match sync_request_from_value value with
    | Some r => Done (on_consensus (handle_sync_request r) c)
    | None =>
        match sync_response_from_value value with
        | Some r => Done (on_consensus (handle_sync_response config r) c)
        | None => Done (c, [])
        end
    end
  else match decode_message topic value with
       | Some m => Done (on_consensus (receive config topic m) c)
       | None => Done (c, [])
       end.

(** ** Queries *)

Definition entitlement_of (n : nat) (c : Coordinator) : Value :=
  (entitlement config (co_store c) (id_node_id (co_identity c)) None n).1.

Definition status (n : nat) (c : Coordinator) : Value * Coordinator :=
  let st := co_protocol c in
  let s := co_store c in
  let '(gpu, c') := gpu_info c in
  (json_object [
     ("node_id", VString (id_node_id (co_identity c)));
     ("node_name", VString (node_name config));
     ("ledger_height", json_int (height s));
     ("ledger_head", json_option (fun h => VString (block_hash h)) (head s));
     ("is_sealer", VBool (is_sealer config st s));
     ("view", json_int (ps_view st));
     ("sealer", VString (sealer_node config st s));
     ("quorum_size", json_int (quorum_size config st s));
     ("committee_size", json_int (usize_len (active_peers config st s)));
     ("peer_count", json_int (peer_count st));
     ("pending_claims", json_int (pending_claims_count st));
     ("verified_chain", VBool (is_ok (verify_chain s)));
     ("gpu", gpu_to_value gpu);
     ("credits", entitlement_of n c)], c').

(** The last [limit] blocks, all of them for zero. *)
Definition tail_blocks {A} (limit : Z) (l : list A) : list A :=
  if limit =? 0 then l else rev (take (Z.to_nat limit) (rev l)).

Definition ledger_summary (limit : Z) (c : Coordinator) : Value :=
  json_object [
    ("height", json_int (height (co_store c)));
    ("blocks", VArray (map (fun b => json_object [
       ("height", json_int (cp_height b));
       ("epoch", json_int (cp_epoch b));
       ("sealed_by", VString (prop_sealed_by (cp_proposal b)));
       ("claims", json_int (usize_len (prop_claims (cp_proposal b))));
       ("signatures", json_int (usize_len (cp_signatures b)));
       ("block_hash", VString (block_hash b))])
      (tail_blocks limit (blocks (co_store c)))))].

Definition claims_for (node_id : option string) (c : Coordinator) : Value :=
  let rows :=
    match node_id with
    | Some id => claims_for_node (co_store c) id
    | None => all_claims (co_store c)
    end in
  json_object [
    ("count", json_int (usize_len rows));
    ("claims", VArray (map (fun r => json_object [
       ("claim_id", VString (rec_claim_id r));
       ("height", json_int (rec_height r));
       ("node_id", VString (rec_node_id r));
       ("seq", json_int (rec_seq r));
       ("cu", json_f64 (rec_cu r));
       ("claim_json", rec_claim_json r)]) rows))].

(** ** The loop of [run] *)

(** The start of [run]: subscribes unless that is done, and serves the API when asked to.  The
pause between the turns, in nanoseconds, must be a duration. *)
Definition run_start (serve_api : bool) (c : Coordinator) : outcome (Coordinator * option (string * Z) * Z) :=
  let c := match co_subscriptions c with [] => connect c | _ => c end in
  let api := if serve_api then Some (api_host config, api_port config) else None in
  match duration_ns (f64_min (heartbeat_seconds config) (epoch_seconds config)) with
  | Some period => Done (c, api, period)
  | None => Panics
  end.

(** One turn: tick, announce, prune, propose when it is this node's turn to seal. *)
Definition run_turn (now : Z) (c : Coordinator) : outcome (Coordinator * list co_event) :=
  let '(c, evs1) := on_consensus (tick config) c in
  let '(c, evs2) := announce_telemetry c in
  match prune_peer_stats now c with
  | Panics => Panics
  | Waiting => Waiting
  | Done c =>
      if is_sealer config (co_protocol c) (co_store c) then
        let '(c, evs3) := on_consensus (propose_now config) c in Done (c, evs1 ++ evs2 ++ evs3)
      else Done (c, evs1 ++ evs2)
  end.
End Coordinator.
