(* ===== verification/CoordinatorSteps.v ===== *)
(** * Executions of a whole node

[node_run c n]: a coordinator started from an identity and a store can be in the state [c] with
[n] inference workers running, after any sequence of its operations: deliveries of the
transport, submissions, turns of the main loop, inference requests and their workers.  Every
such execution is an execution of the consensus protocol on its protocol state and ledger. *)

From S2P Require Import Prelude F64 F64Theory Crypto CryptoTheory Models Accounting Config Text Host Inference InferenceProps Http LlamaServer.
From S2P Require Import Ledger LedgerTheory Validation ValidationTheory Protocol ProtocolTheory ProtocolInv.
From S2P Require Import ProtocolSteps Decode Rewards Identity Coordinator.

(** What the Rust types and JSON guarantee of a contribution. *)
Definition wf_contribution (x : Contribution) : bool :=
  in_i64 (ct_prompt_tokens x) && in_i64 (ct_completion_tokens x) &&
  is_finite (ct_params_b x) && is_finite (ct_compute_seconds x) && is_finite (ct_flops_estimate x) &&
  valid_str (ct_model_id x) && valid_str (default "" (ct_started_at x)) &&
  valid_str (default "" (ct_ended_at x)).

Section Executions.
Context `{Crypto} `{Serde} `{Env} `{RewardEnv} `{HostOs} `{ProcessEnv} `{Unicode} `{JsonText}.
Context `{Runtime} `{Decoders}.
Variable config : ExodusConfig.

(** The work of a completion can be recorded: its figures are numbers JSON can carry, in
particular the size in the model's name, if it has one, is not absurdly large. *)
Definition recordable (model : string) (elapsed : f64) : Prop :=
  valid_str model = true /\ is_finite elapsed = true /\
  forall p, model_params_b model = Some p -> within 700 p.

(** The operations that leave the workers as they are. *)
Inductive node_op (c : Coordinator) : Coordinator -> Prop :=
| op_deliver topic value now c' evs :
    (forall m, decode_message topic value = Some m -> wf_message m = true) ->
    on_delivery config topic value now c = Done (c', evs) -> node_op c c'
| op_submit x uuid now c' evs r :
    wf_contribution x = true -> valid_str uuid = true -> valid_str now = true ->
    submit_contribution config x uuid now c = (c', evs, r) -> node_op c c'
| op_tick : node_op c (on_consensus (fun ns => (tick_locked config ns).1) c).1
| op_propose : node_op c (on_consensus (propose_now config) c).1
| op_turn now c' evs : run_turn config now c = Done (c', evs) -> node_op c c'
| op_request id model limit messages :
    node_op c (request_inference id model limit messages c).1
| op_drop id : node_op c (drop_inference id c)
| op_complete path turns limit ob post r c' acts :
    complete_local config path turns limit ob post c = (r, c', acts) -> node_op c c'
| op_gpu : node_op c (gpu_info config c).2
| op_telemetry : node_op c (node_telemetry config c).2
| op_capacity order now v c' : distributed_capacity config order now c = Done (v, c') -> node_op c c'
| op_record model pc rc elapsed uuid now :
    recordable model elapsed -> valid_str uuid = true -> valid_str now = true ->
    node_op c (record_inference_claim config model pc rc elapsed uuid now c).1
| op_connect : node_op c (connect c)
| op_disconnect : node_op c (disconnect c)
| op_add_hook name : node_op c (add_commit_hook name c)
| op_remove_hook name : node_op c (remove_commit_hook name c).

Inductive node_run (identity : NodeIdentity) (s0 : ChainStore) : Coordinator -> nat -> Prop :=
| run_started hook c :
    coordinator_new config identity s0 hook = Some c -> node_run identity s0 c 0
| run_op c c' n : node_run identity s0 c n -> node_op c c' -> node_run identity s0 c' n
| run_worker c c' n request evs :
    node_run identity s0 c n -> begin_inference request c = (c', evs, true) ->
    node_run identity s0 c' (S n)
| run_busy c c' n request evs :
    node_run identity s0 c n -> begin_inference request c = (c', evs, false) ->
    node_run identity s0 c' n
| run_finished c c' n request r elapsed uuid now evs :
    node_run identity s0 c (S n) -> recordable (iq_model request) elapsed ->
    valid_str uuid = true -> valid_str now = true ->
    finish_inference config request r elapsed uuid now c = (c', evs) ->
    node_run identity s0 c' n.

(** ** Frames: what the operations leave alone *)

(** Same identity, same permits, and telemetry that is kept. *)
Record same_frame (c c' : Coordinator) : Prop := {
  sf_identity : co_identity c' = co_identity c;
  sf_slots : co_infer_slots c' = co_infer_slots c;
  sf_stats : co_peer_stats c' = co_peer_stats c;
  sf_channels : co_infer_tx c' = co_infer_tx c;
}.

Lemma same_frame_refl c : same_frame c c.
Proof. done. Qed.

Lemma same_frame_trans c1 c2 c3 : same_frame c1 c2 -> same_frame c2 c3 -> same_frame c1 c3.
Proof. intros [] []. split; congruence. Qed.

Lemma gpu_info_frame c : same_frame c (gpu_info config c).2 /\
  co_protocol (gpu_info config c).2 = co_protocol c /\ co_store (gpu_info config c).2 = co_store c.
Proof. unfold gpu_info. by destruct (co_gpu_cache c). Qed.

Lemma on_consensus_frame f c : same_frame c (on_consensus f c).1.
Proof. unfold on_consensus. by destruct (f _) as [[st s] evs]. Qed.

Lemma on_consensus_state f c :
  (co_protocol (on_consensus f c).1, co_store (on_consensus f c).1) =
  ((f (co_protocol c, co_store c)).1.1, (f (co_protocol c, co_store c)).1.2).
Proof. unfold on_consensus. by destruct (f _) as [[st s] evs]. Qed.

(** A submission either changes nothing or submits one signed claim with the next number. *)
Lemma submit_contribution_cases x uuid now c c' evs r :
  submit_contribution config x uuid now c = (c', evs, r) ->
  (c' = c /\ evs = [] /\ exists e, r = Err e) \/
  exists prec tier wt,
    let seq := wrap_i64 (co_seq c + 1) in
    let signed := signed_create (contribution_claim x prec tier wt uuid now seq c)
                    (id_private_key (co_identity c)) in
    let out := submit_claim config signed (co_protocol c, co_store c) in
    c' = with_consensus (out.1.1.1, out.1.1.2) (with_seq seq c) /\
    evs = co_events (co_hooks c) out.1.2 /\
    r = match out.2 with Ok _ => Ok uuid | Err e => Err (submit_error_text e) end.
Proof.
  unfold submit_contribution. intros E.
  destruct (Precision_from_str _) as [prec|e]; [|injection E as <- <- <-; left; eauto].
  destruct (DeviceTier_from_str _) as [tier|e]; [|injection E as <- <- <-; left; eauto].
  destruct (WorkType_from_str _) as [wt|e]; [|injection E as <- <- <-; left; eauto].
  right. exists prec, tier, wt. cbv zeta in E |- *.
  change (contribution_claim x prec tier wt uuid now (wrap_i64 (co_seq c + 1)) (with_seq (wrap_i64 (co_seq c + 1)) c))
    with (contribution_claim x prec tier wt uuid now (wrap_i64 (co_seq c + 1)) c) in E.
  cbn [co_identity co_protocol co_store co_hooks with_seq] in E.
  destruct (submit_claim _ _ _) as [[[st s] evs'] r']. injection E as <- <- <-. done.
Qed.

Lemma submit_contribution_frame x uuid now c c' evs r :
  submit_contribution config x uuid now c = (c', evs, r) -> same_frame c c'.
Proof.
  intros [(-> & _)|(prec & tier & wt & -> & _)]%submit_contribution_cases; done.
Qed.

Lemma record_inference_frame model pc rc secs uuid now c :
  same_frame c (record_inference_claim config model pc rc secs uuid now c).1.
Proof.
  unfold record_inference_claim. destruct (negb (inference config)); [done|].
  destruct (model_params_b model) as [p|]; [|done]. cbv zeta.
  pose proof (gpu_info_frame c) as [Hg _]. destruct (gpu_info config c) as [g c1].
  destruct (submit_contribution _ _ _ _ _) as [[c2 evs] r] eqn:E.
  apply submit_contribution_frame in E. cbn in *. by eapply same_frame_trans.
Qed.
End Executions.

(** ** The node refines the protocol *)

Section Refinement.
Context `{CL : CryptoLaws} `{SL : SerdeLaws} `{EL : EnvLaws} `{RewardEnv} `{HostOs} `{ProcessEnv}.
Context `{Unicode} `{JsonText} `{Runtime} `{Decoders}.
Variable config : ExodusConfig.
Variable identity : NodeIdentity.
Variable s0 : ChainStore.

Local Abbreviation node := (id_node_id identity).
Local Abbreviation key := (id_private_key identity).
Local Abbreviation state_of c := (co_protocol c, co_store c).

(** An identity and a store a node can be started with. *)
Record node_start : Prop := {
  nst_start : startable config node key s0;
  nst_public : id_public_key_hex identity = hex (public_key_from_private key);
}.

Hypothesis Hstart : node_start.

Local Abbreviation reach := (reachable config node key s0).

(** The figures a claim takes from the ledger fit their fields. *)
Lemma ledger_figures ns :
  reach ns -> in_i64 (height ns.2) = true /\
  valid_str (match head ns.2 with Some h => block_hash h | None => "" end) = true.
Proof using CL SL EL Hstart.
  intros Hr. destruct (reachable_good _ _ _ _ _ (nst_start Hstart) Hr) as (chain & -> & [Hv _] & _).
  split.
  - rewrite height_of by done. destruct (last chain) as [c|] eqn:L.
    + rewrite last_lookup in L. pose proof (valid_chain_heights _ _ _ Hv L) as Hh.
      pose proof (wf_of_valid _ _ _ Hv L) as Hw. unfold wf_checkpoint, wf_proposal in Hw. bool_prop.
      unfold cp_height in Hh. apply lookup_lt_Some in L.
      match goal with Hi : in_i64 (prop_height _) = true |- _ => rewrite Hh in Hi end.
      replace (Z.of_nat (length chain) - 1) with (Z.of_nat (Init.Nat.pred (length chain))) by lia. done.
    + apply last_None in L as ->. done.
  - destruct (head _) as [h|]; [apply sha256_bytes_hex_valid|done].
Qed.

Lemma wf_contribution_signed x prec tier wt uuid now seq c :
  wf_contribution x = true -> valid_str uuid = true -> valid_str now = true -> in_i64 seq = true ->
  co_identity c = identity -> reach (state_of c) ->
  wf_signed (signed_create (contribution_claim x prec tier wt uuid now seq c) key) = true.
Proof using CL SL EL Hstart.
  intros Hx Hu Hn Hs Hid Hr. destruct (ledger_figures _ Hr) as [Hh Hb]. cbn [snd] in *.
  unfold wf_contribution in Hx. bool_prop.
  assert (Ht : forall o, valid_str (default "" o) = true -> valid_str (default now o) = true)
    by (by intros []).
  unfold wf_signed, wf_claim, signed_create, contribution_claim.
  cbn [sc_claim sc_public_key_hex sc_signature_hex forallb claim_seq prompt_tokens completion_tokens
    last_seen_checkpoint_height params_b compute_seconds flops_estimate claim_id claim_node_id
    model_id started_at ended_at last_seen_checkpoint_hash].
  rewrite Hid, !hex_valid. pose proof (start_node _ _ _ _ (nst_start Hstart)) as Hnode.
  rewrite !andb_true_iff. split_and!; auto.
Qed.

Lemma submit_refines x uuid now c c' evs r :
  wf_contribution x = true -> valid_str uuid = true -> valid_str now = true ->
  co_identity c = identity -> reach (state_of c) ->
  submit_contribution config x uuid now c = (c', evs, r) -> reach (state_of c').
Proof using CL SL EL Hstart.
  intros Hx Hu Hn Hid Hr [(-> & _)|(prec & tier & wt & -> & _)]%submit_contribution_cases; [done|].
  eapply reach_step; [exact Hr|]. cbn [co_protocol co_store with_consensus fst snd].
  apply step_submit_claim. rewrite Hid. apply wf_contribution_signed; try done.
  apply wrap_i64_range.
Qed.

Lemma is_finite_max a b : is_finite a = true -> is_finite b = true -> is_finite (f64_max a b) = true.
Proof. intros Ha Hb. unfold f64_max. by destruct (is_nan a), (is_nan b), (f64_ge a b). Qed.

Lemma record_refines model pc rc elapsed uuid now c :
  recordable model elapsed -> valid_str uuid = true -> valid_str now = true ->
  co_identity c = identity -> reach (state_of c) ->
  reach (state_of (record_inference_claim config model pc rc elapsed uuid now c).1).
Proof using CL SL EL Hstart.
  intros (Hm & He & Hp) Hu Hn Hid Hr. unfold record_inference_claim.
  destruct (negb (inference config)); [done|].
  destruct (model_params_b model) as [p|]; [|done]. cbv zeta.
  pose proof (Hp p eq_refl) as Hpf.
  pose proof (gpu_info_frame config c) as (Hg & Hg1 & Hg2). destruct (gpu_info config c) as [g c1].
  cbn [snd] in *. destruct (submit_contribution _ _ _ _ _) as [[c2 evs] r] eqn:E. cbn [fst].
  eapply submit_refines in E; try done.
  - unfold wf_contribution. cbn [ct_prompt_tokens ct_completion_tokens ct_params_b ct_compute_seconds
      ct_flops_estimate ct_model_id ct_started_at ct_ended_at default].
    assert (Hfl : is_finite (estimated_flops p (model_precision model) (estimate_tokens pc)
        (estimate_tokens rc)) = true).
    { apply (within_finite (700 + 112)), estimated_flops_within; try done; apply f64_to_i64_range. }
    rewrite Hfl, (within_finite _ _ Hpf), Hm, is_finite_max by done. unfold estimate_tokens.
    by rewrite !f64_to_i64_range.
  - rewrite (sf_identity _ _ Hg). done.
  - by rewrite Hg1, Hg2.
Qed.

Lemma tick_locked_refines ns :
  reach ns -> reach ((tick_locked config ns).1.1.1, (tick_locked config ns).1.1.2).
Proof.
  intros Hr. destruct (tick_locked config ns) as [[[st s] evs] takeover] eqn:E.
  eapply reach_step; [exact Hr|by eapply step_tick].
Qed.

Lemma tick_refines ns : reach ns -> reach ((tick config ns).1.1, (tick config ns).1.2).
Proof.
  intros Hr. unfold tick. destruct (tick_locked config ns) as [[[st s] evs] takeover] eqn:E.
  assert (Hr1 : reach (st, s)) by (eapply reach_step; [exact Hr|by eapply step_tick]).
  destruct takeover; [|done]. pose proof (step_propose_now config (st, s)) as Hp.
  destruct (propose_now config (st, s)) as [[st' s'] evs'].
  by eapply reach_step.
Qed.

Lemma propose_refines ns : reach ns -> reach ((propose_now config ns).1.1, (propose_now config ns).1.2).
Proof. intros Hr. eapply reach_step; [exact Hr|apply step_propose_now]. Qed.

(** One operation on consensus is a step of the protocol. *)
Lemma consensus_refines f c :
  (forall ns, reach ns -> reach ((f ns).1.1, (f ns).1.2)) -> reach (state_of c) ->
  reach (state_of (on_consensus f c).1).
Proof. intros Hf Hr. rewrite on_consensus_state. by apply Hf. Qed.

Lemma receive_refines topic m :
  wf_message m = true ->
  forall ns, reach ns -> reach ((receive config topic m ns).1.1, (receive config topic m ns).1.2).
Proof.
  intros Hw ns Hr. apply (reach_step _ _ _ _ ns (receive config topic m ns).2); [exact Hr|].
  eapply (step_receive _ _ topic m); [exact Hw|]. by destruct (receive _ _ _ _) as [[? ?] ?].
Qed.

Lemma sync_request_refines r ns :
  reach ns -> reach ((handle_sync_request r ns).1.1, (handle_sync_request r ns).1.2).
Proof.
  intros Hr. apply (reach_step _ _ _ _ ns (handle_sync_request r ns).2); [exact Hr|].
  eapply (step_sync_request _ _ r).
  by destruct (handle_sync_request _ _) as [[? ?] ?].
Qed.

Lemma sync_response_refines r ns :
  wf_message (MSyncResponse r) = true -> reach ns ->
  reach ((handle_sync_response config r ns).1.1, (handle_sync_response config r ns).1.2).
Proof.
  intros Hw Hr. apply (reach_step _ _ _ _ ns (handle_sync_response config r ns).2); [exact Hr|].
  eapply (step_sync_response _ _ r); [exact Hw|].
  by destruct (handle_sync_response _ _ _) as [[? ?] ?].
Qed.

Lemma prune_state now c c' :
  prune_peer_stats config now c = Done c' -> state_of c' = state_of c /\
  co_identity c' = co_identity c /\ co_infer_slots c' = co_infer_slots c.
Proof. unfold prune_peer_stats. destruct (telemetry_ttl config); [|done]. by intros [= <-]. Qed.

Lemma node_stats_state value now c c' :
  on_node_stats config value now c = Done c' -> state_of c' = state_of c /\
  co_identity c' = co_identity c /\ co_infer_slots c' = co_infer_slots c.
Proof.
  unfold on_node_stats. destruct (stats_from_value value) as [st|]; [|by intros [= <-]].
  destruct (String.eqb _ _); [by intros [= <-]|]. intros E. by apply prune_state in E.
Qed.

(** What an operation preserves: the identity and the permits, and being an execution of the
protocol. *)
Definition op_good (c c' : Coordinator) : Prop :=
  co_identity c' = co_identity c /\ co_infer_slots c' = co_infer_slots c /\
  (co_identity c = identity -> reach (state_of c) -> reach (state_of c')).

Lemma op_good_consensus f c :
  (forall ns, reach ns -> reach ((f ns).1.1, (f ns).1.2)) -> op_good c (on_consensus f c).1.
Proof.
  intros Hf. destruct (on_consensus_frame f c) as [? ? _ _]. split_and!; try done.
  intros _. by apply consensus_refines.
Qed.

Lemma op_good_same c c' :
  state_of c' = state_of c -> co_identity c' = co_identity c -> co_infer_slots c' = co_infer_slots c ->
  op_good c c'.
Proof. intros E ? ?. split_and!; try done. by rewrite E. Qed.

Lemma op_good_trans c1 c2 c3 : op_good c1 c2 -> op_good c2 c3 -> op_good c1 c3.
Proof.
  intros (E1 & E2 & G1) (E3 & E4 & G2). split_and!; [congruence..|].
  intros Hid Hr. apply G2; [congruence|auto].
Qed.

Lemma op_good_gpu c : op_good c (gpu_info config c).2.
Proof. destruct (gpu_info_frame config c) as ([] & Hp & Hs). apply op_good_same; try done. by rewrite Hp, Hs. Qed.

Lemma delivery_good topic value now c c' evs :
  (forall m, decode_message topic value = Some m -> wf_message m = true) ->
  on_delivery config topic value now c = Done (c', evs) -> op_good c c'.
Proof.
  intros Hw E. unfold on_delivery in E.
  destruct (String.eqb topic INFER_REQUESTS); [injection E as <- _; by apply op_good_same|].
  destruct (String.eqb topic INFER_RESPONSES).
  { injection E as <- _. unfold on_infer_response.
    destruct (infer_response_from_value value) as [r|]; [|by apply op_good_same].
    destruct (String.eqb _ _); [by apply op_good_same|].
    destruct (co_infer_tx c !! _); by apply op_good_same. }
  destruct (String.eqb topic HEALTH).
  { destruct (on_node_stats _ _ _ _) as [c1| |] eqn:E1; try done. injection E as <- _.
    apply node_stats_state in E1 as (? & ? & ?). by apply op_good_same. }
  destruct (String.eqb_spec topic SYNC) as [->|Hs].
  - unfold decode_message in Hw. cbn in Hw.
    destruct (sync_request_from_value value) as [r|].
    { injection E as E. rewrite (surjective_pairing (on_consensus _ _)) in E. injection E as <- _.
      apply op_good_consensus, sync_request_refines. }
    destruct (sync_response_from_value value) as [r|]; [|injection E as <- _; by apply op_good_same].
    injection E as E. rewrite (surjective_pairing (on_consensus _ _)) in E. injection E as <- _.
    apply op_good_consensus. intros ns. apply sync_response_refines. by apply Hw.
  - destruct (decode_message topic value) as [m|]; [|injection E as <- _; by apply op_good_same].
    injection E as E. rewrite (surjective_pairing (on_consensus _ _)) in E. injection E as <- _.
    apply op_good_consensus, receive_refines. by apply Hw.
Qed.

Lemma turn_good now c c' evs : run_turn config now c = Done (c', evs) -> op_good c c'.
Proof.
  intros E. unfold run_turn in E.
  pose proof (op_good_consensus (tick config) c tick_refines) as G1.
  destruct (on_consensus (tick config) c) as [c1 evs1]. cbn [fst] in G1.
  unfold announce_telemetry in E. pose proof (op_good_gpu c1) as G2.
  destruct (gpu_info config c1) as [g c2]. cbn [snd] in G2.
  destruct (prune_peer_stats config now c2) as [c3| |] eqn:Ep; try done.
  apply prune_state in Ep as (Es & Ei & El).
  assert (G3 : op_good c c3) by (eapply op_good_trans; [exact G1|]; eapply op_good_trans; [exact G2|by apply op_good_same]).
  destruct (is_sealer _ _ _); [|by injection E as <- _].
  rewrite (surjective_pairing (on_consensus _ c3)) in E. injection E as <- _.
  eapply op_good_trans; [exact G3|]. apply op_good_consensus, propose_refines.
Qed.

Lemma complete_good path turns limit ob post c r c' acts :
  complete_local config path turns limit ob post c = (r, c', acts) -> op_good c c'.
Proof.
  unfold complete_local. destruct (clamp _ _ _) as [n|]; [|intros [= _ <- _]; by apply op_good_same].
  destruct (String.eqb _ _).
  - destruct (chat _ _ _ _ _ _ _) as [[r1 st1] a1]. intros [= _ <- _]. by apply op_good_same.
  - pose proof (op_good_gpu c) as Hg. destruct (gpu_info config c) as [g c1].
    by intros [= _ <- _].
Qed.

Lemma node_op_good c c' : node_op config c c' -> op_good c c'.
Proof using CL SL EL Hstart.
  intros [topic value now ? evs Hw E|x uuid now ? evs r Hx Hu Hn E| | |now ? evs E|id model limit ms|id
    |path turns limit ob post r ? acts E| | |order now v ? E|model pc rc elapsed uuid now Hrec Hu Hn| | |name|name].
  - by eapply delivery_good.
  - split_and!; [by eapply submit_contribution_frame in E as []..|].
    intros Hid Hr. exact (submit_refines _ _ _ _ _ _ _ Hx Hu Hn Hid Hr E).
  - apply op_good_consensus, tick_locked_refines.
  - apply op_good_consensus, propose_refines.
  - by eapply turn_good.
  - by apply op_good_same.
  - by apply op_good_same.
  - by eapply complete_good.
  - apply op_good_gpu.
  - unfold node_telemetry. pose proof (op_good_gpu c) as Hg. destruct (gpu_info config c) as [g c1].
    destruct (percent (co_sampler c1)) as [f s1]. cbn [snd] in *.
    eapply op_good_trans; [exact Hg|by apply op_good_same].
  - unfold distributed_capacity in E. pose proof (op_good_gpu c) as Hg.
    destruct (gpu_info config c) as [g c1]. cbn [snd] in Hg.
    destruct (prune_peer_stats config now c1) as [c2| |] eqn:Ep; try done. injection E as _ <-.
    apply prune_state in Ep as (? & ? & ?). eapply op_good_trans; [exact Hg|by apply op_good_same].
  - destruct (record_inference_frame config model pc rc elapsed uuid now c) as [? ? _ _].
    split_and!; [done..|]. intros Hid Hr. by apply record_refines.
  - by apply op_good_same.
  - by apply op_good_same.
  - by apply op_good_same.
  - by apply op_good_same.
Qed.
End Refinement.
