(* ===== verification/CoordinatorProps.v ===== *)
(** * Properties of a whole node *)

From S2P Require Import Prelude F64 Crypto CryptoTheory Models Accounting Config Text Host Inference InferenceProps ConfigProps.
From S2P Require Import ModelsProps Http HttpProps LlamaServer Ledger LedgerTheory Validation ValidationTheory Protocol.
From S2P Require Import ProtocolTheory ProtocolInv ProtocolSteps Decimal Decode Rewards Identity Coordinator CoordinatorSteps.

Section NodeTheorems.
Context `{CL : CryptoLaws} `{SL : SerdeLaws} `{EL : EnvLaws} `{RewardEnv} `{HostOs} `{ProcessEnv}.
Context `{Unicode} `{JsonText} `{Runtime} `{Decoders}.
Variable config : ExodusConfig.
Variable identity : NodeIdentity.
Variable s0 : ChainStore.
Hypothesis Hstart : node_start config identity s0.

(** A new coordinator holds the new protocol state of its identity. *)
Lemma coordinator_new_state hook c :
  coordinator_new config identity s0 hook = Some c ->
  co_identity c = identity /\ co_infer_slots c = slot_count config /\ co_seq c = 0 /\
  co_peer_stats c = ∅ /\ co_hooks c = (if hook then ["caller"] else []) /\
  (co_protocol c, co_store c) =
    new config (id_node_id identity) (id_private_key identity) (id_public_key_hex identity) s0.
Proof.
  unfold coordinator_new. destruct (duration_ns _); [|done]. unfold new_server.
  intros [= <-]. cbn. by rewrite <- surjective_pairing.
Qed.

Lemma begin_inference_good request c c' evs b :
  begin_inference request c = (c', evs, b) ->
  co_identity c' = co_identity c /\ co_protocol c' = co_protocol c /\ co_store c' = co_store c /\
  co_peer_stats c' = co_peer_stats c /\
  (if b then 0 < co_infer_slots c /\ co_infer_slots c' = co_infer_slots c - 1
   else co_infer_slots c <= 0 /\ c' = c).
Proof.
  unfold begin_inference. destruct (0 <? co_infer_slots c) eqn:E; intros [= <- _ <-]; bool_prop; done.
Qed.

(** What finishing a request does. *)
Lemma finish_inference_good request r elapsed uuid now c c' evs :
  finish_inference config request r elapsed uuid now c = (c', evs) ->
  co_identity c' = co_identity c /\ co_infer_slots c' = co_infer_slots c + 1 /\
  co_peer_stats c' = co_peer_stats c /\
  ((co_protocol c', co_store c') = (co_protocol c, co_store c) \/
   exists reply pc, r = Ok reply /\
     (co_protocol c', co_store c') =
     let c1 := (record_inference_claim config (iq_model request) pc (usize_len (chars reply))
                  elapsed uuid now c).1 in (co_protocol c1, co_store c1)).
Proof.
  unfold finish_inference. destruct r as [reply|e]; cbn [andb].
  - destruct (inference config); [|intros [= <- _]; cbn; by split_and!; [..|left]].
    set (pc := foldr _ 0 _). intros E.
    pose proof (record_inference_frame config (iq_model request) pc (usize_len (chars reply)) elapsed uuid now c)
      as [F1 F2 F3 _].
    destruct (record_inference_claim _ _ _ _ _ _ _ _) as [c1 evs1] eqn:Er. cbn [fst] in *.
    injection E as <- _. cbn. split_and!; [done|by rewrite F2|done|].
    right. exists reply, pc. by rewrite Er.
  - intros [= <- _]. cbn. by split_and!; [..|left].
Qed.

Lemma node_run_good c n :
  node_run config identity s0 c n ->
  co_identity c = identity /\
  reachable config (id_node_id identity) (id_private_key identity) s0 (co_protocol c, co_store c) /\
  0 <= co_infer_slots c /\ Z.of_nat n + co_infer_slots c = slot_count config.
Proof using CL SL EL Hstart.
  induction 1 as [hook c E|c c' n Hr IH Hop|c c' n request evs Hr IH E|c c' n request evs Hr IH E
    |c c' n request r elapsed uuid now evs Hr IH Hrec Hu Hn E].
  - apply coordinator_new_state in E as (Hid & Hs & _ & _ & _ & E). rewrite E, (nst_public _ _ _ Hstart), Hs.
    split_and!; [done|apply reach_new| |done]. unfold slot_count. lia.
  - destruct IH as (Hid & Hreach & Hs & Hn).
    destruct (node_op_good config identity s0 Hstart _ _ Hop) as (E1 & E2 & E3).
    split_and!; [congruence|auto|lia..].
  - destruct IH as (Hid & Hreach & Hs & Hn).
    apply begin_inference_good in E as (E1 & E2 & E3 & _ & E4 & E5). rewrite E2, E3.
    split_and!; [congruence|done|lia..].
  - destruct IH as (Hid & Hreach & Hs & Hn). by apply begin_inference_good in E as (_ & _ & _ & _ & _ & ->).
  - destruct IH as (Hid & Hreach & Hs & Hn').
    apply finish_inference_good in E as (E1 & E2 & _ & E3).
    split_and!; [congruence| |lia..]. destruct E3 as [->|(reply & pc & -> & ->)]; [done|].
    by apply (record_refines config identity s0 Hstart).
Qed.

(** C10: a whole node is an execution of the consensus protocol: whatever the transport
delivers, callers submit, the main loop and the inference workers do, and in whatever order,
the protocol state and the ledger of the coordinator are a reachable state of the protocol, so
every invariant of [reachable] states holds of the running node. *)
Theorem node_refines_protocol c n :
  node_run config identity s0 c n ->
  reachable config (id_node_id identity) (id_private_key identity) s0 (co_protocol c, co_store c).
Proof using CL SL EL Hstart. intros Hr. by apply node_run_good in Hr as (_ & ? & _). Qed.

(** remote inference is bounded: at every moment the running workers and the free permits add
up to the configured number of slots (at least one), so no more workers run than that, and a
request that finds no permit free is answered with an error and starts nothing. *)
Theorem workers_bounded c n request c' evs b :
  node_run config identity s0 c n -> begin_inference request c = (c', evs, b) ->
  Z.of_nat n + co_infer_slots c = slot_count config /\ Z.of_nat n <= slot_count config /\
  (b = false <-> Z.of_nat n = slot_count config) /\
  (b = false -> c' = c /\
     evs = [respond request "" (Some "node busy: too many concurrent inferences") c]).
Proof using CL SL EL Hstart.
  intros Hr E. apply node_run_good in Hr as (_ & _ & Hs & Hn).
  unfold begin_inference in E. destruct (0 <? co_infer_slots c) eqn:Eb; injection E as <- <- <-; bool_prop.
  - split_and!; [done|lia|split; [done|lia]|done].
  - split_and!; [done|lia|split; [lia|done]|done].
Qed.
End NodeTheorems.

(** ** Submissions *)

Section Submissions.
Context `{CL : CryptoLaws} `{SL : SerdeLaws} `{EL : EnvLaws} `{RewardEnv} `{HostOs} `{ProcessEnv}.
Context `{Unicode} `{JsonText} `{Runtime} `{Decoders}.
Variable config : ExodusConfig.

(** A successful submission gossips the signed claim with the next sequence number. *)
Lemma submission_gossiped x uuid now c c' evs id :
  submit_contribution config x uuid now c = (c', evs, Ok id) ->
  uuid ∉ ps_committed_claim_ids (co_protocol c) -> ps_pending (co_protocol c) !! uuid = None ->
  exists prec tier wt signed, id = uuid /\
    sc_claim signed = contribution_claim x prec tier wt uuid now (wrap_i64 (co_seq c + 1)) c /\
    signed_verify signed = true /\
    claim_key signed = (id_node_id (co_identity c), wrap_i64 (co_seq c + 1)) /\
    ps_pending (co_protocol c') !! uuid = Some signed /\
    Sent CLAIMS (message_to_value (MContributionGossip (mkGossip signed))) ∈ evs /\
    co_store c' = co_store c /\ co_seq c' = wrap_i64 (co_seq c + 1).
Proof.
  intros Hsub Hcom Hpen.
  apply submit_contribution_cases in Hsub as [(_ & _ & e & [=])|(prec & tier & wt & -> & -> & Hr)].
  set (signed := signed_create _ _) in *. exists prec, tier, wt, signed.
  assert (Hid : claim_id (sc_claim signed) = uuid) by done.
  unfold submit_claim in *. rewrite Hid in *.
  destruct (negb (String.eqb _ _)); [done|].
  destruct (signed_verify signed) eqn:Hver; [|done]. cbn [negb] in *.
  destruct (negb (flops_is_plausible _ _)); [done|]. unfold run in *. cbv zeta in *.
  rewrite Hpen in *. rewrite bool_decide_eq_false_2 in * by (by intros [? ?]).
  rewrite bool_decide_eq_false_2 in * by done. cbn [orb] in *. unfold push, drain in *. cbn in Hr |- *.
  injection Hr as ->. split_and!; try done.
  - by rewrite lookup_insert_eq.
  - unfold co_events, flush. cbn. rewrite !map_app, !bind_app. cbn. set_solver.
Qed.

(** The protocol state of a coordinator started on a ledger with blocks. *)
Lemma coordinator_new_fresh identity s hook c :
  coordinator_new config identity s hook = Some c -> height s <> -1 ->
  co_store c = s /\ ps_pending (co_protocol c) = ∅ /\
  ps_committed_claim_ids (co_protocol c) = list_to_set (map rec_claim_id (all_claims s)).
Proof.
  unfold coordinator_new. destruct (duration_ns _); [|done]. unfold new_server.
  intros [= <-] Hh. cbn [co_store co_protocol]. unfold new, ensure_genesis.
  rewrite (proj2 (Z.eqb_neq _ _) Hh). cbn. done.
Qed.

(** sequence numbers start over when a node restarts: the first contribution a coordinator
submits after a start on a ledger that already holds this node's claim number 1 is accepted,
queued and gossiped with that same number, and no block that carries it extends this ledger,
now or after any further blocks: the work can never be committed. *)
Theorem restart_reuses_sequence identity chain hook c x uuid now c' evs id :
  valid_chain chain -> (id_node_id identity, 1) ∈ (claim_key <$> chain_claims chain) ->
  uuid ∉ map rec_claim_id (all_claims (store_of chain)) ->
  coordinator_new config identity (store_of chain) hook = Some c ->
  submit_contribution config x uuid now c = (c', evs, Ok id) ->
  exists signed, ps_pending (co_protocol c') !! uuid = Some signed /\
    Sent CLAIMS (message_to_value (MContributionGossip (mkGossip signed))) ∈ evs /\
    forall more b, signed ∈ cp_claims b -> ~ extends (chain ++ more) b.
Proof.
  intros Hv Hkey Hu Hnew Hsub.
  assert (Hne : height (store_of chain) <> -1).
  { rewrite height_of by done. destruct chain; [set_solver|]. cbn [length]. lia. }
  destruct (coordinator_new_fresh _ _ _ _ Hnew Hne) as (Hs & Hp & Hc).
  assert (Hids : co_identity c = identity /\ co_seq c = 0).
  { apply coordinator_new_state in Hnew as (? & _ & ? & _). done. }
  destruct Hids as [Hid Hseq].
  apply submission_gossiped in Hsub as (prec & tier & wt & signed & -> & _ & _ & Hck & Hpend & Hev & _).
  2:{ rewrite Hc. by rewrite elem_of_list_to_set. }
  2:{ by rewrite Hp. }
  exists signed. split_and!; [done..|]. intros more b Hin Hx.
  pose proof (ext_seqs _ _ Hx) as Hnd. rewrite chain_claims_app, <- app_assoc, fmap_app in Hnd.
  apply NoDup_app in Hnd as (_ & Hdisj & _).
  apply (Hdisj (id_node_id identity, 1)); [done|]. rewrite Hid, Hseq in Hck.
  change (wrap_i64 (0 + 1)) with 1 in Hck. rewrite <- Hck.
  apply list_elem_of_fmap_2. apply elem_of_app. by right.
Qed.

(** ** Recorded work *)

(** completed work is credited: when inference is on, the model's size is in its name and the
estimate is finite, positive and within the rate of the node's device, recording a completion
queues a claim of this node for exactly the estimated work, with a valid signature, and
gossips it. *)
Theorem completed_work_recorded identity model pc rc secs uuid now c p :
  co_identity c = identity -> ps_node_id (co_protocol c) = id_node_id identity ->
  String.length (id_private_key identity) = 32%nat ->
  id_node_id identity = node_id_from_public_key (public_key_from_private (id_private_key identity)) ->
  inference config = true -> model_params_b model = Some p ->
  uuid ∉ ps_committed_claim_ids (co_protocol c) -> ps_pending (co_protocol c) !! uuid = None ->
  let flops := estimated_flops p (model_precision model) (estimate_tokens pc) (estimate_tokens rc) in
  let seconds := f64_max secs (f64_lit 1 1000) in
  let tier := gpu_tier (gpu_info config c).1 in
  is_finite flops = true -> f64_lt f64_0 flops = true -> f64_le f64_0 (flops_tolerance config) = true ->
  f64_gt (f64_div flops seconds)
    (f64_mul (device_tier_flops_per_second tier) (f64_add f64_1 (flops_tolerance config))) = false ->
  exists c' evs signed,
    record_inference_claim config model pc rc secs uuid now c = (c', evs) /\
    ps_pending (co_protocol c') !! uuid = Some signed /\ signed_verify signed = true /\
    flops_estimate (sc_claim signed) = flops /\ model_id (sc_claim signed) = model /\
    Sent CLAIMS (message_to_value (MContributionGossip (mkGossip signed))) ∈ evs.
Proof.
  intros Hid Hnode Hkey Hname Hinf Hp Hcom Hpen flops seconds tier Hfin Hpos Htol Hrate.
  unfold record_inference_claim. rewrite Hinf, Hp. cbn [negb].
  pose proof (gpu_info_frame config c) as ([Fi _ _ _] & Gp & Gs). subst tier.
  destruct (gpu_info config c) as [g c1]. cbn [fst snd] in *.
  destruct (submit_contribution config _ uuid now c1) as [[c' evs] r] eqn:Esub.
  assert (Hok : r = Ok uuid).
  { pose proof Esub as E. unfold submit_contribution in E. cbn [ct_precision ct_device_tier ct_work_type] in E.
    rewrite (proj2 (proj1 (proj2 enum_names_roundtrip) _ _) eq_refl) in E.
    unfold tier_string in E. rewrite (proj2 (proj2 (proj2 enum_names_roundtrip) _ _) eq_refl) in E.
    change (WorkType_from_str "text_generation") with (@Ok WorkType string TextGeneration) in E.
    cbv zeta in E.
    revert E. unfold submit_claim. cbn [co_protocol co_store with_seq co_identity].
    set (signed := signed_create _ _).
    assert (V : signed_verify signed = true).
    { unfold signed. rewrite signed_create_spec by (by rewrite Fi, Hid). unfold contribution_claim.
      cbn [claim_node_id co_identity with_seq]. rewrite Fi, Hid, Hname. apply String.eqb_refl. }
    assert (N : String.eqb (claim_node_id (sc_claim signed)) (ps_node_id (co_protocol c1)) = true).
    { cbn. rewrite Gp, Hnode, Fi, Hid. apply String.eqb_refl. }
    assert (P : flops_is_plausible (sc_claim signed) (flops_tolerance config) = true).
    { rewrite estimate_plausible; [|done..]. cbn [sc_claim signed_create signed contribution_claim
        compute_seconds flops_estimate device_tier ct_compute_seconds ct_flops_estimate].
      fold flops seconds. rewrite Hrate. by rewrite andb_false_r. }
    rewrite V, N, P. cbn [negb]. destruct (run _ _) as [[st s'] evs']. by intros [= _ _ <-]. }
  subst r.
  apply submission_gossiped in Esub as (prec & tier & wt & signed & _ & Hc & Hver & _ & Hpend & Hev & _);
    [|by rewrite Gp..].
  exists c', evs, signed. by rewrite Hc.
Qed.
End Submissions.

(** ** Requested models *)

Lemma split_on_sep c a b : split_on c (a +:+ String c b) = split_on c a ++ split_on c b.
Proof.
  induction a as [|x a IH]; autorewrite with exodus_rw; cbn; [by rewrite Ascii.eqb_refl|].
  destruct (Ascii.eqb x c); [by rewrite IH|]. rewrite IH.
  destruct (split_on c a) as [|p ps] eqn:E; [by apply split_on_nonempty in E|done].
Qed.

Lemma ends_with_slash_inv p : ends_with_slash p = true -> exists q, p = q +:+ "/".
Proof.
  induction p as [|a p IH]; [done|]. destruct p as [|b p].
  - cbn. intros ->%Ascii.eqb_eq. by exists "".
  - intros E. destruct (IH E) as [q ->]. exists (String a q). by autorewrite with exodus_rw.
Qed.

Lemma contains_char c s : str_contains (String c "") s = false -> no_char c s = true.
Proof.
  unfold no_char. induction s as [|a s IH]; cbn; [done|]. unfold starts_with. cbn.
  destruct (Ascii.eqb_spec c a) as [->|Hn]; [by destruct s|]. intros E. rewrite IH; [|done].
  destruct (Ascii.eqb_spec a c) as [->|]; done.
Qed.

(** A plain file name stays the last component under any directory. *)
Lemma file_name_join dir name :
  name <> "" -> no_char "/" name = true -> starts_with "." name = false ->
  file_name (path_join dir name) = Some name.
Proof.
  intros Hne Hs Hd.
  assert (Hdot : name <> "." /\ name <> "..") by (split; intros ->; done).
  assert (Hcomp : forall path l, split_on "/" path = l ++ [name] -> file_name path = Some name).
  { intros path l E. unfold file_name. rewrite E, filter_app, filter_cons_True, filter_nil, last_snoc.
    - by rewrite (proj2 (String.eqb_neq _ _) (proj2 Hdot)).
    - by rewrite (proj2 (String.eqb_neq _ _) Hne), (proj2 (String.eqb_neq _ _) (proj1 Hdot)). }
  pose proof (split_on_none "/" name Hs) as Hsplit.
  unfold path_join. destruct name as [|a name]; [done|].
  assert (Ha : Ascii.eqb a "/" = false).
  { unfold no_char in Hs. cbn in Hs. apply andb_true_iff in Hs as [Ha _]. by apply negb_true_iff in Ha. }
  rewrite Ha. destruct (String.eqb_spec dir "") as [->|Hdir]; [by apply (Hcomp _ [])|].
  destruct (ends_with_slash dir) eqn:Es.
  - apply ends_with_slash_inv in Es as [q ->]. rewrite string_app_assoc. autorewrite with exodus_rw.
    apply (Hcomp _ (split_on "/" q)). by rewrite split_on_sep, Hsplit.
  - autorewrite with exodus_rw. apply (Hcomp _ (split_on "/" dir)). by rewrite split_on_sep, Hsplit.
Qed.

Section Requests.
Context `{HostOs}.
Variable config : ExodusConfig.

(** a peer's request only ever runs a file of the models directory: when it gets to the
backend, the path is the requested name joined to the models directory, that name is its last
component (it holds no separator and is not [.] or [..]), the file exists, and the token limit
is at least one and at most the configured one. *)
Theorem requested_model_confined request path n :
  requested_run config request = Done (Ok (path, n)) ->
  path = path_join (models_dir config) (iq_model request) /\
  file_name path = Some (iq_model request) /\ path_is_file path = true /\
  1 <= n <= max_tokens config.
Proof.
  unfold requested_run. destruct (model_name_refused (iq_model request)) eqn:Er; [done|].
  destruct (path_is_file _) eqn:Ef; [|done]. cbn [negb]. unfold clamp.
  destruct (max_tokens config <? 1) eqn:Em; [done|]. intros [= <- <-].
  unfold model_name_refused in Er. bool_prop. split_and!; try done; try lia.
  apply file_name_join; [done|by apply contains_char|done].
Qed.

(** With a configured limit below one, every request for a present model panics its worker. *)
Theorem token_limit_panics request :
  max_tokens config < 1 -> model_name_refused (iq_model request) = false ->
  path_is_file (path_join (models_dir config) (iq_model request)) = true ->
  requested_run config request = Panics.
Proof.
  intros Hm Hr Hf. unfold requested_run, clamp. rewrite Hr, Hf. cbn.
  by rewrite (proj2 (Z.ltb_lt _ _) Hm).
Qed.
End Requests.

(** ** Telemetry *)

Section Telemetry.
Context `{CL : CryptoLaws} `{SL : SerdeLaws} `{EL : EnvLaws} `{RewardEnv} `{HostOs} `{ProcessEnv}.
Context `{Unicode} `{JsonText} `{Runtime} `{Decoders}.
Variable config : ExodusConfig.

(** An announcement of a peer is kept under its name, and what remains is fresh. *)
Lemma on_node_stats_fresh value now c c' :
  on_node_stats config value now c = Done c' ->
  c' = c \/ exists ttl stats, telemetry_ttl config = Some ttl /\ stats_from_value value = Some stats /\
    ns_node_id stats <> id_node_id (co_identity c) /\
    co_peer_stats c' = retain_fresh (now - ttl) (<[ns_node_id stats := (stats, now)]> (co_peer_stats c)).
Proof.
  unfold on_node_stats, prune_peer_stats. destruct (stats_from_value value) as [stats|]; [|intros [= <-]; by left].
  destruct (String.eqb_spec (ns_node_id stats) (id_node_id (co_identity c))); [intros [= <-]; by left|].
  destruct (telemetry_ttl config) as [ttl|]; [|done]. intros [= <-]. right. by exists ttl, stats.
Qed.
End Telemetry.
