(* ===== verification/CoordinatorDemo.v ===== *)
(** * A concrete node

The coordinator with executable stand-ins for everything outside the sources, and the
theorems on whole nodes applied to it. *)

From S2P Require Import Prelude F64 Crypto CryptoTheory Models Accounting Instances Config Text Host Inference.
From S2P Require Import InferenceProps Http LlamaServer LlamaProps Ledger LedgerTheory LedgerProps Validation.
From S2P Require Import ValidationTheory Protocol ProtocolTheory ProtocolInv ProtocolSteps ProtocolProps Decode.
From S2P Require Import Rewards RewardsProps Identity Coordinator CoordinatorSteps CoordinatorProps.

Module CoordinatorDemo.
#[local] Existing Instance Toy.crypto_inst.
#[local] Existing Instance Toy.serde_inst.
#[local] Existing Instance toy_crypto_laws.
#[local] Existing Instance toy_serde_laws.
#[local] Existing Instance ProtocolDemo.env_inst.
#[local] Existing Instance ProtocolDemo.env_laws.
#[local] Existing Instance RewardsDemo.env_inst.
#[local] Existing Instance InferenceDemo.env.
#[local] Existing Instance InferenceDemo.runtime.
#[local] Existing Instance InferenceTests.ascii_tables.
#[local] Existing Instance LlamaDemo.no_json.
#[local] Existing Instance Derived.decoders.

(** A host with one model file and no GPU. *)
#[local] Instance host : HostOs := {|
  nvidia_smi := fun _ => None; read_to_string := fun _ => None; path_exists := fun _ => false;
  path_is_file := fun p => String.eqb p "/data/models/a-7b.gguf";
  available_parallelism := Some 4 |}.

Definition cfg : ExodusConfig := default_config "/data".
Definition identity : NodeIdentity :=
  mkIdentity Demo.node Demo.seed (hex (public_key_from_private Demo.seed)).

Definition boot (s : ChainStore) : Coordinator :=
  default (mkCoordinator identity (new cfg "" "" "" s).1 s [] 0 [] None ∅ 0 None ∅
             (mkLlamaServer "" "" 0 0 0) (mkServerState None None 0 ""))
    (coordinator_new cfg identity s false).

Definition request : InferenceRequest :=
  mkInferenceRequest "r1" Demo.node2 "a-7b.gguf" 4096 [mkInferenceTurn "user" "hi"].

Lemma started : node_start cfg identity empty_store.
Proof.
  split; [|reflexivity]. split; [reflexivity|vm_compute; reflexivity|].
  exists []. split; [done|apply sound_nil].
Qed.

Lemma boot_some s :
  match coordinator_new cfg identity s false with Some _ => true | None => false end = true ->
  coordinator_new cfg identity s false = Some (boot s).
Proof. unfold boot. by destruct (coordinator_new cfg identity s false). Qed.

Lemma boot_run : node_run cfg identity empty_store (boot empty_store) 0.
Proof. apply (run_started _ _ _ false), boot_some. vm_compute. reflexivity. Qed.

Definition busy : Coordinator := (begin_inference request (boot empty_store)).1.1.

Lemma busy_run : node_run cfg identity empty_store busy 1.
Proof.
  assert (E : (begin_inference request (boot empty_store)).2 = true) by (vm_compute; reflexivity).
  apply (run_worker _ _ _ (boot empty_store) busy 0 request (begin_inference request (boot empty_store)).1.2);
    [apply boot_run|].
  unfold busy. rewrite <- E. by destruct (begin_inference request (boot empty_store)) as [[? ?] ?].
Qed.

Lemma node_refines_protocol_witness :
  reachable cfg Demo.node Demo.seed empty_store (co_protocol busy, co_store busy).
Proof. apply (node_refines_protocol cfg identity empty_store started busy 1 busy_run). Defined.

Lemma workers_bounded_witness :
  slot_count cfg = 1 /\ (begin_inference request busy).1.1 = busy /\
  (begin_inference request busy).1.2 =
    [respond request "" (Some "node busy: too many concurrent inferences") busy].
Proof.
  assert (Hb : (begin_inference request busy).2 = false) by (vm_compute; reflexivity).
  destruct (begin_inference request busy) as [[c' evs] b] eqn:E. cbn [fst snd] in *.
  destruct (workers_bounded cfg identity empty_store started busy 1 request c' evs b busy_run E)
    as (_ & _ & _ & H).
  split; [vm_compute; reflexivity|]. by apply H.
Defined.

(** Work of a 7-billion model: the node's first contribution of a run. *)
Definition work : Contribution :=
  mkContribution "a-7b.gguf" (f64_of_Z 7) "fp16" 10 20 (f64_of_Z 4)
    (estimated_flops (f64_of_Z 7) Fp16 10 20) "cpu" "text_generation" None None.

Local Abbreviation resubmit :=
  (submit_contribution cfg work "c9" "2026-08-06T00:00:00+00:00" (boot (store_of LedgerDemo.chain2))).

Lemma resubmit_ok : resubmit.2 = Ok "c9".
Proof. vm_compute. reflexivity. Qed.

Lemma resubmit_eq : resubmit = (resubmit.1.1, resubmit.1.2, Ok "c9").
Proof.
  pose proof resubmit_ok as Hok. destruct (submit_contribution _ _ _ _ _) as [[c' evs] r]. cbn [fst snd] in *. by subst r.
Qed.

Lemma first_claim_committed : (id_node_id identity, 1) ∈ (claim_key <$> chain_claims LedgerDemo.chain2).
Proof. apply (bool_decide_unpack _). vm_compute. exact I. Qed.

Lemma fresh_id : "c9" ∉ map rec_claim_id (all_claims (store_of LedgerDemo.chain2)).
Proof. apply (bool_decide_unpack _). vm_compute. exact I. Qed.

Lemma reboot : coordinator_new cfg identity (store_of LedgerDemo.chain2) false =
  Some (boot (store_of LedgerDemo.chain2)).
Proof. apply boot_some. vm_compute. reflexivity. Qed.

Lemma restart_reuses_sequence_witness :
  exists signed, ps_pending (co_protocol resubmit.1.1) !! "c9" = Some signed /\
    Sent CLAIMS (message_to_value (MContributionGossip (mkGossip signed))) ∈ resubmit.1.2 /\
    forall more b, signed ∈ cp_claims b -> ~ extends (LedgerDemo.chain2 ++ more) b.
Proof.
  exact (restart_reuses_sequence cfg identity LedgerDemo.chain2 false (boot (store_of LedgerDemo.chain2))
    work "c9" "2026-08-06T00:00:00+00:00" resubmit.1.1 resubmit.1.2 "c9" LedgerDemo.chain2_valid
    first_claim_committed fresh_id reboot resubmit_eq).
Defined.

Lemma completed_work_recorded_witness :
  exists c' evs signed,
    record_inference_claim cfg "a-7b.gguf" 40 80 (f64_of_Z 4) "c1" "2026-08-06T00:00:00+00:00"
      (boot empty_store) = (c', evs) /\
    ps_pending (co_protocol c') !! "c1" = Some signed /\ signed_verify signed = true /\
    flops_estimate (sc_claim signed) = estimated_flops (f64_of_Z 7) Fp16 10 20 /\
    model_id (sc_claim signed) = "a-7b.gguf" /\
    Sent CLAIMS (message_to_value (MContributionGossip (mkGossip signed))) ∈ evs.
Proof.
  apply (completed_work_recorded cfg identity "a-7b.gguf" 40 80 (f64_of_Z 4) "c1"
    "2026-08-06T00:00:00+00:00" (boot empty_store) (f64_of_Z 7)); try (vm_compute; reflexivity).
  apply (bool_decide_unpack _). vm_compute. exact I.
Defined.

Lemma requested_model_confined_witness :
  file_name "/data/models/a-7b.gguf" = Some "a-7b.gguf".
Proof.
  assert (E : requested_run cfg request = Done (Ok ("/data/models/a-7b.gguf", 256)))
    by (vm_compute; reflexivity).
  destruct (requested_model_confined cfg request _ _ E) as (_ & H & _). exact H.
Defined.
End CoordinatorDemo.
