(* ===== verification/Api.v ===== *)
(** * The HTTP interface ([src/api.rs])

One definition per handler of the router: it takes the decoded request and the node, and gives
the response, the new state of the node and what the node hands to the outside.  The models
directory is a map from names to entries; what the file system may refuse is an argument of
the handlers that write.  A chat is split at the point where it waits: [chat] starts the
completion and asks the peers, [finish_chat] collects what has arrived and answers; anything
may happen to the node in between.  The table of routes is in its own file; the decoding
of requests and the connection of an event stream are those of the web framework. *)

From S2P Require Import Prelude F64 Crypto Models Accounting Config Text Host Inference Http LlamaServer.
From S2P Require Import Ledger Validation Protocol Decode Rewards Identity Network Agreement Coordinator.

Record Response := mkResponse { rs_status : Z; rs_body : Value }.

Definition error_body (text : string) : Value := json_object [("error", VString text)].

(** ** Requests *)

Record ClaimPayload := mkClaimPayload {
  cq_model_id : string;
  cq_params_b : f64;
  cq_precision : string;
  cq_prompt_tokens : Z;
  cq_completion_tokens : Z;
  cq_compute_seconds : f64;
  cq_flops_estimate : f64;
  cq_device_tier : option string;
  (** [None] when the field is missing *)
  cq_work_type : option string;
  cq_started_at : option string;
  cq_ended_at : option string;
}.

Definition default_work : string := "text_generation".

Record ChatRequest := mkChatRequest { cr_model : option string; cr_messages : list ChatTurn }.

(** ** Model names and the models directory *)

Definition safe_model_name (name : string) : bool :=
  negb (String.eqb name "") && negb (String.eqb name ".") && negb (String.eqb name "..") &&
  negb (starts_with "." name) && negb (str_contains "/" name) &&
  negb (str_contains (String backslash "") name).

Inductive DirEntry :=
| File (content : bytes)
| Directory (size : Z).

(** The entries of the models directory; [None] when there is no such directory. *)
Definition ModelsDir : Type := option (gmap string DirEntry).

Definition dir_entries (d : ModelsDir) : list (string * DirEntry) := map_to_list (default ∅ d).

Definition entry_size (e : DirEntry) : Z :=
  match e with File content => str_len content | Directory n => n end.

Definition name_le (a b : string * DirEntry) : bool := string_le a.1 b.1.

Definition available_models (d : ModelsDir) : list Value :=
  map (fun p => json_object [("name", VString p.1); ("size_bytes", json_int (entry_size p.2))])
    (sort_by name_le (dir_entries d)).

Definition model_files (d : ModelsDir) : list string :=
  sort_strings (filter (fun n => safe_model_name n = true) (map fst (dir_entries d))).

Definition model_path_for (config : ExodusConfig) (d : ModelsDir) (model : string) : option string :=
  match (if String.eqb model "auto" then hd_error (model_files d) else Some model) with
  | None => None
  | Some name =>
      if negb (safe_model_name name) then None
      else match d ≫= (fun m => m !! name) with
           | Some (File _) => Some (path_join (models_dir config) name)
           | _ => None
           end
  end.

(** ** Uploads *)

Definition MAX_UPLOAD_BYTES : Z := 512 * 1024 * 1024 * 1024.

(** What the file system does for one upload: whether creating the directory, creating the
temporary file, removing it and renaming it succeed; the write of which chunk fails, and after
how many bytes; and how many bytes reach the disk when the final flush fails. *)
Record UploadIo := mkUploadIo {
  io_create_dir : bool;
  io_create : bool;
  io_write : nat -> option nat;
  io_flush : option nat;
  io_remove : bool;
  io_rename : bool;
}.

Definition bytes_take (n : nat) (s : bytes) : bytes := String.substring 0 n s.

(** The loop over the body: the length and the bytes written, or the response of a failure. *)
Fixpoint upload_chunks (io : UploadIo) (k : nat) (total : Z) (written : bytes)
  (body : list (option bytes)) : result (Z * bytes) (Response * bytes) :=
  match body with
  | [] => Ok (total, written)
  | None :: _ => Err (mkResponse 400 (error_body "upload read failed"), written)
  | Some b :: rest =>
      let total := total + str_len b in
      if MAX_UPLOAD_BYTES <? total then
        Err (mkResponse 413 (error_body "upload exceeds maximum size"), written)
      else match io_write io k with
           | Some n => Err (mkResponse 500 (error_body "write failed"), written +:+ bytes_take n b)
           | None => upload_chunks io (S k) total (written +:+ b) rest
           end
  end.

Definition temp_name (name uuid : string) : string := "." +:+ name +:+ "." +:+ uuid +:+ ".uploading".

(** Removing the temporary file, which holds [content]. *)
Definition remove_temp (io : UploadIo) (tmp : string) (content : bytes) (m : gmap string DirEntry) :
  gmap string DirEntry :=
  if io_remove io then delete tmp m else <[tmp := File content]> m.

(** [rename] replaces a file, but no directory. *)
Definition rename_allowed (e : option DirEntry) : bool :=
  match e with None | Some (File _) => true | Some (Directory _) => false end.

Definition models_upload (query_name : option string) (uuid : string) (io : UploadIo)
  (body : list (option bytes)) (d : ModelsDir) : Response * ModelsDir :=
  match query_name with
  | Some name =>
      if negb (safe_model_name name) then (mkResponse 400 (error_body "invalid or missing model name"), d)
      else if negb (io_create_dir io) then
        (mkResponse 500 (error_body "cannot create models directory"), d)
      else
        let m := default ∅ d in
        let tmp := temp_name name uuid in
        if negb (io_create io) then (mkResponse 500 (error_body "write failed"), Some m)
        else
          match upload_chunks io 0 0 "" body with
          | Err (r, written) => (r, Some (remove_temp io tmp written m))
          | Ok (total, written) =>
              let content :=
                match io_flush io with Some n => bytes_take n written | None => written end in
              if total =? 0 then
                (mkResponse 400 (error_body "empty upload"), Some (remove_temp io tmp content m))
              else if negb (io_rename io && rename_allowed (m !! name)) then
                (mkResponse 500 (error_body "write failed"), Some (remove_temp io tmp content m))
              else
                (mkResponse 201 (json_object [
                   ("message", VString "uploaded"); ("name", VString name);
                   ("size_bytes", json_int total)]),
                 Some (<[name := File content]> (delete tmp m)))
          end
  | None => (mkResponse 400 (error_body "invalid or missing model name"), d)
  end.

(** Deleting; [allowed] tells whether the file system permits it. *)
Definition models_delete (name : string) (allowed : bool) (d : ModelsDir) : Response * ModelsDir :=
  if negb (safe_model_name name) then (mkResponse 400 (error_body "invalid model name"), d)
  else
    match d with
    | Some m =>
        match m !! name with
        | Some (File _) =>
            if allowed then
              (mkResponse 200 (json_object [("deleted", VString name)]), Some (delete name m))
            else (mkResponse 404 (error_body "model not found"), d)
        | _ => (mkResponse 404 (error_body "model not found"), d)
        end
    | None => (mkResponse 404 (error_body "model not found"), d)
    end.

Section Api.
Context `{Crypto} `{Serde} `{Env} `{RewardEnv} `{HostOs} `{ProcessEnv} `{Unicode} `{JsonText}.
Context `{Runtime} `{Decoders} `{CharTables}.
Variable config : ExodusConfig.

(** ** Queries *)

Definition api_status (n : nat) (c : Coordinator) : Value * Coordinator := status config n c.

Definition api_system (order : gmap string (NodeStats * Z) -> list NodeStats) (now : Z)
  (c : Coordinator) : outcome (Value * Coordinator) :=
  let '(telemetry, c1) := node_telemetry config c in
  match distributed_capacity config order now c1 with
  | Panics => Panics
  | Waiting => Waiting
  | Done (capacity, c2) =>
      Done (json_object [("node_id", VString (id_node_id (co_identity c)));
                         ("local", telemetry); ("distributed", capacity)], c2)
  end.

Definition api_credits (n : nat) (c : Coordinator) : Value := entitlement_of config n c.
Definition api_network (n : nat) (c : Coordinator) : Value :=
  (network_report config (co_store c) n).1.

Definition api_ledger (limit : option Z) (c : Coordinator) : Value :=
  ledger_summary (Z.min (default 20 limit) 500) c.

(** The text of the first fault; [debug] prints a string as [{:?}] does. *)
Definition fault_text (debug : string -> string) (f : chain_fault) : string :=
  match f with
  | MissingBlock h => "missing block " +:+ pretty h
  | BrokenLink h => "broken link at block " +:+ pretty h
  | HashMismatch h => "hash mismatch at block " +:+ pretty h
  | DuplicateClaimIn id => "duplicate claim " +:+ id
  | DuplicateNodeSeqIn node seq =>
      "duplicate node/seq (" +:+ debug node +:+ ", " +:+ pretty seq +:+ ")"
  end.

Definition api_ledger_verify (debug : string -> string) (c : Coordinator) : Value :=
  match verify_chain (co_store c) with
  | Ok n => json_object [("ok", VBool true);
                         ("detail", VString ("chain OK (" +:+ pretty n +:+ " blocks)"))]
  | Err f => json_object [("ok", VBool false); ("detail", VString (fault_text debug f))]
  end.

Definition api_claims (node_id : option string) (c : Coordinator) : Value := claims_for node_id c.

Definition api_consensus (c : Coordinator) : Value :=
  let st := co_protocol c in
  let s := co_store c in
  let committee := active_peers config st s in
  json_object [
    ("node_id", VString (id_node_id (co_identity c)));
    ("view", json_int (ps_view st));
    ("sealer", VString (sealer_node config st s));
    ("is_sealer", VBool (is_sealer config st s));
    ("quorum_size", json_int (quorum_size config st s));
    ("committee", VArray (map VString committee));
    ("peers", VArray (map VString (sort_strings committee)));
    ("pending_claims", json_int (pending_claims_count st));
    ("ledger_height", json_int (height s));
    ("ledger_head", json_option (fun h => VString (block_hash h)) (head s))].

Definition api_nodes (n : nat) (c : Coordinator) : Value :=
  json_object [("nodes", default VNull (json_get "participants" (api_network n c)))].

Definition api_rewards (n : nat) (c : Coordinator) : Value :=
  default VNull (json_get "reward_parameters" (api_network n c)).

Definition api_healthz (c : Coordinator) : Value :=
  let ok := is_ok (verify_chain (co_store c)) in
  json_object [("status", VString (if ok then "ok" else "degraded")); ("detail", VBool ok)].

Definition models_list (d : ModelsDir) (c : Coordinator) : Value * Coordinator :=
  let '(gpu, c) := gpu_info config c in
  let gpu_json :=
    match gpu_to_value gpu with
    | VObject fields =>
        VObject (btree_insert "gpu_layers" (json_option json_int (gpu_layers config)) fields)
    | v => v
    end in
  (json_object [("gpu", gpu_json); ("models", VArray (available_models d))], c).

(** ** Connections to peers *)

Definition connect_text (r : result connect_status TransportError) : result string string :=
  match r with
  | Ok (AlreadyConnected addr) => Ok ("already connected to " +:+ addr)
  | Ok (AlreadyInProgress addr) => Ok ("connection to " +:+ addr +:+ " already in progress")
  | Ok (Connecting addr) => Ok ("connecting to " +:+ addr)
  | Err NotRunning => Err "transport is not running"
  | Err (OwnAddress addr) => Err (addr +:+ " is this node's own address")
  end.

(** The answer to what the transport's [connect_peer] returns. *)
Definition network_connect (r : result string string) : Response :=
  match r with
  | Ok msg => mkResponse 200 (json_object [("message", VString msg)])
  | Err msg => mkResponse 409 (error_body msg)
  end.

(** ** Contributions *)

Definition submit_claim_payload (p : ClaimPayload) (uuid now : string) (c : Coordinator) :
  Coordinator * list co_event * Response :=
  let '(tier, c) :=
    match cq_device_tier p with
    | Some t => (t, c)
    | None => let '(gpu, c) := gpu_info config c in (tier_string gpu, c)
    end in
  let '(c, evs, r) :=
    submit_contribution config
      (mkContribution (cq_model_id p) (cq_params_b p) (cq_precision p) (cq_prompt_tokens p)
         (cq_completion_tokens p) (cq_compute_seconds p) (cq_flops_estimate p) tier
         (default default_work (cq_work_type p)) (cq_started_at p) (cq_ended_at p))
      uuid now c in
  (c, evs,
   match r with
   | Ok id => mkResponse 200 (json_object [("claim_id", VString id);
                                           ("message", VString "contribution submitted")])
   | Err msg => mkResponse 400 (error_body msg)
   end).

(** ** The event stream *)

Definition hook_name (uuid : string) : string := "sse-" +:+ uuid.

(** Opening a stream registers a hook and sends a greeting. *)
Definition open_events (uuid : string) (c : Coordinator) : Coordinator * Value :=
  (add_commit_hook (hook_name uuid) c,
   json_object [
     ("type", VString "hello");
     ("height", json_int (height (co_store c)));
     ("block_hash", json_option (fun h => VString (block_hash h)) (head (co_store c)));
     ("node_id", VString (id_node_id (co_identity c)))]).

(** One commit on the stream; a receiver that lagged behind gets a placeholder. *)
Definition event_body (item : option (Z * string)) : Value :=
  let '(h, hash) := default (0, "") item in
  json_object [("height", json_int h); ("block_hash", VString hash)].

(** The drop of the stream removes its hook. *)
Definition close_events (uuid : string) (c : Coordinator) : Coordinator :=
  remove_commit_hook (hook_name uuid) c.

(** ** Chat *)

Definition chat_stub (gpu : GpuInfo) (files : list string) (model reason : string) : Value :=
  json_object [
    ("runtime", VString "stub");
    ("model", VString model);
    ("model_present", VBool (existsb (fun f => String.eqb f model) files));
    ("models", VArray (map VString files));
    ("gpu", gpu_to_value gpu);
    ("reply", VString ("[" +:+ model +:+ "] Couldn't generate a real answer (" +:+ reason +:+
       "), so this is a state stub." +:+ String newline (String newline "") +:+ "Node state: " +:+
       (if gpu_available gpu then "GPU-ready" else "CPU-only") +:+ " (" +:+ tier_string gpu +:+
       ") with " +:+ pretty (Z.of_nat (length files)) +:+ " model file(s)."))].

(** A chat that waits for its completion and its peers. *)
Record PendingChat := mkPendingChat {
  pc_model : string;
  pc_path : string;
  pc_turns : list ChatTurn;
  pc_gpu : GpuInfo;
  pc_files : list string;
  (** the request the peers were sent, if any *)
  pc_request : option string;
  pc_expected : Z;
}.

Inductive ChatStarted :=
| Answered (r : Response)
| Running (p : PendingChat).

(** How many peers to wait for, from the committee and the connections. *)
Definition expected_peers (known connected : Z) : Z :=
  if 0 <? known then known else if 0 <? connected then 1 else 0.

Definition chat_deadline (expected : Z) : option Z :=
  duration_ns (if 0 <? expected then f64_max (distributed_timeout_seconds config) f64_1
               else f64_min (distributed_timeout_seconds config) (f64_of_Z 3)).

(** [chat_response] up to its wait; it panics when the timeout is not a duration. *)
Definition start_chat (d : ModelsDir) (model : string) (turns : list ChatTurn) (request_id : string)
  (connected : Z) (c : Coordinator) : outcome (Coordinator * list co_event * ChatStarted) :=
  let '(gpu, c) := gpu_info config c in
  let files := model_files d in
  let stub reason := Done (c, [], Answered (mkResponse 200 (chat_stub gpu files model reason))) in
  match model_path_for config d model with
  | None => stub "model file not present"
  | Some path =>
      if negb (inference config) then stub "inference disabled (EXODUS_INFERENCE=0)"
      else if distributed_inference config then
        let known := Z.max 0 (usize_len (active_peers config (co_protocol c) (co_store c)) - 1) in
        let expected := expected_peers known connected in
        let '(c, evs) :=
          request_inference request_id model (max_tokens config)
            (map (fun t => mkInferenceTurn (turn_role t) (turn_content t)) turns) c in
        match chat_deadline expected with
        | None => Panics
        | Some _ => Done (c, evs, Running (mkPendingChat model path turns gpu files (Some request_id) expected))
        end
      else Done (c, [], Running (mkPendingChat model path turns gpu files None 0))
  end.

Definition api_chat (d : ModelsDir) (req : ChatRequest) (request_id : string) (connected : Z)
  (c : Coordinator) : outcome (Coordinator * list co_event * ChatStarted) :=
  if match cr_messages req with [] => true | _ => false end then
    Done (c, [], Answered (mkResponse 400 (error_body "no messages")))
  else
    match (match cr_model req with
           | Some m => if safe_model_name m then Some m else None
           | None => Some (default "auto" (hd_error (model_files d)))
           end) with
    | None => Done (c, [], Answered (mkResponse 400 (error_body "invalid model name")))
    | Some model => start_chat d model (cr_messages req) request_id connected c
    end.

(** *** Collecting the answers of the peers *)

Record Collected := mkCollected {
  cl_seen : gset string;
  cl_responded : Z;
  cl_replies : list (string * string);
  cl_errors : list (string * string);
}.

Definition nothing_collected : Collected := mkCollected ∅ 0 [] [].

(** The body of the loop for a response that counts. *)
Definition note_response (st : Collected) (r : InferenceResponse) : Collected :=
  let seen := {[ir_node_id r]} ∪ cl_seen st in
  match ir_error r with
  | Some err => mkCollected seen (cl_responded st + 1) (cl_replies st)
                  (cl_errors st ++ [(ir_node_id r, err)])
  | None => mkCollected seen (cl_responded st + 1)
              (cl_replies st ++ [(ir_node_id r, ir_reply r)]) (cl_errors st)
  end.

(** The loop over the responses that arrived in time. *)
Fixpoint collect (own : string) (expected : Z) (rs : list InferenceResponse) (st : Collected) :
  Collected :=
  match rs with
  | [] => st
  | r :: rest =>
      if String.eqb (ir_node_id r) own then collect own expected rest st
      else if bool_decide (ir_node_id r ∈ cl_seen st) then collect own expected rest st
      else
        let st := note_response st r in
        if (0 <? expected) && (expected <=? Z.of_nat (size (cl_seen st))) then st
        else collect own expected rest st
  end.

(** *** The answer *)

(** The result of the local task; [join_error] is the text of a task that panicked. *)
Definition join_local (join_error : string) (o : outcome (result string string)) :
  option (result string string) :=
  match o with Done r => Some r | Panics => Some (Err join_error) | Waiting => None end.

Definition chat_failures (local_error : option string) (peer_errors : list (string * string)) :
  list string :=
  match local_error with Some e => ["local: " +:+ e] | None => [] end ++
  map (fun p => p.1 +:+ ": " +:+ p.2) peer_errors.

Definition no_completion (reasons : list string) : string :=
  match reasons with
  | [] => "No completion was produced. Check that the model exits and that the runtime supports it."
  | [r] => "No completion was produced. " +:+ r
  | _ => "No completion was produced. Details: " +:+ String.concat " | " reasons
  end.

Definition prompt_chars (turns : list ChatTurn) : Z :=
  foldr (fun t acc => usize_len (chars (turn_content t)) + acc) 0 turns.

Definition node_text (key : string) (p : string * string) : Value :=
  json_object [("node_id", VString p.1); (key, VString p.2)].

(** The rest of [chat_response], once the wait is over and the local task has ended; [elapsed] is
read from the clock between the two. *)
Definition finish_chat (p : PendingChat) (local : result string string) (elapsed : f64)
  (uuid now : string) (c : Coordinator) : Coordinator * list co_event * Response :=
  let '(c, col) :=
    match pc_request p with
    | Some id =>
        (drop_inference id c,
         collect (id_node_id (co_identity c)) (pc_expected p) (default [] (co_infer_tx c !! id))
           nothing_collected)
    | None => (c, nothing_collected)
    end in
  let '(local_reply, local_error) :=
    match local with Ok reply => (Some reply, None) | Err e => (None, Some e) end in
  let '(c, evs) :=
    match local_reply with
    | Some reply =>
        record_inference_claim config (pc_model p) (prompt_chars (pc_turns p))
          (usize_len (chars reply)) elapsed uuid now c
    | None => (c, [])
    end in
  let '(selected, agreed, votes) := pick_agreed_reply local_reply (cl_replies col) in
  let reply :=
    if String.eqb agreed "" then no_completion (chat_failures local_error (cl_errors col))
    else agreed in
  (c, evs, mkResponse 200 (json_object [
     ("runtime", VString "distributed");
     ("model", VString (pc_model p));
     ("model_present", VBool true);
     ("models", VArray (map VString (pc_files p)));
     ("gpu", gpu_to_value (pc_gpu p));
     ("reply", VString reply);
     ("local_reply", json_option VString local_reply);
     ("local_error", json_option VString local_error);
     ("distributed", json_object [
        ("enabled", VBool (distributed_inference config));
        ("peers_asked", json_int (pc_expected p));
        ("peers_responded", json_int (cl_responded col));
        ("selected", VString selected);
        ("agreement", json_int (Z.of_nat votes));
        ("responses", VArray (map (node_text "reply") (cl_replies col)));
        ("peer_errors", VArray (map (node_text "error") (cl_errors col)))])])).
End Api.
