(* ===== verification/ApiProps.v ===== *)
(** * Properties of the HTTP interface

Uploads are atomic, a chat counts every peer once and always answers with a text, event
streams leave no hook behind, and whatever is called, the node stays one the theorems on whole
nodes cover. *)

From S2P Require Import Prelude F64 Crypto CryptoTheory Models Accounting Config ConfigProps Text Host Inference.
From S2P Require Import Http HttpProps LlamaServer Ledger LedgerTheory Validation ValidationTheory Protocol ProtocolTheory.
From S2P Require Import ProtocolInv ProtocolSteps Decode Rewards Identity Network Agreement Coordinator CoordinatorSteps.
From S2P Require Import CoordinatorProps Api.

(** ** The models directory *)

Lemma elem_of_model_files d n :
  n ∈ model_files d <-> safe_model_name n = true /\ is_Some (default ∅ d !! n).
Proof.
  unfold model_files, sort_strings, dir_entries. rewrite elem_of_sort_by, list_elem_of_filter, list_elem_of_fmap.
  split; intros [Hs Hi]; (split; [done|]).
  - destruct Hi as ([k e] & -> & Hin%elem_of_map_to_list). by exists e.
  - destruct Hi as [e Hl]. exists (n, e). split; [done|by apply elem_of_map_to_list].
Qed.

Lemma NoDup_model_files d : NoDup (model_files d).
Proof.
  unfold model_files, sort_strings. apply NoDup_sort_by, NoDup_filter. unfold dir_entries.
  apply NoDup_fst_map_to_list.
Qed.

(** Directories with the same model names list the same models. *)
Lemma model_files_ext d d' :
  (forall k, safe_model_name k = true -> is_Some (default ∅ d !! k) <-> is_Some (default ∅ d' !! k)) ->
  model_files d = model_files d'.
Proof.
  intros Hk. unfold model_files, sort_strings. apply sort_by_unique.
  - apply string_le_total.
  - apply string_le_trans.
  - intros x y _ _. apply string_le_antisym.
  - apply NoDup_Permutation; [apply NoDup_filter, NoDup_fst_map_to_list..|].
    intros n. pose proof (elem_of_model_files d n) as H1. pose proof (elem_of_model_files d' n) as H2.
    unfold model_files, sort_strings in H1, H2. rewrite elem_of_sort_by in H1, H2. rewrite H1, H2.
    split; intros [Hs Hi]; (split; [done|]); by apply (Hk n Hs).
Qed.

Lemma temp_name_hidden name uuid : safe_model_name (temp_name name uuid) = false.
Proof. unfold safe_model_name, temp_name. cbn. by rewrite !andb_false_r. Qed.

Lemma model_name_not_temp k name uuid : safe_model_name k = true -> k <> temp_name name uuid.
Proof. intros Hs ->. by rewrite temp_name_hidden in Hs. Qed.

(** ** Uploads *)

Definition joined (chunks : list bytes) : bytes := foldr (fun b acc => b +:+ acc) "" chunks.

(** What reaches the disk when the stream ends. *)
Definition flushed (io : UploadIo) (content : bytes) : bytes :=
  match io_flush io with Some n => bytes_take n content | None => content end.

Lemma upload_chunks_ok io body k total written t w :
  upload_chunks io k total written body = Ok (t, w) -> total <= MAX_UPLOAD_BYTES ->
  exists chunks, body = map Some chunks /\ w = written +:+ joined chunks /\
    t = total + str_len (joined chunks) /\ t <= MAX_UPLOAD_BYTES.
Proof.
  revert k total written. induction body as [|[b|] body IH]; intros k total written E Ht; cbn in E; [|..|done].
  - injection E as <- <-. exists []. cbn [joined foldr map]. rewrite string_app_nil_r.
    change (str_len "") with 0. split_and!; [done|done|lia|lia].
  - destruct (MAX_UPLOAD_BYTES <? _) eqn:Em; [done|]. destruct (io_write io k); [done|]. bool_prop.
    destruct (IH _ _ _ E) as (cs & -> & -> & -> & Hm); [lia|]. exists (b :: cs). cbn [joined foldr map].
    fold (joined cs). unfold str_len in *. rewrite string_length_app, string_app_assoc.
    split_and!; [done|done|lia|lia].
Qed.

Lemma upload_chunks_err io body k total written r w :
  upload_chunks io k total written body = Err (r, w) -> rs_status r <> 201.
Proof.
  revert k total written. induction body as [|[b|] body IH]; intros k total written E; cbn in E; [done|..].
  - destruct (MAX_UPLOAD_BYTES <? _); [by injection E as <- _|].
    destruct (io_write io k); [by injection E as <- _|]. by eapply IH.
  - by injection E as <- _.
Qed.

Lemma remove_temp_lookup io name uuid content m k :
  safe_model_name k = true -> remove_temp io (temp_name name uuid) content m !! k = m !! k.
Proof.
  intros Hs. pose proof (model_name_not_temp k name uuid Hs). unfold remove_temp.
  destruct (io_remove io); [by rewrite lookup_delete_ne|by rewrite lookup_insert_ne].
Qed.

(** C34: an upload is all or nothing: either the answer is an error and every model is as it was,
with the same list of models; or it is 201, the whole body was read, it is not empty and within
the limit, its length is reported, and it is listed under the requested plain name with the
bytes that the final flush wrote, all of them when the flush succeeds, while every other model
is as it was. *)
Theorem upload_atomic query uuid io body d r d' :
  models_upload query uuid io body d = (r, d') ->
  (rs_status r <> 201 /\ model_files d' = model_files d /\
   forall k, safe_model_name k = true -> default ∅ d' !! k = default ∅ d !! k) \/
  (exists name chunks, query = Some name /\ safe_model_name name = true /\
     body = map Some chunks /\ 0 < str_len (joined chunks) <= MAX_UPLOAD_BYTES /\
     rs_status r = 201 /\ json_get "size_bytes" (rs_body r) = Some (json_int (str_len (joined chunks))) /\
     name ∈ model_files d' /\
     default ∅ d' !! name = Some (File (flushed io (joined chunks))) /\
     forall k, safe_model_name k = true -> k <> name -> default ∅ d' !! k = default ∅ d !! k).
Proof.
  unfold models_upload. intros E.
  assert (Hsame : forall r0 m', rs_status r0 <> 201 ->
    (forall k, safe_model_name k = true -> m' !! k = default ∅ d !! k) ->
    (rs_status r0 <> 201 /\ model_files (Some m') = model_files d /\
     forall k, safe_model_name k = true -> default ∅ (Some m') !! k = default ∅ d !! k)).
  { intros r0 m' Hr Hm. split_and!; [done| |done]. apply model_files_ext. intros k Hk. cbn. by rewrite Hm. }
  destruct query as [name|]; [|injection E as <- <-; by left].
  destruct (safe_model_name name) eqn:Hs; [cbn [negb] in E|injection E as <- <-; by left].
  destruct (io_create_dir io); [cbn [negb] in E|injection E as <- <-; by left].
  destruct (io_create io); [cbn [negb] in E|injection E as <- <-; left; by apply Hsame].
  destruct (upload_chunks io 0 0 "" body) as [[t w]|[r0 w]] eqn:Eu.
  - apply upload_chunks_ok in Eu as (chunks & -> & -> & -> & Hmax); [|done].
    rewrite string_app_nil_l, Z.add_0_l in *.
    destruct (Z.eqb_spec (str_len (joined chunks)) 0) as [Hz|Hz].
    { injection E as <- <-. left. apply Hsame; [done|]. intros k Hk. by apply remove_temp_lookup. }
    destruct (negb _).
    { injection E as <- <-. left. apply Hsame; [done|]. intros k Hk. by apply remove_temp_lookup. }
    injection E as <- <-. right. exists name, chunks. fold (flushed io (joined chunks)). cbn [default].
    assert (0 <= str_len (joined chunks)) by (unfold str_len; lia).
    split_and!; try lia; [done..| | |].
    + apply elem_of_model_files. split; [done|]. cbn. rewrite lookup_insert_eq. by eexists.
    + apply lookup_insert_eq.
    + intros k Hk Hne. cbn [from_option id]. rewrite lookup_insert_ne by done. apply lookup_delete_ne.
      apply not_eq_sym, model_name_not_temp. done.
  - injection E as <- <-. left. apply Hsame; [by eapply upload_chunks_err|].
    intros k Hk. by apply remove_temp_lookup.
Qed.

(** ** The answers of the peers *)

(** The first response of every node outside [seen] other than [own], in the order of arrival. *)
Fixpoint first_answers (own : string) (seen : gset string) (rs : list InferenceResponse) :
  list InferenceResponse :=
  match rs with
  | [] => []
  | r :: rest =>
      if bool_decide (ir_node_id r = own \/ ir_node_id r ∈ seen) then first_answers own seen rest
      else r :: first_answers own ({[ir_node_id r]} ∪ seen) rest
  end.

(** As many of them as are expected, when a number is. *)
Definition counted (own : string) (expected : Z) (rs : list InferenceResponse) : list InferenceResponse :=
  if 0 <? expected then take (Z.to_nat expected) (first_answers own ∅ rs) else first_answers own ∅ rs.

Definition reply_of (r : InferenceResponse) : option (string * string) :=
  match ir_error r with None => Some (ir_node_id r, ir_reply r) | Some _ => None end.
Definition error_of (r : InferenceResponse) : option (string * string) :=
  match ir_error r with None => None | Some e => Some (ir_node_id r, e) end.

Lemma note_responses l st :
  let st' := foldl note_response st l in
  cl_responded st' = cl_responded st + Z.of_nat (length l) /\
  cl_replies st' = cl_replies st ++ omap reply_of l /\ cl_errors st' = cl_errors st ++ omap error_of l.
Proof.
  revert st. induction l as [|r l IH]; intros st; cbn -[Z.of_nat].
  - rewrite !app_nil_r. split_and!; [lia|done|done].
  - destruct (IH (note_response st r)) as (H1 & H2 & H3). rewrite H1, H2, H3.
    unfold note_response, reply_of, error_of. destruct (ir_error r); cbn -[Z.of_nat];
      rewrite <- ?app_assoc; split_and!; (done || lia).
Qed.

Lemma note_response_seen st r : cl_seen (note_response st r) = {[ir_node_id r]} ∪ cl_seen st.
Proof. unfold note_response. by destruct (ir_error r). Qed.

(** The loop notes exactly the answers that count. *)
Lemma collect_first_answers own expected rs st :
  (0 < expected -> Z.of_nat (size (cl_seen st)) < expected) ->
  collect own expected rs st =
  foldl note_response st
    (if 0 <? expected
     then take (Z.to_nat expected - size (cl_seen st)) (first_answers own (cl_seen st) rs)
     else first_answers own (cl_seen st) rs).
Proof.
  revert st. induction rs as [|r rs IH]; intros st Hsz; cbn [collect first_answers].
  - by destruct (0 <? expected); rewrite ?take_nil.
  - destruct (String.eqb_spec (ir_node_id r) own) as [Eo|Hno].
    { rewrite bool_decide_eq_true_2 by tauto. by apply IH. }
    destruct (bool_decide_reflect (ir_node_id r ∈ cl_seen st)) as [Hin|Hout].
    { rewrite bool_decide_eq_true_2 by tauto. by apply IH. }
    rewrite bool_decide_eq_false_2 by tauto.
    pose proof (note_response_seen st r) as Hseen.
    assert (Hsize : size (cl_seen (note_response st r)) = S (size (cl_seen st))).
    { rewrite Hseen, size_union, size_singleton by set_solver. lia. }
    cbv zeta. rewrite Hsize. destruct (Z.ltb_spec 0 expected) as [He|He]; cbn [andb].
    + specialize (Hsz He). replace (Z.to_nat expected - size (cl_seen st))%nat
        with (S (Z.to_nat expected - S (size (cl_seen st)))) by lia. cbn [take foldl].
      destruct (Z.leb_spec expected (Z.of_nat (S (size (cl_seen st))))) as [Hle|Hgt].
      * by replace (Z.to_nat expected - S (size (cl_seen st)))%nat with 0%nat by lia.
      * rewrite IH by (rewrite Hsize; lia). by rewrite Hsize, Hseen.
    + rewrite IH by lia. by rewrite Hseen.
Qed.

Lemma first_answers_sound own seen rs r :
  r ∈ first_answers own seen rs -> r ∈ rs /\ ir_node_id r <> own /\ ir_node_id r ∉ seen.
Proof.
  revert seen. induction rs as [|x rs IH]; intros seen; cbn; [by intros ?%elem_of_nil|].
  destruct (bool_decide_reflect (ir_node_id x = own \/ ir_node_id x ∈ seen)) as [_|Hx].
  - intros Hr. destruct (IH _ Hr) as (? & ? & ?). split_and!; [by right|done|done].
  - rewrite elem_of_cons. intros [->|Hr]; [split_and!; [left|tauto|tauto]|].
    destruct (IH _ Hr) as (? & ? & ?). split_and!; [by right|done|set_solver].
Qed.

Lemma first_answers_complete own seen rs r :
  r ∈ rs -> ir_node_id r <> own -> ir_node_id r ∈ seen \/ ir_node_id r ∈ ir_node_id <$> first_answers own seen rs.
Proof.
  revert seen. induction rs as [|x rs IH]; intros seen; cbn; [by intros ?%elem_of_nil|].
  rewrite elem_of_cons. intros Hr Hn.
  destruct (bool_decide_reflect (ir_node_id x = own \/ ir_node_id x ∈ seen)) as [Hx|Hx].
  - destruct Hr as [->|Hr]; [left; tauto|]. by apply IH.
  - cbn. rewrite elem_of_cons. destruct Hr as [->|Hr]; [by right; left|].
    destruct (IH ({[ir_node_id x]} ∪ seen) Hr Hn) as [Hs|Hs]; [|by right; right].
    apply elem_of_union in Hs as [Hs%elem_of_singleton|Hs]; [right; by left|by left].
Qed.

Lemma first_answers_nodup own seen rs : NoDup (ir_node_id <$> first_answers own seen rs).
Proof.
  revert seen. induction rs as [|x rs IH]; intros seen; cbn; [constructor|].
  case_bool_decide; [apply IH|]. cbn. constructor; [|apply IH].
  intros (r & E & Hr)%list_elem_of_fmap. apply first_answers_sound in Hr as (_ & _ & Hr). set_solver.
Qed.

(** C32: collecting the answers of the peers equals a definition without a loop: the answers that
count are the first ones of each other node, at most as many as are expected, in the order they
came; each node is counted once, replies and errors are split, and when fewer than expected
came, every other node that answered is among them. *)
Theorem answers_counted_once own expected rs :
  let col := collect own expected rs nothing_collected in
  let l := counted own expected rs in
  cl_responded col = Z.of_nat (length l) /\ cl_replies col = omap reply_of l /\ cl_errors col = omap error_of l /\
  NoDup (ir_node_id <$> l) /\ (forall r, r ∈ l -> r ∈ rs /\ ir_node_id r <> own) /\
  (0 < expected -> Z.of_nat (length l) <= expected) /\
  (expected <= 0 \/ Z.of_nat (length l) < expected ->
   forall r, r ∈ rs -> ir_node_id r <> own -> ir_node_id r ∈ ir_node_id <$> l).
Proof.
  cbv zeta. rewrite collect_first_answers by (cbn; rewrite size_empty; lia).
  cbn [cl_seen nothing_collected]. rewrite size_empty, Nat.sub_0_r. fold (counted own expected rs).
  destruct (note_responses (counted own expected rs) nothing_collected) as (-> & -> & ->).
  cbn [cl_responded cl_replies cl_errors nothing_collected]. rewrite !app_nil_l, Z.add_0_l.
  split_and!; [done..| | | |]; unfold counted.
  - destruct (0 <? expected); [|apply first_answers_nodup].
    rewrite fmap_take. eapply sublist_NoDup; [apply first_answers_nodup|apply sublist_take].
  - intros r Hr. assert (Hr' : r ∈ first_answers own ∅ rs).
    { destruct (0 <? expected); [|done]. by apply (subseteq_take (Z.to_nat expected)). }
    by apply first_answers_sound in Hr' as (? & ? & _).
  - intros He%Z.ltb_lt. rewrite He, length_take. bool_prop. lia.
  - intros Hfew r Hr Hn. destruct (first_answers_complete own ∅ rs r Hr Hn) as [Hs|Hs]; [set_solver|].
    destruct (Z.ltb_spec 0 expected) as [He|He]; [|done]. rewrite length_take in Hfew.
    rewrite take_ge by lia. done.
Qed.

(** ** The reply of a chat *)

Lemma skip_whitespace_snoc l c : is_whitespace c = false -> exists l', skip_whitespace (l ++ [c]) = l' ++ [c].
Proof.
  intros Hc. induction l as [|x l IH]; cbn; [rewrite Hc; by exists []|].
  destruct (is_whitespace x); [done|]. by exists (x :: l).
Qed.

(** A text that begins with a letter is not blank. *)
Lemma not_blank_letter s : not_blank (String "N" s) = true.
Proof.
  unfold not_blank, trim, trim_chars.
  change (chars (String "N" s)) with (78 :: chars s). cbn [skip_whitespace].
  change (is_whitespace 78) with false. cbn iota. cbn [rev].
  destruct (skip_whitespace_snoc (rev (chars s)) 78 eq_refl) as [l ->]. by rewrite rev_app_distr.
Qed.

Lemma no_completion_not_blank reasons : not_blank (no_completion reasons) = true.
Proof. destruct reasons as [|r [|r' rs]]; [by vm_compute| |]; apply not_blank_letter. Qed.

Lemma candidates_not_blank `{CharTables} local peers node reply :
  (node, reply) ∈ candidates local peers -> not_blank reply = true.
Proof.
  unfold candidates. rewrite elem_of_app, list_elem_of_filter. intros [Hl|[Hp _]]; [|done].
  destruct local as [l|]; [|by apply elem_of_nil in Hl].
  destruct (not_blank l) eqn:E; [|by apply elem_of_nil in Hl].
  apply list_elem_of_singleton in Hl. by injection Hl as _ ->.
Qed.

Section Chat.
Context `{Crypto} `{Serde} `{Env} `{RewardEnv} `{HostOs} `{ProcessEnv} `{Unicode} `{JsonText}.
Context `{Runtime} `{Decoders} `{CharTables}.
Variable config : ExodusConfig.

Lemma gpu_info_infer_tx c : co_infer_tx (gpu_info config c).2 = co_infer_tx c.
Proof. unfold gpu_info. by destruct (co_gpu_cache c). Qed.

Lemma record_infer_tx model pc rc elapsed uuid now c :
  co_infer_tx (record_inference_claim config model pc rc elapsed uuid now c).1 = co_infer_tx c.
Proof.
  unfold record_inference_claim. destruct (negb _); [done|].
  destruct (model_params_b model); [|done]. cbv zeta.
  pose proof (gpu_info_infer_tx c) as Hg. destruct (gpu_info config c) as [g c1]. cbn [snd] in Hg.
  unfold submit_contribution.
  destruct (Precision_from_str _); [|done]. destruct (DeviceTier_from_str _); [|done].
  destruct (WorkType_from_str _); [|done]. cbv zeta.
  by destruct (submit_claim _ _ _) as [[[? ?] ?] ?].
Qed.

(** With a negative timeout, which the configuration accepts, the chat of a node without peers
panics: the timeout is only bounded from above. *)
Lemma negative_timeout_panics m e :
  distributed_timeout_seconds config = SpecFloat.S754_finite true m e -> chat_deadline config 0 = None.
Proof. unfold chat_deadline. by intros ->. Qed.

(** The answers a chat has collected. *)
Definition collected (p : PendingChat) (c : Coordinator) : Collected :=
  match pc_request p with
  | Some id => collect (id_node_id (co_identity c)) (pc_expected p) (default [] (co_infer_tx c !! id))
                 nothing_collected
  | None => nothing_collected
  end.

Definition ok_of (r : result string string) : option string :=
  match r with Ok x => Some x | Err _ => None end.
Definition err_of (r : result string string) : option string :=
  match r with Ok _ => None | Err e => Some e end.

(** a chat that was started is answered with a text: the reply is never blank, it is the text
of the local completion or of a peer that counted when one of them gave a text, and the reasons
of all failures otherwise; the channel of its request is closed. *)
Theorem chat_answers p local elapsed uuid now c c' evs r :
  finish_chat config p local elapsed uuid now c = (c', evs, r) ->
  let col := collected p c in
  let l := candidates (ok_of local) (cl_replies col) in
  rs_status r = 200 /\
  (exists text, json_get "reply" (rs_body r) = Some (VString text) /\ not_blank text = true /\
     ((l = [] /\ text = no_completion (chat_failures (err_of local) (cl_errors col))) \/
      exists node, (node, text) ∈ l)) /\
  (forall id, pc_request p = Some id -> co_infer_tx c' !! id = None).
Proof.
  intros E col l. unfold finish_chat in E.
  replace (match pc_request p with
    | Some id => (drop_inference id c, collect _ _ _ _) | None => (c, nothing_collected) end)
    with (match pc_request p with Some id => drop_inference id c | None => c end, col) in E
    by (unfold col, collected; by destruct (pc_request p)).
  set (c0 := match pc_request p with Some id => _ | None => _ end) in E.
  replace (match local with Ok reply => (Some reply, None) | Err e => (None, Some e) end)
    with (ok_of local, err_of local) in E by by destruct local.
  destruct (match ok_of local with Some _ => _ | None => _ end) as [c1 evs1] eqn:Er.
  destruct (pick_agreed_reply (ok_of local) (cl_replies col)) as [[node agreed] votes] eqn:Ep.
  injection E as <- _ <-. split; [done|]. split.
  - eexists. split; [reflexivity|]. apply agreed_choice in Ep. fold l in Ep.
    destruct Ep as [(Hl & -> & -> & _)|(i & Hi & _)].
    + rewrite String.eqb_refl. split; [apply no_completion_not_blank|by left].
    + apply list_elem_of_lookup_2 in Hi. pose proof (candidates_not_blank _ _ _ _ Hi) as Hb.
      destruct (String.eqb_spec agreed "") as [->|_]; [done|]. split; [done|right; by exists node].
  - intros id Hid. assert (Hc : co_infer_tx c1 = co_infer_tx c0).
    { destruct (ok_of local) as [reply|]; [|by injection Er as <- _].
      pose proof (record_infer_tx (pc_model p) (prompt_chars (pc_turns p)) (usize_len (chars reply)) elapsed uuid now c0) as Hx.
      by rewrite Er in Hx. }
    rewrite Hc. unfold c0. rewrite Hid. apply lookup_delete_eq.
Qed.
End Chat.

(** ** Calls and the node *)

(** What the Rust types and JSON guarantee of a submitted claim. *)
Definition wf_payload (p : ClaimPayload) : bool :=
  in_i64 (cq_prompt_tokens p) && in_i64 (cq_completion_tokens p) &&
  is_finite (cq_params_b p) && is_finite (cq_compute_seconds p) && is_finite (cq_flops_estimate p) &&
  valid_str (cq_model_id p) && valid_str (default "" (cq_started_at p)) &&
  valid_str (default "" (cq_ended_at p)).

Section Calls.
Context `{Crypto} `{Serde} `{Env} `{RewardEnv} `{HostOs} `{ProcessEnv} `{Unicode} `{JsonText}.
Context `{Runtime} `{Decoders} `{CharTables}.
Variable config : ExodusConfig.

(** The handlers that touch the node. *)
Inductive api_call (c : Coordinator) : Coordinator -> Prop :=
| call_status n : api_call c (api_status config n c).2
| call_system order now v c' : api_system config order now c = Done (v, c') -> api_call c c'
| call_models_list d : api_call c (models_list config d c).2
| call_submit p uuid now c' evs r :
    wf_payload p = true -> valid_str uuid = true -> valid_str now = true ->
    submit_claim_payload config p uuid now c = (c', evs, r) -> api_call c c'
| call_open uuid : api_call c (open_events uuid c).1
| call_close uuid : api_call c (close_events uuid c)
| call_chat d req id connected c' evs r :
    api_chat config d req id connected c = Done (c', evs, r) -> api_call c c'
| call_finish p local elapsed uuid now c' evs r :
    recordable (pc_model p) elapsed -> valid_str uuid = true -> valid_str now = true ->
    finish_chat config p local elapsed uuid now c = (c', evs, r) -> api_call c c'.

Variable identity : NodeIdentity.
Variable s0 : ChainStore.
#[local] Notation running := (node_run config identity s0).

Lemma running_gpu c n : running c n -> running (gpu_info config c).2 n.
Proof. intros Hr. eapply run_op; [exact Hr|apply op_gpu]. Qed.

Lemma running_start_chat d model turns id connected c n c' evs r :
  running c n -> start_chat config d model turns id connected c = Done (c', evs, r) -> running c' n.
Proof.
  intros Hr%running_gpu E. unfold start_chat in E. destruct (gpu_info config c) as [g c1]. cbn [snd] in Hr.
  destruct (model_path_for config d model) as [path|]; [|by injection E as <- _ _].
  destruct (negb _); [by injection E as <- _ _|].
  destruct (distributed_inference config); [|by injection E as <- _ _]. cbv zeta in E.
  rewrite (surjective_pairing (request_inference _ _ _ _ c1)) in E.
  destruct (chat_deadline _ _); [|done]. injection E as <- _ _.
  eapply run_op; [exact Hr|].
  apply (op_request config c1 id model (max_tokens config)
    (map (fun t => mkInferenceTurn (turn_role t) (turn_content t)) turns)).
Qed.

Lemma running_finish_chat p local elapsed uuid now c n c' evs r :
  running c n -> recordable (pc_model p) elapsed -> valid_str uuid = true -> valid_str now = true ->
  finish_chat config p local elapsed uuid now c = (c', evs, r) -> running c' n.
Proof.
  intros Hr Hrec Hu Hn E. unfold finish_chat in E.
  destruct (match pc_request p with Some _ => _ | None => _ end) as [c0 col] eqn:E0.
  assert (Hr0 : running c0 n).
  { destruct (pc_request p); injection E0 as <- _; [|done]. eapply run_op; [exact Hr|apply op_drop]. }
  destruct (match local with Ok _ => _ | Err _ => _ end) as [lr le].
  destruct (match lr with Some _ => _ | None => _ end) as [c1 evs1] eqn:E1.
  assert (Hr1 : running c1 n).
  { destruct lr as [reply|]; [|by injection E1 as <- _].
    replace c1 with (record_inference_claim config (pc_model p) (prompt_chars (pc_turns p))
      (usize_len (chars reply)) elapsed uuid now c0).1 by by rewrite E1.
    eapply run_op; [exact Hr0|by apply op_record]. }
  destruct (pick_agreed_reply _ _) as [[? ?] ?]. by injection E as <- _ _.
Qed.

(** Every call is a sequence of operations of the node. *)
Lemma api_call_running c n c' : running c n -> api_call c c' -> running c' n.
Proof.
  intros Hr [m|order now v ? E|d|p uuid now ? evs r Hw Hu Hn E|uuid|uuid|d req id conn ? evs r E
    |p local elapsed uuid now ? evs r Hrec Hu Hn E].
  - apply running_gpu in Hr. unfold api_status, status. by destruct (gpu_info config c).
  - unfold api_system in E. assert (Hr1 : running (node_telemetry config c).2 n)
      by (eapply run_op; [exact Hr|apply op_telemetry]).
    destruct (node_telemetry config c) as [t c1]. cbn [snd] in Hr1.
    destruct (distributed_capacity config order now c1) as [[cap c2]| |] eqn:Ec; try done.
    injection E as _ <-. eapply run_op; [exact Hr1|by eapply op_capacity].
  - apply running_gpu in Hr. unfold models_list. by destruct (gpu_info config c).
  - unfold submit_claim_payload in E.
    destruct (match cq_device_tier p with Some _ => _ | None => _ end) as [tier c1] eqn:Et.
    assert (Hr1 : running c1 n).
    { destruct (cq_device_tier p); [by injection Et as _ <-|]. apply running_gpu in Hr.
      destruct (gpu_info config c). by injection Et as _ <-. }
    destruct (submit_contribution _ _ _ _ _) as [[c2 evs2] r2] eqn:Es. injection E as <- _ _.
    eapply run_op; [exact Hr1|]. eapply op_submit; [|exact Hu|exact Hn|exact Es]. exact Hw.
  - eapply run_op; [exact Hr|apply op_add_hook].
  - eapply run_op; [exact Hr|apply op_remove_hook].
  - unfold api_chat in E. destruct (match cr_messages req with [] => _ | _ => _ end); [by injection E as <- _ _|].
    destruct (match cr_model req with Some _ => _ | None => _ end) as [model|]; [|by injection E as <- _ _].
    eapply running_start_chat; [exact Hr|exact E].
  - eapply running_finish_chat; [exact Hr|exact Hrec|exact Hu|exact Hn|exact E].
Qed.
End Calls.

Section Health.
Context `{CL : CryptoLaws} `{SL : SerdeLaws} `{EL : EnvLaws} `{RewardEnv} `{HostOs} `{ProcessEnv}.
Context `{Unicode} `{JsonText} `{Runtime} `{Decoders} `{CharTables}.
Variable config : ExodusConfig.
Variable identity : NodeIdentity.
Variable s0 : ChainStore.
Hypothesis Hstart : node_start config identity s0.

(** The audit of a running node succeeds. *)
Lemma running_verified c n :
  node_run config identity s0 c n -> exists k, verify_chain (co_store c) = Ok (Z.of_nat k).
Proof using CL SL EL Hstart.
  intros Hr. apply (node_run_good config identity s0 Hstart) in Hr as (_ & Hr & _).
  destruct (reachable_good _ _ _ _ _ (nst_start _ _ _ Hstart) Hr) as (chain & E & [Hv _] & _).
  cbn [snd] in E. exists (length chain). rewrite E. by apply verify_chain_of.
Qed.

(** C11: whatever is called over HTTP, in whatever order with deliveries, turns and workers, the
node stays an execution of the coordinator, and its own health report stays good: the audit of
the ledger succeeds. *)
Theorem calls_keep_node_healthy c n c' debug :
  node_run config identity s0 c n -> api_call config c c' ->
  node_run config identity s0 c' n /\
  api_healthz c' = json_object [("status", VString "ok"); ("detail", VBool true)] /\
  exists k, api_ledger_verify debug c' =
    json_object [("ok", VBool true); ("detail", VString ("chain OK (" +:+ pretty (Z.of_nat k) +:+ " blocks)"))].
Proof using CL SL EL Hstart.
  intros Hr Hc. pose proof (api_call_running _ _ _ _ _ _ Hr Hc) as Hr'.
  destruct (running_verified _ _ Hr') as [k E]. split; [done|].
  unfold api_healthz, api_ledger_verify. rewrite E. split; [done|by exists k].
Qed.
End Health.

(** ** The ledger query *)

Lemma length_tail_blocks {A} limit (l : list A) :
  0 < limit -> length (tail_blocks limit l) = Nat.min (Z.to_nat limit) (length l).
Proof.
  intros Hl. unfold tail_blocks. rewrite (proj2 (Z.eqb_neq _ _)) by lia.
  by rewrite length_rev, length_take, length_rev.
Qed.

(** the ledger query returns the last blocks, as many as asked for but never more than 500,
except that the limit zero is not capped: it returns the whole chain. *)
Theorem ledger_answer_size `{Crypto} `{Serde} limit c :
  0 <= default 20 limit ->
  exists l, json_get "blocks" (api_ledger limit c) = Some (VArray l) /\
    length l = if bool_decide (limit = Some 0) then length (blocks (co_store c))
               else Nat.min (Z.to_nat (Z.min (default 20 limit) 500)) (length (blocks (co_store c))).
Proof.
  intros Hl. eexists. split; [reflexivity|]. rewrite length_map.
  case_bool_decide as E; [by subst limit|]. rewrite length_tail_blocks; [done|].
  destruct limit as [z|]; cbn in *; [|lia]. assert (z <> 0) by congruence. lia.
Qed.

(** ** Event streams *)

Section Streams.
Context `{Serde} `{Crypto}.

(** [streams c0 l c]: from [c0], streams were opened and closed with other operations between
them that leave the hooks alone, and those of [l] are open. *)
Inductive streams (c0 : Coordinator) : list string -> Coordinator -> Prop :=
| streams_none : streams c0 [] c0
| streams_open l c uuid : streams c0 l c -> uuid ∉ l -> streams c0 (l ++ [uuid]) (open_events uuid c).1
| streams_close l c uuid :
    streams c0 l c -> streams c0 (filter (fun u => u <> uuid) l) (close_events uuid c)
| streams_other l c c' : streams c0 l c -> co_hooks c' = co_hooks c -> streams c0 l c'.

Lemma remove_first_app_l name l k : name ∉ l -> remove_first name (l ++ k) = l ++ remove_first name k.
Proof.
  induction l as [|x l IH]; cbn; [done|]. rewrite not_elem_of_cons. intros [Hn Hl].
  rewrite (proj2 (String.eqb_neq x name)) by done. by rewrite IH.
Qed.

Lemma remove_first_hook uuid l :
  NoDup l -> remove_first (hook_name uuid) (map hook_name l) = map hook_name (filter (fun u => u <> uuid) l).
Proof.
  induction 1 as [|x l Hx Hnd IH]; [done|]. cbn [map remove_first]. rewrite filter_cons.
  destruct (String.eqb_spec (hook_name x) (hook_name uuid)) as [E%string_app_inj_l|E].
  - subst x. rewrite decide_False by tauto. f_equal. symmetry. apply filter_all.
    apply Forall_forall. intros u Hu ->. done.
  - rewrite decide_True by (intros ->; done). cbn [map]. by rewrite IH.
Qed.

(** the hooks of a node are those it had and one for each open event stream: a stream that
ends leaves no hook behind, and every commit is announced once to each open stream. *)
Theorem stream_hooks_tracked c0 l c h hash :
  (forall uuid, hook_name uuid ∉ co_hooks c0) -> streams c0 l c ->
  co_hooks c = co_hooks c0 ++ map hook_name l /\ NoDup l /\
  co_events (co_hooks c) [Notify h hash] =
    co_events (co_hooks c0) [Notify h hash] ++ map (fun u => HookCalled (hook_name u) h hash) l.
Proof.
  intros Hfresh Hs.
  assert (Hh : co_hooks c = co_hooks c0 ++ map hook_name l /\ NoDup l).
  { induction Hs as [|l c uuid Hs [IH Hnd] Hu|l c uuid Hs [IH Hnd]|l c c' Hs [IH Hnd] E].
    - cbn. rewrite app_nil_r. split; [done|constructor].
    - cbn. rewrite IH, map_app, app_assoc. split; [done|]. by apply NoDup_snoc.
    - cbn. rewrite IH, remove_first_app_l, remove_first_hook by done. split; [done|by apply NoDup_filter].
    - by rewrite E. }
  destruct Hh as [Hh Hnd]. rewrite Hh. split_and!; [done|done|].
  unfold co_events. cbn. rewrite !app_nil_r, map_app. f_equal. by rewrite map_map.
Qed.
End Streams.
