(* ===== verification/ApiDemo.v ===== *)
(** * The HTTP interface of a concrete node *)

From S2P Require Import Prelude F64 Crypto CryptoTheory Models Accounting Instances Config Text Host Inference.
From S2P Require Import InferenceProps Http LlamaServer LlamaProps Ledger LedgerTheory LedgerProps Validation.
From S2P Require Import ValidationTheory Protocol ProtocolTheory ProtocolInv ProtocolSteps ProtocolProps Decode.
From S2P Require Import Rewards RewardsProps Identity Network Agreement Coordinator CoordinatorSteps CoordinatorProps.
From S2P Require Import CoordinatorDemo Api ApiProps.
From Stdlib Require Import Floats.SpecFloat.

Module ApiDemo.
#[local] Existing Instance Toy.crypto_inst.
#[local] Existing Instance Toy.serde_inst.
#[local] Existing Instance toy_crypto_laws.
#[local] Existing Instance toy_serde_laws.
#[local] Existing Instance ProtocolDemo.env_inst.
#[local] Existing Instance ProtocolDemo.env_laws.
#[local] Existing Instance RewardsDemo.env_inst.
#[local] Existing Instance InferenceDemo.env.
#[local] Existing Instance InferenceDemo.runtime.
#[local] Existing Instance InferenceTests.ascii_tables.
#[local] Existing Instance LlamaDemo.no_json.
#[local] Existing Instance Derived.decoders.
#[local] Existing Instance CoordinatorDemo.host.
#[local] Existing Instance AgreementDemo.ascii_only.

Local Abbreviation cfg := CoordinatorDemo.cfg.
Local Abbreviation node := (CoordinatorDemo.boot empty_store).

Definition sound_io : UploadIo := mkUploadIo true true (fun _ => None) None true true.
Definition models : ModelsDir := Some {["a-7b.gguf" := File "weights"]}.

Lemma upload_atomic_witness :
  "b.gguf" ∈ model_files (models_upload (Some "b.gguf") "u1" sound_io [Some "ab"; Some "c"] models).2.
Proof.
  destruct (upload_atomic (Some "b.gguf") "u1" sound_io [Some "ab"; Some "c"] models
    (models_upload (Some "b.gguf") "u1" sound_io [Some "ab"; Some "c"] models).1
    (models_upload (Some "b.gguf") "u1" sound_io [Some "ab"; Some "c"] models).2)
    as [(Hr & _)|(name & chunks & [= <-] & _ & _ & _ & _ & _ & Hin & _)].
  - by destruct (models_upload (Some "b.gguf") "u1" sound_io [Some "ab"; Some "c"] models).
  - exfalso. apply Hr. vm_compute. reflexivity.
  - exact Hin.
Defined.

(** The result of the final flush is ignored: with a full disk the file is cut short and the
upload is still reported as complete, with the length of the whole body. *)
Lemma flush_failure_ignored :
  let r := models_upload (Some "b.gguf") "u1" (mkUploadIo true true (fun _ => None) (Some 1%nat) true true)
             [Some "ab"; Some "c"] models in
  rs_status r.1 = 201 /\ json_get "size_bytes" (rs_body r.1) = Some (json_int 3) /\
  default ∅ r.2 !! "b.gguf" = Some (File "a").
Proof. vm_compute. done. Qed.

(** ** Chats *)

Definition turns : list ChatTurn := [mkTurn "user" "hi"].
Definition question : ChatRequest := mkChatRequest (Some "a-7b.gguf") turns.

(** A chat that was sent to the peers, with the answers of two of them. *)
Definition pending : PendingChat :=
  mkPendingChat "a-7b.gguf" "/data/models/a-7b.gguf" turns default_gpu ["a-7b.gguf"] (Some "q1") 2.

Definition answered : Coordinator :=
  with_infer_tx {["q1" := [mkInferenceResponse "q1" "p1" "it is blue" None;
                           mkInferenceResponse "q1" "p1" "it is red" None;
                           mkInferenceResponse "q1" "p2" "" (Some "no model")]]} node.

Local Abbreviation finished :=
  (finish_chat cfg pending (Ok "It is blue!") (f64_of_Z 4) "c1" "2026-08-06T00:00:00+00:00" answered).

Lemma chat_answers_witness :
  exists text, json_get "reply" (rs_body finished.2) = Some (VString text) /\ not_blank text = true.
Proof.
  destruct (chat_answers cfg pending (Ok "It is blue!") (f64_of_Z 4) "c1" "2026-08-06T00:00:00+00:00" answered
    finished.1.1 finished.1.2 finished.2) as (_ & (text & Ht & Hb & _) & _).
  - by destruct finished as [[? ?] ?].
  - exists text. split; [exact Ht|exact Hb].
Defined.

(** The answer of the example: the local text, with one vote of a peer. *)
Example chat_example :
  json_get "reply" (rs_body finished.2) = Some (VString "It is blue!") /\
  json_get "agreement" (json_index "distributed" (rs_body finished.2)) = Some (json_int 2) /\
  json_get "peers_responded" (json_index "distributed" (rs_body finished.2)) = Some (json_int 2).
Proof. vm_compute. done. Qed.

Lemma calls_keep_node_healthy_witness :
  api_healthz (open_events "u1" node).1 = json_object [("status", VString "ok"); ("detail", VBool true)].
Proof.
  destruct (calls_keep_node_healthy cfg CoordinatorDemo.identity empty_store CoordinatorDemo.started
    node 0 (open_events "u1" node).1 (fun s => s) CoordinatorDemo.boot_run (call_open cfg node "u1"))
    as (_ & H & _). exact H.
Defined.

Lemma ledger_answer_size_witness :
  exists l, json_get "blocks" (api_ledger (Some 1) node) = Some (VArray l) /\ length l = 1%nat.
Proof.
  destruct (ledger_answer_size (Some 1) node) as (l & Hl & Hn); [cbn; lia|]. exists l.
  split; [exact Hl|]. rewrite Hn. vm_compute. reflexivity.
Defined.

Lemma stream_hooks_tracked_witness :
  co_hooks (close_events "u1" (open_events "u2" (open_events "u1" node).1).1) = ["sse-u2"].
Proof.
  destruct (stream_hooks_tracked node ["u2"] (close_events "u1" (open_events "u2" (open_events "u1" node).1).1)
    0 "") as (H & _).
  - intros uuid. change (co_hooks node) with (@nil string). apply not_elem_of_nil.
  - replace ["u2"] with (filter (fun u => u <> "u1") ["u1"; "u2"]) by (vm_compute; reflexivity).
    apply streams_close.
    apply (streams_open node ["u1"]); [|by intros ?%list_elem_of_singleton].
    apply (streams_open node []); [apply streams_none|apply not_elem_of_nil].
  - exact H.
Defined.

(** ** Findings *)

(** The time of a completion is read before the completion is awaited: without distributed
inference next to nothing has passed, the rate of the work looks impossible and the claim is
refused, while the same work with its real time is accepted. *)
Lemma untimed_completion_refused :
  size (ps_pending (co_protocol (record_inference_claim cfg "a-7b.gguf" 40 80 f64_0 "c1"
    "2026-08-06T00:00:00+00:00" node).1)) = 0%nat /\
  size (ps_pending (co_protocol (record_inference_claim cfg "a-7b.gguf" 40 80 (f64_of_Z 4) "c1"
    "2026-08-06T00:00:00+00:00" node).1)) = 1%nat.
Proof. vm_compute. done. Qed.
End ApiDemo.
