(* ===== verification/Routes.v ===== *)
(** * The router ([src/api.rs])

The table of [app] and what a request leads to: the handler of its path and method, run on the node and
the models directory.  Matching a path against the patterns of the table is the web framework's: it is
the class [Router], with what its documentation says of literal and captured segments as laws.
Requests are decoded by the framework too; a body that does not decode is refused before the handler
runs.  The theorems: every route leads to its handler, and requests that only read change
neither the ledger, nor the protocol, nor the models, and publish nothing. *)

From S2P Require Import Prelude F64 Crypto Models Accounting Config Decimal Text Host Inference Http LlamaServer.
From S2P Require Import Ledger Validation Protocol Decode Rewards Identity Network Agreement Coordinator Api.
From S2P Require Import Instances InferenceProps LlamaProps ProtocolProps RewardsProps CoordinatorDemo ApiDemo.

Inductive Method := GET | HEAD | POST | DELETE | OtherMethod (name : string).

#[export] Instance Method_eq_dec : EqDecision Method.
Proof. solve_decision. Defined.

(** One constructor per handler. *)
Inductive Handler :=
| Hroot | Hdash | Hchat | Hstatus | Hsystem | Hcredits | Hnetwork | Hledger | Hledger_verify | Hclaims
| Hsubmit_claim | Hconsensus | Hnodes | Hnetwork_connect | Hrewards | Hhealthz | Hmodels_list
| Hmodels_upload | Hmodels_delete | Hevents.

#[export] Instance Handler_eq_dec : EqDecision Handler.
Proof. solve_decision. Defined.

(** The routes, in the order of the source. *)
Definition app : list (string * list (Method * Handler)) :=
  [("/", [(GET, Hroot)]);
   ("/exodus/dash.html", [(GET, Hdash)]);
   ("/exodus/chat", [(POST, Hchat)]);
   ("/exodus/status", [(GET, Hstatus)]);
   ("/exodus/system", [(GET, Hsystem)]);
   ("/exodus/credits", [(GET, Hcredits)]);
   ("/exodus/network", [(GET, Hnetwork)]);
   ("/exodus/ledger", [(GET, Hledger)]);
   ("/exodus/ledger/verify", [(GET, Hledger_verify)]);
   ("/exodus/claims", [(GET, Hclaims); (POST, Hsubmit_claim)]);
   ("/exodus/consensus", [(GET, Hconsensus)]);
   ("/exodus/nodes", [(GET, Hnodes)]);
   ("/exodus/network/peers", [(POST, Hnetwork_connect)]);
   ("/exodus/rewards", [(GET, Hrewards)]);
   ("/exodus/healthz", [(GET, Hhealthz)]);
   ("/exodus/models", [(GET, Hmodels_list)]);
   ("/exodus/models/upload", [(POST, Hmodels_upload)]);
   ("/exodus/models/:name", [(DELETE, Hmodels_delete)]);
   ("/exodus/events", [(GET, Hevents)])].

(** ** Matching *)

Class Router := {
  (** the pattern a path matches, and the segment it captures *)
  route_path : list string -> string -> option (string * option string);
  (** the percent-decoding of a captured segment *)
  decode_segment : string -> option string;
}.

(** The patterns of such a table: literal, or with one captured segment at the end, and no wildcard. *)
Definition simple_pattern (p : string) : bool :=
  no_char "*" p &&
  match split_at_char ":" p with
  | None => true
  | Some (pre, name) => ends_with "/" pre && no_char "/" name && no_char ":" name
  end.
Definition simple_table (ps : list string) : bool := forallb simple_pattern ps.

(** How a path fits a pattern, and what is captured. *)
Definition captures (pattern path : string) (o : option string) : Prop :=
  (no_char ":" pattern = true /\ path = pattern /\ o = None) \/
  exists pre name seg, pattern = pre +:+ String ":" name /\ no_char ":" pre = true /\
    path = pre +:+ seg /\ seg <> "" /\ no_char "/" seg = true /\ o = Some seg.

Class RouterLaws `{Router} := {
  (** what is matched is a pattern of the table that fits *)
  route_sound ps path p o :
    simple_table ps = true -> route_path ps path = Some (p, o) -> p ∈ ps /\ captures p path o;
  (** a literal pattern comes before any capture *)
  route_literal ps p : simple_table ps = true -> p ∈ ps -> no_char ":" p = true -> route_path ps p = Some (p, None);
  (** a path that fits some pattern is matched *)
  route_complete ps path p o : simple_table ps = true -> p ∈ ps -> captures p path o -> is_Some (route_path ps path);
}.

Inductive Dispatch :=
| Matched (h : Handler) (captured : option string)
| MethodNotAllowed
| NotFound.

(** [get] also answers [HEAD]. *)
Definition method_fits (m : Method) (route : Method) : bool :=
  bool_decide (m = route) || (bool_decide (m = HEAD) && bool_decide (route = GET)).

Definition method_router (l : list (Method * Handler)) (m : Method) : option Handler :=
  snd <$> find_first (fun p => method_fits m p.1) l.

Definition route_to `{Router} (m : Method) (path : string) : Dispatch :=
  match route_path (map fst app) path with
  | None => NotFound
  | Some (p, captured) =>
      match method_router (default [] (snd <$> find_first (fun r => String.eqb r.1 p) app)) m with
      | Some h => Matched h captured
      | None => MethodNotAllowed
      end
  end.

(** ** Requests *)

Inductive Body :=
| NoBody
| JsonClaim (p : ClaimPayload)
| JsonChat (r : ChatRequest)
| JsonPeer (addr : string)
| Data (chunks : list (option bytes)).

Record Request := mkRequest {
  rq_method : Method;
  rq_path : string;
  (** the query parameters [limit], [node_id] and [name] *)
  rq_limit : option Z;
  rq_node_id : option string;
  rq_name : option string;
  rq_body : Body;
}.

(** What a handler reads from its surroundings. *)
Record Surroundings := mkSurroundings {
  sr_calls : nat;
  sr_order : gmap string (NodeStats * Z) -> list NodeStats;
  sr_instant : Z;
  sr_uuid : string;
  sr_now : string;
  sr_connected : Z;
  sr_io : UploadIo;
  sr_delete_allowed : bool;
  sr_debug : string -> string;
  (** the answer of the transport to a connection request *)
  sr_connect : string -> result string string;
}.

Inductive Reply :=
| Answer (r : Response)
| Page (file : string)
| EventStream (greeting : Value)
| ChatWaits (p : PendingChat)
| Refused (status : Z)
| Undecodable.

Section Routes.
Context `{Crypto} `{Serde} `{Env} `{RewardEnv} `{HostOs} `{ProcessEnv} `{Unicode} `{JsonText}.
Context `{Runtime} `{Decoders} `{CharTables}.
Variable config : ExodusConfig.

(** The node, the models directory, what is published, and the reply. *)
Abbreviation served := (outcome (Coordinator * ModelsDir * list co_event * Reply)).

Definition ok_json (v : Value) : Reply := Answer (mkResponse 200 v).

(** Running a handler. *)
Definition handle `{Router} (h : Handler) (captured : option string) (rq : Request) (sr : Surroundings)
  (c : Coordinator) (d : ModelsDir) : served :=
  let read v := Done (c, d, [], ok_json v) in
  match h with
  | Hroot => Done (c, d, [], Page "static/index.html")
  | Hdash => Done (c, d, [], Page "static/dash.html")
  | Hstatus => let '(v, c) := api_status config (sr_calls sr) c in Done (c, d, [], ok_json v)
  | Hsystem =>
      match api_system config (sr_order sr) (sr_instant sr) c with
      | Done (v, c) => Done (c, d, [], ok_json v)
      | Panics => Panics
      | Waiting => Waiting
      end
  | Hcredits => read (api_credits config (sr_calls sr) c)
  | Hnetwork => read (api_network config (sr_calls sr) c)
  | Hledger => read (api_ledger (rq_limit rq) c)
  | Hledger_verify => read (api_ledger_verify (sr_debug sr) c)
  | Hclaims => read (api_claims (rq_node_id rq) c)
  | Hconsensus => read (api_consensus config c)
  | Hnodes => read (api_nodes config (sr_calls sr) c)
  | Hrewards => read (api_rewards config (sr_calls sr) c)
  | Hhealthz => read (api_healthz c)
  | Hmodels_list => let '(v, c) := models_list config d c in Done (c, d, [], ok_json v)
  | Hevents =>
      let '(c, greeting) := open_events (sr_uuid sr) c in Done (c, d, [], EventStream greeting)
  | Hsubmit_claim =>
      match rq_body rq with
      | JsonClaim p =>
          let '(c, evs, r) := submit_claim_payload config p (sr_uuid sr) (sr_now sr) c in
          Done (c, d, evs, Answer r)
      | _ => Done (c, d, [], Undecodable)
      end
  | Hchat =>
      match rq_body rq with
      | JsonChat req =>
          match api_chat config d req (sr_uuid sr) (sr_connected sr) c with
          | Done (c, evs, Answered r) => Done (c, d, evs, Answer r)
          | Done (c, evs, Running p) => Done (c, d, evs, ChatWaits p)
          | Panics => Panics
          | Waiting => Waiting
          end
      | _ => Done (c, d, [], Undecodable)
      end
  | Hnetwork_connect =>
      match rq_body rq with
      | JsonPeer addr => Done (c, d, [], Answer (network_connect (sr_connect sr addr)))
      | _ => Done (c, d, [], Undecodable)
      end
  | Hmodels_upload =>
      let chunks := match rq_body rq with Data chunks => chunks | _ => [] end in
      let '(r, d) := models_upload (rq_name rq) (sr_uuid sr) (sr_io sr) chunks d in
      Done (c, d, [], Answer r)
  | Hmodels_delete =>
      match captured ≫= decode_segment with
      | Some name =>
          let '(r, d) := models_delete name (sr_delete_allowed sr) d in Done (c, d, [], Answer r)
      | None => Done (c, d, [], Undecodable)
      end
  end.

Definition serve_request `{Router} (rq : Request) (sr : Surroundings) (c : Coordinator) (d : ModelsDir) : served :=
  match route_to (rq_method rq) (rq_path rq) with
  | NotFound => Done (c, d, [], Refused 404)
  | MethodNotAllowed => Done (c, d, [], Refused 405)
  | Matched h captured => handle h captured rq sr c d
  end.
End Routes.

(** The server of [app]: [listener] is the result of binding, [finished] that of [axum::serve];
the lines go to the standard error, and the node runs on without its API in both cases. *)
Definition serve (host : string) (port : Z) (listener finished : result unit string) : list string :=
  match listener with
  | Ok _ => match finished with Ok _ => [] | Err e => ["api server error: " +:+ e] end
  | Err e => ["api bind failed on " +:+ host +:+ ":" +:+ pretty port +:+ ": " +:+ e]
  end.

(** ** Properties *)

Section RouteProperties.
Context `{RL : RouterLaws}.

Definition deletion_pattern : string := "/exodus/models/:name".

Lemma app_patterns : forallb (fun p => no_char ":" p || String.eqb p deletion_pattern) (map fst app) = true.
Proof. vm_compute. reflexivity. Qed.

Lemma app_simple : simple_table (map fst app) = true.
Proof. vm_compute. reflexivity. Qed.

Lemma split_unique c pre name l r :
  no_char c l = true -> no_char c r = true -> pre +:+ String c name = l +:+ String c r -> pre = l /\ name = r.
Proof.
  intros Hl Hr. revert pre. induction l as [|b l IH]; intros pre E; destruct pre as [|a pre];
    autorewrite with exodus_rw in E; injection E; try done.
  - intros E' ->. rewrite <- E', no_char_app in Hr. apply andb_true_iff in Hr as [_ Hr].
    unfold no_char in Hr. cbn in Hr. by rewrite Ascii.eqb_refl in Hr.
  - intros _ <-. unfold no_char in Hl. cbn in Hl. by rewrite Ascii.eqb_refl in Hl.
  - intros E' ->. unfold no_char in Hl. cbn in Hl. apply andb_true_iff in Hl as [_ Hl]. by destruct (IH Hl pre E') as [-> ->].
Qed.

Lemma colon_split pre name : pre +:+ String ":" name = deletion_pattern -> pre = "/exodus/models/" /\ name = "name".
Proof. by apply (split_unique ":" pre name "/exodus/models/" "name"). Qed.

(** A path below the models directory that no literal route takes. *)
Lemma deletion_route seg :
  seg <> "" -> no_char "/" seg = true -> seg <> "upload" ->
  route_path (map fst app) ("/exodus/models/" +:+ seg) = Some (deletion_pattern, Some seg).
Proof.
  intros H1 H2 H3.
  assert (Hc : captures deletion_pattern ("/exodus/models/" +:+ seg) (Some seg)).
  { right. exists "/exodus/models/", "name", seg. done. }
  destruct (route_complete (map fst app) ("/exodus/models/" +:+ seg) deletion_pattern (Some seg)) as [[p o] E]; [apply app_simple| |done|].
  { apply (bool_decide_unpack (deletion_pattern ∈ map fst app)). vm_compute. exact I. }
  rewrite E. apply route_sound in E as [Hp Hcap]; [|apply app_simple].
  destruct Hcap as [(Hn & Hpath & ->)|(pre & name & seg' & -> & _ & Hpath & _ & _ & ->)].
  - exfalso. subst p. unfold app in Hp. cbn [map fst] in Hp.
    repeat (apply elem_of_cons in Hp as [Hp|Hp]; [autorewrite with exodus_rw in Hp; try discriminate Hp|]).
    + apply (string_app_inj_l "/exodus/models/") in Hp. by destruct H3.
    + apply (string_app_inj_l "/exodus/models/") in Hp. by subst seg.
    + by apply not_elem_of_nil in Hp.
  - assert (Epat : pre +:+ String ":" name = deletion_pattern).
    { pose proof app_patterns as Hall. rewrite forallb_forall in Hall.
      specialize (Hall _ (proj1 (list_elem_of_In _ _) Hp)). apply orb_true_iff in Hall as [Hall|Hall].
      - rewrite no_char_app in Hall. apply andb_true_iff in Hall as [_ Hall]. by cbn in Hall.
      - by apply String.eqb_eq. }
    destruct (colon_split _ _ Epat) as [-> ->]. by apply string_app_inj_l in Hpath as ->.
Qed.

(** What the README documents: the method and the path of every endpoint, with its two pages; the path
of a deletion ends in the name of the model. *)
Definition endpoint (h : Handler) : Method * string :=
  match h with
  | Hroot => (GET, "/")
  | Hdash => (GET, "/exodus/dash.html")
  | Hstatus => (GET, "/exodus/status")
  | Hsystem => (GET, "/exodus/system")
  | Hcredits => (GET, "/exodus/credits")
  | Hnetwork => (GET, "/exodus/network")
  | Hconsensus => (GET, "/exodus/consensus")
  | Hnodes => (GET, "/exodus/nodes")
  | Hrewards => (GET, "/exodus/rewards")
  | Hledger => (GET, "/exodus/ledger")
  | Hledger_verify => (GET, "/exodus/ledger/verify")
  | Hclaims => (GET, "/exodus/claims")
  | Hsubmit_claim => (POST, "/exodus/claims")
  | Hmodels_list => (GET, "/exodus/models")
  | Hmodels_upload => (POST, "/exodus/models/upload")
  | Hmodels_delete => (DELETE, "/exodus/models/")
  | Hnetwork_connect => (POST, "/exodus/network/peers")
  | Hhealthz => (GET, "/exodus/healthz")
  | Hevents => (GET, "/exodus/events")
  | Hchat => (POST, "/exodus/chat")
  end.

(** A path names an endpoint: it is its path, or that of a deletion with a segment after it. *)
Definition names (h : Handler) (path : string) (captured : option string) : Prop :=
  match h with
  | Hmodels_delete =>
      exists seg, path = (endpoint h).2 +:+ seg /\ seg <> "" /\ no_char "/" seg = true /\ captured = Some seg
  | _ => path = (endpoint h).2 /\ captured = None
  end.

(** [HEAD] is served as [GET]. *)
Definition method_of (m : Method) : Method := match m with HEAD => GET | m => m end.

(** The one name of a model that cannot be deleted: the upload endpoint takes its path. *)
Definition shadowed (h : Handler) (captured : option string) : Prop :=
  h = Hmodels_delete /\ captured = Some "upload".

Lemma app_literal h : h <> Hmodels_delete -> (endpoint h).2 ∈ map fst app /\ no_char ":" (endpoint h).2 = true.
Proof.
  intros Hh. split; [|by destruct h].
  apply (bool_decide_unpack ((endpoint h).2 ∈ map fst app)). by destruct h; vm_compute.
Qed.

(** The rows of the table hold the documented endpoints. *)
Lemma row_endpoint p ms m h :
  (p, ms) ∈ app -> no_char ":" p = true -> method_router ms m = Some h ->
  h <> Hmodels_delete /\ p = (endpoint h).2 /\ method_of m = (endpoint h).1.
Proof.
  intros Hin Hn. unfold app in Hin.
  repeat (apply elem_of_cons in Hin as [[= -> ->]|Hin]; [try discriminate Hn; destruct m; intros [= <-]; done|]).
  by apply not_elem_of_nil in Hin.
Qed.

Lemma row_of p o path :
  route_path (map fst app) path = Some (p, o) ->
  exists ms, find_first (fun r => String.eqb r.1 p) app = Some (p, ms) /\ (p, ms) ∈ app /\ captures p path o.
Proof.
  intros E. apply route_sound in E as [Hp Hc]; [|apply app_simple].
  destruct (find_first (fun r => String.eqb r.1 p) app) as [[p' ms]|] eqn:Ef.
  - apply find_first_Some in Ef as [Hin Heq]. apply String.eqb_eq in Heq. cbn in Heq. subst p'. eauto.
  - exfalso. apply list_elem_of_fmap in Hp as ([p' ms] & -> & Hin). clear -Ef Hin. revert Ef Hin.
    generalize app. intros l. induction l as [|r l IH]; [by intros _ ?%not_elem_of_nil|].
    cbn. destruct (String.eqb_spec r.1 p') as [|Hne]; [done|].
    intros Ef [<-|Hin]%elem_of_cons; [done|by apply IH].
Qed.

(** A path with a captured segment is that of a deletion. *)
Lemma captured_deletion p ms path seg :
  (p, ms) ∈ app -> captures p path (Some seg) ->
  p = deletion_pattern /\ ms = [(DELETE, Hmodels_delete)] /\ path = "/exodus/models/" +:+ seg /\
  seg <> "" /\ no_char "/" seg = true.
Proof.
  intros Hin [(_ & _ & ?)|(pre & name & seg' & -> & _ & -> & Hne & Hs & [= <-])]; [done|].
  assert (Epat : pre +:+ String ":" name = deletion_pattern).
  { pose proof app_patterns as Hall. rewrite forallb_forall in Hall.
    specialize (Hall _ (proj1 (list_elem_of_In _ _) (list_elem_of_fmap_2 fst _ _ Hin))). apply orb_true_iff in Hall as [Hall|Hall].
    - cbn [fst] in Hall. rewrite no_char_app in Hall. apply andb_true_iff in Hall as [_ Hall]. by cbn in Hall.
    - by apply String.eqb_eq. }
  destruct (colon_split _ _ Epat) as [-> ->]. split_and!; try done.
  rewrite Epat in Hin. unfold app, deletion_pattern in Hin.
  repeat (apply elem_of_cons in Hin as [Hin|Hin]; [try discriminate Hin; by injection Hin|]).
  by apply not_elem_of_nil in Hin.
Qed.

Lemma literal_row h m :
  h <> Hmodels_delete ->
  exists ms, route_path (map fst app) (endpoint h).2 = Some ((endpoint h).2, None) /\
    find_first (fun r => String.eqb r.1 (endpoint h).2) app = Some ((endpoint h).2, ms) /\
    (method_of m = (endpoint h).1 -> method_router ms m = Some h).
Proof.
  intros Hh. destruct (app_literal h Hh) as [Hin Hn].
  exists (default [] (snd <$> find_first (fun r => String.eqb r.1 (endpoint h).2) app)).
  split; [by apply route_literal; [apply app_simple|..]|].
  destruct h; try done; (split; [reflexivity|]); destruct m; try done; intros _; reflexivity.
Qed.

Lemma deletion_served m seg :
  seg <> "" -> no_char "/" seg = true -> seg <> "upload" ->
  route_to m ("/exodus/models/" +:+ seg) =
  match method_router [(DELETE, Hmodels_delete)] m with
  | Some h => Matched h (Some seg)
  | None => MethodNotAllowed
  end.
Proof. intros H1 H2 H3. unfold route_to. by rewrite deletion_route. Qed.

Lemma route_matched m path h captured :
  route_to m path = Matched h captured <->
  names h path captured /\ method_of m = (endpoint h).1 /\ ~ shadowed h captured.
Proof.
  split.
  - unfold route_to. destruct (route_path _ path) as [[p o]|] eqn:E; [|done]. pose proof E as E'.
    apply row_of in E as (ms & -> & Hin & Hc). cbn [fmap option_fmap option_map snd from_option id].
    destruct (method_router ms m) as [h'|] eqn:Em; [|done]. intros [= -> ->].
    destruct captured as [seg|].
    + destruct (captured_deletion p ms path seg Hin Hc) as (-> & -> & -> & H1 & H2).
      assert (h = Hmodels_delete /\ m = DELETE) as [-> ->] by (by destruct m; try discriminate Em; injection Em as <-).
      split_and!; [by exists seg|done|]. intros [_ [= ->]].
      rewrite route_literal in E'; [done|apply app_simple| |done].
      apply (bool_decide_unpack (_ ∈ map fst app)). vm_compute. exact I.
    + assert (path = p /\ no_char ":" p = true) as [-> Hn].
      { destruct Hc as [(? & ? & _)|(? & ? & ? & _ & _ & _ & _ & _ & ?)]; done. }
      destruct (row_endpoint _ _ _ _ Hin Hn Em) as (Hne & Hp & Hm). split_and!; [by destruct h|done|by intros []].
  - intros (Hnames & Hm & Hsh). destruct (decide (h = Hmodels_delete)) as [->|Hh].
    + destruct Hnames as (seg & -> & H1 & H2 & ->). cbn [endpoint fst snd] in *. rewrite deletion_served; [|done|done|by intros ->; apply Hsh].
      by destruct m.
    + assert (path = (endpoint h).2 /\ captured = None) as [-> ->] by (by destruct h).
      destruct (literal_row h m Hh) as (ms & E & Ef & Em). unfold route_to. rewrite E, Ef.
      cbn [fmap option_fmap option_map snd from_option id]. by rewrite Em.
Qed.

Lemma route_not_found m path :
  route_to m path = NotFound <-> forall h captured, ~ names h path captured.
Proof.
  split.
  - intros Hnf h captured Hnames. destruct (decide (h = Hmodels_delete)) as [->|Hh].
    + destruct Hnames as (seg & -> & H1 & H2 & ->). cbn [endpoint fst snd] in *.
      destruct (decide (seg = "upload")) as [->|H3].
      * destruct (literal_row Hmodels_upload m ltac:(done)) as (ms & E & Ef & _). cbn [endpoint snd] in *.
         unfold route_to in Hnf. change ("/exodus/models/" +:+ "upload") with "/exodus/models/upload" in Hnf.
         rewrite E, Ef in Hnf. cbn [fmap option_fmap option_map snd from_option id] in Hnf. by destruct (method_router ms m).
      * rewrite deletion_served in Hnf by done. by destruct m.
    + assert (path = (endpoint h).2) as -> by (by destruct h; destruct Hnames).
      destruct (literal_row h m Hh) as (ms & E & Ef & _). unfold route_to in Hnf. rewrite E, Ef in Hnf.
      cbn [fmap option_fmap option_map snd from_option id] in Hnf. by destruct (method_router ms m).
  - intros Hno. unfold route_to. destruct (route_path _ path) as [[p o]|] eqn:E; [|done]. exfalso.
    apply row_of in E as (ms & _ & Hin & Hc). destruct o as [seg|].
    + destruct (captured_deletion p ms path seg Hin Hc) as (_ & _ & -> & H1 & H2).
      apply (Hno Hmodels_delete (Some seg)). by exists seg.
    + assert (path = p /\ no_char ":" p = true) as [-> Hn].
      { destruct Hc as [(? & ? & _)|(? & ? & ? & _ & _ & _ & _ & _ & ?)]; done. }
      assert (exists h, h <> Hmodels_delete /\ p = (endpoint h).2) as (h & Hh & Hp).
      { assert (exists m' h, method_router ms m' = Some h) as (m' & h & Em).
        { unfold app in Hin. repeat (apply elem_of_cons in Hin as [[= -> ->]|Hin];
            [first [discriminate Hn|by exists GET; eexists|by exists POST; eexists]|]).
          by apply not_elem_of_nil in Hin. }
        destruct (row_endpoint _ _ _ _ Hin Hn Em) as (? & ? & _). by exists h. }
      apply (Hno h None). by destruct h.
Qed.

(** C38: every documented endpoint is served by its handler, and no path is served by anything else.
A request leads to a handler exactly when its path names the endpoint of that handler and its
method is the documented one ([HEAD] counting as [GET]), a deletion getting the name of the model
out of the path; the one exception is the model name [upload], whose path the upload endpoint
takes, so that its deletion is refused.  A request is not found exactly when its path names no
endpoint at all; with any other method, it is refused as such. *)
Theorem routes_reach_handlers m path :
  (forall h captured, route_to m path = Matched h captured <->
     names h path captured /\ method_of m = (endpoint h).1 /\ ~ shadowed h captured) /\
  (route_to m path = NotFound <-> forall h captured, ~ names h path captured).
Proof. split; [intros h captured; apply route_matched|apply route_not_found]. Qed.

(** The handlers that only read. *)
Definition reads (h : Handler) : bool :=
  match h with Hchat | Hsubmit_claim | Hnetwork_connect | Hmodels_upload | Hmodels_delete => false | _ => true end.

(** These are the handlers that [GET] and [HEAD] reach. *)
Lemma reading_handlers m path h o :
  m = GET \/ m = HEAD -> route_to m path = Matched h o -> reads h = true.
Proof.
  intros Hm. unfold route_to. destruct (route_path _ path) as [[p o']|]; [|done].
  destruct (find_first (fun r => String.eqb r.1 p) app) as [[p' ms]|] eqn:Ef.
  2:{ by destruct Hm as [-> | ->]. }
  apply find_first_Some in Ef as [Hin _]. cbn [fmap option_fmap option_map snd default].
  unfold app in Hin. repeat (apply elem_of_cons in Hin as [[= -> ->]|Hin];
    [destruct Hm as [-> | ->]; intros [= <- <-]; reflexivity|]).
  by apply not_elem_of_nil in Hin.
Qed.
End RouteProperties.

Section ReadSafety.
Context `{Crypto} `{Serde} `{Env} `{RewardEnv} `{HostOs} `{ProcessEnv} `{Unicode} `{JsonText}.
Context `{Runtime} `{Decoders} `{CharTables} `{RL : RouterLaws}.
Variable config : ExodusConfig.

(** C22: reading is safe: a [GET] or [HEAD] request, whatever its path and parameters, changes neither the
ledger nor the state of the protocol, neither the sequence of claims nor the workers, and not the
models directory; and it publishes nothing. *)
Theorem reads_are_safe rq sr c d c' d' evs r :
  rq_method rq = GET \/ rq_method rq = HEAD ->
  serve_request config rq sr c d = Done (c', d', evs, r) ->
  co_store c' = co_store c /\ co_protocol c' = co_protocol c /\ co_identity c' = co_identity c /\
  co_seq c' = co_seq c /\ co_infer_slots c' = co_infer_slots c /\ co_infer_tx c' = co_infer_tx c /\
  d' = d /\ evs = [].
Proof.
  intros Hm. unfold serve_request. destruct (route_to (rq_method rq) (rq_path rq)) as [h o| |] eqn:Ed;
    [|by intros [= <- <- <- <-]..].
  pose proof (reading_handlers _ _ _ _ Hm Ed) as Hh.
  assert (Hgpu : forall c, let c1 := (gpu_info config c).2 in
    co_store c1 = co_store c /\ co_protocol c1 = co_protocol c /\ co_identity c1 = co_identity c /\ co_seq c1 = co_seq c /\
    co_infer_slots c1 = co_infer_slots c /\ co_infer_tx c1 = co_infer_tx c).
  { intros c0. unfold gpu_info. by destruct (co_gpu_cache c0). }
  destruct h; try discriminate Hh; clear Hh; cbn [handle]; try (intros [= <- <- <- <-]; done).
  - pose proof (Hgpu c) as Hg. unfold api_status, status. destruct (gpu_info config c) as [g c1]. cbn [snd] in Hg.
    intros [= <- <- <- <-]. destruct_and!. split_and!; congruence.
  - unfold api_system. pose proof (Hgpu c) as Hg. unfold node_telemetry. destruct (gpu_info config c) as [g c1].
    destruct (percent (co_sampler c1)) as [cpu s1]. cbn [snd] in Hg. unfold distributed_capacity.
    pose proof (Hgpu (with_sampler s1 c1)) as Hg2. destruct (gpu_info config (with_sampler s1 c1)) as [g2 c2]. cbn [snd] in Hg2.
    unfold prune_peer_stats. destruct (telemetry_ttl config); [|done]. intros [= <- <- <- <-].
    destruct_and!. cbn in *. split_and!; congruence.
  - pose proof (Hgpu c) as Hg. unfold models_list. destruct (gpu_info config c) as [g c1]. cbn [snd] in Hg.
    intros [= <- <- <- <-]. destruct_and!. split_and!; congruence.
Qed.
End ReadSafety.

(** ** A router *)

Module RoutesDemo.
(** One pattern against a path. *)
Definition match_capture (path pattern : string) : option (string * option string) :=
  match split_at_char ":" pattern with
  | Some (pre, _) =>
      match strip_prefix pre path with
      | Some seg => if negb (String.eqb seg "") && no_char "/" seg then Some (pattern, Some seg) else None
      | None => None
      end
  | None => None
  end.

Fixpoint first_match (path : string) (ps : list string) : option (string * option string) :=
  match ps with
  | [] => None
  | p :: ps' => match match_capture path p with Some r => Some r | None => first_match path ps' end
  end.

Definition router : Router := {|
  route_path ps path :=
    if existsb (fun p => String.eqb p path && no_char ":" p) ps then Some (path, None) else first_match path ps;
  decode_segment s := Some s;
|}.
#[local] Existing Instance router.

Lemma split_at_char_Some c s l r : split_at_char c s = Some (l, r) -> s = l +:+ String c r /\ no_char c l = true.
Proof.
  revert l. induction s as [|a s IH]; intros l; cbn; [done|]. destruct (Ascii.eqb_spec a c) as [->|Hne].
  - intros [= <- <-]. done.
  - destruct (split_at_char c s) as [[l' r']|]; [|done]. intros [= <- <-]. destruct (IH l' eq_refl) as [-> Hl].
    autorewrite with exodus_rw. split; [done|]. unfold no_char in *. cbn. by rewrite Hl, (proj2 (Ascii.eqb_neq a c) Hne).
Qed.

Lemma match_capture_sound path p q o : match_capture path p = Some (q, o) -> q = p /\ captures p path o.
Proof.
  unfold match_capture. destruct (split_at_char ":" p) as [[pre name]|] eqn:E; [|done].
  apply split_at_char_Some in E as [-> Hpre]. destruct (strip_prefix pre path) as [seg|] eqn:Es; [|done].
  apply strip_prefix_Some in Es as ->. destruct (negb _ && _) eqn:Eb; [|done]. intros [= <- <-].
  apply andb_true_iff in Eb as [Hne Hs]. split; [done|]. right. exists pre, name, seg. split_and!; try done.
  intros ->. by cbn in Hne.
Qed.

#[local] Instance router_laws : RouterLaws.
Proof.
  split.
  - intros ps path p o _. cbn. destruct (existsb _ ps) eqn:E.
    + intros [= <- <-]. apply existsb_exists in E as (q & Hq & [->%String.eqb_eq Hn]%andb_true_iff).
      split; [by apply list_elem_of_In|]. by left.
    + clear E. induction ps as [|q ps IH]; cbn; [done|]. destruct (match_capture path q) as [[q' o']|] eqn:Em.
      * intros [= <- <-]. apply match_capture_sound in Em as [-> Hc]. split; [set_solver|done].
      * intros Hf. destruct (IH Hf). split; [set_solver|done].
  - intros ps p _ Hp Hn. cbn. rewrite (proj2 (existsb_exists _ _)); [done|]. exists p.
    split; [by apply list_elem_of_In|]. by rewrite String.eqb_refl.
  - intros ps path p o _ Hp Hc. cbn. destruct (existsb _ ps) eqn:E; [eauto|].
    destruct Hc as [(Hn & -> & _)|(pre & name & seg & -> & Hpre & -> & Hne & Hs & _)].
    + exfalso. assert (existsb (fun q => String.eqb q p && no_char ":" q) ps = true) as E'; [|congruence].
      apply existsb_exists. exists p. split; [by apply list_elem_of_In|]. by rewrite String.eqb_refl.
    + clear E. remember (pre +:+ String ":" name) as p eqn:Ep.
      induction Hp as [p ps|p q ps Hp IH]; cbn [first_match].
      * assert (Em : match_capture (pre +:+ seg) p = Some (p, Some seg)).
        { rewrite Ep. unfold match_capture. rewrite split_at_char_app, strip_prefix_app by done.
          by rewrite (proj2 (String.eqb_neq _ _) Hne), Hs. }
        rewrite Em. eauto.
      * destruct (match_capture _ q); eauto.
Qed.

Lemma routes_reach_handlers_witness :
  route_to POST "/exodus/claims" = Matched Hsubmit_claim None /\
  route_to HEAD "/exodus/ledger" = Matched Hledger None /\
  route_to DELETE "/exodus/models/a.gguf" = Matched Hmodels_delete (Some "a.gguf").
Proof.
  split_and!; apply routes_reach_handlers; (split_and!; [|done|by intros []]); try done.
  by exists "a.gguf".
Defined.

#[local] Existing Instance Toy.crypto_inst.
#[local] Existing Instance Toy.serde_inst.
#[local] Existing Instance ProtocolDemo.env_inst.
#[local] Existing Instance RewardsDemo.env_inst.
#[local] Existing Instance InferenceDemo.env.
#[local] Existing Instance InferenceDemo.runtime.
#[local] Existing Instance InferenceTests.ascii_tables.
#[local] Existing Instance LlamaDemo.no_json.
#[local] Existing Instance Derived.decoders.
#[local] Existing Instance CoordinatorDemo.host.
#[local] Existing Instance AgreementDemo.ascii_only.

Definition node : Coordinator := CoordinatorDemo.boot empty_store.
Definition surroundings : Surroundings :=
  mkSurroundings 0 (fun m => (map_to_list m).*2.*1) 0 "u1" "2024-01-01T00:00:00+00:00" 0 ApiDemo.sound_io true
    (fun s => s) (fun addr => Ok addr).
Definition get (path : string) : Request := mkRequest GET path None None None NoBody.

Definition reply_of (o : outcome (Coordinator * ModelsDir * list co_event * Reply)) : Reply :=
  match o with Done (_, _, _, r) => r | _ => Undecodable end.

Lemma reads_are_safe_witness :
  let o := serve_request CoordinatorDemo.cfg (get "/exodus/healthz") surroundings node None in
  reply_of o = Answer (mkResponse 200 (json_object [("status", VString "ok"); ("detail", VBool true)])) /\
  match o with Done (c, d, evs, _) => co_store c = co_store node /\ d = None /\ evs = [] | _ => False end.
Proof.
  cbv zeta.
  assert (Er : reply_of (serve_request CoordinatorDemo.cfg (get "/exodus/healthz") surroundings node None) =
    Answer (mkResponse 200 (json_object [("status", VString "ok"); ("detail", VBool true)])))
    by (vm_compute; reflexivity).
  split; [exact Er|].
  destruct (serve_request CoordinatorDemo.cfg (get "/exodus/healthz") surroundings node None) as [[[[c d] evs] r]| |] eqn:E;
    [|discriminate Er..].
  destruct (reads_are_safe CoordinatorDemo.cfg (get "/exodus/healthz") surroundings node None c d evs r
    (or_introl eq_refl) E) as (Hs & _ & _ & _ & _ & _ & Hd & He).
  split; [exact Hs|split; [exact Hd|exact He]].
Defined.
End RoutesDemo.
