(* ===== verification/Simulation.v ===== *)
(** * Several nodes in one process ([src/simulation.rs])

The simulation runs coordinators over one [LocalTransport]: publishing calls the handlers of
every node, in the order they subscribed, before it returns, and a handler that publishes does
so inside the call.  [run_calls] executes these nested calls with a stack; it has fuel, since
nothing in the source bounds how long messages answer each other, and [Waiting] is the outcome
when it runs out.  Keys, identifiers, time stamps and the databases the nodes start with are
arguments. *)

From S2P Require Import Prelude F64 Crypto Models Accounting Config Text Host Inference Http LlamaServer.
From S2P Require Import Ledger Validation Protocol Decode Rewards Identity Coordinator.
From Stdlib Require Import Floats.SpecFloat.

(** ** Random numbers: xorshift64* *)

Definition Rng : Type := Z.

Definition rng_new (seed : Z) : Rng := Z.lor (wrap_u64 (seed * 0x9E3779B97F4A7C15)) 1.

(** The new state. *)
Definition xorshift (x : Rng) : Rng :=
  let x := Z.lxor x (Z.shiftr x 12) in
  let x := Z.lxor x (wrap_u64 (Z.shiftl x 25)) in
  Z.lxor x (Z.shiftr x 27).

Definition next_u64 (x : Rng) : Z * Rng :=
  let x := xorshift x in (wrap_u64 (x * 0x2545F4914F6CDD1D), x).

(** A remainder by zero panics. *)
Definition below (n : Z) (x : Rng) : option (Z * Rng) :=
  if n =? 0 then None else let '(v, x) := next_u64 x in Some (v mod n, x).

Definition range (lo hi : Z) (x : Rng) : Z * Rng :=
  if hi <=? lo then (lo, x)
  else let '(v, x) := next_u64 x in (wrap_i64 (lo + wrap_i64 (v mod wrap_u64 (wrap_i64 (hi - lo)))), x).

(** ** Work *)

Definition MODELS : list (string * f64 * string) := [
  ("mlx-community/Llama-3.2-1B-Instruct-4bit", f64_lit 12 10, "int4");
  ("mlx-community/Mistral-7B-Instruct-v0.3-4bit", f64_lit 72 10, "int4");
  ("mlx-community/Qwen2.5-14B-Instruct-4bit", f64_lit 148 10, "int4");
  ("mlx-community/Mixtral-8x7B-Instruct-v0.1-4bit", f64_lit 467 10, "int4")].

(** [None] is the panic of [unwrap] on an unknown precision. *)
Definition flops (model : string * f64 * string) (prompt completion : Z) : option f64 :=
  match Precision_from_str model.2 with
  | Err _ => None
  | Ok precision =>
      let tokens := f64_add (f64_of_Z prompt) (f64_mul (f64_of_Z completion) (f64_of_Z 2)) in
      Some (f64_mul (f64_mul (f64_mul (f64_mul (f64_of_Z 2) model.1.2) (f64_of_Z 1000000000)) tokens)
              (Precision_factor precision))
  end.

Definition work_seconds (prompt completion : Z) : f64 :=
  f64_add (f64_div (f64_of_Z prompt) (f64_of_Z 100)) (f64_div (f64_of_Z completion) (f64_of_Z 30)).

Record SimulationResult := mkSimulationResult {
  sim_num_nodes : nat;
  sim_ticks : nat;
  sim_blocks_committed : Z;
  sim_claims_committed : Z;
  sim_total_cu : f64;
  sim_consistent : bool;
  sim_detail : string;
  sim_ledgers : list Value;
  sim_network_report : Value;
}.

Definition obind {A B} (o : outcome A) (k : A -> outcome B) : outcome B :=
  match o with Done a => k a | Panics => Panics | Waiting => Waiting end.
Definition of_option {A} (o : option A) : outcome A :=
  match o with Some a => Done a | None => Panics end.

Notation "x <-! o ;; k" := (obind o (fun x => k))
  (at level 100, o at next level, right associativity) : exodus_scope.
Notation "' x <-! o ;; k" := (obind o (fun x => k))
  (at level 100, x pattern, o at next level, right associativity) : exodus_scope.

(** [w[0] == w[1]] for all neighbours. *)
Fixpoint neighbours_equal {A} `{EqDecision A} (l : list A) : bool :=
  match l with
  | x :: ((y :: _) as rest) => bool_decide (x = y) && neighbours_equal rest
  | _ => true
  end.

Section Simulation.
Context `{Crypto} `{Serde} `{Env} `{RewardEnv} `{HostOs} `{ProcessEnv} `{Unicode} `{JsonText}.
Context `{Runtime} `{Decoders}.
Variable config : ExodusConfig.
(** The random seeds of the key pairs and the databases of the nodes; the identifiers and time
stamps of the submitted claims; the clock of the telemetry. *)
Variable key_seed : nat -> bytes.
Variable database : nat -> ChainStore.
Variables fresh_id time_stamp : nat -> string.
Variable clock : Z.

Definition make_identity (seed : bytes) : NodeIdentity :=
  let '(private, public) := generate_key_pair seed in
  mkIdentity (node_id_from_public_key public) private (hex public).

(** ** The shared transport *)

(** The handler calls that publishing some events leads to: every node hears every topic. *)
Definition handler_calls (n : nat) (evs : list co_event) : list (nat * string * Value) :=
  evs ≫= (fun e =>
    match e with
    | Sent topic payload => map (fun i => (i, topic, payload)) (seq 0 n)
    | _ => []
    end).

(** Run handler calls, and those they lead to before the rest. *)
Fixpoint run_calls (fuel : nat) (calls : list (nat * string * Value)) (nodes : list Coordinator) :
  outcome (list Coordinator) :=
  match calls with
  | [] => Done nodes
  | (i, topic, payload) :: rest =>
      match fuel with
      | O => Waiting
      | S fuel =>
          c <-! of_option (nodes !! i) ;;
          ' (c, evs) <-! on_delivery config topic payload clock c ;;
          run_calls fuel (handler_calls (length nodes) evs ++ rest) (<[i := c]> nodes)
      end
  end.

(** An operation of node [i], with the calls its events lead to. *)
Definition node_acts (fuel : nat) (i : nat) (f : Coordinator -> Coordinator * list co_event)
  (nodes : list Coordinator) : outcome (list Coordinator) :=
  c <-! of_option (nodes !! i) ;;
  let '(c, evs) := f c in
  run_calls fuel (handler_calls (length nodes) evs) (<[i := c]> nodes).

(** ** Steps *)

(** [tick]: what it publishes is delivered before a takeover proposes. *)
Definition sim_tick (fuel : nat) (i : nat) (nodes : list Coordinator) : outcome (list Coordinator) :=
  c <-! of_option (nodes !! i) ;;
  let takeover := (tick_locked config (co_protocol c, co_store c)).2 in
  nodes <-! node_acts fuel i (on_consensus (fun ns => (tick_locked config ns).1)) nodes ;;
  if takeover then node_acts fuel i (on_consensus (propose_now config)) nodes else Done nodes.

Fixpoint sim_ticks_from (fuel : nat) (ids : list nat) (nodes : list Coordinator) :
  outcome (list Coordinator) :=
  match ids with
  | [] => Done nodes
  | i :: ids => nodes <-! sim_tick fuel i nodes ;; sim_ticks_from fuel ids nodes
  end.
Definition tick_all (fuel : nat) (nodes : list Coordinator) : outcome (list Coordinator) :=
  sim_ticks_from fuel (seq 0 (length nodes)) nodes.

(** The node the first node takes for the sealer proposes. *)
Definition sealer_index (nodes : list Coordinator) (sealer_id : string) : option nat :=
  fst <$> list_find (fun c => id_node_id (co_identity c) = sealer_id) nodes.

Definition sim_propose (fuel : nat) (nodes : list Coordinator) : outcome (list Coordinator) :=
  c0 <-! of_option (nodes !! 0%nat) ;;
  match sealer_index nodes (sealer_node config (co_protocol c0) (co_store c0)) with
  | Some i => node_acts fuel i (on_consensus (propose_now config)) nodes
  | None => Done nodes
  end.

Definition sim_work (model : string * f64 * string) (prompt completion : Z) (estimate : f64) :
  Contribution :=
  mkContribution model.1.1 model.1.2 model.2 prompt completion (work_seconds prompt completion)
    estimate "gpu_apple" "text_generation" None None.

(** One claim of a random node for a random model; [k] numbers the claims. *)
Definition sim_claim (fuel k : nat) (x : Rng) (nodes : list Coordinator) :
  outcome (Rng * list Coordinator) :=
  ' (author, x) <-! of_option (below (usize_len nodes) x) ;;
  ' (m, x) <-! of_option (below (usize_len MODELS) x) ;;
  model <-! of_option (MODELS !! Z.to_nat m) ;;
  let '(prompt, x) := range 64 2048 x in
  let '(completion, x) := range 32 512 x in
  estimate <-! of_option (flops model prompt completion) ;;
  nodes <-! node_acts fuel (Z.to_nat author)
    (fun c => (submit_contribution config (sim_work model prompt completion estimate)
                 (fresh_id k) (time_stamp k) c).1) nodes ;;
  Done (x, nodes).

Fixpoint sim_claims (fuel k n : nat) (x : Rng) (nodes : list Coordinator) :
  outcome (Rng * list Coordinator) :=
  match n with
  | O => Done (x, nodes)
  | S n => ' (x, nodes) <-! sim_claim fuel k x nodes ;; sim_claims fuel (S k) n x nodes
  end.

(** The rounds of the simulation. *)
Fixpoint sim_rounds (fuel k ticks claims_per_tick : nat) (x : Rng) (nodes : list Coordinator) :
  outcome (list Coordinator) :=
  match ticks with
  | O => Done nodes
  | S ticks =>
      ' (x, nodes) <-! sim_claims fuel k claims_per_tick x nodes ;;
      nodes <-! tick_all fuel nodes ;;
      nodes <-! sim_propose fuel nodes ;;
      sim_rounds fuel (k + claims_per_tick) ticks claims_per_tick x nodes
  end.

(** The nodes; [new] may panic. *)
Fixpoint start_nodes (ids : list nat) : outcome (list Coordinator) :=
  match ids with
  | [] => Done []
  | i :: ids =>
      c <-! of_option (coordinator_new config (make_identity (key_seed i)) (database i) false) ;;
      nodes <-! start_nodes ids ;;
      Done (connect c :: nodes)
  end.

(** The nodes at the end of the simulation. *)
Definition simulate_nodes (fuel num_nodes ticks : nat) (seed : option Z) (claims_per_tick : nat) :
  outcome (list Coordinator) :=
  let x := rng_new (default 0xDEADBEEF seed) in
  nodes <-! start_nodes (seq 0 num_nodes) ;;
  nodes <-! sim_rounds fuel 0 ticks claims_per_tick x nodes ;;
  nodes <-! tick_all fuel nodes ;;
  nodes <-! sim_propose fuel nodes ;;
  tick_all fuel nodes.

(** ** The report *)

Definition head_hash (c : Coordinator) : option string := block_hash <$> head (co_store c).

Definition consistent_nodes (nodes : list Coordinator) : bool :=
  neighbours_equal (map head_hash nodes) &&
  neighbours_equal (map (fun c => height (co_store c)) nodes).

Definition show_bool (b : bool) : string := if b then "true" else "false".

(** [n] is the first reading of the clock the report takes. *)
Definition simulation_report (num_nodes ticks n : nat) (nodes : list Coordinator) : outcome SimulationResult :=
  c0 <-! of_option (nodes !! 0%nat) ;;
  let heights := map (fun c => height (co_store c)) nodes in
  let consistent := consistent_nodes nodes in
  Done (mkSimulationResult num_nodes ticks
    (match head_hash c0 with Some _ => height (co_store c0) + 1 | None => 0 end)
    (usize_len (all_claims (co_store c0)))
    (total_cu column_sum (co_store c0))
    consistent
    ("heights=[" +:+ String.concat ", " (map pretty heights) +:+ "] heads_agree=" +:+ show_bool consistent)
    (map (ledger_summary 3) nodes)
    (network_report config (co_store c0) n).1).

Definition simulate (fuel num_nodes ticks : nat) (seed : option Z) (claims_per_tick n : nat) :
  outcome SimulationResult :=
  nodes <-! simulate_nodes fuel num_nodes ticks seed claims_per_tick ;;
  simulation_report num_nodes ticks n nodes.
End Simulation.
