(* ===== verification/SimulationProps.v ===== *)
(** * Properties of the simulation

The generator never gets stuck and its numbers are in range; whatever the nodes send each
other, every node stays an execution of the coordinator; and a simulation that reports
agreement has brought all nodes to one ledger. *)

From S2P Require Import Prelude F64 F64Theory Crypto CryptoTheory Models Accounting Config ConfigProps Text Host Inference.
From S2P Require Import InferenceProps Http LlamaServer Ledger LedgerTheory Binding Validation ValidationTheory Protocol.
From S2P Require Import ProtocolTheory ProtocolInv ProtocolSteps Decode Rewards Identity Coordinator CoordinatorSteps.
From S2P Require Import CoordinatorProps Simulation.

(** ** Random numbers *)

Lemma lxor_range x y n : 0 <= n -> 0 <= x < 2 ^ n -> 0 <= y < 2 ^ n -> 0 <= Z.lxor x y < 2 ^ n.
Proof.
  intros Hn Hx Hy. assert (Hl : 0 <= Z.lxor x y) by (apply Z.lxor_nonneg; lia). split; [done|].
  destruct (Z.eq_dec (Z.lxor x y) 0) as [->|Hne]; [by apply Z.pow_pos_nonneg|].
  apply Z.log2_lt_pow2; [lia|]. eapply Z.le_lt_trans; [apply Z.log2_lxor; lia|].
  destruct (Z.eq_dec n 0) as [->|]; [|apply Z.max_lub_lt].
  - assert (x = 0) by lia. assert (y = 0) by lia. subst. done.
  - destruct (Z.eq_dec x 0) as [->|]; [cbn; lia|apply Z.log2_lt_pow2; lia].
  - destruct (Z.eq_dec y 0) as [->|]; [cbn; lia|apply Z.log2_lt_pow2; lia].
Qed.

(** A number that equals a proper shift of itself is zero. *)
Lemma shiftr_fixed x k : 0 <= x -> 0 < k -> x = Z.shiftr x k -> x = 0.
Proof.
  intros Hx Hk E. destruct (Z.eq_dec x 0) as [|Hne]; [done|]. exfalso.
  rewrite Z.shiftr_div_pow2 in E by lia.
  assert (x / 2 ^ k < x); [|lia]. apply Z.div_lt; [lia|].
  apply (Z.pow_lt_mono_r 2 0 k); lia.
Qed.

Lemma shiftl_fixed x k : 0 <= x -> 0 < k -> x = wrap_u64 (Z.shiftl x k) -> x = 0.
Proof.
  intros Hx Hk E. apply Z.bits_inj'. intros i Hi. rewrite Z.bits_0.
  enough (Hall : forall n : nat, Z.of_nat n = i -> Z.testbit x i = false) by (apply (Hall (Z.to_nat i)); lia).
  intros n. revert i Hi. induction n as [n IH] using lt_wf_ind. intros i Hi Hn. rewrite E.
  unfold wrap_u64. destruct (Z.lt_ge_cases i 64) as [Hlt|Hge].
  - rewrite Z.mod_pow2_bits_low by lia. rewrite Z.shiftl_spec by done.
    destruct (Z.lt_ge_cases i k); [by apply Z.testbit_neg_r; lia|].
    apply (IH (Z.to_nat (i - k))); lia.
  - by rewrite Z.mod_pow2_bits_high by lia.
Qed.

Lemma xorshift_range x : 0 < x < 2 ^ 64 -> 0 < xorshift x < 2 ^ 64.
Proof.
  intros Hx. unfold xorshift.
  assert (Hsr : forall y k, 0 <= y < 2 ^ 64 -> 0 < k -> 0 <= Z.shiftr y k < 2 ^ 64).
  { intros y k Hy Hk. rewrite Z.shiftr_div_pow2 by lia. split; [apply Z.div_pos; [lia|by apply Z.pow_pos_nonneg; lia]|].
    apply Z.div_lt_upper_bound; [by apply Z.pow_pos_nonneg; lia|].
    assert (0 < 2 ^ k) by (apply Z.pow_pos_nonneg; lia). nia. }
  assert (Hstep : forall y z, 0 < y < 2 ^ 64 -> 0 <= z < 2 ^ 64 -> y <> z -> 0 < Z.lxor y z < 2 ^ 64).
  { intros y z Hy Hz Hne. pose proof (lxor_range y z 64 ltac:(lia) ltac:(lia) Hz) as Hr.
    assert (Z.lxor y z <> 0) by (rewrite Z.lxor_eq_0_iff; done). lia. }
  assert (Hw : forall z, 0 <= wrap_u64 z < 2 ^ 64) by (intros z; by apply Z.mod_pos_bound).
  assert (H1 : 0 < Z.lxor x (Z.shiftr x 12) < 2 ^ 64).
  { apply Hstep; [done|apply Hsr; lia|]. intros E. apply shiftr_fixed in E; lia. }
  set (y := Z.lxor x (Z.shiftr x 12)) in *.
  assert (H2 : 0 < Z.lxor y (wrap_u64 (Z.shiftl y 25)) < 2 ^ 64).
  { apply Hstep; [done|apply Hw|]. intros E. apply shiftl_fixed in E; lia. }
  apply Hstep; [done|apply Hsr; lia|]. intros E. apply shiftr_fixed in E; lia.
Qed.

(** The states of a generator: any number of steps after a seed. *)
Lemma rng_new_range seed : 0 < rng_new seed < 2 ^ 64.
Proof.
  unfold rng_new. pose proof (Z.mod_pos_bound (seed * 0x9E3779B97F4A7C15) (2 ^ 64) ltac:(lia)) as Hw.
  unfold wrap_u64. set (a := _ mod _) in *.
  assert (H0 : 0 <= Z.lor a 1) by (apply Z.lor_nonneg; lia).
  assert (Hne : Z.lor a 1 <> 0) by (rewrite Z.lor_eq_0_iff; lia).
  split; [lia|]. apply Z.log2_lt_pow2; [lia|]. rewrite Z.log2_lor by lia.
  apply Z.max_lub_lt; [|done]. destruct (Z.eq_dec a 0) as [->|]; [done|]. apply Z.log2_lt_pow2; lia.
Qed.

(** the generator never gets stuck: from every seed, after any number of steps, its state is a
non-zero 64-bit number; a draw below [n] is below [n], one from a range of positive size lies
in the range, and only a draw below zero fails. *)
Theorem rng_sound seed steps n lo hi :
  let x := Nat.iter steps xorshift (rng_new seed) in
  0 < x < 2 ^ 64 /\
  (below n x = None <-> n = 0) /\
  (forall v y, 0 < n -> below n x = Some (v, y) -> 0 <= v < n /\ y = xorshift x) /\
  (in_i64 lo = true -> in_i64 hi = true -> 0 < hi - lo < 2 ^ 63 ->
   lo <= (range lo hi x).1 < hi /\ (range lo hi x).2 = xorshift x).
Proof.
  cbv zeta. assert (Hx : 0 < Nat.iter steps xorshift (rng_new seed) < 2 ^ 64).
  { induction steps as [|k IH]; [apply rng_new_range|by apply xorshift_range]. }
  split; [done|]. set (x := Nat.iter _ _ _) in *. unfold below, range, next_u64. split_and!.
  - destruct (Z.eqb_spec n 0); [done|]. by split.
  - intros v y Hn. rewrite (proj2 (Z.eqb_neq n 0)) by lia. intros [= <- <-]. split; [|done].
    by apply Z.mod_pos_bound.
  - intros Hlo%in_i64_spec Hhi%in_i64_spec Hd. rewrite (proj2 (Z.leb_gt hi lo)) by lia. cbn [fst snd].
    split; [|done]. unfold i64_min, i64_max in *.
    rewrite (wrap_i64_id (hi - lo)) by (apply in_i64_spec; unfold i64_min, i64_max; lia).
    assert (Hw : wrap_u64 (hi - lo) = hi - lo) by (apply Z.mod_small; lia). rewrite Hw.
    set (v := wrap_u64 (_ * _)). pose proof (Z.mod_pos_bound v (hi - lo) ltac:(lia)) as Hv.
    rewrite (wrap_i64_id (v mod (hi - lo))) by (apply in_i64_spec; unfold i64_min, i64_max; lia).
    rewrite wrap_i64_id by (apply in_i64_spec; unfold i64_min, i64_max; lia). lia.
Qed.

(** ** The nodes *)

Lemma obind_done {A B} (o : outcome A) (k : A -> outcome B) b :
  obind o k = Done b <-> exists a, o = Done a /\ k a = Done b.
Proof. destruct o; cbn; [split; [by eauto|by intros (? & [= <-] & ?)]|split; [done|by intros (? & ? & ?)]..]. Qed.

Lemma of_option_done {A} (o : option A) a : of_option o = Done a <-> o = Some a.
Proof. destruct o; cbn; split; congruence. Qed.

(** The work of the simulation is well formed. *)
Lemma sim_work_wf model prompt completion estimate :
  model ∈ MODELS -> in_i64 prompt = true -> in_i64 completion = true ->
  flops model prompt completion = Some estimate ->
  wf_contribution (sim_work model prompt completion estimate) = true.
Proof.
  intros Hm Hp Hc Hf.
  assert (Hmod : within 700 model.1.2 /\ valid_str model.1.1 = true).
  { unfold MODELS in Hm. rewrite !elem_of_cons in Hm.
    destruct Hm as [->|[->|[->|[->|[]%elem_of_nil]]]]; by vm_compute. }
  destruct Hmod as [Hw Hv].
  assert (Hest : is_finite estimate = true).
  { unfold flops in Hf. destruct (Precision_from_str model.2) as [prec|]; [|done]. injection Hf as <-.
    apply (within_finite (700 + 112)). by apply estimated_flops_within. }
  assert (Hz : forall z, in_i64 z = true -> within 65 (f64_of_Z z)).
  { intros z Hz%in_i64_spec. apply (within_of_Z z 64); unfold i64_min, i64_max in *; lia. }
  assert (Hs : is_finite (work_seconds prompt completion) = true).
  { apply (within_finite 116). unfold work_seconds. apply (within_add _ _ 114); [| |lia].
    - change (f64_of_Z 100) with (SpecFloat.S754_finite false 7036874417766400 (-46)).
      apply within_le with (65 - (-46) + 1); [|lia]. apply within_div; [by apply Hz|lia].
    - change (f64_of_Z 30) with (SpecFloat.S754_finite false 8444249301319680 (-48)).
      apply within_le with (65 - (-48) + 1); [|lia]. apply within_div; [by apply Hz|lia]. }
  unfold wf_contribution. cbn [sim_work ct_prompt_tokens ct_completion_tokens ct_params_b
    ct_compute_seconds ct_flops_estimate ct_model_id ct_started_at ct_ended_at from_option id].
  rewrite Hp, Hc, (within_finite _ _ Hw), Hs, Hest, Hv. done.
Qed.

Lemma range_in_i64 lo hi x : in_i64 lo = true -> in_i64 (range lo hi x).1 = true.
Proof. intros Hlo. unfold range, next_u64. destruct (hi <=? lo); [done|]. apply wrap_i64_range. Qed.

Section Nodes.
Context `{Crypto} `{Serde} `{Env} `{RewardEnv} `{HostOs} `{ProcessEnv} `{Unicode} `{JsonText}.
Context `{Runtime} `{Decoders} `{!TypedDecoders}.
Variable config : ExodusConfig.
Variable key_seed : nat -> bytes.
Variable database : nat -> ChainStore.
Variables fresh_id time_stamp : nat -> string.
Variable clock : Z.
Hypothesis Hids : forall k, valid_str (fresh_id k) = true.
Hypothesis Hstamps : forall k, valid_str (time_stamp k) = true.

(** Every node is an execution of the coordinator of its identity. *)
Definition nodes_run (nodes : list Coordinator) : Prop :=
  forall i c, nodes !! i = Some c -> node_run config (make_identity (key_seed i)) (database i) c 0.

Lemma nodes_run_insert nodes i c c' :
  nodes_run nodes -> nodes !! i = Some c -> node_op config c c' -> nodes_run (<[i := c']> nodes).
Proof.
  intros Hr Hi Hop j x. destruct (decide (i = j)) as [<-|Hne].
  - rewrite list_lookup_insert_eq by (by eapply lookup_lt_Some). intros [= <-].
    eapply run_op; [by apply Hr|done].
  - rewrite list_lookup_insert_ne by done. apply Hr.
Qed.

Lemma run_calls_ok fuel calls nodes nodes' :
  nodes_run nodes -> run_calls config clock fuel calls nodes = Done nodes' ->
  nodes_run nodes' /\ length nodes' = length nodes.
Proof.
  revert calls nodes. induction fuel as [|fuel IH]; intros [|[[i topic] payload] calls] nodes Hr E;
    cbn [run_calls] in E; try (by injection E as <-); [done|].
  apply obind_done in E as (c & Hc%of_option_done & E). apply obind_done in E as ([c1 evs] & Ed & E).
  apply IH in E as [E1 E2]; [by rewrite length_insert in E2|].
  eapply nodes_run_insert; [done..|]. eapply op_deliver; [|exact Ed]. intros m. apply decoded_wf.
Qed.

Lemma node_acts_ok fuel i f nodes nodes' :
  (forall c, node_op config c (f c).1) -> nodes_run nodes ->
  node_acts config clock fuel i f nodes = Done nodes' ->
  nodes_run nodes' /\ length nodes' = length nodes.
Proof.
  intros Hf Hr E. unfold node_acts in E. apply obind_done in E as (c & Hc%of_option_done & E).
  specialize (Hf c). destruct (f c) as [c1 evs]. cbn [fst] in Hf.
  apply run_calls_ok in E as [E1 E2]; [by rewrite length_insert in E2|].
  by eapply nodes_run_insert.
Qed.

Lemma sim_tick_ok fuel i nodes nodes' :
  nodes_run nodes -> sim_tick config clock fuel i nodes = Done nodes' ->
  nodes_run nodes' /\ length nodes' = length nodes.
Proof.
  intros Hr E. unfold sim_tick in E. apply obind_done in E as (c & _ & E). cbv zeta in E.
  apply obind_done in E as (ns1 & E1 & E). apply node_acts_ok in E1 as [Hr1 Hl1]; [|intros ?; apply op_tick|done].
  destruct (tick_locked config _).2; [|by injection E as <-].
  apply node_acts_ok in E as [Hr2 Hl2]; [|intros ?; apply op_propose|done]. split; [done|congruence].
Qed.

Lemma sim_ticks_ok fuel ids nodes nodes' :
  nodes_run nodes -> sim_ticks_from config clock fuel ids nodes = Done nodes' ->
  nodes_run nodes' /\ length nodes' = length nodes.
Proof.
  revert nodes. induction ids as [|i ids IH]; intros nodes Hr E; cbn [sim_ticks_from] in E; [by injection E as <-|].
  apply obind_done in E as (ns1 & E1 & E). apply sim_tick_ok in E1 as [Hr1 Hl1]; [|done].
  apply IH in E as [? ?]; [|done]. split; [done|congruence].
Qed.

Lemma sim_propose_ok fuel nodes nodes' :
  nodes_run nodes -> sim_propose config clock fuel nodes = Done nodes' ->
  nodes_run nodes' /\ length nodes' = length nodes.
Proof.
  intros Hr E. unfold sim_propose in E. apply obind_done in E as (c & _ & E).
  destruct (sealer_index _ _) as [i|]; [|by injection E as <-].
  apply node_acts_ok in E; [done|intros ?; apply op_propose|done].
Qed.

Lemma sim_claim_ok fuel k x nodes x' nodes' :
  nodes_run nodes -> sim_claim config fresh_id time_stamp clock fuel k x nodes = Done (x', nodes') ->
  nodes_run nodes' /\ length nodes' = length nodes.
Proof.
  intros Hr E. unfold sim_claim in E.
  apply obind_done in E as ([author x1] & _ & E). apply obind_done in E as ([m x2] & _ & E).
  apply obind_done in E as (model & Hm%of_option_done%list_elem_of_lookup_2 & E).
  pose proof (range_in_i64 64 2048 x2 eq_refl) as Hp. destruct (range 64 2048 x2) as [prompt x3].
  pose proof (range_in_i64 32 512 x3 eq_refl) as Hc. destruct (range 32 512 x3) as [completion x4]. cbn [fst] in Hp, Hc.
  apply obind_done in E as (estimate & Hf%of_option_done & E). apply obind_done in E as (ns1 & E1 & E).
  injection E as _ <-. eapply node_acts_ok in E1; [done| |done]. intros c. cbn beta.
  destruct (submit_contribution _ _ _ _ _) as [[c1 evs] r] eqn:Es. cbn [fst].
  eapply op_submit; [|apply Hids|apply Hstamps|exact Es]. by apply sim_work_wf.
Qed.

Lemma sim_claims_ok fuel k n x nodes x' nodes' :
  nodes_run nodes -> sim_claims config fresh_id time_stamp clock fuel k n x nodes = Done (x', nodes') ->
  nodes_run nodes' /\ length nodes' = length nodes.
Proof.
  revert k x nodes. induction n as [|n IH]; intros k x nodes Hr E; cbn [sim_claims] in E; [by injection E as _ <-|].
  apply obind_done in E as ([x1 ns1] & E1 & E). apply sim_claim_ok in E1 as [Hr1 Hl1]; [|done].
  apply IH in E as [? ?]; [|done]. split; [done|congruence].
Qed.

Lemma sim_rounds_ok fuel k ticks n x nodes nodes' :
  nodes_run nodes -> sim_rounds config fresh_id time_stamp clock fuel k ticks n x nodes = Done nodes' ->
  nodes_run nodes' /\ length nodes' = length nodes.
Proof.
  revert k x nodes. induction ticks as [|t IH]; intros k x nodes Hr E; cbn [sim_rounds] in E; [by injection E as <-|].
  apply obind_done in E as ([x1 ns1] & E1 & E). apply sim_claims_ok in E1 as [Hr1 Hl1]; [|done].
  apply obind_done in E as (ns2 & E2 & E). apply sim_ticks_ok in E2 as [Hr2 Hl2]; [|done].
  apply obind_done in E as (ns3 & E3 & E). apply sim_propose_ok in E3 as [Hr3 Hl3]; [|done].
  apply IH in E as [? ?]; [|done]. split; [done|congruence].
Qed.

Lemma start_nodes_ok ids nodes :
  start_nodes config key_seed database ids = Done nodes ->
  length nodes = length ids /\
  forall i c, nodes !! i = Some c -> exists k, ids !! i = Some k /\
    node_run config (make_identity (key_seed k)) (database k) c 0.
Proof.
  revert nodes. induction ids as [|k ids IH]; intros nodes E; cbn [start_nodes] in E; [by injection E as <-|].
  apply obind_done in E as (c & Hc%of_option_done & E). apply obind_done in E as (ns1 & E1 & E).
  injection E as <-. destruct (IH _ E1) as [Hl Hn]. split; [cbn; by rewrite Hl|].
  intros [|i] x Hx; cbn in Hx; [|by apply Hn]. injection Hx as <-. exists k. split; [done|].
  eapply run_op; [by eapply run_started|apply op_connect].
Qed.

(** The nodes of a finished simulation. *)
Lemma simulate_nodes_ok fuel num_nodes ticks seed n nodes :
  simulate_nodes config key_seed database fresh_id time_stamp clock fuel num_nodes ticks seed n = Done nodes ->
  nodes_run nodes /\ length nodes = num_nodes.
Proof.
  unfold simulate_nodes. cbv zeta. intros E. apply obind_done in E as (ns0 & E0 & E).
  apply start_nodes_ok in E0 as [Hl0 Hn0]. rewrite length_seq in Hl0.
  assert (Hr0 : nodes_run ns0).
  { intros i c Hi. destruct (Hn0 i c Hi) as (k & Hk & Hrun). apply lookup_seq in Hk as [-> _]. done. }
  apply obind_done in E as (ns1 & E1 & E). apply sim_rounds_ok in E1 as [Hr1 Hl1]; [|done].
  apply obind_done in E as (ns2 & E2 & E). apply sim_ticks_ok in E2 as [Hr2 Hl2]; [|done].
  apply obind_done in E as (ns3 & E3 & E). apply sim_propose_ok in E3 as [Hr3 Hl3]; [|done].
  apply sim_ticks_ok in E as [Hr4 Hl4]; [|done]. split; [done|congruence].
Qed.
End Nodes.

Lemma neighbours_equal_all {A} `{EqDecision A} (l : list A) i j x y :
  neighbours_equal l = true -> l !! i = Some x -> l !! j = Some y -> x = y.
Proof.
  intros Hl. assert (Hhd : forall i x h, l !! 0%nat = Some h -> l !! i = Some x -> x = h).
  { clear i j x y. induction l as [|a l IH]; [done|]. intros i x h [= <-].
    destruct i as [|i]; cbn; [congruence|]. destruct l as [|b l]; [done|].
    cbn in Hl. apply andb_true_iff in Hl as [->%bool_decide_eq_true Hl].
    intros Hx. by eapply IH. }
  intros Hi Hj. destruct l as [|h l]; [done|].
  rewrite (Hhd i x h), (Hhd j y h); done.
Qed.

Lemma neighbours_equal_pairwise {A} `{EqDecision A} (l : list A) :
  (forall x y, x ∈ l -> y ∈ l -> x = y) -> neighbours_equal l = true.
Proof.
  induction l as [|a [|b l] IH]; intros Hall; [done..|].
  change (bool_decide (a = b) && neighbours_equal (b :: l) = true).
  rewrite (bool_decide_eq_true_2 (a = b)) by (apply Hall; set_solver). cbn [andb].
  apply IH. intros x y Hx Hy. apply Hall; set_solver.
Qed.

Lemma neighbours_equal_spec {A} `{EqDecision A} (l : list A) :
  neighbours_equal l = true <-> forall x y, x ∈ l -> y ∈ l -> x = y.
Proof.
  split; [|apply neighbours_equal_pairwise].
  intros Hl x y [i Hi]%list_elem_of_lookup [j Hj]%list_elem_of_lookup. by eapply neighbours_equal_all.
Qed.

Section Agreement.
Context `{CL : CryptoLaws} `{SL : SerdeLaws} `{EL : EnvLaws} `{RewardEnv} `{HostOs} `{ProcessEnv}.
Context `{Unicode} `{JsonText} `{Runtime} `{Decoders}.
Variable config : ExodusConfig.

(** A node in the middle of an execution: started from an identity and a ledger a node may start
with, after any operations, deliveries and workers ([simulate_nodes_ok]: the nodes of a
simulation are such nodes at its end). *)
Definition executing (c : Coordinator) : Prop :=
  exists identity s0 n, node_start config identity s0 /\ node_run config identity s0 c n.

Lemma executing_ledger c :
  executing c -> ledger_wf (co_store c) /\ is_ok (verify_chain (co_store c)) = true.
Proof.
  intros (identity & s0 & n & Hst & Hr). apply (node_run_good _ _ _ Hst) in Hr as (_ & Hr & _).
  destruct (reachable_good _ _ _ _ _ (nst_start _ _ _ Hst) Hr) as (chain & Es & [Hv _] & _).
  cbn [snd] in Es. rewrite Es. split; [by exists chain|]. by rewrite verify_chain_of.
Qed.

Lemma consistent_nodes_spec nodes :
  consistent_nodes nodes = true <->
  forall ci cj, ci ∈ nodes -> cj ∈ nodes ->
    head_hash ci = head_hash cj /\ height (co_store ci) = height (co_store cj).
Proof.
  unfold consistent_nodes. rewrite andb_true_iff, !neighbours_equal_spec. split.
  - intros [Hh Hg] ci cj Hi Hj. split.
    + by apply Hh; apply list_elem_of_fmap_2.
    + by apply Hg; apply (list_elem_of_fmap_2 (fun c => height (co_store c))).
  - intros Hall. split; intros x y (ci & -> & Hi)%list_elem_of_fmap (cj & -> & Hj)%list_elem_of_fmap;
      by apply Hall.
Qed.

(** C6: the agreement a simulation reports is real.  For any nodes in the middle of an execution, at
least one, whatever they have sent each other, the report is produced; it says the ledgers are
consistent exactly when any two nodes have the same head hash and the same height; and when it
says so, the audit of every node succeeds and any two nodes hold the same proposals and
signatures at every height, unless two different inputs hashed for their blocks have one
SHA-256 digest.  (The [quorum] column of a block is not hashed.  The floats of the blocks are
those that the formatter prints so that they read back, which Ryu documents of every float.) *)
Theorem reported_agreement_is_real num_nodes ticks n nodes :
  nodes <> [] -> Forall executing nodes ->
  Forall (fun c => forallb block_faithful (blocks (co_store c)) = true) nodes ->
  exists r, simulation_report config num_nodes ticks n nodes = Done r /\
    (sim_consistent r = true <->
     forall ci cj, ci ∈ nodes -> cj ∈ nodes ->
       head_hash ci = head_hash cj /\ height (co_store ci) = height (co_store cj)) /\
    (sim_consistent r = true ->
     forall ci cj, ci ∈ nodes -> cj ∈ nodes ->
       is_ok (verify_chain (co_store ci)) = true /\
       (covered <$> blocks (co_store ci) = covered <$> blocks (co_store cj) \/
        collides (blocks (co_store ci) ≫= hashed_inputs) (blocks (co_store cj) ≫= hashed_inputs))).
Proof.
  intros Hne Hex Hfaith. destruct nodes as [|c0 nodes]; [done|]. clear Hne.
  eexists. split; [reflexivity|]. cbn [sim_consistent]. split; [apply consistent_nodes_spec|].
  intros Hcons ci cj Hi Hj. rewrite Forall_forall in Hex, Hfaith.
  pose proof (executing_ledger ci (Hex _ Hi)) as [Wi Vi]. pose proof (executing_ledger cj (Hex _ Hj)) as [Wj _].
  split; [done|]. apply same_head_same_ledger; [done|done|by apply Hfaith..|].
  by apply (proj1 (consistent_nodes_spec (c0 :: nodes)) Hcons).
Qed.
End Agreement.
