(* ===== verification/SimulationDemo.v ===== *)
(** * A concrete simulation

Two nodes, one round, one claim: the whole program runs inside the model, from the random
draws through gossip, proposal, signatures and commit to two equal ledgers. *)

From S2P Require Import Prelude F64 Crypto CryptoTheory Models Accounting Instances Config Text Host Inference.
From S2P Require Import InferenceProps Http LlamaServer LlamaProps Ledger LedgerTheory LedgerProps Binding Validation.
From S2P Require Import ValidationTheory Protocol ProtocolTheory ProtocolInv ProtocolSteps ProtocolProps Decode.
From S2P Require Import Rewards RewardsProps Identity Coordinator CoordinatorSteps CoordinatorProps CoordinatorDemo.
From S2P Require Import Simulation SimulationProps.

Module SimulationDemo.
#[local] Existing Instance Toy.crypto_inst.
#[local] Existing Instance Toy.serde_inst.
#[local] Existing Instance toy_crypto_laws.
#[local] Existing Instance toy_serde_laws.
#[local] Existing Instance ProtocolDemo.env_inst.
#[local] Existing Instance ProtocolDemo.env_laws.
#[local] Existing Instance RewardsDemo.env_inst.
#[local] Existing Instance InferenceDemo.env.
#[local] Existing Instance InferenceDemo.runtime.
#[local] Existing Instance InferenceTests.ascii_tables.
#[local] Existing Instance LlamaDemo.no_json.
#[local] Existing Instance Derived.strict.
#[local] Existing Instance Derived.strict_typed.
#[local] Existing Instance CoordinatorDemo.host.

Local Abbreviation cfg := CoordinatorDemo.cfg.

Definition seeds (i : nat) : bytes :=
  match i with O => Demo.seed | _ => String "B" (String.substring 1 31 Demo.seed) end.
Definition database (_ : nat) : ChainStore := empty_store.
Definition ids (_ : nat) : string := "c0".
Definition stamps (_ : nat) : string := "2026-08-06T00:00:00+00:00".

Lemma seeds_start i : node_start cfg (make_identity (seeds i)) (database i).
Proof.
  destruct i as [|i]; (split; [|reflexivity]);
    (split; [reflexivity|vm_compute; reflexivity|exists []; split; [done|apply sound_nil]]).
Qed.

Local Abbreviation sim := (simulate_nodes cfg seeds database ids stamps 0 200 2 1 (Some 7) 1).

(** The run ends, with block 1 on both nodes and one claim in it. *)
Definition finished (o : outcome (list Coordinator)) : bool :=
  match o with
  | Done nodes =>
      match simulation_report cfg 2 1 0 nodes with
      | Done r =>
          sim_consistent r && (sim_blocks_committed r =? 2) && (sim_claims_committed r =? 1) &&
          String.eqb (sim_detail r) "heights=[1, 1] heads_agree=true" &&
          forallb (fun c => forallb block_faithful (blocks (co_store c))) nodes
      | _ => false
      end
  | _ => false
  end.

Lemma sim_finished : finished sim = true.
Proof. vm_compute. reflexivity. Qed.

Lemma sim_executing nodes : sim = Done nodes -> Forall (executing cfg) nodes.
Proof.
  intros E. apply simulate_nodes_ok in E as [Hr _]; [|done..].
  apply Forall_forall. intros c [i Hi]%list_elem_of_lookup.
  exists (make_identity (seeds i)), (database i), 0%nat. split; [apply seeds_start|by apply Hr].
Qed.

Lemma reported_agreement_is_real_witness :
  exists c0 c1, sim = Done [c0; c1] /\ is_ok (verify_chain (co_store c0)) = true /\
    (covered <$> blocks (co_store c0) = covered <$> blocks (co_store c1) \/
     collides (blocks (co_store c0) ≫= hashed_inputs) (blocks (co_store c1) ≫= hashed_inputs)).
Proof.
  pose proof sim_finished as Hf. destruct sim as [nodes| |] eqn:E; [|discriminate Hf|discriminate Hf].
  pose proof (sim_executing nodes E) as Hex.
  destruct nodes as [|c0 [|c1 [|? ?]]]; [discriminate Hf| | |];
    try (apply simulate_nodes_ok in E as [_ Hlen]; [discriminate Hlen|done..]).
  exists c0, c1. split; [reflexivity|].
  destruct (reported_agreement_is_real cfg 2 1 0 [c0; c1]) as (r & Er & _ & Hall); [done|done| |].
  - cbn [finished] in Hf. destruct (simulation_report cfg 2 1 0 [c0; c1]) as [r| |]; [|discriminate Hf..].
    apply andb_true_iff in Hf as [_ Hf]. apply Forall_forall. intros c Hc.
    rewrite forallb_forall in Hf. apply Hf. by apply list_elem_of_In.
  - cbn [finished] in Hf. rewrite Er in Hf. repeat (apply andb_true_iff in Hf as [Hf _]).
    apply (Hall Hf c0 c1); [left|right; left].
Defined.
End SimulationDemo.
