(* ===== verification/Fanout.v ===== *)
(** * Distributed inference between nodes ([request_inference] to [run_inference_request])

Nodes that share a transport ([LocalTransport]), and one distributed request among them.  The
threads are explicit: the one of the requester, which publishes the request, and one worker for
every node that takes it up, started by the handler of the request.  A step runs one thread
up to its next effect on a node: a worker takes its permit or is refused, its backend answers, a
publication reaches the handlers of one more node, a worker records its work and gives the permit
back.  [fan_steps] runs any sequence of them, so the workers run in any interleaving, the
publications of several overlap, and a worker may have answered before the last node has heard the
request.  The theorem is the contract a caller relies on: whatever the interleaving, one answer of
every peer, from nobody else, under the node it came from. *)

From S2P Require Import Prelude F64 Crypto Models Accounting Config Text Host Inference Http LlamaServer.
From S2P Require Import Ledger Validation Protocol Decode Rewards Identity Coordinator CoordinatorSteps Simulation.

(** The derives of the two messages read back what they write. *)
Class InferenceLaws `{Decoders} := {
  infer_request_roundtrip r :
    in_i64 (iq_max_tokens r) = true -> infer_request_from_value (infer_request_to_value r) = Some r;
  infer_response_roundtrip r : infer_response_from_value (infer_response_to_value r) = Some r;
}.

(** What the backend of a node gives for a request: the completion, its time, and the identifier and
time stamp of the claim for it. *)
Record Work := mkWork {
  wk_result : result string string;
  wk_elapsed : f64;
  wk_uuid : string;
  wk_now : string;
}.

Section Fanout.
Context `{Crypto} `{Serde} `{Env} `{RewardEnv} `{HostOs} `{ProcessEnv} `{Unicode} `{JsonText}.
Context `{Runtime} `{Decoders}.
Variable config : ExodusConfig.

(** ** The threads *)

(** What a thread of a node is about to do. *)
Inductive Thread :=
| Waits (request : InferenceRequest)
  (** spawned by [on_infer_request] *)
| Completes (request : InferenceRequest)
  (** holds a permit; the backend runs *)
| Publishes (topic : string) (payload : Value) (todo : list nat) (after : option InferenceRequest).
  (** in [publish]: the nodes whose handlers are still to be called, and the request whose permit is
      held *)

Record Fan := mkFan {
  fan_nodes : list Coordinator;
  fan_threads : list (nat * Thread);
  (** what the workers publish about their recorded work *)
  fan_later : list (nat * co_event);
}.

Definition everyone (f : Fan) : list nat := seq 0 (length (fan_nodes f)).

Definition started_workers (evs : list co_event) : list InferenceRequest :=
  omap (fun e => if e is WorkerStarted r then Some r else None) evs.

(** Thread [k] goes on as [th], its node [j] as [c]. *)
Definition goes_on (k j : nat) (th : Thread) (c : Coordinator) (f : Fan) : Fan :=
  mkFan (<[j := c]> (fan_nodes f)) (<[k := (j, th)]> (fan_threads f)) (fan_later f).

Section Steps.
(** What the backends give, and the clock. *)
Variable work : nat -> Work.
Variable now : Z.

Definition finish (j : nat) (r : InferenceRequest) (c : Coordinator) : Coordinator * list co_event :=
  finish_inference config r (wk_result (work j)) (wk_elapsed (work j)) (wk_uuid (work j)) (wk_now (work j)) c.

(** One step of thread [k]; [None] when it has ended.  [finish_inference] is its answer, published
first, and what follows the publication. *)
Definition fan_step (k : nat) (f : Fan) : option Fan :=
  thread ← fan_threads f !! k;
  let '(j, th) := thread in
  c ← fan_nodes f !! j;
  match th with
  | Waits r =>
      match begin_inference r c with
      | (c, _, true) => Some (goes_on k j (Completes r) c f)
      | (c, [Sent topic payload], false) => Some (goes_on k j (Publishes topic payload (everyone f) None) c f)
      | _ => None
      end
  | Completes r =>
      match finish j r c with
      | (_, Sent topic payload :: _) => Some (goes_on k j (Publishes topic payload (everyone f) (Some r)) c f)
      | _ => None
      end
  | Publishes topic payload (i :: todo) after =>
      ci ← fan_nodes f !! i;
      match on_delivery config topic payload now ci with
      | Done (ci, evs) =>
          Some (mkFan (<[i := ci]> (fan_nodes f))
            (<[k := (j, Publishes topic payload todo after)]> (fan_threads f) ++
             map (fun r => (i, Waits r)) (started_workers evs))
            (fan_later f))
      | _ => None
      end
  | Publishes topic payload [] (Some r) =>
      match finish j r c with
      | (c, _ :: evs) =>
          let f := goes_on k j (Publishes topic payload [] None) c f in
          Some (mkFan (fan_nodes f) (fan_threads f) (fan_later f ++ map (pair j) evs))
      | _ => None
      end
  | Publishes _ _ [] None => None
  end.

Fixpoint fan_steps (ks : list nat) (f : Fan) : option Fan :=
  match ks with
  | [] => Some f
  | k :: ks => fan_step k f ≫= fan_steps ks
  end.

(** Every thread has ended. *)
Definition ended (th : Thread) : bool :=
  match th with Publishes _ _ [] None => true | _ => false end.
Definition settled (f : Fan) : bool := forallb (fun p => ended p.2) (fan_threads f).

(** One schedule: the first thread that can go on, or the last one. *)
Fixpoint settle (pick : list nat -> option nat) (fuel : nat) (f : Fan) : Fan :=
  match fuel with
  | O => f
  | S fuel =>
      match pick (filter (fun k => is_Some (fan_step k f)) (seq 0 (length (fan_threads f)))) with
      | Some k => match fan_step k f with Some f => settle pick fuel f | None => f end
      | None => f
      end
  end.
End Steps.

(** Node [i] asks: its thread is about to publish the request. *)
Definition fan_out (i : nat) (request_id model : string) (max_tokens : Z) (messages : list InferenceTurn)
  (nodes : list Coordinator) : option Fan :=
  c ← nodes !! i;
  match request_inference request_id model max_tokens messages c with
  | (c, [Sent topic payload]) =>
      Some (mkFan (<[i := c]> nodes) [(i, Publishes topic payload (seq 0 (length nodes)) None)] [])
  | _ => None
  end.

(** ** The answers *)

Definition answer_of (request : InferenceRequest) (w : Work) (c : Coordinator) : InferenceResponse :=
  let '(reply, error) :=
    if 0 <? co_infer_slots c then
      match wk_result w with Ok reply => (reply, None) | Err e => ("", Some e) end
    else ("", Some "node busy: too many concurrent inferences") in
  mkInferenceResponse (iq_request_id request) (id_node_id (co_identity c)) reply error.

(** The part of a node the answers depend on. *)
Definition view (c : Coordinator) : NodeIdentity * Z := (co_identity c, co_infer_slots c).

(** A worker that gets a permit takes it; one that does not has its answer. *)
Lemma begin_cases request w c :
  begin_inference request c =
    if 0 <? co_infer_slots c then (with_slots (co_infer_slots c - 1) c, [], true)
    else (c, [Sent INFER_RESPONSES (infer_response_to_value (answer_of request w c))], false).
Proof. unfold begin_inference, answer_of, respond. by destruct (0 <? co_infer_slots c). Qed.

(** A completion answers first, gives one permit back, and leaves identity and channels alone. *)
Lemma finish_cases work j request c c0 :
  co_identity c = co_identity c0 -> 0 < co_infer_slots c0 ->
  exists c' evs, finish work j request c =
      (c', Sent INFER_RESPONSES (infer_response_to_value (answer_of request (work j) c0)) :: evs) /\
    co_identity c' = co_identity c /\ co_infer_tx c' = co_infer_tx c /\
    co_infer_slots c' = co_infer_slots c + 1.
Proof.
  intros Hid Hs. unfold finish, finish_inference, answer_of, respond.
  rewrite (proj2 (Z.ltb_lt _ _) Hs), <- Hid.
  destruct (wk_result (work j)) as [reply|e]; cbn [andb]; [|by eexists _, _].
  destruct (inference config); [|by eexists _, _].
  set (pc := foldr _ 0 _).
  pose proof (record_inference_frame config (iq_model request) pc (usize_len (chars reply)) (wk_elapsed (work j))
    (wk_uuid (work j)) (wk_now (work j)) c) as [F Fs _ Ft].
  destruct (record_inference_claim _ _ _ _ _ _ _ _) as [c1 evs]. cbn [fst] in F, Fs, Ft.
  eexists _, evs. split; [reflexivity|]. cbn. split_and!; [done|done|]. by rewrite Fs.
Qed.

(** ** What the nodes hear *)

Lemma response_frame v c :
  co_identity (on_infer_response v c) = co_identity c /\
  co_infer_slots (on_infer_response v c) = co_infer_slots c.
Proof. unfold on_infer_response. by repeat case_match. Qed.
End Fanout.

Section FanoutTheorems.
Context `{Crypto} `{Serde} `{Env} `{RewardEnv} `{HostOs} `{ProcessEnv} `{Unicode} `{JsonText}.
Context `{Runtime} `{IL : InferenceLaws}.
Variable config : ExodusConfig.

(** An answer of another node goes to the open channel of its request. *)
Lemma answer_received r c q :
  ir_node_id r <> id_node_id (co_identity c) -> co_infer_tx c !! ir_request_id r = Some q ->
  co_infer_tx (on_infer_response (infer_response_to_value r) c) !! ir_request_id r = Some (q ++ [r]).
Proof using IL.
  intros Hn Hq. unfold on_infer_response. rewrite infer_response_roundtrip, (proj2 (String.eqb_neq _ _) Hn), Hq.
  cbn. by rewrite lookup_insert_eq.
Qed.

(** The nodes but the [i]-th, with their numbers from [k] on. *)
Fixpoint peers (i k : nat) (nodes : list Coordinator) : list (nat * Coordinator) :=
  match nodes with
  | [] => []
  | c :: nodes => (if Nat.eqb k i then [] else [(k, c)]) ++ peers i (S k) nodes
  end.

Lemma elem_of_peers i k nodes j c :
  (j, c) ∈ peers i k nodes <-> j <> i /\ (k <= j)%nat /\ nodes !! (j - k)%nat = Some c.
Proof.
  revert k. induction nodes as [|c0 nodes IH]; intros k; cbn [peers].
  { rewrite elem_of_nil. split; [done|]. intros (_ & _ & E). done. }
  rewrite elem_of_app, IH. destruct (Nat.eqb_spec k i) as [->|Hk].
  - rewrite elem_of_nil. split.
    + intros [[]|(? & ? & E)]. replace (j - i)%nat with (S (j - S i)) by lia. split_and!; [done|lia|done].
    + intros (? & ? & E). right. replace (j - i)%nat with (S (j - S i)) in E by lia. split_and!; [done|lia|done].
  - rewrite elem_of_cons, elem_of_nil. split.
    + intros [[[= -> ->]|[]]|(? & ? & E)]; [rewrite Nat.sub_diag; done|].
      replace (j - k)%nat with (S (j - S k)) by lia. split_and!; [done|lia|done].
    + intros (? & ? & E). destruct (decide (j = k)) as [->|]; [rewrite Nat.sub_diag in E; injection E as ->; by left; left|].
      right. replace (j - k)%nat with (S (j - S k)) in E by lia. split_and!; [done|lia|done].
Qed.

Lemma peers_NoDup i k nodes : NoDup ((peers i k nodes).*1).
Proof.
  revert k. induction nodes as [|c nodes IH]; intros k; cbn [peers]; [apply NoDup_nil_2|].
  destruct (Nat.eqb k i); [apply IH|]. cbn. apply NoDup_cons. split; [|apply IH].
  intros ([j cj] & E & Hin)%list_elem_of_fmap. cbn in E. subst j. apply elem_of_peers in Hin as (_ & ? & _). lia.
Qed.

(** The channel of the requester is no part of what its peers are. *)
Lemma peers_insert j k c nodes : peers (k + j) k (<[j := c]> nodes) = peers (k + j) k nodes.
Proof.
  revert j k. induction nodes as [|c0 nodes IH]; intros [|j] k; cbn [peers insert list_insert]; try done.
  - by rewrite Nat.add_0_r, Nat.eqb_refl.
  - f_equal. replace (k + S j)%nat with (S k + j)%nat by lia. apply IH.
Qed.

Lemma peers_numbers i k nodes :
  (peers i k nodes).*1 = filter (fun j => j <> i) (seq k (length nodes)).
Proof.
  revert k. induction nodes as [|c nodes IH]; intros k; cbn [peers length seq]; [done|].
  rewrite fmap_app, IH, filter_cons. destruct (Nat.eqb_spec k i) as [->|Hk].
  - by rewrite decide_False by naive_solver.
  - by rewrite decide_True.
Qed.

Lemma answers_peers work request i nodes :
  omap (fun j => answer_of request (work j) <$> nodes !! j) (peers i 0 nodes).*1 =
  (fun p => answer_of request (work p.1) p.2) <$> peers i 0 nodes.
Proof.
  assert (forall p, p ∈ peers i 0 nodes -> nodes !! p.1 = Some p.2) as Hp.
  { intros [j c] (_ & _ & E)%elem_of_peers. by rewrite Nat.sub_0_r in E. }
  revert Hp. generalize (peers i 0 nodes) as ps. induction ps as [|p ps IH]; intros Hp; [done|].
  cbn. rewrite (Hp p) by set_solver. cbn. f_equal. apply IH. set_solver.
Qed.

(** ** Lists of threads *)

Lemma omap_insert {A B} (g : A -> option B) (l : list A) k x y :
  l !! k = Some x -> g x = None ->
  omap g (<[k := y]> l) ≡ₚ omap g l ++ match g y with Some b => [b] | None => [] end.
Proof.
  intros Hk Hx. revert k Hk. induction l as [|a l IH]; intros [|k] Hk; cbn in *; try done.
  - injection Hk as ->. rewrite Hx. destruct (g y) as [b|]; [|by rewrite app_nil_r].
    by rewrite Permutation_app_comm.
  - destruct (g a); cbn; [constructor|]; by apply IH.
Qed.

Lemma omap_insert_same {A B} (g : A -> option B) (l : list A) k x y :
  l !! k = Some x -> g x = g y -> omap g (<[k := y]> l) = omap g l.
Proof.
  intros Hk Hx. revert k Hk. induction l as [|a l IH]; intros [|k] Hk; cbn in *; try done.
  - injection Hk as ->. by rewrite Hx.
  - destruct (g a); [f_equal|]; by apply IH.
Qed.

Lemma drop_seq_cons t n x todo :
  drop t (seq 0 n) = x :: todo -> x = t /\ (t < n)%nat /\ todo = drop (S t) (seq 0 n).
Proof.
  intros E. assert (t < n)%nat.
  { destruct (Nat.lt_ge_cases t n); [done|]. rewrite drop_ge in E by (rewrite length_seq; lia). done. }
  assert (seq 0 n !! t = Some t) as Ht by (apply lookup_seq; lia).
  rewrite (drop_S _ t t Ht) in E. by injection E as <- <-.
Qed.

Lemma drop_seq_nil t n : (t <= n)%nat -> drop t (seq 0 n) = [] -> t = n.
Proof. intros Hle E%(f_equal length). rewrite length_drop, length_seq in E. cbn in E. lia. Qed.

(** ** The invariant *)

Section Invariant.
Variables (work : nat -> Work) (now : Z) (i : nat) (request : InferenceRequest).
(** The nodes when the request has been made. *)
Variable nodes0 : list Coordinator.
Variable c0 : Coordinator.
Hypothesis Hi : nodes0 !! i = Some c0.
Hypothesis Hnames : NoDup ((fun c => id_node_id (co_identity c)) <$> nodes0).
Hypothesis Horigin : iq_origin request = id_node_id (co_identity c0).
Hypothesis Htokens : in_i64 (iq_max_tokens request) = true.

Local Abbreviation n := (length nodes0).
Local Abbreviation rid := (iq_request_id request).
Local Abbreviation answer j cj := (answer_of request (work j) cj).

(** Where a worker of node [cj] can be, when the node has [slots] permits. *)
Definition phase_ok (j : nat) (cj : Coordinator) (slots : Z) (th : Thread) : Prop :=
  match th with
  | Waits r => r = request /\ slots = co_infer_slots cj
  | Completes r => r = request /\ 0 < co_infer_slots cj /\ slots = co_infer_slots cj - 1
  | Publishes topic payload todo after =>
      topic = INFER_RESPONSES /\ payload = infer_response_to_value (answer j cj) /\
      (exists t, (t <= n)%nat /\ todo = drop t (seq 0 n)) /\
      match after with
      | Some r => r = request /\ 0 < co_infer_slots cj /\ slots = co_infer_slots cj - 1
      | None => slots = co_infer_slots cj
      end
  end.

(** The answer of a worker, once the requester has heard it. *)
Definition heard (p : nat * Thread) : option InferenceResponse :=
  match p.2 with
  | Publishes _ _ todo _ =>
      if decide (i ∈ todo) then None else (fun cj => answer p.1 cj) <$> nodes0 !! p.1
  | _ => None
  end.

(** The request has reached [m] nodes, whose workers are [ws]. *)
Record Inv (m : nat) (ws : list (nat * Thread)) (nodes : list Coordinator) : Prop := {
  inv_ids : co_identity <$> nodes = co_identity <$> nodes0;
  inv_heard : (m <= n)%nat;
  inv_workers : ws.*1 = filter (fun j => j <> i) (seq 0 m);
  inv_idle j cj : j ∉ ws.*1 -> nodes0 !! j = Some cj ->
    co_infer_slots <$> nodes !! j = Some (co_infer_slots cj);
  inv_phases j th cj : (j, th) ∈ ws -> nodes0 !! j = Some cj ->
    exists slots, co_infer_slots <$> nodes !! j = Some slots /\ phase_ok j cj slots th;
  inv_channel : exists c q, nodes !! i = Some c /\ co_infer_tx c !! rid = Some q /\ q ≡ₚ omap heard ws;
}.

Lemma inv_length m ws nodes : Inv m ws nodes -> length nodes = n.
Proof. intros HI. pose proof (f_equal length (inv_ids _ _ _ HI)) as E. by rewrite !length_fmap in E. Qed.

Lemma inv_node m ws nodes j cj :
  Inv m ws nodes -> nodes0 !! j = Some cj -> exists c, nodes !! j = Some c /\ co_identity c = co_identity cj.
Proof.
  intros HI Hj. pose proof (f_equal (fun l => l !! j) (inv_ids _ _ _ HI)) as E. cbn in E.
  rewrite !list_lookup_fmap, Hj in E. destruct (nodes !! j) as [c|]; [|done]. injection E as E. eauto.
Qed.

Lemma inv_distinct m ws nodes : Inv m ws nodes -> NoDup (ws.*1).
Proof. intros HI. rewrite (inv_workers _ _ _ HI). apply NoDup_filter, NoDup_seq. Qed.

Lemma inv_worker m ws nodes k j th :
  Inv m ws nodes -> ws !! k = Some (j, th) -> j <> i /\ exists cj, nodes0 !! j = Some cj.
Proof.
  intros HI Hk. assert (j ∈ ws.*1) as Hj.
  { apply (list_elem_of_fmap_2 fst ws (j, th)). by eapply list_elem_of_lookup_2. }
  rewrite (inv_workers _ _ _ HI) in Hj. apply list_elem_of_filter in Hj as [Hne Hj%elem_of_seq].
  split; [done|]. pose proof (inv_heard _ _ _ HI). apply lookup_lt_is_Some. lia.
Qed.

Lemma names_differ j cj : nodes0 !! j = Some cj -> j <> i -> id_node_id (co_identity cj) <> iq_origin request.
Proof using Hi Hnames Horigin.
  intros Hj Hne E. apply Hne. eapply (NoDup_lookup _ j i _ Hnames).
  - rewrite list_lookup_fmap, Hj. reflexivity.
  - rewrite list_lookup_fmap, Hi. cbn. by rewrite E, Horigin.
Qed.

(** A worker goes on, its node changes, and the requester hears no more than its answer. *)
Lemma inv_move m ws nodes k j th th' nodes' :
  Inv m ws nodes -> ws !! k = Some (j, th) ->
  co_identity <$> nodes' = co_identity <$> nodes ->
  (forall l, l <> j -> co_infer_slots <$> nodes' !! l = co_infer_slots <$> nodes !! l) ->
  (forall cj, nodes0 !! j = Some cj ->
     exists slots, co_infer_slots <$> nodes' !! j = Some slots /\ phase_ok j cj slots th') ->
  (exists c q, nodes' !! i = Some c /\ co_infer_tx c !! rid = Some q /\
     q ≡ₚ omap heard (<[k := (j, th')]> ws)) ->
  Inv m (<[k := (j, th')]> ws) nodes'.
Proof.
  intros HI Hk Hids Hslots Hph Hch.
  assert ((<[k := (j, th')]> ws).*1 = ws.*1) as Hws.
  { rewrite list_fmap_insert. cbn. apply list_insert_id. by rewrite list_lookup_fmap, Hk. }
  split.
  - by rewrite Hids, (inv_ids _ _ _ HI).
  - apply HI.
  - by rewrite Hws, (inv_workers _ _ _ HI).
  - intros l cl Hl Hcl. rewrite Hws in Hl. rewrite Hslots; [by eapply inv_idle|].
    intros ->. apply Hl. apply (list_elem_of_fmap_2 fst ws (j, th)). by eapply list_elem_of_lookup_2.
  - intros l th2 cl [k2 Hk2]%list_elem_of_lookup Hcl. destruct (decide (k2 = k)) as [->|Hne].
    + rewrite list_lookup_insert_eq in Hk2 by (by eapply lookup_lt_Some). injection Hk2 as <- <-. by apply Hph.
    + rewrite list_lookup_insert_ne in Hk2 by done.
      assert (l <> j).
      { intros ->. apply Hne. eapply (NoDup_lookup _ k2 k j (inv_distinct _ _ _ HI));
          rewrite list_lookup_fmap; [by rewrite Hk2|by rewrite Hk]. }
      rewrite Hslots by done. eapply inv_phases; [done| |done]. by eapply list_elem_of_lookup_2.
  - done.
Qed.

(** A change of the worker's own node that leaves channels alone. *)
Lemma inv_own m ws nodes k j th th' c c' :
  Inv m ws nodes -> ws !! k = Some (j, th) -> nodes !! j = Some c ->
  co_identity c' = co_identity c -> co_infer_tx c' = co_infer_tx c ->
  (forall cj, nodes0 !! j = Some cj -> phase_ok j cj (co_infer_slots c') th') ->
  heard (j, th) = heard (j, th') ->
  Inv m (<[k := (j, th')]> ws) (<[j := c']> nodes).
Proof.
  intros HI Hk Hc Hid Htx Hph Hh. apply (inv_move m ws nodes k j th); [done|done|..].
  all: assert (<[j := c']> nodes !! j = Some c') as Hj by (apply list_lookup_insert_eq; by eapply lookup_lt_Some).
  - rewrite list_fmap_insert. apply list_insert_id. rewrite list_lookup_fmap, Hc. cbn. by rewrite Hid.
  - intros l Hl. by rewrite list_lookup_insert_ne.
  - intros cj Hcj. rewrite Hj. eauto.
  - destruct (inv_channel _ _ _ HI) as (ci & q & Hci & Hq & Hperm).
    rewrite (omap_insert_same heard ws k (j, th)) by done.
    destruct (inv_worker _ _ _ _ _ _ HI Hk) as [Hji _]. exists ci, q. by rewrite list_lookup_insert_ne.
Qed.

(** ** Steps *)

Local Abbreviation asker m :=
  (i, Publishes INFER_REQUESTS (infer_request_to_value request) (drop m (seq 0 n)) None).

(** The steps a thread has left, with those of the workers it starts. *)
Definition weight (th : Thread) : nat :=
  match th with
  | Waits _ => n + 3
  | Completes _ => n + 2
  | Publishes topic _ todo after =>
      length todo * (if String.eqb topic INFER_REQUESTS then n + 4 else 1) +
      (match after with Some _ => 1 | None => 0 end)
  end.

Lemma answer_of_same r w c cj :
  co_identity c = co_identity cj -> co_infer_slots c = co_infer_slots cj -> answer_of r w c = answer_of r w cj.
Proof. unfold answer_of. by intros -> ->. Qed.

Lemma elem_of_drop_seq t x : x ∈ drop t (seq 0 n) <-> (t <= x < n)%nat.
Proof.
  destruct (Nat.le_gt_cases t n).
  - rewrite drop_seq, elem_of_seq. lia.
  - rewrite drop_ge by (rewrite length_seq; lia). rewrite elem_of_nil. lia.
Qed.

Lemma heard_everyone j topic payload after : heard (j, Publishes topic payload (seq 0 n) after) = None.
Proof using Hi.
  unfold heard. cbn. rewrite decide_True; [done|]. apply elem_of_seq.
  apply lookup_lt_Some in Hi. lia.
Qed.

(** A node hears an answer. *)
Lemma worker_publishes m ws nodes k j payload x todo after :
  Inv m ws nodes -> ws !! k = Some (j, Publishes INFER_RESPONSES payload (x :: todo) after) ->
  exists cx, nodes !! x = Some cx /\
    Inv m (<[k := (j, Publishes INFER_RESPONSES payload todo after)]> ws)
      (<[x := on_infer_response payload cx]> nodes).
Proof using Type*.
  intros HI Hk. destruct (inv_worker _ _ _ _ _ _ HI Hk) as [Hji [cj Hcj]].
  destruct (inv_phases _ _ _ HI j _ cj (list_elem_of_lookup_2 _ _ _ Hk) Hcj)
    as (slots & Hsl & _ & -> & (t & Htn & (-> & Ht & ->)%eq_sym%drop_seq_cons) & Haft).
  destruct (lookup_lt_is_Some_2 nodes0 t Ht) as [c0t Hc0t].
  destruct (inv_node _ _ _ _ _ HI Hc0t) as (cx & Hcx & _). exists cx. split; [done|].
  pose proof (response_frame (infer_response_to_value (answer j cj)) cx) as [Hid Hs].
  assert (forall l, co_infer_slots <$> <[t := on_infer_response (infer_response_to_value (answer j cj)) cx]> nodes !! l
                    = co_infer_slots <$> nodes !! l) as Hslots.
  { intros l. destruct (decide (l = t)) as [->|]; [|by rewrite list_lookup_insert_ne].
    rewrite list_lookup_insert_eq by (by eapply lookup_lt_Some). rewrite Hcx. cbn. by rewrite Hs. }
  eapply inv_move; [done|done|..].
  - rewrite list_fmap_insert. apply list_insert_id. rewrite list_lookup_fmap, Hcx. cbn. by rewrite Hid.
  - intros l _. apply Hslots.
  - intros cj' Hcj'. rewrite Hcj in Hcj'. injection Hcj' as <-. exists slots. rewrite Hslots.
    split; [done|]. split_and!; [done|done| |done]. exists (S t). split; [lia|done].
  - destruct (inv_channel _ _ _ HI) as (ci & q & Hci & Hq & Hperm).
    destruct (decide (t = i)) as [->|Hti].
    + rewrite Hcx in Hci. injection Hci as <-. exists (on_infer_response (infer_response_to_value (answer j cj)) cx).
      exists (q ++ [answer j cj]). split; [apply list_lookup_insert_eq; by eapply lookup_lt_Some|].
      assert (ir_request_id (answer j cj) = rid /\ ir_node_id (answer j cj) = id_node_id (co_identity cj)) as [Ha1 Ha2].
      { unfold answer_of. by destruct (if 0 <? co_infer_slots cj then _ else _). }
      split.
      * rewrite <- Ha1. apply answer_received; [|by rewrite Ha1].
        rewrite Ha2. rewrite Hi in Hc0t. injection Hc0t as <-.
        destruct (inv_node _ _ _ _ _ HI Hi) as (c & Hc & Hidc). rewrite Hcx in Hc. injection Hc as <-.
        rewrite Hidc, <- Horigin. by apply (names_differ j).
      * rewrite (omap_insert heard ws k _ _ Hk).
        -- rewrite Hperm. unfold heard. cbn. rewrite decide_False by (rewrite elem_of_drop_seq; lia). by rewrite Hcj.
        -- unfold heard. cbn. by rewrite decide_True by set_solver.
    + exists ci, q. rewrite list_lookup_insert_ne by done. split_and!; [done|done|].
      rewrite (omap_insert_same heard ws k _ _ Hk); [done|].
      unfold heard. cbn. repeat case_decide; try done; rewrite ?elem_of_cons, ?elem_of_drop_seq in *; lia.
Qed.

(** One step of a worker. *)
Lemma worker_step m ws f k j th :
  fan_threads f = asker m :: ws -> Inv m ws (fan_nodes f) -> ws !! k = Some (j, th) ->
  if ended th then fan_step config work now (S k) f = None
  else exists th' nodes' later',
    fan_step config work now (S k) f = Some (mkFan nodes' (asker m :: <[k := (j, th')]> ws) later') /\
    Inv m (<[k := (j, th')]> ws) nodes' /\ (weight th' < weight th)%nat.
Proof using Type*.
  intros Hth HI Hk. destruct f as [nodes threads later]. cbn [fan_threads fan_nodes] in *. subst threads.
  destruct (inv_worker _ _ _ _ _ _ HI Hk) as [Hji [cj Hcj]].
  destruct (inv_node _ _ _ _ _ HI Hcj) as (c & Hc & Hid). pose proof (inv_length _ _ _ HI) as Hlen.
  destruct (inv_phases _ _ _ HI j _ cj (list_elem_of_lookup_2 _ _ _ Hk) Hcj) as (slots & Hsl & Hph).
  rewrite Hc in Hsl. injection Hsl as Hsl.
  unfold fan_step. cbn [fan_threads fan_nodes fan_later].
  change ((asker m :: ws) !! S k) with (ws !! k). rewrite Hk. cbn [mbind option_bind].
  destruct th as [r|r|topic payload [|x todo] after]; cbn [ended]; cbn [phase_ok] in Hph.
  - rewrite Hc. cbn [mbind option_bind]. destruct Hph as [-> ->].
    rewrite (begin_cases request (work j) c), (answer_of_same request (work j) c cj) by done.
    unfold everyone. cbn [fan_nodes]. rewrite Hlen, Hsl.
    destruct (Z.ltb_spec 0 (co_infer_slots cj)); (eexists _, _, _; split; [reflexivity|]; split; [|cbn; rewrite ?length_seq; lia]).
    + eapply inv_own; [done..| |done]. intros ? [= <-]%(eq_trans (eq_sym Hcj)). cbn. split_and!; [done|done|lia].
    + eapply inv_own; [done..| |by rewrite heard_everyone].
      intros ? [= <-]%(eq_trans (eq_sym Hcj)). split_and!; [done|done| |done]. by exists 0%nat; split; [lia|].
  - rewrite Hc. cbn [mbind option_bind]. destruct Hph as (-> & Hpos & ->).
    destruct (finish_cases config work j request c cj Hid Hpos) as (c' & evs & -> & _).
    unfold everyone. cbn [fan_nodes]. rewrite Hlen.
    eexists _, _, _. split; [reflexivity|]. split; [|cbn; rewrite ?length_seq; lia].
    eapply inv_own; [done..| |by rewrite heard_everyone].
    intros ? [= <-]%(eq_trans (eq_sym Hcj)). split_and!; [done|done| |done|done|done]. by exists 0%nat; split; [lia|].
  - rewrite Hc. cbn [mbind option_bind].
    destruct Hph as (-> & -> & Htodo & Haft). destruct after as [r|]; [|done]. destruct Haft as (-> & Hpos & ->).
    destruct (finish_cases config work j request c cj Hid Hpos) as (c' & evs & -> & Hid' & Htx & Hsl').
    eexists _, _, _. split; [reflexivity|]. split; [|cbn; lia].
    eapply inv_own; [done..| |done]. intros ? [= <-]%(eq_trans (eq_sym Hcj)). split_and!; [done|done|done|lia].
  - destruct Hph as (-> & _). rewrite Hc. cbn [mbind option_bind].
    destruct (worker_publishes _ _ _ _ _ _ _ _ _ HI Hk) as (cx & Hcx & HI').
    rewrite Hcx. cbn [mbind option_bind].
    change (on_delivery config INFER_RESPONSES payload now cx) with (@Done (Coordinator * list co_event) (on_infer_response payload cx, [])).
    cbn [started_workers omap list_omap map]. rewrite app_nil_r.
    eexists _, _, _. split; [reflexivity|]. split; [done|]. cbn. lia.
Qed.

(** The workers the request starts at node [m]. *)
Definition newcomers (m : nat) : list (nat * Thread) :=
  if decide (m = i) then [] else [(m, Waits request)].

Lemma inv_request m ws nodes :
  (m < n)%nat -> Inv m ws nodes -> Inv (S m) (ws ++ newcomers m) nodes.
Proof using Hi.
  intros Hm HI. destruct (lookup_lt_is_Some_2 nodes0 m Hm) as [cm Hcm].
  assert (m ∉ ws.*1) as Hfresh.
  { rewrite (inv_workers _ _ _ HI), list_elem_of_filter, elem_of_seq. lia. }
  assert ((newcomers m).*1 = filter (fun j => j <> i) [m]) as Hnew.
  { unfold newcomers. rewrite filter_cons, filter_nil. by repeat case_decide. }
  split.
  - apply HI.
  - lia.
  - by rewrite fmap_app, Hnew, (inv_workers _ _ _ HI), <- filter_app, <- seq_S.
  - intros j cj Hj. rewrite fmap_app, elem_of_app in Hj. apply (inv_idle _ _ _ HI). tauto.
  - intros j th cj [Hj|Hj]%elem_of_app Hcj; [by eapply inv_phases|].
    unfold newcomers in Hj. case_decide; [by apply elem_of_nil in Hj|].
    apply list_elem_of_singleton in Hj. injection Hj as -> ->.
    exists (co_infer_slots cj). split; [by apply (inv_idle _ _ _ HI)|done].
  - destruct (inv_channel _ _ _ HI) as (c & q & Hc & Hq & Hperm). exists c, q. split_and!; [done|done|].
    assert (omap heard (newcomers m) = []) as E by (unfold newcomers; by case_decide).
    by rewrite omap_app, E, app_nil_r.
Qed.

(** One step of the requester: one more node hears the request. *)
Lemma asker_step m ws f :
  fan_threads f = asker m :: ws -> Inv m ws (fan_nodes f) ->
  if (m <? n)%nat then
    fan_step config work now 0 f = Some (mkFan (fan_nodes f) (asker (S m) :: ws ++ newcomers m) (fan_later f)) /\
    Inv (S m) (ws ++ newcomers m) (fan_nodes f)
  else fan_step config work now 0 f = None.
Proof using Type*.
  intros Hth HI. destruct f as [nodes threads later]. cbn [fan_threads fan_nodes fan_later] in *. subst threads.
  destruct (inv_node _ _ _ _ _ HI Hi) as (c & Hc & _).
  unfold fan_step. cbn [fan_threads fan_nodes fan_later]. change ((asker m :: ws) !! 0%nat) with (Some (asker m)).
  cbn [mbind option_bind]. rewrite Hc. cbn [mbind option_bind].
  destruct (Nat.ltb_spec m n) as [Hm|Hm]; [|by rewrite drop_ge by (rewrite length_seq; lia)].
  split; [|by apply inv_request]. rewrite (drop_S _ m m) by (by apply lookup_seq).
  destruct (lookup_lt_is_Some_2 nodes0 m Hm) as [cm0 Hcm0].
  destruct (inv_node _ _ _ _ _ HI Hcm0) as (cm & Hcm & Hidm). rewrite Hcm. cbn [mbind option_bind].
  change (on_delivery config INFER_REQUESTS (infer_request_to_value request) now cm)
    with (@Done (Coordinator * list co_event)
      (cm, match on_infer_request (infer_request_to_value request) cm with Some r => [WorkerStarted r] | None => [] end)).
  cbn beta iota. rewrite (list_insert_id nodes m cm Hcm). unfold on_infer_request.
  rewrite infer_request_roundtrip by done. unfold newcomers. case_decide as Hmi.
  - subst m. rewrite Hi in Hcm0. injection Hcm0 as <-. rewrite Hidm, Horigin, String.eqb_refl. done.
  - rewrite (proj2 (String.eqb_neq _ _)); [done|]. rewrite Hidm. intros E. by apply (names_differ m cm0 Hcm0 Hmi).
Qed.

(** ** Executions *)

Definition fan_ok (f : Fan) : Prop := exists m ws, fan_threads f = asker m :: ws /\ Inv m ws (fan_nodes f).

(** The steps that are left. *)
Definition fan_left (f : Fan) : nat := sum_list_with (fun p => weight p.2) (fan_threads f).

Lemma sum_insert {A} (g : A -> nat) (l : list A) k x y :
  l !! k = Some x -> (g y < g x)%nat -> (sum_list_with g (<[k := y]> l) < sum_list_with g l)%nat.
Proof.
  revert k. induction l as [|a l IH]; intros [|k] Hk Hlt; try done.
  - injection Hk as ->. cbn. lia.
  - specialize (IH k Hk Hlt). change (<[S k := y]> (a :: l)) with (a :: <[k := y]> l).
    cbn [sum_list_with]. lia.
Qed.

Lemma fan_step_ok f k f' :
  fan_ok f -> fan_step config work now k f = Some f' -> fan_ok f' /\ (fan_left f' < fan_left f)%nat.
Proof using Type*.
  intros (m & ws & Hth & HI) E. destruct k as [|k].
  - pose proof (asker_step m ws f Hth HI) as Hs. destruct (Nat.ltb_spec m n); [|congruence].
    destruct Hs as [Hs HI']. rewrite Hs in E. injection E as <-. split; [by exists (S m), (ws ++ newcomers m)|].
    unfold fan_left. rewrite Hth. cbn [fan_threads sum_list_with snd weight]. rewrite sum_list_with_app, !length_drop, length_seq.
    change (String.eqb INFER_REQUESTS INFER_REQUESTS) with true. cbn beta iota.
    assert (sum_list_with (fun p => weight p.2) (newcomers m) <= n + 3)%nat by (unfold newcomers; case_decide; cbn; lia).
    nia.
  - destruct (ws !! k) as [[j th]|] eqn:Hk.
    2: { unfold fan_step in E. rewrite Hth in E. change ((asker m :: ws) !! S k) with (ws !! k) in E. by rewrite Hk in E. }
    pose proof (worker_step m ws f k j th Hth HI Hk) as Hs. destruct (ended th); [congruence|].
    destruct Hs as (th' & nodes' & later' & Hs & HI' & Hw). rewrite Hs in E. injection E as <-.
    split; [by eexists _, _|]. unfold fan_left. rewrite Hth. cbn [fan_threads sum_list_with].
    pose proof (sum_insert (fun p => weight p.2) ws k (j, th) (j, th') Hk Hw). lia.
Qed.

(** A state is settled, or a thread can go on. *)
Lemma fan_progress f : fan_ok f -> settled f = true \/ exists k f', fan_step config work now k f = Some f'.
Proof using Type*.
  intros (m & ws & Hth & HI). pose proof (asker_step m ws f Hth HI) as Ha.
  destruct (Nat.ltb_spec m n) as [Hm|Hm]; [right; destruct Ha; eauto|].
  destruct (decide (Exists (fun p => ended p.2 = false) ws)) as [([j th] & [k Hk]%list_elem_of_lookup & He)%Exists_exists|Hall].
  - right. pose proof (worker_step m ws f k j th Hth HI Hk) as Hs. cbn in He. rewrite He in Hs.
    destruct Hs as (? & ? & ? & Hs & _). eauto.
  - left. unfold settled. rewrite Hth. cbn [forallb snd]. rewrite drop_ge by (rewrite length_seq; lia). cbn [ended andb].
    apply forallb_forall. intros p Hp. destruct (ended p.2) eqn:E; [done|]. exfalso. apply Hall.
    apply Exists_exists. exists p. split; [by apply list_elem_of_In|done].
Qed.

Lemma fan_steps_ok ks f f' :
  fan_ok f -> fan_steps config work now ks f = Some f' ->
  fan_ok f' /\ (length ks + fan_left f' <= fan_left f)%nat.
Proof using Type*.
  revert f. induction ks as [|k ks IH]; intros f Hok E; cbn [fan_steps length] in *; [injection E as <-; split; [done|lia]|].
  destruct (fan_step config work now k f) as [f1|] eqn:E1; [|done]. cbn in E.
  apply fan_step_ok in E1 as [Hok1 Hl]; [|done]. destruct (IH f1 Hok1 E) as [? ?]. split; [done|lia].
Qed.

Lemma fan_completes f :
  fan_ok f -> exists ks f', fan_steps config work now ks f = Some f' /\ settled f' = true.
Proof using Type*.
  remember (fan_left f) as l eqn:Hl. revert f Hl. induction l as [l IH] using lt_wf_ind. intros f -> Hok.
  destruct (fan_progress f Hok) as [Hs|(k & f1 & E1)]; [by exists [], f|].
  destruct (fan_step_ok _ _ _ Hok E1) as [Hok1 Hl]. destruct (IH _ Hl f1 eq_refl Hok1) as (ks & f' & E & Hs).
  exists (k :: ks), f'. cbn. by rewrite E1.
Qed.

(** What the nodes are like when all threads have ended. *)
Lemma settled_answers f :
  fan_ok f -> settled f = true ->
  (exists c q, fan_nodes f !! i = Some c /\ co_infer_tx c !! rid = Some q /\
     q ≡ₚ (fun p => answer_of request (work p.1) p.2) <$> peers i 0 nodes0) /\
  view <$> fan_nodes f = view <$> nodes0.
Proof using Hi IL.
  intros (m & ws & Hth & HI) Hs. unfold settled in Hs. rewrite Hth in Hs. cbn [forallb snd] in Hs.
  apply andb_true_iff in Hs as [Hm Hws].
  assert (m = n) as ->.
  { apply drop_seq_nil; [apply HI|]. by destruct (drop m (seq 0 n)). }
  assert (forall p, p ∈ ws -> ended p.2 = true) as Hend.
  { intros p Hp. rewrite forallb_forall in Hws. by apply Hws, list_elem_of_In. }
  split.
  - destruct (inv_channel _ _ _ HI) as (c & q & Hc & Hq & Hperm). exists c, q. split_and!; [done|done|].
    rewrite Hperm, <- answers_peers.
    apply reflexive_eq. pose proof (inv_workers _ _ _ HI) as Hnum. rewrite <- (peers_numbers i 0 nodes0) in Hnum.
    revert Hnum. generalize ((peers i 0 nodes0).*1) as ps. clear -Hend.
    induction ws as [|[j th] ws IH]; intros [|p ps] Hnum; try done. cbn in Hnum. injection Hnum as -> Hnum.
    cbn [omap list_omap fmap list_fmap fst snd].
    rewrite <- (IH (fun p Hp => Hend p (list_elem_of_further _ _ _ Hp)) ps Hnum).
    specialize (Hend _ (list_elem_of_here _ _)). unfold heard at 1. cbn [fst snd] in *.
    by destruct th as [| |? ? [|] []].
  - apply list_eq. intros j. rewrite !list_lookup_fmap. destruct (nodes0 !! j) as [cj|] eqn:Hcj.
    + destruct (inv_node _ _ _ _ _ HI Hcj) as (c & Hc & Hid). rewrite Hc. cbn. unfold view. rewrite Hid.
      do 2 f_equal. assert (co_infer_slots <$> fan_nodes f !! j = Some (co_infer_slots cj)) as E.
      { destruct (decide (j ∈ ws.*1)) as [Hj|Hj]; [|by eapply inv_idle].
        apply list_elem_of_fmap in Hj as ([j' th] & -> & Hj). cbn [fst] in *.
        destruct (inv_phases _ _ _ HI _ _ _ Hj Hcj) as (slots & -> & Hph). specialize (Hend _ Hj). cbn in Hend.
        destruct th as [| |? ? [|] []]; try done. by destruct Hph as (_ & _ & _ & ->). }
      rewrite Hc in E. by injection E.
    + apply lookup_ge_None in Hcj. rewrite <- (inv_length _ _ _ HI) in Hcj. by rewrite (proj2 (lookup_ge_None _ _) Hcj).
Qed.
End Invariant.

End FanoutTheorems.
