(* ===== verification/Console.v ===== *)
(** * What the program prints ([src/main.rs], [SimulationResult::summary])

The lines of every command as functions of what the command computed.  Rust's [{:.n}] is defined
exactly, on the binary value, and proved accurate to half a unit of the last place; the shortest
notation [{}] of a float is [f64_to_string], that of a JSON value [json_print]. *)

From S2P Require Import Prelude F64 Crypto CryptoTheory Models Config Decimal Text Host HostProps LlamaServer Simulation.
From Stdlib Require Import Floats.SpecFloat.

(** ** Fixed-point notation *)

Definition to_even (q : Z) : Z := if Z.even q then q else q + 1.

(** [n] digits of a number below [10^n]. *)
Fixpoint fixed_digits (n : nat) (q : Z) : string :=
  match n with
  | O => ""
  | S n => fixed_digits n (q / 10) +:+ pretty (q mod 10)
  end.

(** [m * 2^e] in units of [10^-n], rounded to the nearest, halves to even. *)
Definition scaled (n : nat) (m : positive) (e : Z) : Z :=
  round_mag to_even (m * Z.to_pos (10 ^ Z.of_nat n))%positive e.

Definition fixed_point (n : nat) (q : Z) : string :=
  pretty (q / 10 ^ Z.of_nat n) +:+
  match n with O => "" | _ => "." +:+ fixed_digits n (q mod 10 ^ Z.of_nat n) end.

(** [format!("{:.n}", x)] *)
Definition fixed (n : nat) (x : f64) : string :=
  match x with
  | S754_nan => "NaN"
  | S754_infinity s => sign_text s +:+ "inf"
  | S754_zero s => sign_text s +:+ fixed_point n 0
  | S754_finite s m e => sign_text s +:+ fixed_point n (scaled n m e)
  end.

(** ** The result of a simulation *)

Definition summary (r : SimulationResult) : string :=
  "simulation: " +:+ pretty (Z.of_nat (sim_num_nodes r)) +:+ " nodes x " +:+ pretty (Z.of_nat (sim_ticks r)) +:+
  " ticks -> " +:+ pretty (sim_blocks_committed r) +:+ " blocks, " +:+ pretty (sim_claims_committed r) +:+
  " claims, " +:+ fixed 2 (sim_total_cu r) +:+ " CU, ledgers consistent: " +:+ show_bool (sim_consistent r).

(** The summary, the detail when the ledgers differ, and the exit code. *)
Definition print_simulation (r : SimulationResult) : list string * Z :=
  if sim_consistent r then ([summary r], 0) else ([summary r; sim_detail r], 1).

(** ** Identity, configuration and start of a node *)

Definition print_init (config : ExodusConfig) (node_id : string) : list string :=
  [ "Identity ready: " +:+ node_id;
    "  key    : " +:+ identity_path config;
    "  ledger : " +:+ ledger_path config ].

Section Printing.
Context `{ProcessEnv} `{HostOs}.

Definition print_config (config : ExodusConfig) : list string :=
  let gpu := detect (gpu_layers config) in
  let count := length (gpu_devices gpu) in
  [ "Exodus runtime configuration";
    "===========================";
    "  data dir                    : " +:+ data_dir config;
    "  epoch (checkpoint period)   : " +:+ f64_to_string (epoch_seconds config) +:+ "s";
    "  election timeout            : " +:+ f64_to_string (election_timeout_seconds config) +:+ "s";
    "  quorum model                : " +:+ (if byzantine config then "byzantine (2f+1)" else "majority");
    "  credits per compute unit    : " +:+ f64_to_string (credits_per_cu config);
    "  reward curve exponent       : " +:+ f64_to_string (reward_diminishing config);
    "  credit half-life            : " +:+ f64_to_string (credit_halflife_seconds config) +:+ "s";
    "  free AI-time quota          : " +:+ f64_to_string (free_quota_seconds config) +:+ "s/day";
    "  seconds of AI time / credit : " +:+ f64_to_string (seconds_per_credit config);
    "  networking                  : tcp " +:+ node_host config +:+ ":" +:+ pretty (node_port config);
    "  api                         : " +:+ api_host config +:+ ":" +:+ pretty (api_port config);
    "  distributed inference       : " +:+ (if distributed_inference config then "enabled" else "disabled") +:+
      " (gather timeout " +:+ f64_to_string (distributed_timeout_seconds config) +:+ "s)";
    "  model dir                   : " +:+ models_dir config;
    "  gpu                         : " +:+ (if gpu_available gpu then "available" else "none") +:+
      " (" +:+ pretty (Z.of_nat count) +:+ " device" +:+ (if Nat.eqb count 1 then "" else "s") +:+
      ", layers " +:+ default "auto" (pretty <$> gpu_layers config) +:+ ")" ] ++
  (if gpu_available gpu
   then map (fun d => "      - " +:+ gd_name d +:+ " (" +:+ pretty (gd_memory_total_mb d) +:+ " MB)") (gpu_devices gpu)
   else []).

(** The start of a node: [models] are the names in the models directory. *)
Definition print_run (config : ExodusConfig) (models : list string) : list string :=
  [ "listening on " +:+ node_host config +:+ ":" +:+ pretty (node_port config) +:+
      " (api on " +:+ api_host config +:+ ":" +:+ pretty (api_port config) +:+ ")";
    "inference : EXODUS_INFERENCE=" +:+ show_bool (inference config) +:+ " backend=" +:+ inference_backend config +:+
      " llama_bin=" +:+ llama_bin config +:+ " llama_server=" +:+ llama_server_host config +:+ ":" +:+
      pretty (llama_server_port config) +:+ " model_dir=" +:+ models_dir config +:+ " models=[" +:+
      String.concat ", " (filter (fun n => String.eqb n "" = false) models) +:+ "]";
    "distributed: EXODUS_DISTRIBUTED_INFERENCE=" +:+ show_bool (distributed_inference config) +:+
      " gather_timeout=" +:+ f64_to_string (distributed_timeout_seconds config) +:+ "s" ].
End Printing.

(** ** The status of a node *)

(** [serde_json::to_string_pretty] *)
Class PrettyText := { json_pretty : Value -> string }.

Definition value_f64 (v : Value) : f64 :=
  match v with VNumber n => default f64_0 (as_f64 n) | _ => f64_0 end.
Definition value_i64 (v : Value) : Z :=
  match v with VNumber n => default 0 (as_i64 n) | _ => 0 end.

Section Status.
Context `{JsonText} `{PrettyText}.

Definition print_status (json : bool) (status : Value) : list string :=
  if json then [json_pretty status]
  else
    let credits := default (json_object []) (json_get "credits" status) in
    let show key := json_print (json_index key status) in
    let devices := match json_index "devices" (json_index "gpu" status) with
                   | VArray l => length l
                   | _ => O
                   end in
    [ "node     : " +:+ show "node_id";
      "ledger   : height=" +:+ show "ledger_height" +:+ " verified=" +:+ show "verified_chain";
      "sealer   : " +:+ show "sealer" +:+ " (view " +:+ show "view" +:+ ")";
      "gpu      : available=" +:+ json_print (json_index "available" (json_index "gpu" status)) +:+
        " devices=" +:+ pretty (Z.of_nat devices);
      "pending  : " +:+ show "pending_claims" +:+ " claims";
      "credits  : " +:+ fixed 4 (value_f64 (json_index "credits" credits)) +:+
        " (tier " +:+ pretty (value_i64 (json_index "priority_tier" credits)) +:+ ", " +:+
        fixed 1 (value_f64 (json_index "ai_time_seconds" credits)) +:+ "s AI time)" ].
End Status.

(** ** Accuracy of the fixed-point notation *)

Lemma round_mag_near m e :
  if 0 <=? e then round_mag to_even m e = Z.pos m * 2 ^ e
  else 2 * Z.abs (round_mag to_even m e * 2 ^ (- e) - Z.pos m) <= 2 ^ (- e).
Proof.
  unfold round_mag. destruct (0 <=? e) eqn:He; [done|]. apply Z.leb_gt in He.
  pose proof (Z.div_mod (Z.pos m) (2 ^ (- e)) ltac:(lia)) as Hdm.
  pose proof (Z.mod_pos_bound (Z.pos m) (2 ^ (- e)) ltac:(lia)) as Hr.
  set (d := 2 ^ (- e)) in *. set (q := Z.pos m / d) in *. set (r := Z.pos m mod d) in *.
  unfold to_even. destruct (2 * r <? d) eqn:E1; [nia|]. destruct (d <? 2 * r) eqn:E2; [nia|].
  destruct (Z.even q); nia.
Qed.

Lemma round_mag_nonneg m e : 0 <= round_mag to_even m e.
Proof.
  unfold round_mag, to_even. destruct (0 <=? e) eqn:He; [apply Z.mul_nonneg_nonneg; lia|].
  pose proof (Z.div_pos (Z.pos m) (2 ^ (- e)) ltac:(lia) ltac:(lia)). by repeat case_match; lia.
Qed.

(** Reading a decimal notation digit by digit. *)
Lemma digits_val_app s t acc : digits_val acc (s +:+ t) = digits_val (digits_val acc s) t.
Proof. revert acc. induction s as [|a s IH]; intros acc; [done|]. cbn. apply IH. Qed.

Lemma one_digit d : 0 <= d < 10 ->
  all_digits (pretty d) = true /\ String.length (pretty d) = 1%nat /\
  forall acc, digits_val acc (pretty d) = acc * 10 + d.
Proof.
  intros Hd.
  assert (d = 0 \/ d = 1 \/ d = 2 \/ d = 3 \/ d = 4 \/ d = 5 \/ d = 6 \/ d = 7 \/ d = 8 \/ d = 9) as Hc by lia.
  destruct_or! Hc; subst; (split_and!; [reflexivity|reflexivity|]); intros acc;
    match goal with |- context [pretty ?z] =>
      let s := eval vm_compute in (pretty z) in change (pretty z) with s end;
    cbn [digits_val];
    repeat match goal with |- context [byte_val ?c] =>
      let z := eval vm_compute in (byte_val c) in change (byte_val c) with z end;
    lia.
Qed.

Lemma fixed_digits_spec n q : 0 <= q < 10 ^ Z.of_nat n ->
  all_digits (fixed_digits n q) = true /\ String.length (fixed_digits n q) = n /\
  forall acc, digits_val acc (fixed_digits n q) = acc * 10 ^ Z.of_nat n + q.
Proof.
  revert q. induction n as [|n IH]; intros q Hq; cbn [fixed_digits].
  - split_and!; [done|done|]. intros acc. cbn in *. lia.
  - rewrite Nat2Z.inj_succ, Z.pow_succ_r in Hq by lia.
    destruct (IH (q / 10)) as (Ha & Hl & Hv).
    { split; [apply Z.div_pos; lia|apply Z.div_lt_upper_bound; lia]. }
    destruct (one_digit (q mod 10)) as (Ha1 & Hl1 & Hv1); [apply Z.mod_pos_bound; lia|].
    split_and!.
    + by rewrite all_digits_app, Ha.
    + rewrite string_length_app, Hl, Hl1. lia.
    + intros acc. rewrite digits_val_app, Hv, Hv1, Nat2Z.inj_succ, Z.pow_succ_r by lia.
      pose proof (Z.div_mod q 10). lia.
Qed.

(** The fixed-point notation of a number says which one it is up to half a unit of its last digit:
read without the point, its digits are the integer nearest to the number times [10^n], so that a
binary fraction of at most [n] decimals is printed exactly. *)
Theorem fixed_accurate n s m e : n <> O ->
  exists ip fp, fixed n (S754_finite s m e) = sign_text s +:+ ip +:+ "." +:+ fp /\
    ip <> "" /\ all_digits ip = true /\ all_digits fp = true /\ String.length fp = n /\
    let d := digits_val 0 (ip +:+ fp) in
    if 0 <=? e then d = Z.pos m * 10 ^ Z.of_nat n * 2 ^ e
    else 2 * Z.abs (d * 2 ^ (- e) - Z.pos m * 10 ^ Z.of_nat n) <= 2 ^ (- e).
Proof.
  intros Hn. cbn [fixed]. unfold fixed_point. destruct n as [|k]; [done|]. set (n := S k).
  assert (0 < 10 ^ Z.of_nat n) as Hp by (apply Z.pow_pos_nonneg; lia).
  pose proof (round_mag_nonneg (m * Z.to_pos (10 ^ Z.of_nat n)) e) as Hq.
  pose proof (round_mag_near (m * Z.to_pos (10 ^ Z.of_nat n)) e) as Hnear.
  rewrite Pos2Z.inj_mul, Z2Pos.id in Hnear by done.
  fold (scaled n m e) in *. set (q := scaled n m e) in *.
  destruct (pretty_nonneg (q / 10 ^ Z.of_nat n)) as [Hip Hvi]; [apply Z.div_pos; lia|].
  destruct (fixed_digits_spec n (q mod 10 ^ Z.of_nat n)) as (Hfp & Hl & Hv); [apply Z.mod_pos_bound; lia|].
  eexists _, _. split; [reflexivity|]. split_and!; [apply pretty_Z_nonempty|done|done|done|].
  cbv zeta. rewrite digits_val_app, Hvi, Hv, (Z.mul_comm (_ / _)), <- Z.div_mod by lia. done.
Qed.

Module ConsoleDemo.
(** The float 0.15 is below the decimal one; 0.25 is exact, and its half goes to the even digit. *)
Lemma fixed_examples :
  map (fixed 1) [f64_lit 15 100; f64_lit 25 100; f64_lit 75 100; f64_of_Z (-3); S754_zero true] =
    ["0.1"; "0.2"; "0.8"; "-3.0"; "-0.0"] /\
  fixed 4 (f64_lit 1 3) = "0.3333" /\ fixed 0 (f64_lit 5 2) = "2" /\ fixed 2 (S754_infinity true) = "-inf".
Proof. vm_compute. done. Qed.

Lemma fixed_accurate_witness :
  exists ip fp, fixed 4 (f64_lit 1 4) = "" +:+ ip +:+ "." +:+ fp /\ String.length fp = 4%nat.
Proof.
  destruct (fixed_accurate 4 false 4503599627370496 (-54) ltac:(done)) as (ip & fp & E & _ & _ & _ & Hl & _).
  exists ip, fp. split; [exact E|exact Hl].
Defined.
End ConsoleDemo.
