(* ===== verification/TestsUnit.v ===== *)
(** * The unit tests of the small components

The [#[cfg(test)]] modules of [accounting.rs], [crypto.rs], [gpu.rs], [rewards.rs], [identity.rs],
[system.rs] and the first test of [simulation.rs], translated test by test into Boolean functions
of the model, and evaluated: the model passes the tests the program is kept with.  What a test
takes from outside the sources (keys, the machine, the C library) is an instance; a test that does
not depend on its values is proved for every instance. *)

From S2P Require Import Prelude F64 Crypto CryptoTheory Models Accounting Instances ModelsProps Config Text.
From S2P Require Import Host Ledger Rewards Identity Simulation.
From Stdlib Require Import Floats.SpecFloat.

(** All the assertions of a test, or all the tests of a module. *)
Definition asserts (l : list bool) : bool := forallb id l.

Definition is_number (v : Value) : bool := if v is VNumber _ then true else false.

(** ** [accounting.rs] *)

Module AccountingTests.
Definition unit_claim (prompt completion : Z) (seconds flops : f64) : ContributionClaim :=
  make_claim "id" "exda" 1 "mlx-community/Llama-3.2-1B-Instruct-4bit" (f64_lit 12 10) Int4 prompt completion
    seconds flops GpuApple "t0" "t1" 0 "".

Definition expected_flops_formula : bool :=
  let c := unit_claim 100 50 (f64_of_Z 2) f64_0 in
  let tokens := f64_add (f64_of_Z 100) (f64_mul (f64_of_Z 50) (f64_of_Z 2)) in
  let exp := f64_mul (f64_mul (f64_mul (f64_mul (f64_of_Z 2) (f64_lit 12 10)) (f64_of_Z (10 ^ 9))) tokens)
               (f64_lit 35 100) in
  f64_eq (expected_flops c) exp.

Definition exp_per_cu (c : ContributionClaim) : f64 :=
  f64_div
    (f64_mul
       (f64_mul (f64_mul (f64_mul (f64_of_Z 2) (params_b c)) (f64_of_Z (10 ^ 9)))
          (f64_add (f64_of_Z (prompt_tokens c)) (f64_mul (f64_of_Z (completion_tokens c)) (f64_of_Z 2))))
       (Precision_factor (precision c)))
    FLOPS_PER_CU.

Definition min_standby (c : ContributionClaim) : f64 :=
  let inf := exp_per_cu c in
  let raw := f64_mul (f64_mul (compute_seconds c) (device_tier_time_weight (device_tier c))) (f64_lit 1 (10 ^ 6)) in
  f64_min raw (f64_mul inf (f64_lit 25 100)).

Definition compute_units_matches : bool :=
  let c := unit_claim 100 50 (f64_of_Z 2) f64_0 in
  asserts [
    f64_gt (compute_units c) f64_0;
    f64_lt (f64_abs (f64_sub (compute_units c) (round_f64 (f64_add (exp_per_cu c) (min_standby c)) 9)))
      (f64_lit 1 (10 ^ 9))].

Definition plausibility_rules : bool :=
  let exp := expected_flops (unit_claim 100 50 (f64_of_Z 2) f64_0) in
  let half := f64_lit 1 2 in
  asserts [
    flops_is_plausible (unit_claim 100 50 (f64_of_Z 2) exp) half;
    negb (flops_is_plausible (unit_claim 100 50 (f64_of_Z 2) f64_0) half);
    negb (flops_is_plausible (unit_claim 100 50 (f64_of_Z 2) (f64_mul exp (f64_of_Z 100))) half);
    negb (flops_is_plausible (unit_claim 100 50 (f64_lit 1 1000) exp) half)].

Lemma accounting_tests_pass : asserts [expected_flops_formula; compute_units_matches; plausibility_rules] = true.
Proof. vm_compute. reflexivity. Qed.
End AccountingTests.

(** ** [crypto.rs] *)

Module CryptoTests.

(** The shortest decimal that reads back as the given number: the contract of [ryu], executable. *)
Definition shortest_at (f : f64) (m : positive) (e : Z) (k p : Z) : option string :=
  let num := Z.pos m * 2 ^ Z.max e 0 * 10 ^ Z.max p 0 in
  let den := 2 ^ Z.max (- e) 0 * 10 ^ Z.max (- p) 0 in
  let q := (2 * num + den) / (2 * den) in
  if (q <? 10 ^ k) && f64_eq (f64_abs f) (scale10 false q (- p)) then Some (pretty q +:+ "e" +:+ pretty (- p)) else None.

Definition shortest (f : f64) : string :=
  match f with
  | S754_finite s m e =>
      let lg := ((e + Z.log2 (Z.pos m)) * 1233) / 4096 in
      let tries := zrange 1 17 ≫= (fun k => [shortest_at f m e k (k - 1 - lg); shortest_at f m e k (k - 2 - lg)]) in
      (if s then "-" else "") +:+
      default "" (find_first (fun o => if o is Some _ then true else false) tries ≫= id)
  | _ => "0.0"
  end.

Definition ryu_inst : Crypto := {|
  sha256 := Toy.digest; ed25519_public := Toy.public; ed25519_sign := fun sk m => Toy.tag (Toy.public sk) m;
  ed25519_verify := fun pk m s => String.eqb s (Toy.tag pk m); ryu_format_finite := shortest |}.

Section Tests.
Context `{Crypto}.

Definition py_float_matches_python_repr : bool :=
  forallb (fun '(val, expect) => String.eqb (py_float val) expect) [
    (f64_0, "0.0"); (f64_of_Z 1, "1.0"); (f64_of_Z (-2), "-2.0"); (f64_lit 1 2, "0.5"); (f64_lit 1 100, "0.01");
    (f64_of_Z 100, "100.0"); (f64_of_Z 1200, "1200.0"); (f64_lit 1 10000, "0.0001"); (f64_lit 1 100000, "1e-05");
    (f64_lit 1 10000, "0.0001"); (f64_of_Z (10 ^ 15), "1000000000000000.0"); (f64_of_Z (10 ^ 16), "1e+16");
    (f64_lit 25 (10 ^ 8), "2.5e-07"); (f64_of_Z (15 * 10 ^ 29), "1.5e+30");
    (f64_of_Z (336 * 10 ^ 10), "3360000000000.0"); (f64_lit 123456 1000, "123.456"); (f64_lit 15 100000, "0.00015")].

Definition canonical_sorts_keys_and_is_compact : bool :=
  let quote s := String quote_char (s +:+ String quote_char "") in
  let v := json_object [("b", json_int 1); ("a", json_int 2);
                        ("c", json_object [("z", json_int 1); ("y", json_int 2)])] in
  String.eqb (canonical_json v)
    ("{" +:+ quote "a" +:+ ":2," +:+ quote "b" +:+ ":1," +:+ quote "c" +:+ ":{" +:+
     quote "y" +:+ ":2," +:+ quote "z" +:+ ":1}}").

Definition node_id_format (seed : bytes) : bool :=
  let '(_, pk) := generate_key_pair seed in
  let id := node_id_from_public_key pk in
  asserts [
    starts_with "exd" id;
    Nat.eqb (String.length id) (3 + 26);
    forallb (fun c => (ch "a" <=? c) && (c <=? ch "z") || (ch "0" <=? c) && (c <=? ch "9"))
      (chars (String.substring 3 (String.length id - 3) id));
    String.eqb (node_id_from_public_key pk) id].

Definition sign_verify_roundtrip (seed : bytes) : bool :=
  let '(sk, pk) := generate_key_pair seed in
  let msg := "hello exodus" in
  let sig := sign msg sk in
  asserts [
    verify msg sig pk;
    negb (verify "tampered" sig pk);
    negb (verify msg sig (Toy.be_bytes 32 0 ""));
    negb (verify msg "" pk)].
End Tests.

#[local] Existing Instance ryu_inst.
Lemma crypto_tests_pass :
  asserts [py_float_matches_python_repr; canonical_sorts_keys_and_is_compact; node_id_format Demo.seed;
           sign_verify_roundtrip Demo.seed] = true.
Proof. vm_compute. reflexivity. Qed.
End CryptoTests.

(** ** [gpu.rs] *)

Module GpuTests.
Definition no_gpu_is_cpu_tier : bool :=
  asserts [bool_decide (gpu_tier default_gpu = Cpu); negb (gpu_available default_gpu)].

Definition available_gpu_is_nvidia_tier : bool :=
  let info := mkGpuInfo true (Some "560.35.03") [mkGpuDevice "NVIDIA GeForce RTX 4090" 24564] in
  let value := gpu_to_value info in
  asserts [
    bool_decide (gpu_tier info = GpuNvidia);
    String.eqb (tier_string info) "gpu_nvidia";
    if json_index "available" value is VBool b then b else false;
    bool_decide (as_str (json_index "name" (json_at 0 (json_index "devices" value))) = Some "NVIDIA GeForce RTX 4090")].

Definition gpu_layers_request_treats_node_as_gpu `{HostOs} `{ProcessEnv} : bool :=
  asserts [gpu_available (detect (Some 35)); negb (gpu_available (detect None))].

(** A machine without a GPU. *)
Definition no_gpu : HostOs := {|
  nvidia_smi := fun _ => None; read_to_string := fun _ => None; path_exists := fun _ => false;
  path_is_file := fun _ => false; available_parallelism := Some 4 |}.
Definition no_settings : ProcessEnv := {| env_var := fun _ => None; f64_to_string := fun _ => "" |}.
#[local] Existing Instance no_gpu.
#[local] Existing Instance no_settings.

Lemma gpu_tests_pass :
  asserts [no_gpu_is_cpu_tier; available_gpu_is_nvidia_tier; gpu_layers_request_treats_node_as_gpu] = true.
Proof. vm_compute. reflexivity. Qed.

(** The first half of the last test holds on every machine: a request for layers is taken at its word. *)
Lemma layers_request_is_gpu `{HostOs} `{ProcessEnv} n : 0 < n -> gpu_available (detect (Some n)) = true.
Proof.
  intros Hn. assert (gpu_available (detect_hints (Some n)) = true) as Hh.
  { unfold detect_hints. destruct gpu_visible_in_container; [done|]. change (default 0 (Some n)) with n. by rewrite (proj2 (Z.ltb_lt 0 n) Hn). }
  unfold detect. destruct detect_nvidia_smi as [g|]; [|done]. by destruct (gpu_available g) eqn:E.
Qed.
End GpuTests.

(** ** [rewards.rs] *)

Module RewardsTests.
Section Tests.
Context `{RewardEnv}.

Definition credit_curve_is_sublinear (cfg : ExodusConfig) : bool :=
  let a := credit_curve (f64_of_Z 10) cfg in
  let b := credit_curve (f64_of_Z 20) cfg in
  asserts [
    f64_gt a f64_0;
    f64_lt (f64_div b a) (f64_of_Z 2);
    f64_eq (credit_curve (f64_of_Z (-5)) cfg) f64_0].

Definition decay_halves : bool :=
  asserts [
    f64_eq (decay_factor (f64_of_Z 100) (f64_of_Z 100)) (f64_lit 1 2);
    f64_eq (decay_factor (f64_of_Z 200) (f64_of_Z 100)) (f64_lit 1 4);
    f64_eq (decay_factor (f64_of_Z 999) f64_0) f64_1;
    f64_eq (decay_factor (f64_of_Z (-10)) (f64_of_Z 100)) f64_1].

Definition tiers : bool :=
  asserts [
    priority_tier f64_0 5 =? 0;
    priority_tier (f64_of_Z 10) 5 =? 1;
    priority_tier (f64_of_Z (10 ^ 12)) 5 =? 4;
    concurrency_quota 0 1 =? 1;
    concurrency_quota 2 1 =? 3;
    concurrency_quota 4 2 =? 6;
    f64_eq (scheduling_priority 3 4) (f64_of_Z 34)].
End Tests.

(** The values of the C library at the arguments of the tests. *)
Definition tabulated (table : list (f64 * f64)) (x : f64) : f64 :=
  default S754_nan (snd <$> find_first (fun p => f64_eq p.1 x) table).
Definition libm : RewardEnv := {|
  powf x y :=
    if f64_eq y f64_0 then f64_1
    else if f64_eq y f64_1 then x
    else if f64_eq y (f64_of_Z 2) then f64_mul x x
    else if f64_eq y (f64_lit 85 100) then
      tabulated [(f64_of_Z 10, S754_finite false 7970760926877292 (-50));
                 (f64_of_Z 20, S754_finite false 7183651972708489 (-49))] x
    else S754_nan;
  log2 := tabulated [(f64_add f64_1 (f64_lit 10 100), S754_finite false 4954086546578700 (-55));
                     (f64_of_Z (10 ^ 10 + 1), S754_finite false 4675198165734775 (-47))];
  sum_identity := S754_zero true; parse_from_rfc3339 := fun _ => None; utc_now := fun _ => 0; column_sum := fun _ => None |}.
#[local] Existing Instance libm.

Lemma rewards_tests_pass : asserts [credit_curve_is_sublinear (default_config "/data"); decay_halves; tiers] = true.
Proof. vm_compute. reflexivity. Qed.
End RewardsTests.

(** ** [identity.rs] *)

Module IdentityTests.
(** The file is missing at the first call; [seed] and [seed'] are what keys are drawn from. *)
Definition identity_roundtrip `{Crypto} (seed seed' : bytes) : bool :=
  let '(r1, file1) := load_or_create_identity seed None in
  let '(r2, _) := load_or_create_identity seed' file1 in
  match r1, r2 with
  | Ok id1, Ok id2 =>
      asserts [
        String.eqb (id_node_id id1) (id_node_id id2);
        String.eqb (id_private_key id1) (id_private_key id2);
        starts_with "exd" (id_node_id id1)]
  | _, _ => false
  end.

#[local] Existing Instance Toy.crypto_inst.
Lemma identity_tests_pass : identity_roundtrip Demo.seed Demo.seed2 = true.
Proof. vm_compute. reflexivity. Qed.
End IdentityTests.

(** ** [system.rs] *)

Module SystemTests.
Section Tests.
Context `{HostOs}.

Definition sampler_returns_zero_on_first_call : bool := f64_eq (percent new_sampler).1 f64_0.

Definition memory_read_is_wellformed : bool :=
  asserts [is_number (json_index "total_mb" memory); is_number (json_index "process_rss_mb" memory)].

Definition cpu_cores_is_reasonable : bool := 1 <=? cpu_cores.

(** On every machine on which the number of processors can be found. *)
Lemma system_tests_pass n :
  available_parallelism = Some n -> 1 <= n ->
  asserts [sampler_returns_zero_on_first_call; memory_read_is_wellformed; cpu_cores_is_reasonable] = true.
Proof.
  intros Hn H1. unfold asserts. cbn [forallb id].
  assert (sampler_returns_zero_on_first_call = true) as ->.
  { unfold sampler_returns_zero_on_first_call, percent, sample. by destruct read_cpu_jiffies. }
  assert (cpu_cores_is_reasonable = true) as ->.
  { unfold cpu_cores_is_reasonable, cpu_cores. rewrite Hn. cbn. by apply Z.leb_le. }
  assert (memory_read_is_wellformed = true) as ->; [|done].
  unfold memory_read_is_wellformed, memory, memory_report. destruct mem_stats as [total used].
  unfold asserts, json_int. cbn. by repeat case_match.
Qed.
End Tests.
End SystemTests.

(** ** [simulation.rs] *)

Module RngTests.
Fixpoint same_numbers (n : nat) (a b : Rng) : bool :=
  match n with
  | O => true
  | S n => let '(x, a) := next_u64 a in let '(y, b) := next_u64 b in (x =? y) && same_numbers n a b
  end.
Definition rng_is_deterministic : bool := same_numbers 100 (rng_new 42) (rng_new 42).

Lemma rng_tests_pass : rng_is_deterministic = true.
Proof. vm_compute. reflexivity. Qed.
End RngTests.
