(* ===== verification/TestsInference.v ===== *)
(** * The unit tests of the inference backends

The [#[cfg(test)]] modules of [inference.rs] and [llama_server.rs], test by test, as in the file of
the small components.  The scripts the tests write to disk are the [Child]ren they run as, the
one-shot servers the [Remote]s the client talks to. *)

From S2P Require Import Prelude F64 Crypto Models Config Text Host Inference Http LlamaServer TestsUnit.

(** [s.contains(..)] on an error. *)
Definition error_contains {A} (text : string) (r : result A string) : bool :=
  match r with Err e => str_contains text e | Ok _ => false end.
Definition ok_is (text : string) (r : result string string) : bool :=
  match r with Ok s => String.eqb s text | Err _ => false end.

Module InferenceUnitTests.
Section Tests.
Context `{Unicode}.

Definition params_b_parsing_ignores_precision_tags : bool :=
  asserts [
    bool_decide (model_params_b "Llama-3.2-1B-Instruct-4bit" = Some (f64_of_Z 1));
    bool_decide (model_params_b "Mistral-7B-Instruct-v0.3-4bit" = Some (f64_of_Z 7));
    bool_decide (model_params_b "Qwen2.5-14B-Instruct-4bit" = Some (f64_of_Z 14));
    bool_decide (model_params_b "Mixtral-8x7B-Instruct-4bit" = Some (f64_of_Z 7));
    bool_decide (model_params_b "no model name" = None)].

Definition precision_parses_from_name : bool :=
  asserts [
    bool_decide (model_precision "x-4bit" = Int4);
    bool_decide (model_precision "x-8bit" = Int8);
    bool_decide (model_precision "x-2bit" = Int2);
    bool_decide (model_precision "plain" = Fp16)].

Definition prompt_builds_transcript : bool :=
  let turns := [mkTurn "user" "hi"; mkTurn "assistant" "hello"; mkTurn "user" "how are you"] in
  let p := build_prompt turns in
  asserts [str_contains "User: hi" p; str_contains "Assistant: hello" p; ends_with "Assistant:" p].

Definition clean_strips_marker_and_prompt_echo : bool :=
  let echoed := "User: hi" +:+ String newline "Assistant: Hello!" in
  asserts [
    String.eqb (clean "  Hello there!  ") "Hello there!";
    String.eqb (clean echoed) echoed;
    String.eqb (clean "Assistant: 42") "42"].
End Tests.

(** The configuration of a test: the program, the tokens and the time-out. *)
Definition test_config (bin : string) (tokens : Z) (timeout : f64) (c : ExodusConfig) : ExodusConfig :=
  mkConfig (data_dir c) (node_name c) (model_dir c) (gpu_layers c) bin (inference c) tokens
    timeout (max_concurrent_inference c) (distributed_inference c)
    (distributed_timeout_seconds c) (inference_backend c) (llama_server_bin c)
    (llama_server_host c) (llama_server_port c) (llama_server_parallel c) (epoch_seconds c)
    (election_timeout_seconds c) (byzantine c) (max_faulty c) (claim_dedup_window c)
    (active_peer_window c) (heartbeat_seconds c) (sync_request_interval_seconds c) (node_host c)
    (node_port c) (peers_cfg c) (discover c) (api_host c) (api_port c) (flops_tolerance c)
    (credits_per_cu c) (reward_diminishing c) (credit_halflife_seconds c) (free_quota_seconds c)
    (seconds_per_credit c) (max_priority_levels c).

Definition base : ExodusConfig := default_config "/data".

(** The directory of the scratch files, and what the scripts do when they run. *)
Definition scratch (name : string) : string := "/tmp/exodus-infer-test/" +:+ name.
Definition scripts (cmd : CommandLine) : result Child string :=
  if String.eqb (cmd_program cmd) (scratch "slow.sh") then
    Ok (mkChild 0 (map (fun k => Running (k * 200 * 10 ^ 6)) (zrange 0 24) ++ [Exited true "exit status: 0"]) true "" "")
  else if String.eqb (cmd_program cmd) (scratch "fast.sh") then
    Ok (mkChild 0 [Running 0; Exited true "exit status: 0"] true ("Assistant: hello there" +:+ String newline "") "")
  else Err "No such file or directory (os error 2)".

#[local] Instance disk : HostOs := {|
  nvidia_smi := fun _ => None; read_to_string := fun _ => None; path_exists := fun _ => false;
  path_is_file := fun p => existsb (String.eqb p) (map scratch ["slow.sh"; "fast.sh"; "model.gguf"; "model2.gguf"]);
  available_parallelism := Some 4 |}.
#[local] Instance path_set : ProcessEnv := {|
  env_var := fun n => if String.eqb n "PATH" then Some "/usr/bin:/bin" else None; f64_to_string := fun _ => "1" |}.
#[local] Instance shell : Runtime := {| spawn := scripts |}.

Definition completion (r : outcome (result string string)) : result string string :=
  match r with Done r => r | _ => Err "" end.

Definition binary_missing_reported : bool :=
  let cfg := test_config "exodus-definitely-missing-bin-xyz" 16 (inference_timeout_seconds base) base in
  error_contains "not found" (completion (complete cfg default_gpu "/nonexistent/model.gguf" [])).

Definition timed_out_inference_is_killed : bool :=
  let cfg := test_config (scratch "slow.sh") (max_tokens base) (f64_of_Z 1) base in
  error_contains "timed out" (completion (complete cfg default_gpu (scratch "model.gguf") [])).

Definition quick_inference_succeeds : bool :=
  let cfg := test_config (scratch "fast.sh") (max_tokens base) (f64_of_Z 5) base in
  ok_is "hello there" (completion (complete cfg default_gpu (scratch "model2.gguf") [])).

#[local] Existing Instance InferenceTests.ascii_tables.
Lemma inference_tests_pass :
  asserts [params_b_parsing_ignores_precision_tags; precision_parses_from_name; prompt_builds_transcript;
           clean_strips_marker_and_prompt_echo; binary_missing_reported; timed_out_inference_is_killed;
           quick_inference_succeeds] = true.
Proof. vm_compute. reflexivity. Qed.
End InferenceUnitTests.

Module LlamaUnitTests.
Section Tests.
Context `{Unicode} `{JsonText}.

(** The texts the tests parse. *)
Definition completion_text (fields : list (string * Value)) : Value :=
  json_object [("choices", VArray [json_object fields])].
Definition parsed_answer : Value :=
  completion_text [("index", json_int 0);
    ("message", json_object [("role", VString "assistant"); ("content", VString "Hola! Como estas?")]);
    ("finish_reason", VString "stop")].
Definition parsed_marker : Value :=
  completion_text [("message", json_object [("content", VString "Assistant: hey")])].
Definition parsed_empty : Value :=
  completion_text [("message", json_object [("content", VString "")]); ("finish_reason", VString "length")].

Definition parse_extracts_message_content : bool :=
  ok_is "Hola! Como estas?" (parse_chat_completion (json_print parsed_answer)).
Definition parse_strips_assistant_marker : bool :=
  ok_is "hey" (parse_chat_completion (json_print parsed_marker)).
Definition parse_empty_completion_is_error : bool :=
  error_contains "empty completion" (parse_chat_completion (json_print parsed_empty)).
Definition parse_bad_json_is_error : bool := negb (is_ok (parse_chat_completion "not json")).

(** The first three hold for every parser that reads back what is printed. *)
Lemma parse_tests_pass :
  (forall v, json_parse (json_print v) = Ok v) ->
  asserts [parse_extracts_message_content; parse_strips_assistant_marker; parse_empty_completion_is_error] = true.
Proof.
  intros Hp. unfold asserts, parse_extracts_message_content, parse_strips_assistant_marker,
    parse_empty_completion_is_error, parse_chat_completion. rewrite !Hp. vm_compute. reflexivity.
Qed.

(** A server that answers its only connection with [response]. *)
Definition serve_one (response : bytes) : Remote :=
  mkRemote (Ok ["127.0.0.1"]) (fun _ => Ok tt) (Ok tt) (fun _ => Ok tt) (fun _ => response).

Definition with_length (status : string) (headers : list string) (body : string) : bytes :=
  "HTTP/1.1 " +:+ status +:+ crlf +:+ String.concat "" (map (fun h => h +:+ crlf) headers) +:+
  "Content-Length: " +:+ pretty (str_len body) +:+ crlf +:+ "Connection: close" +:+ crlf +:+ crlf +:+ body.

Definition http_client_reads_content_length_body (port : Z) : bool :=
  let quoted s := String quote_char (s +:+ String quote_char "") in
  let body := "{" +:+ quoted "choices" +:+ ":[{" +:+ quoted "message" +:+ ":{" +:+ quoted "content" +:+ ":" +:+
              quoted "hola" +:+ "}}]}" in
  let r := serve_one (with_length "200 OK" ["Content-Type: application/json"] body) in
  match http_post_json "127.0.0.1" port "/v1/chat/completions" "{}" r with
  | Ok body => str_contains "hola" body
  | Err _ => false
  end.

Definition http_client_reads_chunked_body (port : Z) : bool :=
  let resp := "HTTP/1.1 200 OK" +:+ crlf +:+ "Transfer-Encoding: chunked" +:+ crlf +:+ crlf +:+ "5" +:+ crlf +:+
              "hola!" +:+ crlf +:+ "0" +:+ crlf +:+ crlf in
  ok_is "hola!" (http_post_json "127.0.0.1" port "/v1/chat/completions" "{}" (serve_one resp)).

Definition http_error_status_is_reported (port : Z) : bool :=
  error_contains "503" (http_get "127.0.0.1" port "/health" (serve_one (with_length "503 Service Unavailable" [] "not ready"))).

Definition connection_refused_is_reported : bool :=
  let refused := mkRemote (Ok ["127.0.0.1"]) (fun _ => Err "Connection refused (os error 111)") (Ok tt) (fun _ => Ok tt)
                   (fun _ => "") in
  error_contains "connect" (http_get "127.0.0.1" 1 "/health" refused).

Definition model_matches_path_or_filename : bool :=
  let p := "/models/smollm2-360m-instruct-q8_0.gguf" in
  asserts [
    model_matches "/models/smollm2-360m-instruct-q8_0.gguf" p;
    model_matches "smollm2-360m-instruct-q8_0.gguf" p;
    negb (model_matches "/models/other.gguf" p)].

(** A file that is missing reads as empty. *)
Definition read_tail_caps_and_truncates : bool :=
  asserts [
    String.eqb (read_tail "abcde" 100) "abcde";
    ends_with "cde" (read_tail "abcde" 3);
    starts_with truncated_mark (read_tail "abcde" 3);
    String.eqb (read_tail "" 10) ""].

(** [bound] is the port the system assigned, never zero. *)
Definition ephemeral_port_is_free (bound : option Z) : bool := 0 <? pick_free_port bound.
End Tests.

(** A parser that knows no text. *)
Definition mute : JsonText := {| json_parse := fun _ => Err "expected value at line 1 column 1"; json_print := fun _ => "" |}.
#[local] Existing Instance mute.
#[local] Existing Instance InferenceTests.ascii_tables.

Lemma llama_tests_pass :
  asserts [parse_bad_json_is_error; http_client_reads_content_length_body 40000;
           http_client_reads_chunked_body 40001; http_error_status_is_reported 40002;
           connection_refused_is_reported; model_matches_path_or_filename; read_tail_caps_and_truncates;
           ephemeral_port_is_free (Some 40003); ephemeral_port_is_free None] = true.
Proof. vm_compute. reflexivity. Qed.
End LlamaUnitTests.
