(* ===== verification/TestsConsensus.v ===== *)
(** * The unit tests of the ledger and of consensus

The [#[cfg(test)]] modules of [ledger.rs], [validation.rs] and [protocol.rs], test by test.  A fresh
database is the empty store; the random keys of a test are the argument [key], the [n]-th draw. *)

From S2P Require Import Prelude F64 Crypto CryptoTheory Models Accounting Instances Config Text Ledger Validation.
From S2P Require Import Protocol Identity TestsUnit.

Definition ok_or {A E} (d : A) (r : result A E) : A := match r with Ok a => a | Err _ => d end.

Section Shared.
Context `{Crypto} `{Serde}.

(** [ChainStore::open] on a new file, with the genesis block. *)
Definition temp_store : ChainStore := ok_or empty_store (append genesis_checkpoint empty_store).

Definition head_or_genesis (s : ChainStore) : Checkpoint := default genesis_checkpoint (head s).

(** [store.append(..).unwrap()] *)
Definition append_unwrap (c : Checkpoint) (s : ChainStore) : bool * ChainStore :=
  match append c s with Ok s' => (true, s') | Err _ => (false, s) end.

Definition llama_claim (id node : string) (seq : Z) : ContributionClaim :=
  make_claim id node seq "llama-3b.gguf" (f64_of_Z 3) Int4 512 128 (f64_lit 125 10) (f64_of_Z (19 * 10 ^ 11))
    GpuNvidia "2026-08-05T00:00:00+00:00" "2026-08-05T00:00:12+00:00" 0 "".
End Shared.

(** ** [ledger.rs] *)

Module LedgerUnitTests.
Section Tests.
Context `{Crypto} `{Serde} `{Env}.
Variable key : nat -> bytes.

Definition ledger_signed_claim (draw : nat) (node_id : string) (seq : Z) : SignedContribution :=
  signed_create (llama_claim ("claim-" +:+ node_id +:+ "-" +:+ pretty seq) node_id seq) (key draw).

Definition checkpoint_with (hd : Checkpoint) (height epoch : Z) (claims : list SignedContribution) : Checkpoint :=
  mkCheckpoint (mkProposal epoch height (block_hash hd) "exdsealer" claims (utcnow 0)) [] 1.

Definition duplicate_node_seq_rejected_then_recognised_as_committed : bool :=
  let claim := ledger_signed_claim 0 "exdnode1" 1 in
  let '(appended, store) := append_unwrap (checkpoint_with (head_or_genesis temp_store) 1 1 [claim]) temp_store in
  let twin := checkpoint_with (head_or_genesis store) 2 2 [claim] in
  asserts [
    appended;
    match append twin store with Err (DuplicateClaim _) | Err (DuplicateNodeSeq _ _) => true | _ => false end;
    is_already_committed store twin].

Definition rollback_removes_blocks_and_claims : bool :=
  let c1 := ledger_signed_claim 0 "exdnode3" 1 in
  let '(ok1, s1) := append_unwrap (checkpoint_with (head_or_genesis temp_store) 1 1 [c1]) temp_store in
  let b1_hash := block_hash (head_or_genesis s1) in
  let c2 := ledger_signed_claim 1 "exdnode4" 2 in
  let '(ok2, s2) := append_unwrap (checkpoint_with (head_or_genesis s1) 2 2 [c2]) s1 in
  let '(s3, _) := rollback 1 s2 in
  let c3 := ledger_signed_claim 2 "exdnode5" 3 in
  let '(ok4, s4) := append_unwrap (checkpoint_with (head_or_genesis s3) 2 3 [c3]) s3 in
  let id c := claim_id (sc_claim c) in
  asserts [
    ok1; ok2; height s2 =? 2; bool_decide (id c2 ∈ all_committed_claim_ids s2);
    height s3 =? 1; String.eqb (block_hash (head_or_genesis s3)) b1_hash;
    negb (bool_decide (id c2 ∈ all_committed_claim_ids s3));
    bool_decide (id c1 ∈ all_committed_claim_ids s3);
    ok4; height s4 =? 2].

Definition fresh_claim_not_already_committed : bool :=
  let next := checkpoint_with (head_or_genesis temp_store) 1 1 [ledger_signed_claim 0 "exdnode2" 7] in
  asserts [negb (is_already_committed temp_store next); is_ok (append next temp_store)].
End Tests.
End LedgerUnitTests.

(** ** [validation.rs] *)

Module ValidationUnitTests.
Section Tests.
Context `{Crypto} `{Serde} `{Env}.

Definition genesis_recognised : bool := is_canonical_genesis (cp_proposal genesis_checkpoint).

Definition validates_empty_proposal_rules : bool :=
  let prev := block_hash (head_or_genesis temp_store) in
  let p := mkProposal 1 1 prev "exdsealer" [] (utcnow 0) in
  let valid p allow_empty := is_ok (validate_proposal p temp_store ∅ (f64_lit 1 2) allow_empty).2 in
  asserts [
    negb (valid p false);
    valid p true;
    negb (valid (mkProposal 1 1 "x" "exdsealer" [] (utcnow 0)) true);
    negb (valid (mkProposal 0 1 prev "exdsealer" [] (utcnow 0)) true)].
End Tests.
End ValidationUnitTests.

(** ** [protocol.rs] *)

Module ProtocolUnitTests.
Section Tests.
Context `{Crypto} `{Serde} `{Env}.
Variable config : ExodusConfig.
Variable key : nat -> bytes.

Definition reorg_claim (draw : nat) (seq : Z) : SignedContribution :=
  let private_key := key draw in
  let public_key := public_key_from_private private_key in
  let node_id := node_id_from_public_key public_key in
  signed_create (llama_claim ("reorg-claim-" +:+ pretty seq) node_id seq) private_key.

Definition quorum_sig (private_key : bytes) (p : CheckpointProposal) : QuorumSignature :=
  let public_key := public_key_from_private private_key in
  mkQuorumSignature (node_id_from_public_key public_key) (hex public_key) (hex (sign (proposal_hash p) private_key)).

Definition sealed_block (private_key : bytes) (height epoch : Z) (prev_hash : string)
  (claims : list SignedContribution) : Checkpoint :=
  let public_key := public_key_from_private private_key in
  let p := mkProposal epoch height prev_hash (node_id_from_public_key public_key) claims (utcnow 0) in
  mkCheckpoint p [quorum_sig private_key p] 1.

(** The state the tests build field by field, for the key [private_key]. *)
Definition test_state (private_key : bytes) (s : ChainStore) : ProtocolState :=
  let '(private_key, public_key) := generate_key_pair private_key in
  mkProtocolState (node_id_from_public_key public_key) private_key (hex public_key) ∅ (all_committed_claim_ids s)
    ∅ ∅ ∅ ∅ 1 (clock 0) ∅ ∅ ∅ ∅ [] f64_0 (f64_of_Z 5) [] [] 1.

Definition same_hash (o : option Checkpoint) (b : Checkpoint) : bool :=
  bool_decide (block_hash <$> o = Some (block_hash b)).

Definition reconcile_chain_rolls_back_to_longest_peer_branch : bool :=
  let genesis := head_or_genesis temp_store in
  let private_key := key 0 in
  let state := test_state private_key temp_store in
  let claim_a := reorg_claim 1 1 in
  let block_a := sealed_block private_key 1 1 (block_hash genesis) [claim_a] in
  let '(appended, store) := append_unwrap block_a temp_store in
  let claim_b := reorg_claim 2 2 in
  let block_b := sealed_block private_key 1 1 (block_hash genesis) [claim_b] in
  let claim_c := reorg_claim 3 3 in
  let block_c := sealed_block private_key 2 2 (block_hash block_b) [claim_c] in
  let '(state', store') := reconcile_chain config [genesis; block_b; block_c] (state, store) in
  let committed := all_committed_claim_ids store' in
  let id c := claim_id (sc_claim c) in
  asserts [
    appended; height store =? 1; same_hash (head store) block_a;
    negb (String.eqb (block_hash block_a) (block_hash block_b));
    height store' =? 2; same_hash (head store') block_c;
    negb (same_hash (get_block store' 1) block_a); same_hash (get_block store' 1) block_b;
    bool_decide (id claim_b ∈ committed); bool_decide (id claim_c ∈ committed);
    negb (bool_decide (id claim_a ∈ committed));
    bool_decide (ps_committed_claim_ids state' = committed)].

(** The search of the tie-break tests: blocks of further claims until [good] holds. *)
Fixpoint search_block (fuel : nat) (good : Checkpoint -> bool) (private_key : bytes) (prev_hash : string)
  (seq : Z) (b : Checkpoint) : Checkpoint :=
  match fuel with
  | O => b
  | S fuel =>
      if good b then b
      else search_block fuel good private_key prev_hash (seq + 1)
             (sealed_block private_key 1 1 prev_hash [reorg_claim (Z.to_nat seq) seq])
  end.

Definition reconcile_chain_keeps_local_branch_when_not_longer : bool :=
  let genesis := head_or_genesis temp_store in
  let private_key := key 0 in
  let state := test_state private_key temp_store in
  let block_a := sealed_block private_key 1 1 (block_hash genesis) [reorg_claim 10 10] in
  let '(appended, store) := append_unwrap block_a temp_store in
  let loses b := string_le (block_hash block_a) (block_hash b) in
  let block_b := search_block 988 loses private_key (block_hash genesis) 12
                   (sealed_block private_key 1 1 (block_hash genesis) [reorg_claim 11 11]) in
  let '(_, store') := reconcile_chain config [genesis; block_b] (state, store) in
  asserts [appended; loses block_b; height store' =? 1; same_hash (head store') block_a].

Definition reconcile_chain_adopts_equal_length_winning_tie_break : bool :=
  let genesis := head_or_genesis temp_store in
  let private_key := key 0 in
  let state := test_state private_key temp_store in
  let block_a := sealed_block private_key 1 1 (block_hash genesis) [reorg_claim 20 20] in
  let '(appended, store) := append_unwrap block_a temp_store in
  let wins b := string_lt (block_hash b) (block_hash block_a) in
  let block_b := search_block 979 wins private_key (block_hash genesis) 22
                   (sealed_block private_key 1 1 (block_hash genesis) [reorg_claim 21 21]) in
  let '(_, store') := reconcile_chain config [genesis; block_b] (state, store) in
  asserts [appended; wins block_b; height store' =? 1; same_hash (head store') block_b].

Definition repeated_insufficient_quorum_commit_is_suppressed : bool :=
  let genesis := head_or_genesis temp_store in
  let state := test_state (key 0) temp_store in
  let p := mkProposal 1 1 (block_hash genesis) (ps_node_id state) [reorg_claim 1 1] (utcnow 0) in
  let bad := mkCheckpoint p [] 1 in
  let '(st1, s1) := on_commit config (mkCommitMessage bad) (state, temp_store) in
  let before := length (ps_recent_commit_rejects st1) in
  let '(st2, s2) := on_commit config (mkCommitMessage bad) (st1, s1) in
  asserts [
    height s1 =? 0; commit_reject_seen (block_hash bad) st1;
    height s2 =? 0; Nat.eqb (length (ps_recent_commit_rejects st2)) before].

Definition valid_commit_is_not_suppressed_by_recent_rejects : bool :=
  let private_key := key 0 in
  let good := sealed_block private_key 1 1 (block_hash (head_or_genesis temp_store)) [reorg_claim 1 1] in
  let '(st, s) := on_commit config (mkCommitMessage good) (test_state private_key temp_store, temp_store) in
  asserts [height s =? 1; Nat.eqb (length (ps_recent_commit_rejects st)) 0].

Definition sync_requests_are_rate_limited : bool :=
  let st1 := request_sync 0 (test_state (key 0) temp_store) in
  let st2 := request_sync 1 st1 in
  asserts [
    Nat.eqb (length (ps_outgoing st1)) 1;
    match ps_outgoing st1 !! 0%nat with Some (_, MSyncRequest req) => sq_from_height req =? 0 | _ => false end;
    Nat.eqb (length (ps_outgoing st2)) 1].

Definition frozen_quorum_outlives_committee_growth : bool :=
  let private_key := key 0 in
  let block := sealed_block private_key 1 1 (block_hash (head_or_genesis temp_store)) [reorg_claim 1 1] in
  let '(appended, store) := append_unwrap block temp_store in
  let peer_ids := ["exdfake0000000000000000000000001"; "exdfake0000000000000000000000002";
                   "exdfake0000000000000000000000003"] in
  let peer id := mkHeartbeat id 1 (block_hash block) 1 (prop_sealed_by (cp_proposal block)) 1 in
  let state := foldl (fun st id => with_peers (<[id := peer id]> (ps_peers st)) st)
                 (test_state private_key temp_store) peer_ids in
  let '(_, store') := on_commit config (mkCommitMessage block) (state, store) in
  asserts [
    cp_quorum block =? 1; Nat.eqb (length (cp_signatures block)) 1; appended;
    height store' =? 1; same_hash (head store') block].

Definition legacy_block_without_quorum_is_accepted_with_its_sealer : bool :=
  let private_key := key 0 in
  let state := test_state private_key temp_store in
  let p := mkProposal 1 1 (block_hash (head_or_genesis temp_store)) (ps_node_id state) [reorg_claim 1 1] (utcnow 0) in
  let block := mkCheckpoint p [quorum_sig private_key p] 0 in
  height (on_commit config (mkCommitMessage block) (state, temp_store)).2 =? 1.
End Tests.
End ProtocolUnitTests.

(** ** The runs *)

Module ConsensusTestRun.
#[local] Existing Instance Toy.crypto_inst.
#[local] Existing Instance Toy.serde_inst.

(** A clock that advances a millisecond with each reading. *)
Definition quick_clock : Env := {|
  clock := fun n => f64_lit (1000000000 + Z.of_nat n) 1000;
  utcnow := fun n => "2026-08-05T00:01:00+00:00";
  hash_first := fun n m => fst <$> hd_error (map_to_list m);
  sql_sum := fun l => match l with [] => None | _ => Some (f64_sum l) end |}.
#[local] Existing Instance quick_clock.

Definition key (n : nat) : bytes := Toy.be_bytes 32 (2 ^ 200 + 1000003 * Z.of_nat n) "".
Definition cfg : ExodusConfig := default_config "/data".
Import LedgerUnitTests ValidationUnitTests ProtocolUnitTests.

Lemma ledger_tests_pass :
  asserts [duplicate_node_seq_rejected_then_recognised_as_committed key; rollback_removes_blocks_and_claims key;
           fresh_claim_not_already_committed key] = true.
Proof. vm_compute. reflexivity. Qed.

Lemma validation_tests_pass : asserts [genesis_recognised; validates_empty_proposal_rules] = true.
Proof. vm_compute. reflexivity. Qed.

Lemma reorg_tests_pass :
  asserts [reconcile_chain_rolls_back_to_longest_peer_branch cfg key;
           reconcile_chain_keeps_local_branch_when_not_longer cfg key;
           reconcile_chain_adopts_equal_length_winning_tie_break cfg key] = true.
Proof. vm_compute. reflexivity. Qed.

Lemma commit_tests_pass :
  asserts [repeated_insufficient_quorum_commit_is_suppressed cfg key;
           valid_commit_is_not_suppressed_by_recent_rejects cfg key;
           sync_requests_are_rate_limited key;
           frozen_quorum_outlives_committee_growth cfg key;
           legacy_block_without_quorum_is_accepted_with_its_sealer cfg key] = true.
Proof. vm_compute. reflexivity. Qed.
End ConsensusTestRun.
