(* ===== verification/TestsNode.v ===== *)
(** * The tests of whole nodes

The [#[cfg(test)]] modules of [coordinator.rs] and [api.rs] and the last test of [simulation.rs],
test by test, on nodes that share a transport: the theorem on distributed requests at a concrete
input, and the end-to-end tests evaluated. *)

From S2P Require Import Prelude F64 Crypto CryptoTheory Models Accounting Instances Config Text Host Inference.
From S2P Require Import InferenceProps Http LlamaServer LlamaProps Ledger Validation Protocol ProtocolProps Decode.
From S2P Require Import Rewards RewardsProps Identity Coordinator CoordinatorSteps CoordinatorDemo Simulation Fanout.
From S2P Require Import Network Gossip Discovery Transport Agreement Api Console TestsUnit.

(** ** The decoders of the examples *)

Lemma derived_inference_laws : @InferenceLaws Derived.decoders.
Proof. split; [apply Derived.infer_request_read|apply Derived.infer_response_read]. Qed.

(** ** [coordinator.rs] *)

Module NodeTests.
Section Tests.
Context `{Crypto} `{Serde} `{Env} `{RewardEnv} `{HostOs} `{ProcessEnv} `{Unicode} `{JsonText}.
Context `{Runtime} `{Decoders}.
Variable config : ExodusConfig.
Variable key : nat -> bytes.
(** What a server backend would observe, and the time of a completion. *)
Variable ob : Observed.
Variable post : Z -> bytes -> result bytes string.
Variable seconds : f64.

(** Which of the threads that can go on goes on. *)
Variable pick : list nat -> option nat.

(** [n] connected nodes with new databases. *)
Definition coords (n : nat) : outcome (list Coordinator) := start_nodes config key (fun _ => empty_store) (seq 0 n).

Fixpoint tick_rounds (fuel rounds : nat) (nodes : list Coordinator) : outcome (list Coordinator) :=
  match rounds with
  | O => Done nodes
  | S rounds => nodes <-! tick_all config 0 fuel nodes ;; tick_rounds fuel rounds nodes
  end.

(** What the backend of node [j] makes of a request, in [seconds] and with the claim [c<j>]. *)
Definition backend_work (request : InferenceRequest) (nodes : list Coordinator) (j : nat) : Work :=
  let r := match nodes !! j with
           | Some c => match (complete_for_request config request ob post c).1.1 with Done r => r | _ => Err "" end
           | None => Err ""
           end in
  mkWork r seconds ("c" +:+ pretty (Z.of_nat j)) (utcnow 0).

Definition passes (o : outcome bool) : bool := match o with Done b => b | _ => false end.

Definition distributed_fanout_collects_peer_completions (fuel : nat) : outcome bool :=
  nodes <-! coords 3 ;;
  nodes <-! tick_rounds fuel 3 nodes ;;
  c0 <-! of_option (nodes !! 0%nat) ;;
  let request := mkInferenceRequest "req-test" (id_node_id (co_identity c0)) "Llama-3.2-1B-Instruct-4bit" 64
                   [mkInferenceTurn "user" "hello"] in
  start <-! of_option (fan_out 0 "req-test" "Llama-3.2-1B-Instruct-4bit" 64 [mkInferenceTurn "user" "hello"] nodes) ;;
  let f := settle config (backend_work request nodes) 0 pick 100 start in
  c0 <-! of_option (fan_nodes f !! 0%nat) ;;
  let got := default [] (co_infer_tx c0 !! "req-test") in
  let c0 := drop_inference "req-test" c0 in
  Done (asserts [
    settled f;
    Nat.eqb (length got) 2;
    bool_decide (NoDup (map ir_node_id got));
    forallb (fun r => match ir_error r with None => true | _ => false end && starts_with "[node:" (ir_reply r)) got;
    bool_decide (co_infer_tx c0 !! "req-test" = None)]).

Definition requester_ignores_own_echoes : outcome bool :=
  nodes <-! coords 1 ;;
  c0 <-! of_option (nodes !! 0%nat) ;;
  let request := mkInferenceRequest "req-echo" (id_node_id (co_identity c0)) "m.gguf" 16 [mkInferenceTurn "user" "hi"] in
  start <-! of_option (fan_out 0 "req-echo" "m.gguf" 16 [mkInferenceTurn "user" "hi"] nodes) ;;
  let f := settle config (backend_work request nodes) 0 pick 100 start in
  solo <-! of_option (fan_nodes f !! 0%nat) ;;
  Done (Nat.eqb (length (default [] (co_infer_tx solo !! "req-echo"))) 0).

(** [now] and [later] are readings of the clock, an hour apart. *)
Definition distributed_capacity_drops_silent_peers (order : gmap string (NodeStats * Z) -> list NodeStats)
  (now : Z) : outcome bool :=
  nodes <-! coords 1 ;;
  c <-! of_option (nodes !! 0%nat) ;;
  let remote := mkNodeStats "exdremote" 8 16000 4 0 false in
  c <-! on_node_stats config (stats_to_value remote) now c ;;
  ' (with_peer, c) <-! distributed_capacity config order now c ;;
  let faked := with_peer_stats ((fun p => (p.1, now - 3600 * 10 ^ 9)) <$> co_peer_stats c) c in
  ' (after, _) <-! distributed_capacity config order now faked ;;
  let count v := match json_index "node_count" v with VNumber n => as_i64 n | _ => None end in
  Done (asserts [bool_decide (count with_peer = Some 2); bool_decide (count after = Some 1)]).

(** [test_inject_peer] *)
Definition test_inject_peer (node_id : string) (height : Z) (seen : f64) (st : ProtocolState) : ProtocolState :=
  with_peer_seen (<[node_id := seen]> (ps_peer_seen st))
    (with_peers (<[node_id := mkHeartbeat node_id height "" 0 "" 1]> (ps_peers st)) st).

Definition stale_peers_pruned_from_consensus : outcome bool :=
  nodes <-! coords 1 ;;
  c <-! of_option (nodes !! 0%nat) ;;
  let st := test_inject_peer "exdside-0000000000000000000000001" 0 f64_1 (co_protocol c) in
  let '(c, _) := on_consensus (tick config) (with_consensus (st, co_store c) c) in
  let peers := filter (fun id => negb (String.eqb id (id_node_id (co_identity c))) = true)
                 (active_peers config (co_protocol c) (co_store c)) in
  Done (Nat.eqb (length peers) 0).

(** [simulation.rs]: the runs of several sizes end with equal ledgers. *)
Definition multi_node_simulations_converge (fresh_id time_stamp : nat -> string) (fuel : nat) (sizes : list nat)
  (ticks claims_per_tick : nat) : bool :=
  forallb (fun n =>
    match simulate config key (fun _ => empty_store) fresh_id time_stamp 0 fuel n ticks (Some 7) claims_per_tick 0 with
    | Done r => sim_consistent r
    | _ => false
    end) sizes.

(** *** Two nodes over TCP *)

(** A started transport with the subscriptions of a node. *)
Definition tcp_node `{Wire} (name : string) (port : Z) (bootstrap : list string) : @TcpTransport NodeHandler :=
  let t := (tcp_start (tcp_new name "127.0.0.1" port bootstrap false)).1 in
  default t (fst <$> attach node_subscriptions t).

(** The handlers of a node that the network called, one after the other. *)
Fixpoint handle_calls (calls : list (@call NodeHandler)) (c : Coordinator) : outcome (Coordinator * list co_event) :=
  match calls with
  | [] => Done (c, [])
  | k :: calls =>
      ' (c, evs) <-! on_delivery config (call_topic k) (call_payload k) 0 c ;;
      ' (c, more) <-! handle_calls calls c ;;
      Done (c, evs ++ more)
  end.

(** The request of the test. *)
Definition tcp_request (a : Coordinator) : Coordinator * list co_event :=
  request_inference "tcp-req" "Mistral-7B-Instruct-v0.3-4bit.gguf" 32 [mkInferenceTurn "user" "hello"] a.

(** [run_inference_request] with nothing else going on, start to end. *)
Definition run_worker (request : InferenceRequest) (w : Work) (c : Coordinator) : Coordinator * list co_event :=
  let '(c, evs, started) := begin_inference request c in
  if started then finish_inference config request (wk_result w) (wk_elapsed w) (wk_uuid w) (wk_now w) c
  else (c, evs).

(** What the worker of [b] does with the request it heard. *)
Definition tcp_answer (b : Coordinator) (evs : list co_event) : Coordinator * list co_event :=
  match started_workers evs with
  | request :: _ => run_worker request (backend_work request [b] 0) b
  | [] => (b, [])
  end.

(** [a] dialled [b]: the request goes out over the connection, and the answer comes back over it. *)
Definition real_tcp_fanout_reaches_peer `{Wire} : outcome bool :=
  nodes <-! coords 2 ;;
  a <-! of_option (nodes !! 0%nat) ;;
  b <-! of_option (nodes !! 1%nat) ;;
  let name c := id_node_id (co_identity c) in
  let dialled := "127.0.0.1:55931" in
  let accepted := server_key "127.0.0.1" 40001 in
  let tcp_a := tcp_node (name a) 55930 [dialled] in
  let tcp_b := tcp_node (name b) 55931 [] in
  let net := connect_nodes (name a) dialled (name b) accepted
               (mkNet (<[name a := tcp_inner tcp_a]> (<[name b := tcp_inner tcp_b]> ∅)) ∅ ∅ []) in
  inner_a <-! of_option (net_nodes net !! name a) ;;
  let connected := 1 <=? tcp_peer_count (with_inner inner_a tcp_a) in
  match tcp_request a with
  | (a, [Sent topic payload]) =>
      net <-! of_option (transmit (name a, dialled) (publish_at (name a) "m1" topic payload net)) ;;
      ' (b, evs) <-! handle_calls (calls_at (name b) net) b ;;
      match tcp_answer b evs with
      | (b, Sent topic payload :: _) =>
          net <-! of_option (transmit (name b, accepted) (publish_at (name b) "m2" topic payload net)) ;;
          ' (a, _) <-! handle_calls (calls_at (name a) net) a ;;
          let got := default [] (co_infer_tx a !! "tcp-req") in
          Done (asserts [
            connected;
            Nat.eqb (length got) 1;
            bool_decide (ir_node_id <$> got = [name b]);
            forallb (fun r => match ir_error r with None => true | _ => false end && starts_with "[node:" (ir_reply r)) got])
      | _ => Done false
      end
  | _ => Done false
  end.

(** ** [api.rs] *)

Definition dice_similarity_matches_and_ignores_case_punct `{CharTables} : bool :=
  asserts [
    f64_lt (f64_abs (f64_sub (dice_similarity "The cat sat" "The cat sat") f64_1)) (f64_lit 1 (10 ^ 9));
    f64_gt (dice_similarity "Hello, world!" "hello world") (f64_lit 9 10);
    f64_lt (dice_similarity "hello world" "quantum chromodynamics") (f64_lit 3 10);
    f64_eq (dice_similarity "a" "a") f64_1;
    f64_eq (dice_similarity "a" "b") f64_0].

Definition aggregation_picks_majority_then_longest_then_local `{CharTables} : bool :=
  let picks local replies expected := bool_decide (pick_agreed_reply local replies = expected) in
  asserts [
    picks (Some "completely different answer") [("b", "the sky is blue today"); ("c", "the sky is blue today")]
      ("b", "the sky is blue today", 2%nat);
    picks None [("b", "short"); ("c", "a much longer different reply")] ("c", "a much longer different reply", 1%nat);
    picks (Some "same answer here") [("b", "same answer here")] ("local", "same answer here", 2%nat);
    picks None [] ("", "", 0%nat)].

(** The chat of node 0 while its two peers run the same program: from the request over the answers
to the body of the response. *)
Definition chat_endpoint_fans_out_to_peers `{CharTables} (models : ModelsDir) (fuel : nat) : outcome bool :=
  nodes <-! coords 3 ;;
  nodes <-! tick_rounds fuel 3 nodes ;;
  c0 <-! of_option (nodes !! 0%nat) ;;
  let question := mkChatRequest (Some "demo-model.gguf") [mkTurn "user" "hello"] in
  ' (c0, evs, chat) <-! api_chat config models question "chat-1" (local_peer_count (local_new (H := unit))) c0 ;;
  match chat, evs with
  | Running p, [Sent topic payload] =>
      let '(local, c0, _) := complete_local config (pc_path p) (pc_turns p) (max_tokens config) ob post c0 in
      let nodes := <[0%nat := c0]> nodes in
      let work j := match infer_request_from_value payload with
                    | Some request => backend_work request nodes j
                    | None => mkWork (Err "") f64_0 "" ""
                    end in
      let f := settle config work 0 pick 100
                 (mkFan nodes [(0%nat, Publishes topic payload (seq 0 (length nodes)) None)] []) in
      c0 <-! of_option (fan_nodes f !! 0%nat) ;;
      local <-! local ;;
      let v := rs_body (finish_chat config p local seconds "c0" (utcnow 0) c0).2 in
      let distributed := json_index "distributed" v in
      let responses := match json_index "responses" distributed with VArray l => l | _ => [] end in
      Done (asserts [
        if json_index "model_present" v is VBool b then b else false;
        bool_decide (as_str (json_index "runtime" v) = Some "distributed");
        bool_decide (as_str (json_index "local_reply" v) = Some "distributed answer");
        if json_index "enabled" distributed is VBool b then b else false;
        value_i64 (json_index "peers_responded" distributed) =? 2;
        Nat.eqb (length responses) 2;
        Nat.eqb (length (remove_dups (omap (fun r => as_str (json_index "node_id" r)) responses))) 2])
  | _, _ => Done false
  end.
End Tests.
End NodeTests.

(** ** The runs *)

Module NodeTestRun.
#[local] Existing Instance Toy.crypto_inst.
#[local] Existing Instance Toy.serde_inst.
#[local] Existing Instance ProtocolDemo.env_inst.
#[local] Existing Instance RewardsDemo.env_inst.
#[local] Existing Instance InferenceDemo.env.
#[local] Existing Instance InferenceDemo.runtime.
#[local] Existing Instance InferenceTests.ascii_tables.
#[local] Existing Instance LlamaDemo.no_json.
#[local] Existing Instance Derived.decoders.
#[local] Existing Instance derived_inference_laws.
#[local] Existing Instance CoordinatorDemo.host.
Import NodeTests.

Definition key (n : nat) : bytes := Toy.be_bytes 32 (2 ^ 200 + 1000003 * Z.of_nat n) "".

(** [cfg.inference = false] *)
Definition cfg : ExodusConfig :=
  let c := default_config "/data" in
  mkConfig (data_dir c) (node_name c) (model_dir c) (gpu_layers c) (llama_bin c) false (max_tokens c)
    (inference_timeout_seconds c) (max_concurrent_inference c) (distributed_inference c)
    (f64_of_Z 5) (inference_backend c) (llama_server_bin c)
    (llama_server_host c) (llama_server_port c) (llama_server_parallel c) (epoch_seconds c)
    (election_timeout_seconds c) (byzantine c) (max_faulty c) (claim_dedup_window c)
    (active_peer_window c) (heartbeat_seconds c) (sync_request_interval_seconds c) (node_host c)
    (node_port c) (peers_cfg c) (discover c) (api_host c) (api_port c) (flops_tolerance c)
    (credits_per_cu c) (reward_diminishing c) (credit_halflife_seconds c) (free_quota_seconds c)
    (seconds_per_credit c) (max_priority_levels c).

Definition in_key_order (m : gmap string (NodeStats * Z)) : list NodeStats := map (fun p => p.2.1) (map_to_list m).

(** Nothing answers on the port of the server backend. *)
Definition refused : result bytes string := Err "connection refused".
Definition silent : Observed :=
  mkObserved false false refused refused refused None "" (Ok tt) (Ok tt) (Err "no such file") [] "".
Definition no_post (_ : Z) (_ : bytes) : result bytes string := refused.

Lemma node_tests_pass :
  asserts (map passes [
    distributed_fanout_collects_peer_completions cfg key silent no_post f64_1 hd_error 100;
    distributed_fanout_collects_peer_completions cfg key silent no_post f64_1 last 100;
    requester_ignores_own_echoes cfg key silent no_post f64_1 hd_error;
    distributed_capacity_drops_silent_peers cfg key in_key_order (10 ^ 15);
    stale_peers_pruned_from_consensus cfg key]) = true.
Proof. vm_compute. reflexivity. Qed.

(** *** The test over TCP *)

(** A codec that knows the two frames of the test. *)
Definition tcp_frames : list Value :=
  match coords cfg key 2 with
  | Done [a; b] =>
      let frame name uuid topic payload := make_frame uuid topic payload (tcp_inner (tcp_new (H := unit) name "" 0 [] false)) in
      match tcp_request a with
      | (_, [Sent topic payload]) =>
          frame (id_node_id (co_identity a)) "m1" topic payload ::
          match tcp_answer cfg silent no_post f64_1 b
                  match on_infer_request payload b with Some r => [WorkerStarted r] | None => [] end with
          | (_, Sent topic payload :: _) => [frame (id_node_id (co_identity b)) "m2" topic payload]
          | _ => []
          end
      | _ => []
      end
  | _ => []
  end.
#[local] Instance frame_codec : Wire := {|
  to_vec := canonical_json;
  from_slice t := find_first (fun f => String.eqb (canonical_json f) t) tcp_frames |}.

Lemma tcp_test_passes : passes (real_tcp_fanout_reaches_peer cfg key silent no_post f64_1) = true.
Proof. vm_compute. reflexivity. Qed.

(** *** A simulation *)

(** The test of the source runs 2, 3, 4 and 6 nodes for 15 rounds; this one two nodes for one. *)
Definition ids (k : nat) : string := "c" +:+ pretty (Z.of_nat k).
Definition stamps (_ : nat) : string := "2026-08-06T00:00:00+00:00".

Lemma simulation_converges : multi_node_simulations_converge cfg key ids stamps 400 [2%nat] 1 1 = true.
Proof. vm_compute. reflexivity. Qed.

(** *** The theorem on distributed requests at three of these nodes *)

Definition three_nodes : list Coordinator := match coords cfg key 3 with Done l => l | _ => [] end.
Definition works (j : nat) : Work := mkWork (Ok ("answer " +:+ pretty (Z.of_nat j))) f64_1 "" "".

(** The answers come in the order of the schedule. *)
Definition answers_at (pick : list nat -> option nat) : list string :=
  match fan_out 0 "r" "m.gguf" 16 [] three_nodes with
  | Some f =>
      match fan_nodes (settle cfg works 0 pick 100 f) !! 0%nat with
      | Some c => ir_reply <$> default [] (co_infer_tx c !! "r")
      | None => []
      end
  | None => []
  end.

Definition youngest_first (l : list nat) : option nat :=
  match l with O :: _ => Some O | _ => last l end.

Lemma order_of_answers :
  answers_at hd_error = ["answer 1"; "answer 2"] /\ answers_at youngest_first = ["answer 2"; "answer 1"].
Proof. split; vm_compute; reflexivity. Qed.

End NodeTestRun.

(** The nodes of the end-to-end test: a model file, the program [llama-cli] that prints its answer,
and the command-line backend. *)
Module ChatTestRun.
#[local] Existing Instance Toy.crypto_inst.
#[local] Existing Instance Toy.serde_inst.
#[local] Existing Instance ProtocolDemo.env_inst.
#[local] Existing Instance RewardsDemo.env_inst.
#[local] Existing Instance InferenceDemo.env.
#[local] Existing Instance InferenceTests.ascii_tables.
#[local] Existing Instance LlamaDemo.no_json.
#[local] Existing Instance Derived.decoders.
#[local] Existing Instance AgreementDemo.ascii_only.
Import NodeTests.

#[local] Instance disk : HostOs := {|
  nvidia_smi := fun _ => None; read_to_string := fun _ => None; path_exists := fun _ => false;
  path_is_file := fun p => existsb (String.eqb p) ["/run/llama-cli"; "/run/models/demo-model.gguf"];
  available_parallelism := Some 4 |}.
(** [fake_llama] *)
Definition fake_llama : Runtime := {|
  spawn cmd :=
    if String.eqb (cmd_program cmd) "/run/llama-cli" then
      Ok (mkChild 0 [Exited true "exit status: 0"] true ("Assistant: distributed answer" +:+ String newline "") "")
    else Err "No such file or directory (os error 2)" |}.
#[local] Existing Instance fake_llama.

Definition cfg : ExodusConfig :=
  let c := default_config "/data" in
  mkConfig (data_dir c) (node_name c) (Some "/run/models") (gpu_layers c) "/run/llama-cli" true 32
    (inference_timeout_seconds c) (max_concurrent_inference c) (distributed_inference c)
    (f64_of_Z 5) "cli" (llama_server_bin c)
    (llama_server_host c) (llama_server_port c) (llama_server_parallel c) (epoch_seconds c)
    (election_timeout_seconds c) (byzantine c) (max_faulty c) (claim_dedup_window c)
    (active_peer_window c) (heartbeat_seconds c) (sync_request_interval_seconds c) (node_host c)
    (node_port c) (peers_cfg c) (discover c) (api_host c) (api_port c) (flops_tolerance c)
    (credits_per_cu c) (reward_diminishing c) (credit_halflife_seconds c) (free_quota_seconds c)
    (seconds_per_credit c) (max_priority_levels c).

Definition models : ModelsDir := Some {["demo-model.gguf" := File "fake model bytes"]}.

Lemma api_tests_pass :
  asserts [dice_similarity_matches_and_ignores_case_punct; aggregation_picks_majority_then_longest_then_local;
           passes (chat_endpoint_fans_out_to_peers cfg NodeTestRun.key NodeTestRun.silent NodeTestRun.no_post f64_1 last models 100)]
  = true.
Proof. vm_compute. reflexivity. Qed.
End ChatTestRun.
