(* ===== verification/Main.v ===== *)
(** * The commands of the program ([src/main.rs])

The commands: what each does to the data directory (the file of the identity and that of the ledger),
prints and ends with.  They run in a small monad, [Io]: the state is the directory, which keeps what
a command has written when it panics.  The errors of the disk are an argument, and the environment
of the process ([config_from_env]) may be another one for every command.  [Command] is the parsed
command line; the parsing itself is that of a library, whose defaults are [simulate_defaults].  The
theorems close the development: a data directory that only these commands have written meets the
conditions under which the theorems on whole nodes hold, unless the file of its identity was
torn, and what [status] prints is what the directory holds. *)

From S2P Require Import Prelude F64 Crypto CryptoTheory Models Accounting Config ConfigProps Text Host Inference.
From S2P Require Import Http LlamaServer Ledger LedgerTheory LedgerProps LedgerFile Validation ValidationTheory Protocol ProtocolTheory.
From S2P Require Import ProtocolInv ProtocolSteps Decode Rewards Identity IdentityProps Network Discovery.
From S2P Require Import Coordinator CoordinatorSteps CoordinatorProps Simulation Console.
From S2P Require Import Instances ProtocolProps RewardsProps InferenceProps LlamaProps CoordinatorDemo.

Record NodeArgs := mkNodeArgs {
  na_data_dir : option string;
  na_node_host : option string;
  na_node_port : option Z;
  na_peer : list string;
  na_no_discover : bool;
}.

Inductive Command :=
| Init
| Config
| Status (data_dir : option string) (json : bool)
| Simulate (nodes ticks : nat) (seed : option Z) (claims_per_tick : nat)
| Run (node : NodeArgs) (api : bool).

(** [simulate] with the options that were given, and the defaults of the others. *)
Definition simulate_defaults (nodes ticks : option nat) (seed : option Z) (claims_per_tick : option nat) : Command :=
  Simulate (default 5%nat nodes) (default 40%nat ticks) seed (default 2%nat claims_per_tick).

(** The overrides of the command line. *)
Definition config_with (dir host : option string) (port : option Z) (c : ExodusConfig) : ExodusConfig :=
  mkConfig (default (data_dir c) dir) (node_name c) (model_dir c) (gpu_layers c) (llama_bin c) (inference c)
    (max_tokens c) (inference_timeout_seconds c) (max_concurrent_inference c) (distributed_inference c)
    (distributed_timeout_seconds c) (inference_backend c) (llama_server_bin c)
    (llama_server_host c) (llama_server_port c) (llama_server_parallel c) (epoch_seconds c)
    (election_timeout_seconds c) (byzantine c) (max_faulty c) (claim_dedup_window c)
    (active_peer_window c) (heartbeat_seconds c) (sync_request_interval_seconds c)
    (default (node_host c) host) (default (node_port c) port) (peers_cfg c) (discover c) (api_host c)
    (api_port c) (flops_tolerance c) (credits_per_cu c) (reward_diminishing c)
    (credit_halflife_seconds c) (free_quota_seconds c) (seconds_per_credit c) (max_priority_levels c).

(** ** The data directory *)

Section Directory.
Context `{Crypto} `{Serde}.

(** The files of a data directory; [None] is a file that does not exist. *)
Record DataDir := mkDataDir { dd_identity : option string; dd_file : option Database }.

Definition empty_dir : DataDir := mkDataDir None None.

(** The ledger a directory holds; no file is the empty ledger. *)
Definition ledger_of (dd : DataDir) : ChainStore := store_in (default empty_db (dd_file dd)).

(** The tables of an open ledger. *)
Definition save (s : ChainStore) (dd : DataDir) : DataDir :=
  mkDataDir (dd_identity dd)
    ((fun db => mkDb (Some (WithQuorum (tbl_blocks s))) (Some (tbl_claims s)) (db_indexes db) (db_wal db))
       <$> dd_file dd).

(** What the disk answers: the errors of the file of the identity, and those of opening the ledger. *)
Record Disk := mkDisk { dk_identity : IdentityDisk; dk_ledger : OpenStep -> option string }.

(** A command that works on a directory: how it ends, and the directory it leaves. *)
Definition Io (A : Type) : Type := DataDir -> outcome A * DataDir.

Definition io_bind {A B} (m : Io A) (k : A -> Io B) : Io B := fun dd =>
  match m dd with
  | (Done a, dd) => k a dd
  | (Panics, dd) => (Panics, dd)
  | (Waiting, dd) => (Waiting, dd)
  end.
Definition io_of {A} (o : outcome A) : Io A := fun dd => (o, dd).

(** [load_or_create_identity(...).expect("identity")]; [seed] is what a new key is drawn from. *)
Definition open_identity (disk : Disk) (seed : bytes) : Io NodeIdentity := fun dd =>
  let '(r, file) := load_or_create_on (dk_identity disk) seed (dd_identity dd) in
  (match r with Ok identity => Done identity | Err _ => Panics end, mkDataDir file (dd_file dd)).

(** [ChainStore::open(...).expect("ledger")] *)
Definition open_ledger (disk : Disk) : Io ChainStore := fun dd =>
  let '(r, file) := open_store (dk_ledger disk) (disk_parent (dk_identity disk)) (dd_file dd) in
  (match r with Ok s => Done s | Err _ => Panics end, mkDataDir (dd_identity dd) file).
End Directory.

Notation "x <~ m ;; k" := (io_bind m (fun x => k))
  (at level 100, m at next level, right associativity) : exodus_scope.
Notation "' x <~ m ;; k" := (io_bind m (fun x => k))
  (at level 100, x pattern, m at next level, right associativity) : exodus_scope.

(** ** The commands *)

Section Main.
Context `{Crypto} `{Serde} `{Env} `{RewardEnv} `{HostOs} `{ProcessEnv} `{Unicode} `{JsonText}.
Context `{Runtime} `{Decoders} `{PrettyText}.
Variable config : ExodusConfig.
Variables (disk : Disk) (seed : bytes).

Definition cmd_init : Io (list string) :=
  identity <~ open_identity disk seed ;; io_of (Done (print_init config (id_node_id identity))).

(** The files of a node, in the order they are opened. *)
Definition open_files : Io (NodeIdentity * ChainStore) :=
  identity <~ open_identity disk seed ;; s <~ open_ledger disk ;; io_of (Done (identity, s)).

(** [ExodusCoordinator::new] on the open ledger: the genesis block it may append is in the directory,
also when a later part of it panics. *)
Definition new_coordinator (identity : NodeIdentity) (s : ChainStore) : Io Coordinator := fun dd =>
  let ns := new config (id_node_id identity) (id_private_key identity) (id_public_key_hex identity) s in
  (of_option (coordinator_new config identity s false), save ns.2 dd).

(** A coordinator without a network. *)
Definition offline_coordinator : Io Coordinator :=
  ' (identity, s) <~ open_files ;; new_coordinator identity s.

Definition cmd_status (n : nat) : Io Value :=
  c <~ offline_coordinator ;; io_of (Done (status config n c).1).

(** Starting a node: the transport with its tasks, and the connected coordinator. *)
Definition cmd_run {Q : Type} (args : NodeArgs) : Io (Coordinator * @TcpTransport Q * list Task) :=
  ' (identity, s) <~ open_files ;;
  let t := tcp_new (id_node_id identity) (node_host config) (node_port config)
             (match na_peer args with [] => peers_cfg config | peers => peers end)
             (negb (na_no_discover args) && discover config) in
  let '(t, tasks) := tcp_start t in
  c <~ new_coordinator identity s ;;
  io_of (Done (connect c, t, tasks)).
End Main.

(** ** The program *)

(** What a command leaves: an exit code, or a node that runs until it is stopped, with its
transport, the tasks of the transport, the address of its API and the pause between its turns. *)
Inductive Ending {Node H : Type} :=
| Exits (code : Z)
| Runs (node : Node) (transport : @TcpTransport H) (tasks : list Task) (api : option (string * Z)) (period : Z).
Arguments Ending : clear implicits.

Section Program.
Context `{Crypto} `{Serde} `{Env} `{RewardEnv} `{HostOs} `{ProcessEnv} `{Unicode} `{JsonText}.
Context `{Runtime} `{Decoders} `{PrettyText}.

(** [seed] is what a new key is drawn from, [n] the reading of the clock, [models] the listing of the
models directory, and [simulated] the run of the simulation, in its own directory. *)
Definition main {Q : Type} (cmd : Command) (disk : Disk) (seed : bytes) (n : nat) (models : list string)
  (simulated : nat -> nat -> option Z -> nat -> outcome SimulationResult) :
  Io (list string * Ending Coordinator Q) :=
  match cmd with
  | Init => out <~ cmd_init config_from_env disk seed ;; io_of (Done (out, Exits 0))
  | Config => io_of (Done (print_config config_from_env, Exits 0))
  | Status dir json =>
      v <~ cmd_status (config_with dir None None config_from_env) disk seed n ;;
      io_of (Done (print_status json v, Exits 0))
  | Simulate nodes ticks rng claims_per_tick =>
      r <~ io_of (simulated nodes ticks rng claims_per_tick) ;;
      let '(out, code) := print_simulation r in io_of (Done (out, Exits code))
  | Run args api =>
      let config := config_with (na_data_dir args) (na_node_host args) (na_node_port args) config_from_env in
      ' (c, t, tasks) <~ cmd_run config disk seed args ;;
      ' (c, served, period) <~ io_of (run_start config api c) ;;
      io_of (Done (print_run config models, Runs c t tasks served period))
  end.
End Program.

(** ** The life of a data directory *)

Section DataDirectory.
Context `{Crypto} `{Serde} `{Env} `{RewardEnv} `{Unicode} `{JsonText}.
Context `{Runtime} `{Decoders} `{PrettyText}.
(** The flops tolerance of the network. *)
Variable tolerance : f64.

(** Any commands in any order, each in an environment of its own with its own random seed, on a disk
that may fail at any point, and whether the command succeeds or panics; a running node leaves
the ledger of any state it can reach. *)
Inductive written : DataDir -> Prop :=
| written_new : written empty_dir
| written_command {HO : HostOs} {PE : ProcessEnv} {Q : Type} cmd disk seed n models simulated dd :
    written dd -> String.length seed = 32%nat -> flops_tolerance config_from_env = tolerance ->
    written (main (Q := Q) cmd disk seed n models simulated dd).2
| written_stopped {HO : HostOs} {PE : ProcessEnv} config disk seed dd identity s dd' c n :
    written dd -> String.length seed = 32%nat -> flops_tolerance config = tolerance ->
    open_files disk seed dd = (Done (identity, s), dd') ->
    node_run config identity s c n -> written (save (co_store c) dd').
End DataDirectory.

(** The file of the identity exists and does not load. *)
Definition torn `{Crypto} `{Serde} (dd : DataDir) : Prop :=
  exists text e, dd_identity dd = Some text /\ load_identity text = Err e.

(** The commands that open the files of the directory. *)
Definition uses_files (cmd : Command) : bool :=
  match cmd with Init | Status _ _ | Run _ _ => true | Config | Simulate _ _ _ _ => false end.

(** A disk without errors. *)
Definition working (disk : Disk) : Prop :=
  dk_identity disk = mkIdentityDisk true None None None None /\ forall st, dk_ledger disk st = None.

Section MainTheorems.
Context `{CL : CryptoLaws} `{SL : SerdeLaws} `{EL : EnvLaws} `{RewardEnv}.
Context `{Unicode} `{JsonText} `{Runtime} `{Decoders} `{PrettyText}.

Lemma load_created seed :
  String.length seed = 32%nat -> load_identity (create_identity seed).2 = Ok (create_identity seed).1.
Proof using CL.
  intros Hs. cbn [create_identity generate_key_pair fst snd]. unfold identity_payload.
  cbn [id_private_key id_public_key_hex id_node_id].
  rewrite load_plain; [done|done|apply ed25519_public_length|].
  rewrite all_ascii_app. by rewrite (all_plain_ascii _ (node_id_plain _)).
Qed.

Lemma ledger_of_save s dd : is_Some (dd_file dd) -> ledger_of (save s dd) = s.
Proof. intros [db E]. unfold ledger_of, save. cbn. rewrite E. by destruct s. Qed.

(** ** What the files of a directory are *)

(** The start of an identity file, and a sound ledger. *)
Definition dir_ok (tolerance : f64) (dd : DataDir) : Prop :=
  (forall text, dd_identity dd = Some text ->
     exists seed rest, String.length seed = 32%nat /\ text +:+ rest = (create_identity seed).2) /\
  exists chain, ledger_of dd = store_of chain /\ sound_chain tolerance chain.

Lemma created_start config seed dd :
  dir_ok (flops_tolerance config) dd -> String.length seed = 32%nat ->
  node_start config (create_identity seed).1 (ledger_of dd).
Proof using CL.
  intros [_ Hst] Hk. split; [split|]; cbn [create_identity generate_key_pair fst id_private_key id_node_id id_public_key_hex].
  - done.
  - apply valid_str_ascii, all_plain_ascii, node_id_plain.
  - done.
  - unfold public_key_from_private. by rewrite <- Hk, substring_all.
Qed.

Lemma open_identity_ok tolerance disk seed dd :
  dir_ok tolerance dd -> String.length seed = 32%nat ->
  let '(o, dd') := open_identity disk seed dd in
  dir_ok tolerance dd' /\ dd_file dd' = dd_file dd /\
  (forall i, o = Done i -> exists k, String.length k = 32%nat /\ i = (create_identity k).1) /\ o <> Waiting.
Proof using CL.
  intros [Hid Hst] Hs. unfold open_identity, load_or_create_on, dir_ok, ledger_of in *.
  destruct (dd_identity dd) as [text|].
  - cbn [dd_identity dd_file]. split_and!; [done|done|done| |].
    + intros i. destruct (disk_read _); [done|]. destruct (load_identity text) as [i'|] eqn:El; [|done]. intros [= <-].
      destruct (Hid text eq_refl) as (k & rest & Hk & E). exists k. split; [done|]. by eapply load_prefix.
    + destruct (disk_read _); [done|]. by destruct (load_identity text).
  - unfold create_identity_on. destruct (negb _); [by cbn|]. destruct (disk_create_dir _); [by cbn|].
    rewrite (surjective_pairing (create_identity seed)). destruct (disk_open _); [by cbn|].
    destruct (disk_write _) as [[k e]|]; cbn [dd_identity dd_file]; (split_and!; [|done|done| |done]).
    + intros text [= <-]. destruct (substring_prefix k (create_identity seed).2) as [rest E]. by exists seed, rest.
    + done.
    + intros text [= <-]. exists seed, "". by rewrite string_app_nil_r.
    + intros i [= <-]. by exists seed.
Qed.

Lemma run_steps_opened faults steps file file' :
  run_steps faults steps file = (Ok tt, file') -> OpenFile ∈ steps \/ is_Some file -> is_Some file'.
Proof.
  revert file. induction steps as [|st steps IH]; intros file E Hf; cbn [run_steps] in E.
  { injection E as <-. by destruct Hf as [[]%not_elem_of_nil|]. }
  destruct (skipped st file) eqn:Esk; [|destruct (faults st); [done|]]; (apply (IH _ E); destruct Hf as [Hf|[db ->]]).
  - apply elem_of_cons in Hf as [<-|Hf]; [done|by left].
  - by right.
  - apply elem_of_cons in Hf as [<-|Hf]; [by right|by left].
  - right. by destruct st.
Qed.

Lemma open_ledger_ok tolerance disk dd :
  dir_ok tolerance dd ->
  let '(o, dd') := open_ledger disk dd in
  dir_ok tolerance dd' /\ ledger_of dd' = ledger_of dd /\
  (forall s, o = Done s -> s = ledger_of dd /\ is_Some (dd_file dd')) /\ o <> Waiting.
Proof.
  intros [Hid Hst]. unfold open_ledger, open_store.
  pose proof (run_steps_store (dk_ledger disk) (open_steps (disk_parent (dk_identity disk))) (dd_file dd)) as Hkeep.
  pose proof (run_steps_opened (dk_ledger disk) (open_steps (disk_parent (dk_identity disk))) (dd_file dd)) as Hopen.
  destruct (run_steps _ _ _) as [r file]. cbn [snd] in Hkeep. unfold dir_ok, ledger_of in *. cbn [dd_identity dd_file].
  rewrite Hkeep. split_and!; [done|done|done| |by destruct r].
  intros s. destruct r as [[]|]; cbn; [|done]. intros [= <-]. split; [done|]. apply (Hopen file eq_refl).
  left. destruct (disk_parent _); cbn; rewrite !elem_of_cons; auto.
Qed.

(** Both files, for any configuration with the tolerance. *)
Lemma open_files_ok tolerance disk seed dd :
  dir_ok tolerance dd -> String.length seed = 32%nat ->
  let '(o, dd') := open_files disk seed dd in
  dir_ok tolerance dd' /\ ledger_of dd' = ledger_of dd /\
  (forall i s, o = Done (i, s) -> s = ledger_of dd /\ is_Some (dd_file dd') /\
     forall config, flops_tolerance config = tolerance -> node_start config i s) /\ o <> Waiting.
Proof using CL SL EL.
  intros Hok Hs. unfold open_files, io_bind. pose proof (open_identity_ok tolerance disk seed dd Hok Hs) as Hi.
  destruct (open_identity disk seed dd) as [oi dd1]. destruct Hi as (Hok1 & Ef & Hi & Hw).
  assert (ledger_of dd1 = ledger_of dd) as El1 by (unfold ledger_of; by rewrite Ef).
  destruct oi as [i| |]; [|by split_and!|done].
  pose proof (open_ledger_ok tolerance disk dd1 Hok1) as Hl. destruct (open_ledger disk dd1) as [ol dd2].
  destruct Hl as (Hok2 & El & Hl & Hw'). rewrite El1 in El.
  destruct ol as [s| |]; cbn; [|by split_and!|done]. split_and!; [done|done| |done].
  intros i' s' [= <- <-]. destruct (Hl s eq_refl) as [-> Hf]. rewrite El1. split_and!; [done|done|].
  intros config Ht. destruct (Hi i eq_refl) as (k & Hk & ->). apply created_start; [by rewrite Ht|done].
Qed.

(** ** Every command keeps them *)

Lemma new_sound config identity s0 :
  node_start config identity s0 ->
  exists chain, (new config (id_node_id identity) (id_private_key identity) (id_public_key_hex identity) s0).2 = store_of chain /\
    sound_chain (flops_tolerance config) chain.
Proof using CL SL EL.
  intros Hst. rewrite (nst_public _ _ _ Hst).
  destruct (reachable_good _ _ _ _ _ (nst_start _ _ _ Hst) (reach_new _ _ _ _)) as (chain & E & Hs & _).
  exists chain. by rewrite <- E.
Qed.

Lemma running_sound `{HostOs} `{ProcessEnv} config identity s0 c n :
  node_start config identity s0 -> node_run config identity s0 c n ->
  exists chain, co_store c = store_of chain /\ sound_chain (flops_tolerance config) chain.
Proof using CL SL EL.
  intros Hst Hr. apply (node_run_good config identity s0 Hst) in Hr as (_ & Hr & _).
  destruct (reachable_good _ _ _ _ _ (nst_start _ _ _ Hst) Hr) as (chain & E & Hs & _). by exists chain.
Qed.

Lemma save_ok tolerance s dd :
  dir_ok tolerance dd -> is_Some (dd_file dd) ->
  (exists chain, s = store_of chain /\ sound_chain tolerance chain) -> dir_ok tolerance (save s dd).
Proof. intros [Hid _] Hf Hs. split; [done|]. by rewrite ledger_of_save. Qed.

Lemma coordinator_io_ok `{HostOs} `{ProcessEnv} config tolerance disk seed dd :
  flops_tolerance config = tolerance -> dir_ok tolerance dd -> String.length seed = 32%nat ->
  dir_ok tolerance (offline_coordinator config disk seed dd).2.
Proof using CL SL EL.
  intros Ht Hok Hs. unfold offline_coordinator, io_bind. pose proof (open_files_ok tolerance disk seed dd Hok Hs) as Hf.
  destruct (open_files disk seed dd) as [[[i s]| |] dd1]; destruct Hf as (Hok1 & _ & Hf & _); [|done..].
  destruct (Hf i s eq_refl) as (_ & Hfile & Hst). unfold new_coordinator. cbn [snd].
  apply save_ok; [done|done|]. rewrite <- Ht. apply new_sound. by apply Hst.
Qed.

(** What a command does after it has its coordinator leaves the files alone. *)
Lemma run_files `{HostOs} `{ProcessEnv} {Q : Type} config disk seed args dd :
  (cmd_run (Q := Q) config disk seed args dd).2 = (offline_coordinator config disk seed dd).2.
Proof.
  unfold cmd_run, offline_coordinator, io_bind. destruct (open_files disk seed dd) as [[[i s]| |] dd1]; [|done..].
  destruct (tcp_start _) as [t tasks]. unfold new_coordinator. by destruct (coordinator_new config i s false).
Qed.

Lemma written_ok tolerance dd : written tolerance dd -> dir_ok tolerance dd.
Proof using CL SL EL.
  induction 1 as [|HO PE Q cmd disk seed n models simulated dd Hw IH Hs Ht
    |HO PE config disk seed dd identity s dd' c n Hw IH Hs Ht E Hr].
  - split; [done|]. exists []. split; [done|apply sound_nil].
  - destruct cmd as [| |dir json|nodes ticks rng cpt|args api]; cbn [main].
    + unfold cmd_init, io_bind. pose proof (open_identity_ok tolerance disk seed dd IH Hs) as Hi.
      destruct (open_identity disk seed dd) as [[i| |] dd1]; by destruct Hi.
    + done.
    + pose proof (coordinator_io_ok (config_with dir None None config_from_env) tolerance disk seed dd Ht IH Hs) as Hc.
      unfold cmd_status, io_bind. by destruct (offline_coordinator _ disk seed dd) as [[c| |] dd1].
    + unfold io_bind, io_of. destruct (simulated _ _ _ _) as [r| |]; [|done..]. by destruct (print_simulation r).
    + set (config := config_with (na_data_dir args) (na_node_host args) (na_node_port args) config_from_env).
      pose proof (coordinator_io_ok config tolerance disk seed dd Ht IH Hs) as Hc.
      rewrite <- (run_files (Q := Q) config disk seed args dd) in Hc. unfold io_bind, io_of.
      destruct (cmd_run config disk seed args dd) as [[[[c t] tasks]| |] dd1]; [|done..].
      by destruct (run_start config api c) as [[[c1 served] period]| |].
  - pose proof (open_files_ok tolerance disk seed dd IH Hs) as Hf. rewrite E in Hf.
    destruct Hf as (Hok & _ & Hf & _). destruct (Hf identity s eq_refl) as (_ & Hfile & Hst).
    apply save_ok; [done|done|]. rewrite <- Ht. eapply running_sound; [by apply Hst|exact Hr].
Qed.


(** ** What [status] prints *)

(** What opening the files of any directory gives. *)
Lemma open_files_sees disk seed dd :
  let '(o, dd') := open_files disk seed dd in
  o <> Waiting /\ forall i s, o = Done (i, s) -> s = ledger_of dd /\ is_Some (dd_file dd') /\
    match dd_identity dd with
    | Some text => dd_identity dd' = Some text /\ load_identity text = Ok i
    | None => i = (create_identity seed).1 /\ dd_identity dd' = Some (create_identity seed).2
    end.
Proof.
  unfold open_files, io_bind.
  assert (let '(o, dd') := open_identity disk seed dd in dd_file dd' = dd_file dd /\ o <> Waiting /\ forall i, o = Done i ->
    match dd_identity dd with
    | Some text => dd_identity dd' = Some text /\ load_identity text = Ok i
    | None => i = (create_identity seed).1 /\ dd_identity dd' = Some (create_identity seed).2
    end) as Hi.
  { unfold open_identity, load_or_create_on, create_identity_on. destruct (dd_identity dd) as [text|].
    - split; [done|]. destruct (disk_read _); [done|]. destruct (load_identity text); [|done].
      split; [done|]. by intros ? [= <-].
    - destruct (negb _); [done|]. destruct (disk_create_dir _); [done|].
      rewrite (surjective_pairing (create_identity seed)). destruct (disk_open _); [done|].
      destruct (disk_write _) as [[]|]; [done|]. split_and!; [done|done|]. by intros i [= <-]. }
  destruct (open_identity disk seed dd) as [[i| |] dd1]; destruct Hi as (Ef & Hw & Hi); [|done..].
  unfold open_ledger, open_store.
  pose proof (run_steps_store (dk_ledger disk) (open_steps (disk_parent (dk_identity disk))) (dd_file dd1)) as Hkeep.
  pose proof (run_steps_opened (dk_ledger disk) (open_steps (disk_parent (dk_identity disk))) (dd_file dd1)) as Hopen.
  destruct (run_steps _ _ _) as [[[]|e] file]; cbn; [|done]. split; [done|]. intros i' s [= <- <-]. cbn [snd] in Hkeep.
  split_and!; [unfold ledger_of; by rewrite Hkeep, Ef| |by apply Hi]. apply (Hopen file eq_refl).
  left. destruct (disk_parent _); cbn; rewrite !elem_of_cons; auto.
Qed.

(** C40: what [status] prints is what the directory holds, whatever directory it is run on.  When the
files open and the inference timeout is a duration, the first line names the node of the
identity file (of the new one where there was none) and the second shows the height of the ledger that is in the directory and whether
this very ledger passes the audit, and a ledger that has blocks is left as it was; in every other
case the command panics. *)
Theorem status_prints_truth `{HostOs} `{ProcessEnv} {Q : Type} dir disk seed n models sim dd :
  let config := config_with dir None None config_from_env in
  let '(o, dd') := main (Q := Q) (Status dir false) disk seed n models sim dd in
  match open_files disk seed dd, duration_ns (f64_max (inference_timeout_seconds config) f64_1) with
  | (Done (identity, s), dd1), Some _ =>
      exists out ending, o = Done (out, ending) /\
        match dd_identity dd with
        | Some text => dd_identity dd' = Some text /\ load_identity text = Ok identity
        | None => identity = (create_identity seed).1 /\ dd_identity dd' = Some (create_identity seed).2
        end /\
        out !! 0%nat = Some ("node     : " +:+ json_print (VString (id_node_id identity))) /\
        out !! 1%nat = Some ("ledger   : height=" +:+ json_print (json_int (height (ledger_of dd'))) +:+
          " verified=" +:+ json_print (VBool (is_ok (verify_chain (ledger_of dd'))))) /\
        s = ledger_of dd /\ (height s <> -1 -> ledger_of dd' = s)
  | _, _ => o = Panics
  end.
Proof.
  intros config. cbn [main]. fold config. unfold cmd_status, offline_coordinator.
  destruct (open_files disk seed dd) as [o1 dd1] eqn:Eo. unfold io_bind in *. rewrite Eo.
  pose proof (open_files_sees disk seed dd) as Hf. rewrite Eo in Hf.
  destruct Hf as [Hw Hf]. destruct o1 as [[i s]| |]; [|done|done]. destruct (Hf i s eq_refl) as (-> & Hfile & Hid). clear Hf.
  unfold new_coordinator. destruct (coordinator_new config i (ledger_of dd) false) as [c|] eqn:Ec.
  - pose proof Ec as Ec'. unfold coordinator_new in Ec'. destruct (duration_ns _); [|done]. clear Ec'.
    apply (coordinator_new_state config) in Ec as (Hidc & _ & _ & _ & _ & Hns). cbn [of_option io_of].
    eexists _, _. split; [reflexivity|]. rewrite ledger_of_save by done.
    assert ((new config (id_node_id i) (id_private_key i) (id_public_key_hex i) (ledger_of dd)).2 = co_store c) as ->
      by (by rewrite <- Hns).
    split; [done|]. unfold status. destruct (gpu_info config c) as [g c']. cbn [fst]. split_and!.
    + by rewrite Hidc.
    + done.
    + done.
    + intros Hh. assert ((height (ledger_of dd) =? -1) = false) as E by lia.
      unfold new, ensure_genesis in Hns. rewrite E in Hns. by injection Hns.
  - unfold coordinator_new in Ec. by destruct (duration_ns _).
Qed.

(** A negative heartbeat is not refused by the configuration; a node started with one panics, once
its files and its port are open. *)
Theorem negative_period_panics `{HostOs} `{ProcessEnv} config api c :
  f64_lt (heartbeat_seconds config) f64_0 = true -> run_start config api c = Panics.
Proof.
  intros Hneg. unfold run_start.
  assert (duration_ns (f64_min (heartbeat_seconds config) (epoch_seconds config)) = None) as ->; [|done].
  unfold f64_min. destruct (heartbeat_seconds config) as [| [] | | [] m e]; try done;
    destruct (epoch_seconds config) as [[]| [] | | [] m' e']; cbn [is_nan]; try done.
  by destruct (f64_le _ _).
Qed.
End MainTheorems.

Module MainDemo.
#[local] Existing Instance Toy.crypto_inst.
#[local] Existing Instance Toy.serde_inst.
#[local] Existing Instance toy_crypto_laws.
#[local] Existing Instance toy_serde_laws.
#[local] Existing Instance ProtocolDemo.env_inst.
#[local] Existing Instance ProtocolDemo.env_laws.
#[local] Existing Instance RewardsDemo.env_inst.
#[local] Existing Instance InferenceDemo.env.
#[local] Existing Instance InferenceDemo.runtime.
#[local] Existing Instance InferenceTests.ascii_tables.
#[local] Existing Instance LlamaDemo.no_json.
#[local] Existing Instance Derived.decoders.
#[local] Existing Instance CoordinatorDemo.host.
#[local] Instance pretty_inst : PrettyText := {| json_pretty := json_print |}.

Definition good_disk : Disk := mkDisk (mkIdentityDisk true None None None None) (fun _ => None).
(** The disk fills up in the middle of the second line of the identity. *)
Definition full_disk : Disk := mkDisk (mkIdentityDisk true None None (Some (101%nat, "disk full")) None) (fun _ => None).

Definition no_simulation (_ _ : nat) (_ : option Z) (_ : nat) : outcome SimulationResult := Panics.
Definition after (disk : Disk) (cmd : Command) (dd : DataDir) : DataDir :=
  (main (Q := nat) cmd disk Demo.seed 5 [] no_simulation dd).2.

Definition tolerance : f64 := flops_tolerance config_from_env.

Lemma after_written disk cmd dd : written tolerance dd -> written tolerance (after disk cmd dd).
Proof. intros Hw. by apply written_command. Qed.

(** [init] and [status] on a good disk, and [init] on a full one. *)
Definition used : DataDir := after good_disk (Status None false) (after good_disk Init empty_dir).
Definition broken : DataDir := after full_disk Init empty_dir.


(** [exodus status] in the directory of the first two commands. *)
Lemma status_prints_truth_witness :
  exists out ending dd' identity,
    main (Q := nat) (Status None false) good_disk Demo.seed2 5 [] no_simulation used = (Done (out, ending), dd') /\
    out !! 0%nat = Some ("node     : " +:+ json_print (VString (id_node_id identity))) /\
    out !! 1%nat = Some ("ledger   : height=" +:+ json_print (json_int 0) +:+ " verified=" +:+ json_print (VBool true)).
Proof.
  pose proof (status_prints_truth (Q := nat) None good_disk Demo.seed2 5 [] no_simulation used) as Hs. cbv zeta in Hs.
  destruct (main (Status None false) good_disk Demo.seed2 5 [] no_simulation used) as [o dd'].
  assert (match open_files good_disk Demo.seed2 used with
          | (Done (_, s), _) => (height s =? 0) && is_ok (verify_chain s) | _ => false end = true) as Hopen
    by (vm_compute; reflexivity).
  destruct (open_files good_disk Demo.seed2 used) as [[[i s]| |] dd1]; [|discriminate Hopen..].
  apply andb_true_iff in Hopen as [Hh Hv]. apply Z.eqb_eq in Hh.
  assert (exists d, duration_ns (f64_max (inference_timeout_seconds (config_with None None None config_from_env)) f64_1) = Some d)
    as [d Hd] by (vm_compute; eexists; reflexivity).
  rewrite Hd in Hs. destruct Hs as (out & ending & -> & _ & H0 & H1 & _ & Hkeep).
  rewrite Hkeep, Hh, Hv in H1 by (rewrite Hh; discriminate).
  exists out, ending, dd', i. split; [reflexivity|]. split; [exact H0|exact H1].
Defined.
End MainDemo.
